(* ===== verification/_CoqProject ===== *)
-Q . S2P
Prelude.v
Locks.v
Races.v
CppString.v
Errors.v
NetworkAccess.v
RateLimiter.v
SshKey.v
KeyObjects.v
Passwords.v
PasswordFile.v
UserDatabase.v
Sessions.v
PublicKeys.v
ConfigTypes.v
TransferStats.v
AuthManager.v
FileSys.v
Folders.v
Logger.v
State.v
ConfigText.v
ConfigDocuments.v
Config.v
FileSystemModule.v
Protocol.v
Ssl.v
Session.v
Privileges.v
Daemon.v
Threads.v
Main.v
Shares.v
Transfers.v
Conversations.v
Progress.v
System.v
Admission.v
ReadOnly.v
Confinement.v
