(* ===== verification/Prelude.v ===== *)
(** * simple-rsyncd: a verification library

    A model of the daemon of this repository, written from the C++ under
    [src/src] and [src/include], with the theorems that make it correct.

    ** The program and its model

    [main] reads the command line, loads a configuration and starts an
    [RSyncDaemon].  The daemon validates the configuration, loads the modules
    (served directories), prepares TLS, binds, enters a chroot, drops privileges
    and runs an accept loop and worker threads.  The accept loop asks the access
    lists and the rate limiter and makes a session of each client it admits; the
    workers give every session one turn per round.  A session reads a request,
    parses it, passes the gate of public-key authentication, and lets the
    protocol handler answer from the modules, or moves a file in chunks.

    Each file of the library models one part and is named after it; a definition
    has the name of the function it translates.

    - [CppString], [FileSys]: what the program uses of [std::string] and of
      [std::filesystem] with file streams.  [FileSys] has files, directories and
      links, lookups with the limit of 40 links, permissions, and the monad [io]
      of operations that change the world or throw.  [Folders] is a directory of
      plain files as a map; [State] the monad [st] of operations on an object.
    - [Errors] ([core/error.cpp]), [Logger] ([utils/logger.cpp]): error objects
      and contexts; log entries, files, rotation, and the mutex.
    - [NetworkAccess], [RateLimiter], [SshKey], [Privileges], [Ssl]
      ([security/*.cpp]): address rules; connection windows; SSH wire format,
      signature envelopes and verification; chroot and credentials; TLS contexts
      and connections.  [KeyObjects]: who holds which OpenSSL object when a key
      is imported ([security/ssh_key.cpp]).
    - [Passwords], [PasswordFile], [UserDatabase], [Sessions], [PublicKeys],
      [AuthManager]: the classes of [core/auth.cpp].
    - [ConfigTypes] ([config/config.hpp] and [ModuleConfig]), [ConfigText] (INI
      and environment variables), [ConfigDocuments] (JSON and YAML), [Config]
      (loading, validating, reloading): [config/config.cpp].
    - [FileSystemModule] ([core/module.cpp]), [Protocol] ([core/protocol.cpp]),
      [Session] ([core/session.cpp]), [Main] ([main.cpp], with what it prints).
      [TransferStats]: the statistics of a module ([core/module.hpp]), with the
      floating point they are computed in.
    - [core/daemon.cpp] three times: [Daemon] has the object and its methods,
      [Threads] the threads as actions on one system, [Locks] what each method
      locks, reads and writes under its locks, and waits for; [Races] says where
      two of them race.
    - [Shares], [Transfers], [Conversations], [Progress], [System], [Admission],
      [ReadOnly], [Confinement]: theorems about parts together.

    Parts meet at interfaces.  [Protocol.ModuleOps] with [ModuleLaws] is what the
    protocol handler needs of a module, and [FileSystemModule] satisfies it;
    [Session.Authenticator] is what a session needs of the authentication
    manager.  Libraries are interfaces too: [SshKey.OpenSSL], [Passwords.Sha256],
    [Ssl.TlsLibrary], [NetworkAccess.InetPton], [Privileges.Accounts],
    [ConfigDocuments.JsonLibrary] and [YamlLibrary].  Witnesses use concrete
    instances of all of them.  Clocks, random bytes, what a read gives and what a
    write takes are arguments of the operation that gets them.

    State is explicit: a record per object, with one function per method.  The
    daemon's threads are actions on a [Threads.system]: for the accept loop the
    test of its loop, an arrival (up to the count of the rate limiter), an error
    of [accept], the TLS handshake and the end of the loop; for each worker the
    test of its loop, taking the sessions, working on one, giving them back and
    ending; the end of the monitor; and for the thread that calls [stop] the call
    and each join.  A thread that has passed its test goes on when [stop] is
    called: it takes the sessions, or accepts a connection and begins a handshake.
    [acts] is any interleaving.  Calls that wait for a client (the class [Threads.Peers]) are
    not possible while the client does nothing.  A mutex makes the code it guards
    one step; that the mutexes and the joins cannot block the threads for good is
    [Locks.no_deadlock], and which shared variables are not accessed under a
    mutex, [Races.races_located].  There a thread runs a list of [Locks.operation]s,
    each with its [code]: locks, accesses and joins.

    ** What the theorems show

    - Safety of the running daemon.  [System.nothing_without_a_key]: where keys
      are required, no interleaving and no input changes a file before a listed
      user's key has verified a signature.  It rests on the gate of a session
      ([Session.session_gate]), the decisions of the manager
      ([AuthManager.authenticateWithKey_spec], [PublicKeys.verifySignature_iff])
      and the verifier, which accepts exactly the signatures OpenSSL verifies
      ([SshKey.verify_iff]) over data that determine the request
      ([signed_data_injective]).
    - [ReadOnly.read_only_daemon]: a daemon all of whose modules are read-only
      changes no file, in any interleaving and for any input, through the
      threads, the sessions, the parser and the handler.
    - [Confinement.daemon_confined]: although uploads do not resolve their path,
      nothing changes outside what the process may write, where a directory that
      may be written counts with all below it.  [Confinement.user_confined]: a
      daemon that root starts and that drops its privileges is limited to what the
      configured user may write.
    - Admission, in every schedule: each session belongs to a client the lists
      allow ([Admission.clients_are_allowed]) and the connections of a client in
      any minute and hour are bounded ([Admission.rate_bounded]).  Both rest on
      one iteration ([Daemon.accept_spec]), on [NetworkAccess.isAllowed_spec] and
      [ipInCidr_spec] with the 32-bit masks, and on the limiter
      ([RateLimiter.run_bounded] is the same bound for the limiter alone).
    - Threads: every connection accepted is, as its session is by now, in exactly
      one place ([Threads.connections_conserved]); a stop completes if no client a
      thread depends on, or accepts meanwhile, does nothing
      ([stop_completes], by a measure that every action decreases), and never
      completes if one does ([silent_client_stalls]); an error of [accept] ends
      the accept loop ([acceptor_dies]) and a second start accepts nobody
      ([restart_is_deaf]); workers finish their rounds
      ([Progress.worker_progress]) and downloads end ([download_ends]).
    - Locks and shared memory: no deadlock, joins included, as long as no thread
      that is joined joins others ([Locks.no_deadlock]); a [stop] run by a worker
      joins itself ([stop_joins_itself]).  A data race is only possible on a
      variable without a mutex, between the operations named for it
      ([Races.races_located]): in the program as it is, on the descriptor of the
      listening socket and on the accept loop's copy of the modules.  The races
      exist: [socket_race], [modules_copy_race] (the copy is even used after it is
      gone, [modules_copy_dangles]), and [handles_race], [reload_race] and
      [log_level_race] for callers who stop twice, reload or set the level.
    - Life cycle: [Daemon.start_spec], [loadModules_spec], [reloadConfig_spec] (by
      what becomes of the file and of the modules),
      [monitors_idle]; [Privileges.drop_spec]; the exit codes of the program
      ([Main.failures_are_reported]).
    - Ownership: the references an import of a key leaves, and the double free
      with OpenSSL 3 ([KeyObjects.import_references]).
    - Files: paths that leave a module by links or by [..] are refused
      ([FileSystemModule.resolvePath_refuses_links], [dotdot_refused]) and what
      the prefix test lets through ([resolvePath_plain]); deletion is exact;
      [Protocol.handle_protected]: read-only modules are never changed.
      Transfers ([Session.download_delivers], [upload_stores], [uploads_mix] for
      two at once), and the round trip from one client to another
      ([Transfers.upload_download]).
    - Refinement: [Shares.handle_refines], the protocol on a directory of files
      is a finite map with lookups and deletions; [Conversations.session_refines],
      a session with its socket, its transfers and its parser is a machine on that
      map, which says what is sent, byte for byte.
    - Data: round trips of requests ([Protocol.parse_request]), signature
      envelopes, key files, passwords, INI text and the command line; the type of
      parsed messages ([parse_well_formed]); patterns against their reference
      ([ConfigTypes.matchesPattern_spec]); expansion of variables; validation of
      a configuration; what no configuration file can change
      ([Config.policy_is_fixed]).
    - The logger: rotation of its files ([Logger.rotateLog_spec]) and what
      happens when the size limit is reached ([log_until_full]).

    Where the code does not do what it means to do, the theorem states what it
    does, and an example or a witness shows it on a small input.

    ** Bounds and fuel

    Machine integers are [Z] with their wrap-around written out (32-bit masks and
    lengths, 64-bit counters, 16-bit ports).  [FileSys.walk] has the kernel's
    limit of 40 links as its fuel.  [FileSystemModule.scan] visits every node
    once, so the number of nodes is enough ([FileSystemModule.scan_ends]).  The
    line loop of [SshKey.normalizeSignatureInput] and the expansions of
    [ConfigText] have the length of their text as fuel, and each step consumes a
    character: [SshKey.collect_lines_enough_fuel] and
    [ConfigText.substitution_ends] prove that it is never used up.  Everything else is structural recursion.

    ** Not modelled

    Log messages of the components (the logger itself is modelled, and [Locks]
    counts the lines); times, hard-link counts and permission bits of a
    [FileInfo], which no part reads; hook scripts, which are declared and never
    run; functions that are declared and never defined; the watcher and the
    health monitor as threads, which nothing starts.  The checks of an arriving
    connection are one step, although they take several locks one after another:
    no other thread writes what they read but the list of sessions, and for it
    [Daemon.full] says what is compared.  The handler's reference to a map of
    modules is taken to be the map it was given, outside [Races].  Without TLS an
    arrival is one step from the checks to the addition to the list.  [Locks] has
    the [start] that succeeds; one that fails does a part of it.  The permissions of the file
    system are a part of the world and do not follow the process's credentials
    by themselves ([Confinement.user_confined] relates them); [geteuid] is the
    user id.  A signal handler interrupts its thread at any point, which the
    actions do not show.  An open file is known by its place: a file that is
    deleted while a session has it open is taken as empty for a reader, and as
    the new file at its place for a writer.  The base64 coders and the digests belong to OpenSSL.
    Tests, build and packaging files have no model.

    ** What could come next

    Owners and modes of nodes, so that the kernel's permissions are computed; a
    store shared by concurrent turns of two workers at the granularity of system
    calls; files apart from their places, so that deleting an open file is exact;
    a signal in the middle of a turn. *)
From Stdlib Require Export Ascii.
From stdpp Require Export prelude strings gmap sorting pretty.
From Stdlib Require Export Lia ZArith.

(** ** Scopes and notations *)
Declare Scope rsyncd_scope.
Delimit Scope rsyncd_scope with rsyncd.
Open Scope rsyncd_scope.

(** ** Hint database *)
Create HintDb rsyncd.

(** ** Automation *)

(** Split conjunctions in the context, use equations between constructors. *)
Ltac crush_hyps := repeat first [ progress destruct_and? | progress simplify_eq/= ].

(** Case analysis on every [match]/[if] of the goal, closing what is closed
    by computation. *)
Ltac crush_cases :=
  repeat first [ case_match | case_decide | progress crush_hyps ]; try done.

(** Rewrite every boolean test of the context into the proposition it decides. *)
Ltac bool_hyps :=
  repeat match goal with
    | H : _ && _ = true |- _ => apply andb_true_iff in H as [? ?]
    | H : _ || _ = false |- _ => apply orb_false_iff in H as [? ?]
    | H : negb _ = true |- _ => apply negb_true_iff in H
    | H : negb _ = false |- _ => apply negb_false_iff in H
    | H : Z.ltb _ _ = true |- _ => apply Z.ltb_lt in H
    | H : Z.ltb _ _ = false |- _ => apply Z.ltb_ge in H
    | H : Z.leb _ _ = true |- _ => apply Z.leb_le in H
    | H : Z.leb _ _ = false |- _ => apply Z.leb_gt in H
    | H : Z.gtb _ _ = _ |- _ => rewrite Z.gtb_ltb in H
    | H : Z.geb _ _ = _ |- _ => rewrite Z.geb_leb in H
    | H : Z.eqb _ _ = true |- _ => apply Z.eqb_eq in H
    | H : Z.eqb _ _ = false |- _ => apply Z.eqb_neq in H
    | H : String.eqb _ _ = true |- _ => apply String.eqb_eq in H
    | H : String.eqb _ _ = false |- _ => apply String.eqb_neq in H
    | H : bool_decide _ = true |- _ => apply bool_decide_eq_true in H
    | H : bool_decide _ = false |- _ => apply bool_decide_eq_false in H
    end.

(** ** Lists *)
Section lists.
Context {A : Type}.

Lemma existsb_In (f : A → bool) l :
  existsb f l = true ↔ ∃ x, x ∈ l ∧ f x = true.
Proof. rewrite existsb_exists. by setoid_rewrite list_elem_of_In. Qed.

Lemma existsb_false (f : A → bool) l :
  existsb f l = false ↔ ∀ x, x ∈ l → f x = false.
Proof.
  rewrite <- not_true_iff_false, existsb_In. split.
  - intros H x Hx. destruct (f x) eqn:E; [|done]. destruct H; eauto.
  - intros H (x & Hx & E). rewrite H in E by done. done.
Qed.
End lists.

(** ** Ordered traversal of a [std::map<std::string, V>]

    A [std::map] is iterated in the order of its keys; [std::less<std::string>]
    is the byte-wise lexicographic order, [String.le]. *)
Section ordered.
Context {V : Type}.

Definition entry_le (p q : string * V) : Prop := String.le p.1 q.1.
#[export] Instance entry_le_dec : RelDecision entry_le.
Proof. intros p q. unfold entry_le. apply _. Defined.

Definition map_entries (m : gmap string V) : list (string * V) :=
  merge_sort entry_le (map_to_list m).

Lemma map_entries_perm m : map_entries m ≡ₚ map_to_list m.
Proof. apply merge_sort_Permutation. Qed.

Lemma elem_of_map_entries m k v : (k, v) ∈ map_entries m ↔ m !! k = Some v.
Proof. rewrite map_entries_perm. apply elem_of_map_to_list. Qed.

Lemma map_entries_NoDup m : NoDup (map_entries m).*1.
Proof. rewrite map_entries_perm. apply NoDup_fst_map_to_list. Qed.

Lemma map_entries_length m : length (map_entries m) = size m.
Proof. rewrite map_entries_perm. apply length_map_to_list. Qed.

Lemma map_entries_empty m : map_entries m = [] ↔ m = ∅.
Proof.
  split; intros H.
  - apply map_to_list_empty_iff. apply Permutation_nil.
    by rewrite <- H, map_entries_perm.
  - subst. unfold map_entries. by rewrite map_to_list_empty.
Qed.

Lemma list_to_map_entries m : list_to_map (map_entries m) = m.
Proof.
  rewrite <- (list_to_map_to_list m) at 2. apply list_to_map_proper; [apply map_entries_NoDup|].
  apply map_entries_perm.
Qed.
End ordered.
#[export] Hint Resolve map_entries_NoDup : rsyncd.

(** ** Bits of 32-bit and 64-bit values *)
Section bits.
Local Open Scope Z_scope.

Lemma bits_above y n i : 0 ≤ y < 2 ^ n → n ≤ i → Z.testbit y i = false.
Proof.
  intros Hy Hi. destruct (Z.eq_dec y 0) as [->|]; [apply Z.bits_0|].
  apply Z.bits_above_log2; [lia|]. apply Z.lt_le_trans with n; [|done].
  apply Z.log2_lt_pow2; lia.
Qed.

(** Joining a high part and an [n]-bit low part is an addition. *)
Lemma lor_shiftl_add x y n :
  0 ≤ n → 0 ≤ y < 2 ^ n → Z.lor (Z.shiftl x n) y = x * 2 ^ n + y.
Proof.
  intros Hn Hy. rewrite Z.shiftl_mul_pow2 by done. symmetry. apply Z.add_nocarry_lor.
  apply Z.bits_inj'. intros i Hi. rewrite Z.land_spec, Z.bits_0.
  destruct (Z.lt_ge_cases i n).
  - by rewrite Z.mul_pow2_bits_low.
  - by rewrite (bits_above y n), andb_false_r.
Qed.

(** Clearing the low [n] bits of a [w]-bit value with the mask
    [(2^w - 1) << n]. *)
Lemma land_high_mask w n x :
  0 ≤ n ≤ w → 0 ≤ x < 2 ^ w →
  Z.land x (Z.shiftl (2 ^ w - 1) n `mod` 2 ^ w) = (x `div` 2 ^ n) * 2 ^ n.
Proof.
  intros Hn Hx. apply Z.bits_inj'. intros i Hi.
  rewrite Z.land_spec. destruct (Z.lt_ge_cases i w).
  - rewrite Z.mod_pow2_bits_low by done. rewrite Z.shiftl_spec by done.
    destruct (Z.lt_ge_cases i n).
    + rewrite Z.mul_pow2_bits_low by done. rewrite (Z.testbit_neg_r _ (i - n)) by lia.
      apply andb_false_r.
    + rewrite Z.mul_pow2_bits, Z.div_pow2_bits by lia.
      replace (i - n + n) with i by lia.
      replace (2 ^ w - 1) with (Z.ones w) by (rewrite Z.ones_equiv; lia).
      rewrite Z.ones_spec_low by lia. apply andb_true_r.
  - rewrite Z.mod_pow2_bits_high, andb_false_r by lia.
    rewrite Z.mul_pow2_bits, Z.div_pow2_bits by lia.
    symmetry. apply (bits_above _ w); [done|lia].
Qed.
End bits.
