(* ===== verification/Locks.v ===== *)
(** * The mutexes of the daemon: no deadlock

    [Threads] makes the code under a mutex one step.  This file justifies it: for
    each operation of [core/daemon.cpp], [security/rate_limiter.cpp] and
    [core/auth.cpp] that locks, the order of its locks, unlocks and accesses to
    what the threads share and of the threads it waits for, with the log lines it
    writes (each of which locks the logger's mutex, [utils/logger.cpp]); and a
    proof that threads which run these operations never block each other for good,
    as long as no thread that a [stop] waits for runs [stop] itself.  [Races] is
    about the accesses.
    The logger of the daemon has no file, so that its lines never rotate one: a
    line that does waits for the mutex it holds ([Logger.log_until_full]) and is
    not among the programs here. *)
From S2P Require Import Prelude.

(** The mutexes: of the daemon's sessions, modules and statistics, of the rate
    limiter, of the session manager, and of the logger. *)
Inductive mutex := Sessions | Modules | Stats | Limiter | Manager | Log.
#[export] Instance mutex_eq : EqDecision mutex.
Proof. solve_decision. Defined.

(** What threads share: the list of sessions with the sessions in it, the map of
    modules, the statistics, the windows of the rate limiter, the login sessions,
    the stream and size of the log; the descriptor of the listening socket; the
    handles of the threads ([accept_thread_], [config_monitor_thread_],
    [worker_threads_] and the two that are never started); the copy of the map of
    modules that an iteration of the accept loop makes for a session, to which the
    session's handler keeps a reference; the TLS context; and what is set before
    the threads start: the configuration and the objects made from it (users,
    passwords, public keys, address and port, pointers), and the settings of the
    logger.  The atomic members ([running_], [shutdown_requested_],
    [total_connections_]) are not among them. *)
Inductive variable :=
  | ActiveSessions | ModuleMap | Statistics | RateWindows | LoginSessions | LogFile
  | ListenSocket | Handles | ModulesCopy | TlsContext | Settings | LogSettings.
#[export] Instance variable_eq : EqDecision variable.
Proof. solve_decision. Defined.

(** [Join j] waits for the end of thread [j]. *)
Inductive op := Lock (m : mutex) | Unlock (m : mutex) | Access (write : bool) (x : variable) | Join (j : nat).
Abbreviation Read := (Access false).
Abbreviation Write := (Access true).
Definition program := list op.

(** ** The programs *)

(** [std::lock_guard] around [body]. *)
Definition guarded (m : mutex) (body : program) : program := Lock m :: body ++ [Unlock m].

(** The level and the filters are read before the mutex is taken. *)
Definition log_line : program := Read LogSettings :: guarded Log [Read LogSettings; Write LogFile].
Fixpoint log_lines (n : nat) : program := match n with O => [] | S n => log_line ++ log_lines n end.

(** [Logger::setLevel]; the filters are changed the same way. *)
Definition setLevel : program := guarded Log [Write LogSettings].

(** For each module whether it is added, and else the lines about its errors. *)
Fixpoint load_each (l : list (bool * nat)) : program :=
  match l with
  | [] => []
  | (added, errors) :: l =>
      Read Settings :: (if added then Write ModuleMap :: log_line else log_lines (S errors)) ++ load_each l
  end.
Definition loadModules (l : list (bool * nat)) : program :=
  Read Settings :: guarded Modules (Write ModuleMap :: load_each l ++ [Read ModuleMap]).
Definition unloadModules : program := guarded Modules (Write ModuleMap :: log_line).
Definition closeSessions : program := guarded Sessions (Write ActiveSessions :: log_line).
Definition cleanupSessions : program := guarded Sessions (Write ActiveSessions :: log_line).
Definition getActiveConnections : program := guarded Sessions [Read ActiveSessions].
Definition getStatus : program := Read Settings :: getActiveConnections ++ guarded Modules [Read ModuleMap].
Definition checkPermissions : program := guarded Modules [Read ModuleMap].

(** The session manager makes a session when the password is right; a failure is
    counted.  [None]: authentication is disabled, or there is no manager. *)
Definition checkAuthentication (authenticated : option bool) : program :=
  Read Settings ::
  match authenticated with
  | None => []
  | Some true => guarded Manager [Write LoginSessions]
  | Some false => guarded Stats [Write Statistics]
  end.

(** The denied client is counted and logged under the same lock. *)
Definition checkAccess (enabled allowed : bool) : program :=
  Read Settings ::
  if enabled then if allowed then log_line else guarded Stats (Write Statistics :: log_line) else [].
Definition checkRateLimit (enabled : bool) : program :=
  Read Settings :: if enabled then guarded Limiter [Write RateWindows] else [].
Definition updateRateLimit (enabled : bool) : program :=
  Read Settings :: if enabled then guarded Limiter [Write RateWindows] else [].

(** What becomes of an iteration of [acceptLoop]: no connection (for now, or with
    an error, which ends the loop), or what becomes of the connection. *)
Inductive verdict := NoConnection | AcceptFailed | Denied | Limited | Full | HandshakeFailed | Accepted (tls : bool).

Definition checks (access rate : bool) : program := checkAccess access true ++ checkRateLimit rate.
Definition room : program := [Read ActiveSessions; Read Settings].

(** [modules_copy] is made under the mutex and destroyed at the end of the
    iteration. *)
Definition copy_modules : program := guarded Modules [Read ModuleMap; Write ModulesCopy].
Definition accept_iteration (access rate : bool) (v : verdict) : program :=
  Read ListenSocket ::
  match v with
  | NoConnection => []
  | AcceptFailed => log_line
  | Denied => checkAccess access false ++ log_line
  | Limited => checks access rate ++ log_line
  | Full => checks access rate ++ guarded Sessions (room ++ log_line)
  | HandshakeFailed =>
      checks access rate ++ guarded Sessions room ++ updateRateLimit rate ++ copy_modules ++
      [Read Settings; Read TlsContext; Write TlsContext; Read TlsContext] ++ log_line ++ [Write ModulesCopy]
  | Accepted tls =>
      checks access rate ++ guarded Sessions room ++ updateRateLimit rate ++ copy_modules ++
      Read Settings :: (if tls then [Read TlsContext] else []) ++ guarded Sessions [Write ActiveSessions] ++ log_line ++
      [Write ModulesCopy]
  end.

(** A round of [workerLoop]: for each session a turn, which looks modules up
    through the handler's reference; whether it opens a login session and whether
    it throws, which is logged. *)
Fixpoint turns (l : list (bool * bool)) : program :=
  match l with
  | [] => []
  | (login, throws) :: l =>
      [Read Settings; Read ModulesCopy] ++ (if login then guarded Manager [Write LoginSessions] else []) ++
      (if throws then log_line else []) ++ turns l
  end.
Definition worker_round (l : list (bool * bool)) : program :=
  guarded Sessions [Write ActiveSessions] ++ turns l ++ guarded Sessions [Write ActiveSessions].

(** [configMonitorLoop]: [hasChanged] answers no. *)
Definition monitor_round : program := [Read Settings].

(** The file is read, and then validated, into the configuration in use. *)
Definition reloadConfig (l : list (bool * nat)) : program :=
  log_line ++ [Write Settings; Read Settings; Write Settings] ++ loadModules l ++ log_line.

(** [if (t.joinable()) t.join()] for each handle; [None]: not joinable. *)
Fixpoint awaits (handles : list (option nat)) : program :=
  match handles with
  | [] => []
  | Some j :: handles => [Read Handles; Join j; Write Handles] ++ awaits handles
  | None :: handles => Read Handles :: awaits handles
  end.

(** The handles are of the accept thread, the monitor and the workers; those of
    the configuration watcher and the health monitor are never joinable. *)
Definition joinThreads (workers : list (option nat)) : program := awaits (workers ++ [None; None]) ++ log_line.
Definition stop (acceptor monitor : option nat) (workers : list (option nat)) : program :=
  log_line ++ [Read ListenSocket; Read ListenSocket; Write ListenSocket] ++ log_line ++
  awaits [acceptor; monitor] ++ joinThreads workers ++
  closeSessions ++ cleanupSessions ++ unloadModules ++ log_line.

(** A [start] that succeeds: whether the daemon runs already; the modules; TLS;
    the rate limiter; the monitor; how many workers. *)
Definition start (running : bool) (l : list (bool * nat)) (tls limiter monitor : bool) (workers : nat) : program :=
  if running then log_line else
  log_line ++ [Read Settings; Write Settings] ++ loadModules l ++
  Read Settings :: (if tls then [Write TlsContext; Write Settings] else []) ++
  [Read Settings; Write Settings; Write ListenSocket; Read ListenSocket] ++ log_line ++ [Read Settings] ++
  (if limiter then Write Settings :: log_line else []) ++ log_line ++
  [Write Handles] ++ replicate workers (Write Handles) ++ log_line ++
  (if monitor then Write Handles :: log_line else []) ++ log_line.

(** ** Operations: what a thread of the daemon, or a caller of its methods, may
    run next *)
Inductive operation :=
  | OpAccept (access rate : bool) (v : verdict)
  | OpWorker (l : list (bool * bool))
  | OpMonitor
  | OpReload (l : list (bool * nat))
  | OpStart (running : bool) (l : list (bool * nat)) (tls limiter monitor : bool) (workers : nat)
  | OpStop (acceptor monitor : option nat) (workers : list (option nat))
  | OpStatus
  | OpPermissions
  | OpAuthentication (authenticated : option bool)
  | OpLog
  | OpSetLevel.

Definition code (o : operation) : program :=
  match o with
  | OpAccept access rate v => accept_iteration access rate v
  | OpWorker l => worker_round l
  | OpMonitor => monitor_round
  | OpReload l => reloadConfig l
  | OpStart running l tls limiter monitor workers => start running l tls limiter monitor workers
  | OpStop acceptor monitor workers => stop acceptor monitor workers
  | OpStatus => getStatus
  | OpPermissions => checkPermissions
  | OpAuthentication b => checkAuthentication b
  | OpLog => log_line
  | OpSetLevel => setLevel
  end.

(** The threads an operation waits for. *)
Definition waits_for (o : operation) : list (option nat) :=
  match o with OpStop acceptor monitor workers => acceptor :: monitor :: workers | _ => [] end.

(** ** Threads *)

(** The mutexes a thread holds and what it has left to run. *)
Record thread := MkThread { holds : list mutex; rest : program }.

Definition free (m : mutex) (ts : list thread) : bool := forallb (λ t, bool_decide (m ∉ holds t)) ts.

(** A thread that is over can be joined; so can a handle of no thread. *)
Definition over (j : nat) (ts : list thread) : bool :=
  match ts !! j with Some t => bool_decide (rest t = []) | None => true end.

(** The next operation of a thread; [None] if it is over or has to wait. *)
Definition advance (ts : list thread) (t : thread) : option thread :=
  match rest t with
  | [] => None
  | Lock m :: p => if free m ts then Some (MkThread (m :: holds t) p) else None
  | Unlock m :: p => Some (MkThread (filter (λ x, x ≠ m) (holds t)) p)
  | Access _ _ :: p => Some (MkThread (holds t) p)
  | Join j :: p => if over j ts then Some (MkThread (holds t) p) else None
  end.

Inductive step : list thread → list thread → Prop :=
  | Step i t t' ts : ts !! i = Some t → advance ts t = Some t' → step ts (<[i := t']> ts).

(** A run of the threads, each with a sequence of operations to do. *)
Definition starts (ps : list (list operation)) : list thread := (λ l, MkThread [] (concat (code <$> l))) <$> ps.
Inductive reaches : list thread → list thread → Prop :=
  | reaches_refl ts : reaches ts ts
  | reaches_step ts ts1 ts2 : reaches ts ts1 → step ts1 ts2 → reaches ts ts2.

Definition steps_left (ts : list thread) : nat := list_sum ((λ t, length (rest t)) <$> ts).

(** ** Disciplines: which locks, accesses and joins a thread may make, given the
    mutexes it holds; in the end it holds none *)
Record discipline := MkDiscipline {
  may_lock : list mutex → mutex → bool;
  may_access : list mutex → bool → variable → bool;
  may_join : list mutex → nat → bool
}.

Fixpoint keeps (D : discipline) (held : list mutex) (p : program) : bool :=
  match p with
  | [] => bool_decide (held = [])
  | Lock m :: p => bool_decide (m ∉ held) && may_lock D held m && keeps D (m :: held) p
  | Unlock m :: p => bool_decide (m ∈ held) && keeps D (filter (λ x, x ≠ m) held) p
  | Access w x :: p => may_access D held w x && keeps D held p
  | Join j :: p => may_join D held j && keeps D held p
  end.

(** A piece of program that can stand anywhere those mutexes are held. *)
Definition block (D : discipline) (held : list mutex) (p : program) : Prop :=
  ∀ q, keeps D held q = true → keeps D held (p ++ q) = true.

(** The logger's mutex comes after every other, and no two others are held
    together; a thread that waits for another holds none, and only certain threads
    wait for certain others. *)
Definition rank (m : mutex) : nat := match m with Log => 1 | _ => 0 end.
Definition lock_order (waits : nat → bool) : discipline :=
  MkDiscipline (λ held m, forallb (λ h, Nat.ltb (rank h) (rank m)) held) (λ _ _ _, true)
    (λ held j, bool_decide (held = []) && waits j).

(** ** Lemmas: blocks *)
Section blocks.
Variable D : discipline.

Lemma block_nil held : block D held [].
Proof. by intros q. Qed.
Lemma block_app held p q : block D held p → block D held q → block D held (p ++ q).
Proof. intros Hp Hq r Hr. rewrite <- app_assoc. by apply Hp, Hq. Qed.
Lemma block_access held w x p : may_access D held w x = true → block D held p → block D held (Access w x :: p).
Proof. intros Ha Hp q Hq. cbn. rewrite Ha. by apply Hp. Qed.
Lemma filter_out (m : mutex) held : m ∉ held → filter (λ x, x ≠ m) (m :: held) = held.
Proof.
  intros Hm. rewrite filter_cons_False by (intros Hn; by apply Hn).
  induction held as [|h l IH]; [done|]. apply not_elem_of_cons in Hm as [Hh Hl].
  rewrite filter_cons_True by done. by rewrite IH.
Qed.
Lemma block_guarded held m body :
  bool_decide (m ∉ held) = true → may_lock D held m = true → block D (m :: held) body → block D held (guarded m body).
Proof.
  intros Hm Hl Hb q Hq. unfold guarded. cbn [keeps app]. rewrite Hl, Hm. apply bool_decide_eq_true in Hm.
  rewrite <- app_assoc. apply Hb. cbn [keeps app]. rewrite filter_out by done.
  by rewrite bool_decide_eq_true_2 by left.
Qed.
Lemma block_lines held n : block D held log_line → block D held (log_lines n).
Proof. intros Hl. induction n as [|n IH]; [apply block_nil|]. cbn [log_lines]. by apply block_app. Qed.
Lemma block_load held l :
  block D held log_line → may_access D held false Settings = true → may_access D held true ModuleMap = true →
  block D held (load_each l).
Proof.
  intros Hl Hs Hm. induction l as [|[[] n] l IH]; [apply block_nil|..]; cbn [load_each]; apply block_access; try done;
    apply block_app; try done; [by apply block_access|by apply block_lines].
Qed.
Lemma block_turns l :
  block D [] log_line → may_access D [] false Settings = true → may_access D [] false ModulesCopy = true →
  block D [] (guarded Manager [Write LoginSessions]) → block D [] (turns l).
Proof.
  intros Hl Hs Hc Hm. induction l as [|[login throws] l IH]; [apply block_nil|]. cbn [turns app]. do 2 (apply block_access; [done|]).
  apply block_app; [by destruct login; [|apply block_nil]|].
  apply block_app; [by destruct throws; [|apply block_nil]|done].
Qed.

Lemma block_keeps p : block D [] p → keeps D [] p = true.
Proof. intros Hp. rewrite <- (app_nil_r p). by apply Hp. Qed.
Lemma block_join j p : may_join D [] j = true → block D [] p → block D [] (Join j :: p).
Proof. intros Ha Hp q Hq. cbn. rewrite Ha. by apply Hp. Qed.
Lemma block_awaits handles :
  may_access D [] false Handles = true → may_access D [] true Handles = true →
  (∀ j, Some j ∈ handles → may_join D [] j = true) → block D [] (awaits handles).
Proof.
  intros Hr Hw. induction handles as [|[j|] handles IH]; intros Hj; [apply block_nil|..]; cbn [awaits app].
  - apply block_access; [done|]. apply block_join; [apply Hj; by left|]. apply block_access; [done|].
    apply IH. intros k Hk. apply Hj. by right.
  - apply block_access; [done|]. apply IH. intros k Hk. apply Hj. by right.
Qed.
Lemma block_replicate held n w x : may_access D held w x = true → block D held (replicate n (Access w x)).
Proof. intros Ha. induction n as [|n IH]; [apply block_nil|]. cbn. by apply block_access. Qed.
Lemma block_concat l : Forall (block D []) l → block D [] (concat l).
Proof. intros Hl. induction Hl as [|p l Hp Hl IH]; [apply block_nil|]. cbn. by apply block_app. Qed.
End blocks.

(** A program follows a discipline, part by part. *)
Ltac blocks :=
  repeat first
    [ assumption
    | apply block_nil
    | match goal with
      | |- block _ _ (_ :: _) => apply block_access; [reflexivity|]
      | |- block _ _ (_ ++ _) => apply block_app
      | |- block _ _ (guarded _ _) => apply block_guarded; [reflexivity|reflexivity|]
      | |- block _ _ (load_each _) => apply block_load; [|reflexivity..]
      | |- block _ _ (log_lines _) => apply block_lines
      | |- block _ _ (turns _) => apply block_turns; [|reflexivity|reflexivity|]
      | |- block _ _ (replicate _ _) => apply block_replicate; reflexivity
      | |- block _ _ (awaits _) => apply block_awaits; [reflexivity|reflexivity|]
      | |- block _ _ (if ?b then _ else _) => destruct b
      end
    | progress unfold accept_iteration, checks, checkAccess, checkRateLimit, updateRateLimit, room, copy_modules,
        worker_round, monitor_round, loadModules, reloadConfig, start, stop, joinThreads, closeSessions, cleanupSessions,
        unloadModules, getStatus, getActiveConnections, checkPermissions, checkAuthentication, log_line, setLevel ].

Lemma operation_ordered waits o :
  (∀ j, Some j ∈ waits_for o → waits j = true) → block (lock_order waits) [] (code o).
Proof.
  intros Hj. destruct o as [access rate v|l| |l|running l tls limiter monitor workers|a m workers| | |b| |];
    cbn [code waits_for] in *; try destruct b as [[]|]; try destruct v as [| | | | | |tls]; blocks;
    intros j Hin; cbn; apply Hj.
  - revert Hin. rewrite !elem_of_cons, elem_of_nil. tauto.
  - revert Hin. rewrite elem_of_app, !elem_of_cons, elem_of_nil. naive_solver.
Qed.

(** ** Threads that keep to a discipline, each to its own *)
Section disciplined.
Variable D : nat → discipline.
Definition disciplined (ts : list thread) : Prop :=
  ∀ i t, ts !! i = Some t → keeps (D i) (holds t) (rest t) = true.

Lemma advance_keeps E ts t t' :
  advance ts t = Some t' → keeps E (holds t) (rest t) = true → keeps E (holds t') (rest t') = true.
Proof.
  unfold advance. destruct (rest t) as [|[m|m|w x|j] p]; [done|..]; cbn.
  - destruct (free m ts); [|done]. intros [= <-]. by intros [_ ?]%andb_true_iff.
  - intros [= <-]. by intros [_ ?]%andb_true_iff.
  - intros [= <-]. by intros [_ ?]%andb_true_iff.
  - destruct (over j ts); [|done]. intros [= <-]. by intros [_ ?]%andb_true_iff.
Qed.

Lemma step_disciplined ts ts' : step ts ts' → disciplined ts → disciplined ts'.
Proof.
  intros [i t t' ts0 Hi Ha] Hd j u [(-> & <- & _)|[_ Hj]]%list_lookup_insert_Some; [|by apply Hd].
  eapply advance_keeps; [exact Ha|by apply Hd].
Qed.

Lemma starts_disciplined ps :
  (∀ i l o, ps !! i = Some l → o ∈ l → block (D i) [] (code o)) → disciplined (starts ps).
Proof.
  intros Hp i t Ht. unfold starts in Ht. rewrite list_lookup_fmap in Ht.
  apply fmap_Some in Ht as (l & E & ->). apply block_keeps, block_concat. apply Forall_fmap, Forall_forall.
  intros o Ho. by eapply Hp.
Qed.
End disciplined.

Lemma reaches_invariant (P : list thread → Prop) ts ts' :
  (∀ ts ts', step ts ts' → P ts → P ts') → P ts → reaches ts ts' → P ts'.
Proof. intros Hs H0 Hr. induction Hr as [|ts0 ts1 ts2 Hr IH Hs']; [done|]. by eapply Hs, IH. Qed.

Lemma free_spec m ts : free m ts = true ↔ ∀ t, t ∈ ts → m ∉ holds t.
Proof.
  unfold free. rewrite forallb_forall. setoid_rewrite <- list_elem_of_In. by setoid_rewrite bool_decide_eq_true.
Qed.

Lemma advance_less ts t t' : advance ts t = Some t' → length (rest t) = S (length (rest t')).
Proof.
  unfold advance. destruct (rest t) as [|[m|m|w x|j] p] eqn:E; [done|..].
  - destruct (free m ts); [|done]. by intros [= <-].
  - by intros [= <-].
  - by intros [= <-].
  - destruct (over j ts); [|done]. by intros [= <-].
Qed.

Lemma left_cons t ts : steps_left (t :: ts) = (length (rest t) + steps_left ts)%nat.
Proof. done. Qed.

Lemma step_less ts ts' : step ts ts' → steps_left ts = S (steps_left ts').
Proof.
  intros [i t t' ts0 Hi Ha]. apply advance_less in Ha. revert i Hi.
  induction ts0 as [|x l IH]; intros [|i] Hi; try done.
  - injection Hi as ->. change (<[0%nat := t']> (t :: l)) with (t' :: l). rewrite !left_cons. lia.
  - change (<[S i := t']> (x :: l)) with (x :: <[i := t']> l). rewrite !left_cons. specialize (IH i Hi). lia.
Qed.

(** ** Nobody waits for good *)

(** No thread that is waited for waits for a thread itself: which threads
    [joiner] says wait for others. *)
Section order.
Context (joiner : nat → bool).
Definition order_of (i : nat) : discipline := lock_order (λ j, joiner i && negb (joiner j)).
Definition in_order : list thread → Prop := disciplined order_of.

(** A mutex that is not free is held by a thread with something left to run. *)
Lemma holder m ts : in_order ts → free m ts = false → ∃ i t, ts !! i = Some t ∧ m ∈ holds t ∧ rest t ≠ [].
Proof.
  intros Hd Hf. destruct (decide (Exists (λ t, m ∈ holds t) ts)) as [He|Hn].
  - apply Exists_exists in He as (t & (i & Hi)%list_elem_of_lookup & Hm). exists i, t.
    split; [done|]. split; [done|]. intros Er.
    pose proof (Hd i t Hi) as Hk. rewrite Er in Hk. apply bool_decide_eq_true in Hk.
    rewrite Hk in Hm. by apply elem_of_nil in Hm.
  - apply not_true_iff_false in Hf. destruct Hf. apply free_spec. intros t Ht Hm. apply Hn, Exists_exists. by exists t.
Qed.

Lemma can_advance ts i t : ts !! i = Some t → (∃ t', advance ts t = Some t') → ∃ ts', step ts ts'.
Proof. intros Hi (t' & Ha). eexists. by econstructor. Qed.

(** What a thread that holds a mutex may be waiting for: one of a higher rank. *)
Lemma waits_ranked i t h :
  keeps (order_of i) (holds t) (rest t) = true → h ∈ holds t →
  (∀ m p, rest t = Lock m :: p → (rank h < rank m)%nat) ∧ (∀ j p, rest t ≠ Join j :: p).
Proof.
  intros Hk Hh. split.
  - intros m p Er. rewrite Er in Hk. apply andb_true_iff in Hk as [[_ Hk]%andb_true_iff _].
    cbn in Hk. rewrite forallb_forall in Hk. by apply Nat.ltb_lt, Hk, list_elem_of_In.
  - intros j p Er. rewrite Er in Hk. apply andb_true_iff in Hk as [[Hk _]%andb_true_iff _].
    apply bool_decide_eq_true in Hk. rewrite Hk in Hh. by apply elem_of_nil in Hh.
Qed.

(** The holder of the logger's mutex can go on; so can the holder of another,
    unless the logger's is taken. *)
Lemma holder_goes_on ts i t h :
  in_order ts → ts !! i = Some t → h ∈ holds t → rest t ≠ [] → h = Log ∨ free Log ts = true → ∃ ts', step ts ts'.
Proof.
  intros Hd Hi Hh Hr Hlog. apply (can_advance ts i t Hi). destruct (waits_ranked i t h (Hd i t Hi) Hh) as [Hm Hj].
  unfold advance. destruct (rest t) as [|[m|m|w x|j] p]; [done| |by eexists..|by destruct (Hj j p)].
  specialize (Hm m p eq_refl). destruct Hlog as [-> | Hf]; destruct m; cbn in *; try (destruct h; cbn in *); try lia.
  all: rewrite Hf; by eexists.
Qed.

Lemma log_goes_on ts : in_order ts → free Log ts = false → ∃ ts', step ts ts'.
Proof.
  intros Hd Hf. destruct (holder Log ts Hd Hf) as (i & t & Ht & Hm & Hr).
  apply (holder_goes_on ts i t Log); [done..|by left].
Qed.

(** A thread that waits for no other goes on, or one that holds a mutex does. *)
Lemma unjoined_goes_on ts i t :
  in_order ts → ts !! i = Some t → rest t ≠ [] → (∀ j p, rest t ≠ Join j :: p) → ∃ ts', step ts ts'.
Proof.
  intros Hd Hi Hr Hj. destruct (free Log ts) eqn:Hlog; [|by apply log_goes_on].
  destruct (advance ts t) as [t'|] eqn:Ea; [by eapply can_advance; eauto|].
  unfold advance in Ea. destruct (rest t) as [|[m|m|w x|j] p] eqn:Er; [done| |done..|by destruct (Hj j p)].
  destruct (free m ts) eqn:Hf; [done|]. destruct (holder m ts Hd Hf) as (k & u & Hu & Hm & Hru).
  apply (holder_goes_on ts k u m); [done..|by right].
Qed.

Lemma some_goes_on ts : in_order ts → (∃ t, t ∈ ts ∧ rest t ≠ []) → ∃ ts', step ts ts'.
Proof.
  intros Hd (t & (i & Hi)%list_elem_of_lookup & Hr).
  destruct (rest t) as [|[m|m|w x|j] p] eqn:Er; [done|by apply (unjoined_goes_on ts i t); rewrite ?Er..|].
  pose proof (Hd i t Hi) as Hk. rewrite Er in Hk. apply andb_true_iff in Hk as [[_ Hk]%andb_true_iff _].
  apply andb_true_iff in Hk as [_ Hj].
  destruct (over j ts) eqn:Ho; [apply (can_advance ts i t Hi); unfold advance; rewrite Er, Ho; by eexists|].
  unfold over in Ho. destruct (ts !! j) as [u|] eqn:Hu; [|done]. apply bool_decide_eq_false in Ho.
  apply (unjoined_goes_on ts j u); [done..|]. intros k q Eu. pose proof (Hd j u Hu) as Hk'. rewrite Eu in Hk'.
  apply andb_true_iff in Hk' as [[_ Hk']%andb_true_iff _]. apply andb_true_iff in Hk' as [Hjj _]. by rewrite Hjj in Hj.
Qed.
End order.

(** The operations of thread [i]. *)
Definition runs (ps : list (list operation)) (i : nat) (o : operation) : Prop := ∃ l, ps !! i = Some l ∧ o ∈ l.

(** A thread waits for others if one of its operations does. *)
Definition joins_others (l : list operation) : bool :=
  existsb (λ o, existsb (λ j : option nat, bool_decide (j ≠ None)) (waits_for o)) l.
Definition joiner (ps : list (list operation)) (i : nat) : bool := joins_others (default [] (ps !! i)).

Lemma joiner_spec ps i : joiner ps i = true ↔ ∃ o j, runs ps i o ∧ Some j ∈ waits_for o.
Proof.
  unfold joiner, joins_others, runs. rewrite existsb_exists. split.
  - intros (o & Ho%list_elem_of_In & (k & Hk%list_elem_of_In & Hn)%existsb_exists).
    apply bool_decide_eq_true in Hn. destruct k as [j|]; [|done]. exists o, j. split; [|done].
    destruct (ps !! i) as [l|]; [by exists l|by apply elem_of_nil in Ho].
  - intros (o & j & (l & -> & Ho) & Hj). exists o. split; [by apply list_elem_of_In|]. apply existsb_exists.
    exists (Some j). split; [by apply list_elem_of_In|done].
Qed.

(** C14: No deadlock.  Any number of threads, each running any sequence of the
    daemon's operations ([stop], which waits for threads to end, [start] and
    [reloadConfig] included), in any interleaving, provided that no thread that a
    [stop] waits for runs such a [stop] itself: every step brings the end one step
    nearer, and as long as some thread has something left to run, some thread can
    go on. *)
Theorem no_deadlock ps ts :
  (∀ i j o o' k, runs ps i o → Some j ∈ waits_for o → runs ps j o' → Some k ∉ waits_for o') →
  reaches (starts ps) ts →
  (∀ ts', step ts ts' → steps_left ts = S (steps_left ts')) ∧
  ((∃ t, t ∈ ts ∧ rest t ≠ []) → ∃ ts', step ts ts').
Proof.
  intros Hp Hr. split; [apply step_less|]. apply (some_goes_on (joiner ps)).
  apply (reaches_invariant (in_order (joiner ps)) (starts ps) ts); [apply step_disciplined| |done].
  apply starts_disciplined. intros i l o Hi Ho. apply operation_ordered. intros j Hj.
  assert (runs ps i o) as Hro by by exists l. apply andb_true_iff. split; [apply joiner_spec; by exists o, j|].
  apply negb_true_iff, not_true_iff_false. intros (o' & k & Ho' & Hk)%joiner_spec. by destruct (Hp i j o o' k).
Qed.

(** A thread that runs a [stop] which waits for this very thread never comes to
    its end, whatever the others do.  (The signal handler of [main.cpp] runs
    [stop] in the thread that gets the signal, which may be a worker.) *)
Theorem stop_joins_itself ps ts i o :
  runs ps i o → Some i ∈ waits_for o → reaches (starts ps) ts → ∃ t, ts !! i = Some t ∧ Join i ∈ rest t.
Proof.
  intros (l & Hi & Ho) Hw. apply (reaches_invariant (λ ts, ∃ t, ts !! i = Some t ∧ Join i ∈ rest t)).
  - intros ts0 ts' [k u u' ts1 Hk Ha] (t & Ht & Hin). destruct (decide (k = i)) as [->|Hne];
      [|exists t; by rewrite list_lookup_insert_ne].
    rewrite Ht in Hk. injection Hk as <-. exists u'. split; [apply list_lookup_insert_eq; by eapply lookup_lt_Some|].
    unfold advance in Ha. destruct (rest t) as [|[m|m|w x|j] p] eqn:Er; [done|..].
    1: destruct (free m ts1); [|done]. 1-3: injection Ha as <-; by apply elem_of_cons in Hin as [?|?].
    destruct (over j ts1) eqn:Hov; [|done]. injection Ha as <-. apply elem_of_cons in Hin as [[= <-]|?]; [|done].
    unfold over in Hov. rewrite Ht, Er in Hov. by apply bool_decide_eq_true in Hov.
  - exists (MkThread [] (concat (code <$> l))). split; [unfold starts; by rewrite list_lookup_fmap, Hi|]. cbn.
    apply list_elem_of_In, in_concat. exists (code o). split; apply list_elem_of_In; [by apply list_elem_of_fmap_2|].
    destruct o as [| | | | |a m workers| | | | |]; cbn in Hw; try by apply elem_of_nil in Hw.
    assert (∀ handles, Some i ∈ handles → Join i ∈ awaits handles) as Hj.
    { induction handles as [|[j|] handles IH]; cbn; [by intros ?%elem_of_nil|..].
      - rewrite !elem_of_cons. intros [[= ->]|?]; [by right; left|right; right; right; by apply IH].
      - rewrite !elem_of_cons. intros [?|?]; [done|right; by apply IH]. }
    cbn [code]. unfold stop, joinThreads. rewrite !elem_of_app.
    apply elem_of_cons in Hw as [Hw|[Hw|Hw]%elem_of_cons].
    + do 3 right. left. apply Hj. rewrite Hw. by left.
    + do 3 right. left. apply Hj. rewrite Hw. right. by left.
    + do 4 right. left. left. apply Hj, elem_of_app. by left.
Qed.

(** A connection is denied and a worker is in a round while one caller stops the
    daemon, waiting for both, and another reloads the configuration. *)
Definition busy_moment : list (list operation) :=
  [[OpAccept true true Denied; OpAccept true true AcceptFailed]; [OpWorker [(true, false); (false, true)]];
   [OpReload [(true, 0%nat); (false, 1%nat)]]; [OpStop (Some 0%nat) None [Some 1%nat]]].

Lemma no_deadlock_witness :
  joiner busy_moment <$> [0; 1; 2; 3]%nat = [false; false; false; true] ∧
  steps_left (starts busy_moment) = 131%nat ∧ ∃ ts', step (starts busy_moment) ts'.
Proof.
  split; [vm_compute; reflexivity|]. split; [vm_compute; reflexivity|].
  apply (no_deadlock busy_moment (starts busy_moment)); [|apply reaches_refl|].
  - intros i j o o' k Ho Hj Ho' Hk. assert (joiner busy_moment j = true) as H by (apply joiner_spec; by exists o', k).
    destruct Ho as (l & Hl & Ho). destruct i as [|[|[|[|i]]]]; cbn in Hl; try discriminate Hl; injection Hl as <-;
      repeat (apply elem_of_cons in Ho as [->|Ho]); try (by apply elem_of_nil in Ho); cbn in Hj;
      repeat (apply elem_of_cons in Hj as [[= ->]|Hj]); try (by apply elem_of_nil in Hj); discriminate H.
  - exists (MkThread [] (concat (code <$> [OpAccept true true Denied; OpAccept true true AcceptFailed]))). split; [by left|done].
Defined.
