(* ===== verification/Races.v ===== *)
(** * What the threads share: data races

    The programs of [Locks] say what each operation of the daemon reads and writes
    and under which mutexes.  Two threads race when both are about to access the
    same variable and one of them to write it.  Six of the shared variables are
    only accessed under a mutex.  The others are not: this file says which two
    operations can race for each of them, and shows the races.  (A session outside
    the list has one owner, [Threads.connections_conserved].) *)
From S2P Require Import Prelude Locks.

(** ** The rule each variable is under *)

(** The mutex a variable is accessed under. *)
Definition guard (x : variable) : option mutex :=
  match x with
  | ActiveSessions => Some Sessions
  | ModuleMap => Some Modules
  | Statistics => Some Stats
  | RateWindows => Some Limiter
  | LoginSessions => Some Manager
  | LogFile => Some Log
  | ListenSocket | Handles | ModulesCopy | TlsContext | Settings | LogSettings => None
  end.

(** The operations that write a variable without a guard, and those that use it.
    A [start] of a daemon that runs only logs. *)
Definition writes (o : operation) (x : variable) : bool :=
  match x, o with
  | (ListenSocket | Handles), OpStop _ _ _ => true
  | (ListenSocket | Handles | Settings | TlsContext), OpStart false _ _ _ _ _ => true
  | Settings, OpReload _ => true
  | (ModulesCopy | TlsContext), OpAccept _ _ _ => true
  | LogSettings, OpSetLevel => true
  | _, _ => false
  end.
Definition uses (o : operation) (x : variable) : bool :=
  writes o x ||
  match x, o with
  | ListenSocket, OpAccept _ _ _ | ModulesCopy, OpWorker _ => true
  | (Settings | LogSettings), _ => true
  | _, _ => false
  end.

Definition may (o : operation) (held : list mutex) (write : bool) (x : variable) : bool :=
  match guard x with
  | Some m => bool_decide (m ∈ held)
  | None => if write then writes o x else uses o x
  end.
Definition rules (o : operation) : discipline := MkDiscipline (λ _ _, true) (may o) (λ _ _, true).

(** What one of the operations of a thread may do. *)
Definition rules_of (l : list operation) : discipline :=
  MkDiscipline (λ _ _, true) (λ held w x, existsb (λ o, may o held w x) l) (λ _ _, true).

(** ** Races *)
Definition next (t : thread) : option op := head (rest t).

Definition race (ts : list thread) (x : variable) : Prop :=
  ∃ i j t u w, i ≠ j ∧ ts !! i = Some t ∧ ts !! j = Some u ∧ next t = Some (Write x) ∧ next u = Some (Access w x).

(** The threads run in the given order; [None] if one of them has to wait. *)
Fixpoint schedule (order : list nat) (ts : list thread) : option (list thread) :=
  match order with
  | [] => Some ts
  | i :: order => t ← ts !! i; t' ← advance ts t; schedule order (<[i := t']> ts)
  end.

Lemma schedule_reaches order ts0 ts ts' : reaches ts0 ts → schedule order ts = Some ts' → reaches ts0 ts'.
Proof.
  revert ts. induction order as [|i order IH]; intros ts Hr; cbn; [by intros [= <-]|].
  intros (t & Ht & (t' & Ha & E)%bind_Some)%bind_Some. eapply IH; [|exact E]. eapply reaches_step; [done|by econstructor].
Qed.

(** ** A mutex has one holder *)
Definition exclusive (ts : list thread) : Prop :=
  ∀ i j t u m, i ≠ j → ts !! i = Some t → ts !! j = Some u → m ∈ holds t → m ∈ holds u → False.

(** A mutex that is taken was free; no other is taken. *)
Lemma advance_holds ts t t' m :
  advance ts t = Some t' → m ∈ holds t' → m ∈ holds t ∨ free m ts = true.
Proof.
  unfold advance. destruct (rest t) as [|[k|k|w x|k] p]; [done|..].
  - destruct (free k ts) eqn:Ef; [|done]. intros [= <-]. cbn. intros [->|Hm]%elem_of_cons; [by right|by left].
  - intros [= <-]. cbn. intros [_ Hm]%list_elem_of_filter. by left.
  - intros [= <-]. by left.
  - destruct (over k ts); [|done]. intros [= <-]. by left.
Qed.

Lemma step_exclusive ts ts' : step ts ts' → exclusive ts → exclusive ts'.
Proof.
  intros [i t t' ts0 Hi Ha] He.
  assert (∀ j u m, i ≠ j → ts0 !! j = Some u → m ∈ holds t' → m ∈ holds u → False) as Hnew.
  { intros j u m Hij Hj Ht' Hu. destruct (advance_holds _ _ _ _ Ha Ht') as [Ht|Hf]; [by eapply (He i j)|].
    rewrite free_spec in Hf. eapply Hf; [by eapply list_elem_of_lookup_2|done]. }
  intros j k a b m Hjk [(-> & <- & _)|[Hj1 Hj]]%list_lookup_insert_Some
    [(-> & <- & _)|[Hk1 Hk]]%list_lookup_insert_Some Hm1 Hm2; [done|by eapply Hnew|by eapply Hnew|by eapply (He j k)].
Qed.

Lemma starts_exclusive ps : exclusive (starts ps).
Proof.
  intros i j t u m _ Hi _ Hm. unfold starts in Hi. rewrite list_lookup_fmap in Hi.
  apply fmap_Some in Hi as (l & _ & ->). by apply elem_of_nil in Hm.
Qed.

(** ** The operations follow the rules *)
Lemma operation_rules o : block (rules o) [] (code o).
Proof.
  destruct o as [access rate v|l| |l|running l tls limiter monitor workers|a m workers| | |b| |];
    try destruct b as [[]|]; try destruct running; try (destruct access, rate, v as [| | | | | |[]]);
    cbn [code]; blocks; done.
Qed.

Lemma keeps_weaken D D' p : ∀ held,
  (∀ held m, may_lock D' held m = true) → (∀ held j, may_join D' held j = true) →
  (∀ held w x, may_access D held w x = true → may_access D' held w x = true) →
  keeps D held p = true → keeps D' held p = true.
Proof.
  induction p as [|[m|m|w x|j] p IH]; intros held Hl Hj Ha; cbn; [done|..]; rewrite !andb_true_iff; rewrite ?Hl, ?Hj.
  - intros [[? _] ?]. auto.
  - intros [? ?]. auto.
  - intros [? ?]. auto.
  - intros [_ ?]. auto.
Qed.

Lemma keeps_then D p q : ∀ held, keeps D held p = true → keeps D [] q = true → keeps D held (p ++ q) = true.
Proof.
  induction p as [|[m|m|w x|j] p IH]; intros held; cbn [keeps app];
    [by intros ->%bool_decide_eq_true|..]; rewrite !andb_true_iff; naive_solver.
Qed.

Lemma thread_rules l o : o ∈ l → block (rules_of l) [] (code o).
Proof.
  intros Ho q Hq. apply keeps_then; [|done]. apply (keeps_weaken (rules o)); [done|done| |by apply block_keeps, operation_rules].
  intros held w x Hm. apply existsb_exists. exists o. split; [by apply list_elem_of_In|done].
Qed.

Lemma access_allowed D held p w x :
  keeps D held p = true → head p = Some (Access w x) → may_access D held w x = true.
Proof. destruct p as [|o p]; [done|]. intros Hk [= ->]. by apply andb_true_iff in Hk as [? _]. Qed.

(** ** Where the races are *)
Definition accepts (o : operation) : bool := match o with OpAccept _ _ _ => true | _ => false end.
Definition stops (o : operation) : bool := match o with OpStop _ _ _ => true | _ => false end.

(** What the program as it is runs beside its threads. *)
Definition ordinary (o : operation) : bool :=
  match o with OpStart false _ _ _ _ _ | OpReload _ | OpSetLevel => false | _ => true end.

(** C15: Where the data races are.  However many threads there are (one of them the
    accept loop), whatever the callers of the daemon's methods do ([start], [stop]
    and [reloadConfig] included), and however the threads interleave: if two
    threads are ever about to access the same shared variable, one of them to
    write it, then no mutex guards that variable, and one thread runs an operation
    that [writes] it and the other one that [uses] it: the listening socket, for
    [stop] or [start] and the accept loop; the handles, for two calls of [stop] or
    [start]; the copy of the modules, for the accept loop and a worker; the TLS
    context, for [start] and the accept loop; the settings, for [start] or
    [reloadConfig] and anything; the level of the log, for [setLevel].  In the
    program as it is, where nobody starts, reloads or sets the level beside the
    running threads and one thread stops it, only the socket and the copy of the
    modules are left.  (Races of each kind follow.) *)
Theorem races_located ps ts x :
  (∀ i j o o', runs ps i o → runs ps j o' → accepts o = true → accepts o' = true → i = j) →
  reaches (starts ps) ts → race ts x →
  guard x = None ∧
  (∃ i j o o', i ≠ j ∧ runs ps i o ∧ runs ps j o' ∧ writes o x = true ∧ uses o' x = true) ∧
  ((∀ i o, runs ps i o → ordinary o = true) →
   (∀ i j o o', runs ps i o → runs ps j o' → stops o = true → stops o' = true → i = j) →
   x = ListenSocket ∨ x = ModulesCopy).
Proof.
  intros Hone Hr (i & j & t & u & w & Hij & Hi & Hj & Ht & Hu).
  set (ops k := default [] (ps !! k)).
  assert (disciplined (λ k, rules_of (ops k)) ts) as Hd.
  { apply (reaches_invariant (disciplined (λ k, rules_of (ops k))) (starts ps) ts); [apply step_disciplined| |done].
    apply starts_disciplined. intros k l o Hk Ho. unfold ops. rewrite Hk. by apply thread_rules. }
  assert (exclusive ts) as He
    by (apply (reaches_invariant exclusive (starts ps) ts); [apply step_exclusive|apply starts_exclusive|done]).
  assert (∀ k o, o ∈ ops k → runs ps k o) as Hops.
  { intros k o. unfold ops, runs. destruct (ps !! k) as [l|]; [by exists l|by intros ?%elem_of_nil]. }
  pose proof (access_allowed _ _ _ _ _ (Hd i t Hi) Ht) as Mt. pose proof (access_allowed _ _ _ _ _ (Hd j u Hj) Hu) as Mu.
  apply existsb_exists in Mt as (o & Ho%list_elem_of_In%Hops & Mt). apply existsb_exists in Mu as (o' & Ho'%list_elem_of_In%Hops & Mu).
  unfold may in Mt, Mu. destruct (guard x) as [m|] eqn:Eg.
  { apply bool_decide_eq_true in Mt, Mu. destruct (He i j t u m Hij Hi Hj Mt Mu). }
  assert (uses o' x = true) as Hu' by (destruct w; [unfold uses; by rewrite Mu|done]).
  split; [done|]. split; [by exists i, j, o, o'|]. intros Hord Hstop.
  pose proof (Hord _ _ Ho) as Ro. pose proof (Hord _ _ Ho') as Ro'.
  destruct x; try done; [by left| |by right| | |]; exfalso.
  - assert (stops o = true) as So by (by destruct o as [| | | |[]| | | | | |]).
    assert (stops o' = true) as So' by (by destruct o' as [| | | |[]| | | | | |]). by apply Hij, (Hstop _ _ o o').
  - assert (accepts o = true) as So by (by destruct o as [| | | |[]| | | | | |]).
    assert (accepts o' = true) as So' by (by destruct o' as [| | | |[]| | | | | |]). by apply Hij, (Hone _ _ o o').
  - by destruct o as [| | | |[]| | | | | |].
  - by destruct o as [| | | |[]| | | | | |].
Qed.

(** ** The races there are *)

(** A race that a schedule leads to: thread [i] is about to write. *)
Lemma race_at ps order ts x i j t u w :
  schedule order (starts ps) = Some ts → i ≠ j → ts !! i = Some t → ts !! j = Some u →
  next t = Some (Write x) → next u = Some (Access w x) → reaches (starts ps) ts ∧ race ts x.
Proof.
  intros E Hij Hi Hj Ht Hu. split; [eapply schedule_reaches; [apply reaches_refl|exact E]|]. by exists i, j, t, u, w.
Qed.
Ltac race_by order i j :=
  match goal with
  | |- ∃ ts, reaches (starts ?ps) ts ∧ race ts _ =>
      let r := eval vm_compute in (schedule order (starts ps)) in
      match r with
      | Some ?ts => exists ts; eapply (race_at ps order ts _ i j); vm_compute; [reflexivity|discriminate|reflexivity..]
      end
  end.

(** The descriptor: [stop] writes it while the accept loop is about to read it. *)
Theorem socket_race : ∃ ts,
  reaches (starts [[OpAccept true true NoConnection]; [OpStop (Some 0%nat) None []]]) ts ∧ race ts ListenSocket.
Proof. race_by (replicate 7 1%nat) 1%nat 0%nat. Qed.

(** The copy of the modules: the accept loop destroys it at the end of the
    iteration that made it for a session, while a worker is about to look a module
    up through the session's handler. *)
Definition first_session : list (list operation) :=
  [[OpAccept false false (Accepted false)]; [OpWorker [(false, false)]]].
Definition accepted : list nat := replicate (length (code (OpAccept false false (Accepted false))) - 1) 0%nat.

Theorem modules_copy_race : ∃ ts, reaches (starts first_session) ts ∧ race ts ModulesCopy.
Proof. race_by (accepted ++ replicate 4 1%nat) 0%nat 1%nat. Qed.

(** It need not be a matter of luck: the worker looks modules up after the
    destruction, with the iteration over. *)
Theorem modules_copy_dangles : ∃ ts,
  schedule (accepted ++ [0%nat] ++ replicate 4 1%nat) (starts first_session) = Some ts ∧
  rest <$> ts !! 0%nat = Some [] ∧ (next <$> ts !! 1%nat) = Some (Some (Read ModulesCopy)).
Proof. eexists. split; [vm_compute; reflexivity|]. split; reflexivity. Qed.

(** The handles: two callers stop the daemon at once, and wait for the same
    thread. *)
Theorem handles_race : ∃ ts,
  reaches (starts [[OpMonitor]; [OpStop (Some 0%nat) None []]; [OpStop (Some 0%nat) None []]]) ts ∧ race ts Handles.
Proof. race_by (0%nat :: replicate 15 1%nat ++ replicate 13 2%nat) 1%nat 2%nat. Qed.

(** A reload replaces the configuration that a worker is about to read. *)
Theorem reload_race : ∃ ts,
  reaches (starts [[OpWorker [(true, false)]]; [OpReload []]]) ts ∧ race ts Settings.
Proof. race_by (replicate 3 0%nat ++ replicate 5 1%nat) 1%nat 0%nat. Qed.

(** The logger's level is set under its mutex and read without it. *)
Theorem log_level_race : ∃ ts, reaches (starts [[OpLog]; [OpSetLevel]]) ts ∧ race ts LogSettings.
Proof. race_by [1%nat] 1%nat 0%nat. Qed.

(** ** Witness *)
Definition running_daemon : list (list operation) :=
  [[OpAccept true true (Accepted false); OpAccept true true NoConnection]; [OpWorker [(true, false)]]; [OpWorker []];
   [OpMonitor]; [OpStatus; OpStop (Some 0%nat) (Some 3%nat) [Some 1%nat; Some 2%nat]]].

(** Two workers, one inside its first section: the race for the list is not there. *)
Lemma races_located_witness :
  ∃ ts, schedule [1%nat] (starts running_daemon) = Some ts ∧
    (next <$> ts !! 1%nat) = Some (Some (Write ActiveSessions)) ∧ ¬ race ts ActiveSessions.
Proof.
  destruct (schedule [1%nat] (starts running_daemon)) as [ts|] eqn:E; [|vm_compute in E; discriminate].
  exists ts. split; [reflexivity|]. split; [vm_compute in E; injection E as <-; reflexivity|]. intros Hrace.
  assert (∀ k o, runs running_daemon k o → accepts o = true → k = 0%nat) as Hone.
  { intros k o (l & Hl & Ho) Ha. destruct k as [|[|[|[|[|k]]]]]; cbn in Hl; try discriminate Hl; [reflexivity|..];
      injection Hl as <-; repeat (apply elem_of_cons in Ho as [->|Ho]); try discriminate Ha; by apply elem_of_nil in Ho. }
  pose proof (proj1 (races_located running_daemon ts ActiveSessions
    (λ i j o o' Hi Hj Ho Ho', eq_trans (Hone i o Hi Ho) (eq_sym (Hone j o' Hj Ho')))
    (schedule_reaches _ _ _ _ (reaches_refl _) E) Hrace)) as H. discriminate H.
Defined.
