(* ===== verification/CppString.v ===== *)
(** * The part of [std::string], [std::istream] and [<string>] the program uses

    Strings are byte strings ([String.string]); positions are [nat], and
    [std::string::npos] is [None].  Every operation is executable.  Each
    definition says which C++ call it stands for. *)
From S2P Require Import Prelude.

(** ** Characters, in the "C" locale *)
Definition ord (c : ascii) : Z := Z.of_N (N_of_ascii c).
Definition chr (z : Z) : ascii := ascii_of_N (Z.to_N z).

(** [std::isspace]: space, tab, newline, vertical tab, form feed, return. *)
Definition isspace (c : ascii) : bool := ((9 <=? ord c) && (ord c <=? 13) || (ord c =? 32))%Z.
Definition isdigit (c : ascii) : bool := ((48 <=? ord c) && (ord c <=? 57))%Z.
Definition isupper (c : ascii) : bool := ((65 <=? ord c) && (ord c <=? 90))%Z.
Definition islower (c : ascii) : bool := ((97 <=? ord c) && (ord c <=? 122))%Z.
Definition isalnum (c : ascii) : bool := isdigit c || isupper c || islower c.
Definition toupper (c : ascii) : ascii := if islower c then chr (ord c - 32) else c.
Definition tolower (c : ascii) : ascii := if isupper c then chr (ord c + 32) else c.

(** The blanks of [find_first_not_of(" \t")]. *)
Definition isblank (c : ascii) : bool := ((ord c =? 9) || (ord c =? 32))%Z.

Definition newline : ascii := chr 10.
Definition dquote : ascii := chr 34.
Definition nl : string := String newline "".

(** ** Basic operations *)
Fixpoint str_take (n : nat) (s : string) : string :=
  match n, s with
  | S n, String c s => String c (str_take n s)
  | _, _ => ""
  end.

Fixpoint str_drop (n : nat) (s : string) : string :=
  match n, s with
  | S n, String _ s => str_drop n s
  | _, _ => s
  end.

(** [s.substr(pos, len)] and [s.substr(pos)], for [pos <= s.size()] (the
    callers only use positions [find] returned). *)
Definition substr (pos len : nat) (s : string) : string := str_take len (str_drop pos s).
Definition substr_from (pos : nat) (s : string) : string := str_drop pos s.

Fixpoint str_map (f : ascii → ascii) (s : string) : string :=
  match s with
  | "" => ""
  | String c s => String (f c) (str_map f s)
  end.

Fixpoint str_forallb (p : ascii → bool) (s : string) : bool :=
  match s with
  | "" => true
  | String c s => p c && str_forallb p s
  end.

Definition is_empty (s : string) : bool :=
  match s with "" => true | _ => false end.

(** [s.c_str()] read back as a C string: up to the first NUL. *)
Fixpoint c_str (s : string) : string :=
  match s with
  | "" => ""
  | String c s => if (ord c =? 0)%Z then "" else String c (c_str s)
  end.

(** ** Searching *)
Fixpoint find_char (x : ascii) (s : string) : option nat :=
  match s with
  | "" => None
  | String c s => if bool_decide (c = x) then Some 0 else S <$> find_char x s
  end.

(** [s.find(x, pos)] *)
Definition find_char_from (x : ascii) (pos : nat) (s : string) : option nat :=
  Nat.add pos <$> find_char x (str_drop pos s).

(** [s.find(pat) == 0]; also [s.compare(0, n, pat) == 0] with [n] the length
    of [pat], and [s.rfind(pat, 0) == 0]. *)
Fixpoint starts_with (pat s : string) : bool :=
  match pat, s with
  | "", _ => true
  | String c pat, String d s => bool_decide (c = d) && starts_with pat s
  | String _ _, "" => false
  end.

(** [s.find(pat)] *)
Fixpoint find_str (pat s : string) : option nat :=
  if starts_with pat s then Some 0 else
  match s with
  | "" => None
  | String _ s => S <$> find_str pat s
  end.

Definition find_str_from (pat : string) (pos : nat) (s : string) : option nat :=
  Nat.add pos <$> find_str pat (str_drop pos s).

(** [s.find(pat) != npos] *)
Definition contains (pat s : string) : bool := bool_decide (is_Some (find_str pat s)).

(** [s.back()], for a non-empty string. *)
Fixpoint last_char (s : string) : option ascii :=
  match s with
  | "" => None
  | String c "" => Some c
  | String _ s => last_char s
  end.

(** ** Trimming

    [s.erase(0, s.find_first_not_of(" \t"))] and
    [s.erase(s.find_last_not_of(" \t") + 1)]; both erase the whole string when
    it holds nothing but blanks ([npos + 1] is [0]). *)
Fixpoint ltrim (s : string) : string :=
  match s with
  | "" => ""
  | String c s' => if isblank c then ltrim s' else s
  end.

Fixpoint rtrim (s : string) : string :=
  match s with
  | "" => ""
  | String c s' =>
      match rtrim s' with
      | "" => if isblank c then "" else String c ""
      | r => String c r
      end
  end.

Definition trim (s : string) : string := rtrim (ltrim s).

(** ** Input streams *)

(** Split at the first [delim]; the delimiter is dropped, and [None] is the
    case without one. *)
Fixpoint split_at (delim : ascii) (s : string) : string * option string :=
  match s with
  | "" => ("", None)
  | String c s =>
      if bool_decide (c = delim) then ("", Some s)
      else let '(a, b) := split_at delim s in (String c a, b)
  end.

(** [std::getline(stream, line, delim)] on the rest [s] of a stream: [None] is
    failure (nothing left); otherwise the line and what is left. *)
Definition getline (delim : ascii) (s : string) : option (string * string) :=
  match s with
  | "" => None
  | _ => let '(a, b) := split_at delim s in Some (a, default "" b)
  end.

(** The lines a [while (std::getline(...))] loop sees. *)
Fixpoint getlines (delim : ascii) (s : string) : list string :=
  match s with
  | "" => []
  | String c s' =>
      if bool_decide (c = delim) then "" :: getlines delim s'
      else match s' with
           | "" => [String c ""]
           | _ => match getlines delim s' with
                  | [] => [String c ""]
                  | l :: ls => String c l :: ls
                  end
           end
  end.

(** The words [stream >> w] extracts one after the other: maximal runs of
    non-space characters. *)
Fixpoint words (s : string) : list string :=
  match s with
  | "" => []
  | String c s' =>
      if isspace c then words s' else
      match s' with
      | "" => [String c ""]
      | String d _ =>
          if isspace d then String c "" :: words s'
          else match words s' with
               | [] => [String c ""]
               | w :: ws => String c w :: ws
               end
      end
  end.

(** The [n]-th extraction; an extraction that fails leaves the empty string. *)
Definition word_at (n : nat) (s : string) : string := default "" (words s !! n).

(** ** Numbers *)
Definition to_string (z : Z) : string := pretty z.

(** The digits at the head of [s], as a value and their number. *)
Fixpoint read_digits (acc : Z) (n : nat) (s : string) : Z * nat :=
  match s with
  | "" => (acc, n)
  | String c s => if isdigit c then read_digits (acc * 10 + (ord c - 48)) (S n) s
                  else (acc, n)
  end.

Fixpoint skip_spaces (s : string) : string :=
  match s with
  | "" => ""
  | String c s' => if isspace c then skip_spaces s' else s
  end.

(** The subject of [strtol]/[strtoul] in base 10: sign and magnitude, [None]
    when there is no digit ([std::invalid_argument]). *)
Definition strto (s : string) : option (bool * Z) :=
  let s := skip_spaces s in
  let '(neg, s) := match s with
                   | String "-"%char s => (true, s)
                   | String "+"%char s => (false, s)
                   | _ => (false, s)
                   end in
  let '(v, n) := read_digits 0 0 s in
  if bool_decide (n = 0) then None else Some (neg, v).

(** [std::stoi]; [None] is an exception. *)
Definition stoi (s : string) : option Z :=
  match strto s with
  | None => None
  | Some (neg, m) =>
      let v := if neg : bool then (- m)%Z else m in
      if ((- 2 ^ 31 <=? v) && (v <? 2 ^ 31))%Z then Some v else None
  end.

(** [std::stoul] with a 64-bit [unsigned long]: a minus sign negates modulo
    2^64; [None] is an exception. *)
Definition stoul (s : string) : option Z :=
  match strto s with
  | None => None
  | Some (neg, m) =>
      if (m <? 2 ^ 64)%Z
      then Some (if neg : bool then ((- m) `mod` 2 ^ 64)%Z else m)
      else None
  end.

(** ** Lowercase hexadecimal, two digits a byte
    ([std::hex << std::setw(2) << std::setfill('0')]). *)
Definition hex_digit (n : Z) : ascii := if (n <? 10)%Z then chr (48 + n) else chr (87 + n).

Fixpoint to_hex (s : string) : string :=
  match s with
  | "" => ""
  | String c s =>
      String (hex_digit (ord c `div` 16)%Z) (String (hex_digit (ord c `mod` 16)%Z) (to_hex s))
  end.

(** ** Lemmas: concatenation, [str_take], [str_drop] *)
Lemma app_nil_str s : s +:+ "" = s.
Proof. induction s; [done|]. simpl. by rewrite <- IHs at 2. Qed.

Lemma app_assoc_str s t u : (s +:+ t) +:+ u = s +:+ (t +:+ u).
Proof. induction s; [done|]. change (String a ((s +:+ t) +:+ u) = String a (s +:+ t +:+ u)). by rewrite IHs. Qed.

Lemma app_cons_str c s t : String c s +:+ t = String c (s +:+ t).
Proof. done. Qed.

Lemma length_app_str s t : String.length (s +:+ t) = String.length s + String.length t.
Proof. induction s; [done|]. rewrite app_cons_str. simpl. by rewrite IHs. Qed.

Lemma app_inj_r_str s t u : s +:+ t = s +:+ u → t = u.
Proof. apply (inj (String.app s)). Qed.

Lemma app_nil_l_str s : "" +:+ s = s.
Proof. done. Qed.

Lemma app_inj_l_str s t u : t +:+ s = u +:+ s → t = u.
Proof.
  revert u; induction t as [|c t IH]; intros [|d u] H; [done|..].
  - apply (f_equal String.length) in H. rewrite !length_app_str in H. simpl in H. lia.
  - apply (f_equal String.length) in H. rewrite !length_app_str in H. simpl in H. lia.
  - rewrite !app_cons_str in H. injection H as -> H. by rewrite (IH u).
Qed.

Lemma take_app_str s t : str_take (String.length s) (s +:+ t) = s.
Proof. induction s; [by destruct t|]. rewrite app_cons_str. simpl. by rewrite IHs. Qed.

Lemma drop_app_str s t : str_drop (String.length s) (s +:+ t) = t.
Proof. induction s; [by destruct t|]. done. Qed.

Lemma drop_S_app_str s c t : str_drop (S (String.length s)) (s +:+ String c t) = t.
Proof. induction s; [done|]. rewrite app_cons_str. done. Qed.

Lemma drop_0 s : str_drop 0 s = s.
Proof. by destruct s. Qed.

Lemma take_drop_str n s : str_take n s +:+ str_drop n s = s.
Proof.
  revert s; induction n as [|n IH]; intros [|c s]; try done.
  simpl. rewrite app_cons_str. by rewrite IH.
Qed.

Lemma length_drop_str n s : String.length (str_drop n s) = String.length s - n.
Proof. revert s; induction n; intros [|c s]; simpl; auto. Qed.

Lemma length_take_str n s : String.length (str_take n s) = n `min` String.length s.
Proof. revert s; induction n; intros [|c s]; simpl; auto. Qed.

Lemma take_ge_str n s : (String.length s ≤ n)%nat → str_take n s = s.
Proof.
  revert s; induction n as [|n IH]; intros [|c s] Hn; simpl in *; try done; [lia|]. rewrite IH; [done|lia].
Qed.

Lemma take_all_str s : str_take (String.length s) s = s.
Proof. by apply take_ge_str. Qed.

Lemma drop_all_str s : str_drop (String.length s) s = "".
Proof. by induction s. Qed.

Lemma drop_drop_str m n s : str_drop m (str_drop n s) = str_drop (n + m) s.
Proof.
  revert s; induction n as [|n IH]; intros s; [by rewrite drop_0|].
  destruct s; simpl; [by destruct m|]. apply IH.
Qed.

Lemma is_empty_true s : is_empty s = true ↔ s = "".
Proof. by destruct s. Qed.

Lemma is_empty_false s : is_empty s = false ↔ s ≠ "".
Proof. by destruct s. Qed.

(** ** Lemmas: predicates on all characters *)
Lemma forallb_app_str p s t : str_forallb p (s +:+ t) = str_forallb p s && str_forallb p t.
Proof. induction s; [done|]. rewrite app_cons_str. simpl. by rewrite IHs, andb_assoc. Qed.

Lemma forallb_impl_str (p q : ascii → bool) s :
  (∀ c, p c = true → q c = true) → str_forallb p s = true → str_forallb q s = true.
Proof.
  intros H. induction s; simpl; [done|]. intros [??]%andb_true_iff.
  rewrite H, IHs by done. done.
Qed.

(** [x] does not occur in [s]. *)
Definition no_char (x : ascii) (s : string) : bool :=
  str_forallb (λ c, negb (bool_decide (c = x))) s.

Lemma no_char_cons x c s : no_char x (String c s) = true ↔ c ≠ x ∧ no_char x s = true.
Proof.
  unfold no_char. simpl. rewrite andb_true_iff, negb_true_iff, bool_decide_eq_false. done.
Qed.

Lemma no_char_app x s t : no_char x (s +:+ t) = true ↔ no_char x s = true ∧ no_char x t = true.
Proof. unfold no_char. rewrite forallb_app_str, andb_true_iff. done. Qed.

(** ** Lemmas: searching *)
Lemma find_char_app x a b :
  no_char x a = true → find_char x (a +:+ String x b) = Some (String.length a).
Proof.
  induction a as [|c a IH]; intros H.
  - simpl. by rewrite bool_decide_eq_true_2.
  - apply no_char_cons in H as [? H]. rewrite app_cons_str. simpl.
    by rewrite bool_decide_eq_false_2, IH.
Qed.

Lemma find_char_None x s : find_char x s = None ↔ no_char x s = true.
Proof.
  induction s as [|c s IH]; [done|]. rewrite no_char_cons. simpl.
  case_bool_decide; [|rewrite fmap_None, IH; tauto].
  split; [done|]. intros [? _]. congruence.
Qed.

Lemma find_char_Some x s p :
  find_char x s = Some p →
  ∃ a b, s = a +:+ String x b ∧ no_char x a = true ∧ p = String.length a.
Proof.
  revert p; induction s as [|c s IH]; intros p; [done|]. simpl.
  case_bool_decide as Hc.
  - intros [= <-]. subst c. by exists "", s.
  - intros (q & Hq & ->)%fmap_Some. destruct (IH q Hq) as (a & b & -> & ? & ->).
    exists (String c a), b. rewrite no_char_cons. done.
Qed.

Lemma find_char_lt x s p : find_char x s = Some p → p < String.length s.
Proof.
  intros (a & b & -> & _ & ->)%find_char_Some. rewrite length_app_str. simpl. lia.
Qed.

Lemma prefix_app p s : starts_with p s = true ↔ ∃ t, s = p +:+ t.
Proof.
  revert s; induction p as [|c p IH]; intros s.
  - split; [|by destruct s]. intros _. by exists s.
  - destruct s as [|d s]; simpl.
    + split; [done|]. intros [t H]. by rewrite app_cons_str in H.
    + rewrite andb_true_iff, bool_decide_eq_true, IH. split.
      * intros [-> [t ->]]. by exists t.
      * intros [t H]. rewrite app_cons_str in H. injection H as -> ->. eauto.
Qed.

Lemma starts_with_app p t : starts_with p (p +:+ t) = true.
Proof. apply prefix_app. by exists t. Qed.

Lemma find_str_Some pat s p :
  find_str pat s = Some p → ∃ a b, s = a +:+ pat +:+ b ∧ p = String.length a.
Proof.
  revert p; induction s as [|c s IH]; intros p; simpl.
  - destruct (starts_with pat "") eqn:E; [|done].
    apply prefix_app in E as [t ->]. intros Hp. injection Hp as <-. by exists "", t.
  - destruct (starts_with pat (String c s)) eqn:E.
    + apply prefix_app in E as [t ->]. intros Hp. injection Hp as <-. by exists "", t.
    + intros (q & Hq & ->)%fmap_Some. destruct (IH q Hq) as (a & b & -> & ->).
      by exists (String c a), b.
Qed.

Lemma find_str_prefix pat s : starts_with pat s = true → find_str pat s = Some 0.
Proof. intros H. destruct s; simpl; by rewrite H. Qed.

Lemma contains_app pat a b : contains pat (a +:+ pat +:+ b) = true.
Proof.
  apply bool_decide_eq_true. induction a as [|c a IH].
  - rewrite app_nil_l_str, find_str_prefix by apply starts_with_app. by eexists.
  - rewrite app_cons_str. simpl. case_match; [by eexists|]. by apply fmap_is_Some.
Qed.

Lemma contains_exists pat s : contains pat s = true ↔ ∃ a b, s = a +:+ pat +:+ b.
Proof.
  split.
  - intros [p Hp]%bool_decide_eq_true. destruct (find_str_Some _ _ _ Hp) as (a&b&->&_). eauto.
  - intros (a & b & ->). apply contains_app.
Qed.

(** ** Lemmas: trimming *)
Definition no_blank (s : string) : bool := str_forallb (λ c, negb (isblank c)) s.

Lemma ltrim_no_blank s : no_blank s = true → ltrim s = s.
Proof. destruct s; [done|]. unfold no_blank. simpl. intros [->%negb_true_iff _]%andb_true_iff. done. Qed.

Lemma rtrim_no_blank s : no_blank s = true → rtrim s = s.
Proof.
  unfold no_blank. induction s; [done|]. simpl. intros [Ha%negb_true_iff H]%andb_true_iff.
  rewrite IHs by done. rewrite Ha. by destruct s.
Qed.

Lemma trim_no_blank s : no_blank s = true → trim s = s.
Proof. intros H. unfold trim. by rewrite ltrim_no_blank, rtrim_no_blank. Qed.

Lemma ltrim_head s c t : ltrim s = String c t → isblank c = false.
Proof. induction s; simpl; [done|]. case_match; [auto|]. congruence. Qed.

Lemma rtrim_snoc s c : isblank c = false → rtrim (s +:+ String c "") = s +:+ String c "".
Proof.
  intros Hc. induction s as [|d s IH].
  - simpl. by rewrite Hc.
  - rewrite app_cons_str. simpl. rewrite IH. destruct s; done.
Qed.

Lemma rtrim_idem s : rtrim (rtrim s) = rtrim s.
Proof.
  induction s as [|c s IH]; [done|]. simpl. destruct (rtrim s) eqn:E.
  - destruct (isblank c) eqn:B; [done|]. simpl. by rewrite B.
  - change (rtrim (String c (String a s0))) with
      (match rtrim (String a s0) with "" => if isblank c then "" else String c ""
       | r => String c r end).
    by rewrite IH.
Qed.

Lemma rtrim_ltrim s : ltrim s = s → ltrim (rtrim s) = rtrim s.
Proof.
  destruct s as [|c s]; [done|]. simpl. destruct (isblank c) eqn:B.
  - intros H. exfalso. assert (∀ u, String.length (ltrim u) ≤ String.length u) as L.
    { induction u; simpl; [lia|]. case_match; simpl; lia. }
    specialize (L s). rewrite H in L. simpl in L. lia.
  - intros _. destruct (rtrim s); simpl; by rewrite B.
Qed.

Lemma ltrim_idem s : ltrim (ltrim s) = ltrim s.
Proof. induction s; simpl; [done|]. destruct (isblank a) eqn:B; [done|]. simpl. by rewrite B. Qed.

Lemma trim_idem s : trim (trim s) = trim s.
Proof.
  unfold trim. rewrite (rtrim_ltrim (ltrim s)) by apply ltrim_idem. apply rtrim_idem.
Qed.

Lemma rtrim_app s t : rtrim t = t → t ≠ "" → rtrim (s +:+ t) = s +:+ t.
Proof.
  intros Ht Hne. induction s as [|c s IH]; [done|]. rewrite app_cons_str. cbn [rtrim]. rewrite IH.
  destruct (s +:+ t) eqn:E; [|done]. apply (f_equal String.length) in E.
  rewrite length_app_str in E. destruct t; [done|simpl in E; lia].
Qed.

Lemma ltrim_app s t : ltrim s = s → s ≠ "" → ltrim (s +:+ t) = s +:+ t.
Proof.
  intros Hs Hne. destruct s as [|c s]; [done|]. apply ltrim_head in Hs as Hc. rewrite app_cons_str. simpl. by rewrite Hc.
Qed.

Lemma trim_parts s : trim s = s → ltrim s = s ∧ rtrim s = s.
Proof.
  intros Hs. split.
  - rewrite <- Hs at 1. unfold trim. rewrite rtrim_ltrim by apply ltrim_idem. exact Hs.
  - rewrite <- Hs at 1. unfold trim. rewrite rtrim_idem. exact Hs.
Qed.

(** A text whose ends are trimmed is trimmed. *)
Lemma trim_between s m t : trim s = s → s ≠ "" → trim t = t → t ≠ "" → trim (s +:+ m +:+ t) = s +:+ m +:+ t.
Proof.
  intros [Hs _]%trim_parts Hs' [_ Ht]%trim_parts Ht'. unfold trim. rewrite ltrim_app by done.
  rewrite <- app_assoc_str. by apply rtrim_app.
Qed.

Lemma rtrim_space s : rtrim (s +:+ " ") = rtrim s.
Proof. induction s as [|c s IH]; [done|]. rewrite app_cons_str. simpl. by rewrite IH. Qed.

(** ** Lemmas: words and lines *)
Definition no_space (s : string) : bool := str_forallb (λ c, negb (isspace c)) s.

(** A word: non-empty, without white space. *)
Definition is_word (s : string) : bool := negb (is_empty s) && no_space s.

Lemma no_space_cons c s : no_space (String c s) = true ↔ isspace c = false ∧ no_space s = true.
Proof. unfold no_space. simpl. by rewrite andb_true_iff, negb_true_iff. Qed.

Lemma words_last w : is_word w = true → words w = [w].
Proof.
  unfold is_word. rewrite andb_true_iff. intros [Hne H]. revert Hne H.
  induction w as [|c w IH]; [done|]. intros _ [Hc H]%no_space_cons. simpl. rewrite Hc.
  destruct w as [|d w]; [done|]. rewrite IH by done.
  by apply no_space_cons in H as [-> _].
Qed.

Lemma words_app w c s :
  is_word w = true → isspace c = true → words (w +:+ String c s) = w :: words s.
Proof.
  unfold is_word. rewrite andb_true_iff. intros [Hne H] Hc. revert Hne H.
  induction w as [|d w IH]; [done|]. intros _ [Hd H]%no_space_cons.
  rewrite app_cons_str. simpl. rewrite Hd. destruct w as [|e w].
  - rewrite app_nil_l_str, Hc. simpl. by rewrite Hc.
  - rewrite IH by done. rewrite app_cons_str. by apply no_space_cons in H as [-> _].
Qed.

(** A space separates. *)
Lemma words_space a s : words (a +:+ String " " s) = words a ++ words s.
Proof.
  assert (∀ d t, isspace d = false → words (String d t) ≠ []) as Hne.
  { intros d t Hd. cbn. rewrite Hd. by repeat case_match. }
  induction a as [|c a IH]; [done|]. rewrite app_cons_str. destruct a as [|d a].
  - rewrite app_nil_l_str. cbn. by destruct (isspace c).
  - rewrite app_cons_str in IH |- *. change (words (String c (String d (a +:+ String " " s)))) with
      (if isspace c then words (String d (a +:+ String " " s)) else
       if isspace d then String c "" :: words (String d (a +:+ String " " s))
       else match words (String d (a +:+ String " " s)) with [] => [String c ""] | w :: ws => String c w :: ws end).
    change (words (String c (String d a))) with
      (if isspace c then words (String d a) else if isspace d then String c "" :: words (String d a)
       else match words (String d a) with [] => [String c ""] | w :: ws => String c w :: ws end).
    rewrite IH. destruct (isspace c); [done|]. destruct (isspace d) eqn:Ed; [done|].
    specialize (Hne d a Ed). by destruct (words (String d a)).
Qed.

Lemma words_word s w : w ∈ words s → is_word w = true.
Proof.
  revert w; induction s as [|c s IH]; intros w; simpl; [by intros ?%elem_of_nil|].
  destruct (isspace c) eqn:Hc; [apply IH|]. unfold is_word in *.
  assert (no_space (String c "") = true) as H1 by (unfold no_space; simpl; by rewrite Hc).
  destruct s as [|d s]; [by intros ->%list_elem_of_singleton|].
  destruct (isspace d) eqn:Hd.
  - intros [->|Hw]%elem_of_cons; auto.
  - destruct (words (String d s)) as [|v vs]; [by intros ->%list_elem_of_singleton|].
    intros [->|Hw]%elem_of_cons; [|apply IH; by right].
    assert (no_space v = true) as Hv.
    { specialize (IH v (list_elem_of_here v vs)). by apply andb_true_iff in IH as [_ ?]. }
    simpl. by apply no_space_cons.
Qed.

Lemma word_at_no_space n s : no_space (word_at n s) = true.
Proof.
  unfold word_at. destruct (words s !! n) as [w|] eqn:E; [|done].
  apply list_elem_of_lookup_2, words_word in E. by apply andb_true_iff in E as [_ ?].
Qed.

Lemma getlines_app d a s :
  no_char d a = true → getlines d (a +:+ String d s) = a :: getlines d s.
Proof.
  induction a as [|c a IH]; intros H.
  - rewrite app_nil_l_str. simpl. by rewrite bool_decide_eq_true_2.
  - apply no_char_cons in H as [Hc H]. rewrite app_cons_str. simpl.
    rewrite bool_decide_eq_false_2, IH by done.
    destruct (a +:+ String d s) eqn:E; [|done].
    apply (f_equal String.length) in E. rewrite length_app_str in E. simpl in E. lia.
Qed.

Lemma getlines_last d a : no_char d a = true → a ≠ "" → getlines d a = [a].
Proof.
  induction a as [|c a IH]; intros H Hne; [done|].
  apply no_char_cons in H as [Hc H]. simpl. rewrite bool_decide_eq_false_2 by done.
  destruct a; [done|]. by rewrite IH.
Qed.

Lemma getlines_no_delim d s l : l ∈ getlines d s → no_char d l = true.
Proof.
  revert l; induction s as [|c s IH]; intros l; simpl; [by intros ?%elem_of_nil|].
  case_bool_decide as Hc; [intros [->|?]%elem_of_cons; auto|].
  assert (no_char d (String c "") = true) by (by apply no_char_cons).
  destruct s as [|e s]; [by intros ->%list_elem_of_singleton|].
  destruct (getlines d (String e s)) as [|v vs]; [by intros ->%list_elem_of_singleton|].
  intros [->|?]%elem_of_cons; [|apply IH; by right].
  apply no_char_cons. split; [done|]. apply IH. left.
Qed.

(** [getlines] is what repeated [getline] sees. *)
Lemma getlines_getline d s :
  getlines d s = match getline d s with
                 | None => []
                 | Some (l, rest) => l :: getlines d rest
                 end.
Proof.
  induction s as [|c s IH]; [done|]. simpl. case_bool_decide; [done|].
  rewrite IH. destruct s as [|e s]; [done|].
  unfold getline. destruct (split_at d (String e s)) as [a b] eqn:E. done.
Qed.

Lemma split_at_app d a s : no_char d a = true → split_at d (a +:+ String d s) = (a, Some s).
Proof.
  induction a as [|c a IH]; intros H.
  - rewrite app_nil_l_str. simpl. by rewrite bool_decide_eq_true_2.
  - apply no_char_cons in H as [Hc H]. rewrite app_cons_str. simpl.
    by rewrite bool_decide_eq_false_2, IH.
Qed.

Lemma split_at_none d a : no_char d a = true → split_at d a = (a, None).
Proof.
  induction a as [|c a IH]; intros H; [done|]. apply no_char_cons in H as [Hc H]. simpl.
  by rewrite bool_decide_eq_false_2, IH.
Qed.

Lemma getline_first d a s : no_char d a = true → getline d (a +:+ String d s) = Some (a, s).
Proof.
  intros H. unfold getline. rewrite split_at_app by done. by destruct a.
Qed.

Lemma getline_all d a : no_char d a = true → a ≠ "" → getline d a = Some (a, "").
Proof. intros H Hne. unfold getline. rewrite split_at_none by done. by destruct a. Qed.

(** ** Lemmas: hexadecimal *)
Definition is_hex (c : ascii) : bool := isdigit c || ((97 <=? ord c) && (ord c <=? 102))%Z.

Lemma ord_range c : (0 ≤ ord c < 256)%Z.
Proof. unfold ord. pose proof (N_ascii_bounded c). lia. Qed.

Lemma ord_chr z : (0 ≤ z < 256)%Z → ord (chr z) = z.
Proof. intros H. unfold ord, chr. rewrite N_ascii_embedding by lia. lia. Qed.

Lemma chr_ord c : chr (ord c) = c.
Proof. unfold ord, chr. rewrite N2Z.id. apply ascii_N_embedding. Qed.

Lemma ord_inj c d : ord c = ord d → c = d.
Proof. intros H. rewrite <- (chr_ord c), <- (chr_ord d). by rewrite H. Qed.

Lemma hex_digit_hex n : (0 ≤ n < 16)%Z → is_hex (hex_digit n) = true.
Proof.
  intros H. unfold hex_digit, is_hex, isdigit.
  destruct (n <? 10)%Z eqn:E; bool_hyps; rewrite ord_chr by lia; lia.
Qed.

Lemma to_hex_hex s : str_forallb is_hex (to_hex s) = true.
Proof.
  induction s as [|c s IH]; [done|]. cbn [to_hex str_forallb].
  pose proof (ord_range c). rewrite !hex_digit_hex, IH; [done|..].
  - apply Z.mod_pos_bound; lia.
  - split; [apply Z.div_pos; lia|]. apply Z.div_lt_upper_bound; lia.
Qed.

Lemma hex_no_char x s : is_hex x = false → str_forallb is_hex s = true → no_char x s = true.
Proof.
  intros Hx. apply forallb_impl_str. intros c Hc.
  apply negb_true_iff, bool_decide_eq_false. intros ->. congruence.
Qed.

Lemma hex_digit_inj m n :
  (0 ≤ m < 16)%Z → (0 ≤ n < 16)%Z → hex_digit m = hex_digit n → m = n.
Proof.
  intros Hm Hn H%(f_equal ord). unfold hex_digit in H.
  destruct (m <? 10)%Z eqn:E, (n <? 10)%Z eqn:F; bool_hyps;
    rewrite !ord_chr in H by lia; lia.
Qed.

#[export] Instance to_hex_inj : Inj (=) (=) to_hex.
Proof.
  intros s; induction s as [|c s IH]; intros [|d t]; simpl; try done.
  intros H. injection H as H1 H2 H3. pose proof (ord_range c). pose proof (ord_range d).
  assert (∀ z, 0 ≤ z < 256 → 0 ≤ z `div` 16 < 16 ∧ 0 ≤ z `mod` 16 < 16)%Z as B.
  { intros z Hz. split; [split; [apply Z.div_pos; lia|apply Z.div_lt_upper_bound; lia]|].
    apply Z.mod_pos_bound; lia. }
  apply hex_digit_inj in H1; [|by apply B..]. apply hex_digit_inj in H2; [|by apply B..].
  f_equal; [|by apply IH]. apply ord_inj.
  rewrite (Z.div_mod (ord c) 16), (Z.div_mod (ord d) 16) by lia. by rewrite H1, H2.
Qed.

(** ** Lemmas: decimal numbers *)
Lemma pretty_char_digit x : (x < 10)%N → isdigit (pretty_N_char x) = true.
Proof.
  intros Hx. assert (x = 0 ∨ x = 1 ∨ x = 2 ∨ x = 3 ∨ x = 4 ∨ x = 5 ∨ x = 6 ∨ x = 7 ∨ x = 8 ∨ x = 9)%N as H by lia.
  by repeat destruct H as [->|H]; subst.
Qed.

Lemma pretty_go_digits x s : str_forallb isdigit s = true → str_forallb isdigit (pretty_N_go x s) = true.
Proof.
  revert s. induction (N.lt_wf_0 x) as [x _ IH]; intros s Hs. destruct (decide (x = 0%N)) as [->|Hx]; [done|].
  rewrite pretty_N_go_step by lia. apply IH; [by apply N.div_lt; lia|]. cbn [str_forallb].
  rewrite Hs, pretty_char_digit; [done|]. by apply N.mod_lt.
Qed.

Lemma pretty_go_length x s : String.length s ≤ String.length (pretty_N_go x s).
Proof.
  revert s. induction (N.lt_wf_0 x) as [x _ IH]; intros s. destruct (decide (x = 0%N)) as [->|Hx]; [done|].
  rewrite pretty_N_go_step by lia. etrans; [|apply IH, N.div_lt; lia]. cbn. lia.
Qed.

Lemma to_string_S n : to_string (Z.of_nat (S n)) = pretty_N_go (N.of_nat (S n)) "".
Proof. unfold to_string, pretty, pretty_Z. cbn [Z.of_nat]. by unfold pretty, pretty_positive, pretty, pretty_N. Qed.

Lemma to_string_digits n : str_forallb isdigit (to_string (Z.of_nat n)) = true.
Proof. destruct n as [|n]; [done|]. rewrite to_string_S. by apply pretty_go_digits. Qed.

Lemma to_string_nonempty n : 0 < String.length (to_string (Z.of_nat n)).
Proof.
  destruct n as [|n]; [vm_compute; lia|]. rewrite to_string_S, pretty_N_go_step by lia.
  eapply Nat.lt_le_trans; [|apply pretty_go_length]. cbn. lia.
Qed.

#[export] Instance to_string_inj : Inj (=) (=) to_string.
Proof. unfold to_string. apply _. Qed.

Lemma digits_no_char x s : isdigit x = false → str_forallb isdigit s = true → no_char x s = true.
Proof.
  intros Hx. apply forallb_impl_str. intros c Hc.
  apply negb_true_iff, bool_decide_eq_false. intros ->. congruence.
Qed.

(** ** Text of entries *)
Definition quote (s : string) : string := String dquote (s +:+ String dquote "").
(** The entries of a map, each written by [f], with a separator between them. *)
Fixpoint separated (sep : string) (f : string * string → string) (l : list (string * string)) : string :=
  match l with
  | [] => ""
  | [x] => f x
  | x :: l => f x +:+ sep +:+ separated sep f l
  end.

Create Rewrite HintDb rsyncd_str.
#[export] Hint Rewrite app_nil_str app_assoc_str length_app_str
  take_app_str drop_app_str drop_S_app_str : rsyncd_str.
#[export] Hint Resolve word_at_no_space getlines_no_delim to_hex_hex : rsyncd.
