(* ===== verification/Errors.v ===== *)
(** * Errors: [core/error.cpp]

    Error codes and categories, the error object with its two texts, and the
    builder of error contexts.  A code is one of the enumerators; a cast from
    another integer is not modelled. *)
From S2P Require Import Prelude CppString.
Open Scope Z_scope.

Inductive ErrorCategory :=
  | CONFIGURATION | AUTHENTICATION | AUTHORIZATION | NETWORK | FILE_SYSTEM
  | PROTOCOL | MODULE | INTERNAL | EXTERNAL.
#[export] Instance ErrorCategory_eq_dec : EqDecision ErrorCategory.
Proof. solve_decision. Defined.

Inductive ErrorCode :=
  | CONFIG_FILE_NOT_FOUND | CONFIG_INVALID_FORMAT | CONFIG_VALIDATION_FAILED
  | CONFIG_RELOAD_FAILED | AUTH_FAILED | AUTH_USER_NOT_FOUND
  | AUTH_PASSWORD_INVALID | AUTH_ACCOUNT_LOCKED | AUTH_PASSWORD_EXPIRED
  | AUTH_SESSION_EXPIRED | AUTHZ_ACCESS_DENIED | AUTHZ_INSUFFICIENT_PERMISSIONS
  | AUTHZ_IP_DENIED | NETWORK_CONNECTION_FAILED | NETWORK_BIND_FAILED
  | NETWORK_LISTEN_FAILED | NETWORK_ACCEPT_FAILED | NETWORK_TIMEOUT
  | FS_FILE_NOT_FOUND | FS_PERMISSION_DENIED | FS_DISK_FULL
  | FS_PATH_TRAVERSAL | FS_INVALID_PATH | PROTOCOL_INVALID_MESSAGE
  | PROTOCOL_UNSUPPORTED_VERSION | PROTOCOL_PARSE_ERROR | MODULE_NOT_FOUND
  | MODULE_INVALID_CONFIG | MODULE_OPERATION_FAILED | INTERNAL_ERROR
  | INTERNAL_MEMORY_ERROR | INTERNAL_THREAD_ERROR | EXTERNAL_DEPENDENCY_ERROR
  | EXTERNAL_SSL_ERROR.
#[export] Instance ErrorCode_eq_dec : EqDecision ErrorCode.
Proof. solve_decision. Defined.

(** The value of an enumerator. *)
Definition code_number (c : ErrorCode) : Z :=
  match c with
  | CONFIG_FILE_NOT_FOUND => 1001 | CONFIG_INVALID_FORMAT => 1002 | CONFIG_VALIDATION_FAILED => 1003
  | CONFIG_RELOAD_FAILED => 1004 | AUTH_FAILED => 2001 | AUTH_USER_NOT_FOUND => 2002
  | AUTH_PASSWORD_INVALID => 2003 | AUTH_ACCOUNT_LOCKED => 2004 | AUTH_PASSWORD_EXPIRED => 2005
  | AUTH_SESSION_EXPIRED => 2006 | AUTHZ_ACCESS_DENIED => 3001 | AUTHZ_INSUFFICIENT_PERMISSIONS => 3002
  | AUTHZ_IP_DENIED => 3003 | NETWORK_CONNECTION_FAILED => 4001 | NETWORK_BIND_FAILED => 4002
  | NETWORK_LISTEN_FAILED => 4003 | NETWORK_ACCEPT_FAILED => 4004 | NETWORK_TIMEOUT => 4005
  | FS_FILE_NOT_FOUND => 5001 | FS_PERMISSION_DENIED => 5002 | FS_DISK_FULL => 5003
  | FS_PATH_TRAVERSAL => 5004 | FS_INVALID_PATH => 5005 | PROTOCOL_INVALID_MESSAGE => 6001
  | PROTOCOL_UNSUPPORTED_VERSION => 6002 | PROTOCOL_PARSE_ERROR => 6003 | MODULE_NOT_FOUND => 7001
  | MODULE_INVALID_CONFIG => 7002 | MODULE_OPERATION_FAILED => 7003 | INTERNAL_ERROR => 8001
  | INTERNAL_MEMORY_ERROR => 8002 | INTERNAL_THREAD_ERROR => 8003 | EXTERNAL_DEPENDENCY_ERROR => 9001
  | EXTERNAL_SSL_ERROR => 9002
  end.

Definition getErrorCodeString (c : ErrorCode) : string :=
  match c with
  | CONFIG_FILE_NOT_FOUND => "CONFIG_FILE_NOT_FOUND" | CONFIG_INVALID_FORMAT => "CONFIG_INVALID_FORMAT"
  | CONFIG_VALIDATION_FAILED => "CONFIG_VALIDATION_FAILED" | CONFIG_RELOAD_FAILED => "CONFIG_RELOAD_FAILED"
  | AUTH_FAILED => "AUTH_FAILED" | AUTH_USER_NOT_FOUND => "AUTH_USER_NOT_FOUND"
  | AUTH_PASSWORD_INVALID => "AUTH_PASSWORD_INVALID" | AUTH_ACCOUNT_LOCKED => "AUTH_ACCOUNT_LOCKED"
  | AUTH_PASSWORD_EXPIRED => "AUTH_PASSWORD_EXPIRED" | AUTH_SESSION_EXPIRED => "AUTH_SESSION_EXPIRED"
  | AUTHZ_ACCESS_DENIED => "AUTHZ_ACCESS_DENIED" | AUTHZ_INSUFFICIENT_PERMISSIONS => "AUTHZ_INSUFFICIENT_PERMISSIONS"
  | AUTHZ_IP_DENIED => "AUTHZ_IP_DENIED" | NETWORK_CONNECTION_FAILED => "NETWORK_CONNECTION_FAILED"
  | NETWORK_BIND_FAILED => "NETWORK_BIND_FAILED" | NETWORK_LISTEN_FAILED => "NETWORK_LISTEN_FAILED"
  | NETWORK_ACCEPT_FAILED => "NETWORK_ACCEPT_FAILED" | NETWORK_TIMEOUT => "NETWORK_TIMEOUT"
  | FS_FILE_NOT_FOUND => "FS_FILE_NOT_FOUND" | FS_PERMISSION_DENIED => "FS_PERMISSION_DENIED"
  | FS_DISK_FULL => "FS_DISK_FULL" | FS_PATH_TRAVERSAL => "FS_PATH_TRAVERSAL"
  | FS_INVALID_PATH => "FS_INVALID_PATH" | PROTOCOL_INVALID_MESSAGE => "PROTOCOL_INVALID_MESSAGE"
  | PROTOCOL_UNSUPPORTED_VERSION => "PROTOCOL_UNSUPPORTED_VERSION" | PROTOCOL_PARSE_ERROR => "PROTOCOL_PARSE_ERROR"
  | MODULE_NOT_FOUND => "MODULE_NOT_FOUND" | MODULE_INVALID_CONFIG => "MODULE_INVALID_CONFIG"
  | MODULE_OPERATION_FAILED => "MODULE_OPERATION_FAILED" | INTERNAL_ERROR => "INTERNAL_ERROR"
  | INTERNAL_MEMORY_ERROR => "INTERNAL_MEMORY_ERROR" | INTERNAL_THREAD_ERROR => "INTERNAL_THREAD_ERROR"
  | EXTERNAL_DEPENDENCY_ERROR => "EXTERNAL_DEPENDENCY_ERROR" | EXTERNAL_SSL_ERROR => "EXTERNAL_SSL_ERROR"
  end.

Definition getCategoryString (c : ErrorCategory) : string :=
  match c with
  | CONFIGURATION => "CONFIGURATION"
  | AUTHENTICATION => "AUTHENTICATION"
  | AUTHORIZATION => "AUTHORIZATION"
  | NETWORK => "NETWORK"
  | FILE_SYSTEM => "FILE_SYSTEM"
  | PROTOCOL => "PROTOCOL"
  | MODULE => "MODULE"
  | INTERNAL => "INTERNAL"
  | EXTERNAL => "EXTERNAL"
  end.

Definition isRecoverableError (c : ErrorCode) : bool :=
  match c with
  | NETWORK_TIMEOUT | NETWORK_CONNECTION_FAILED | AUTH_SESSION_EXPIRED | CONFIG_RELOAD_FAILED => true
  | _ => false
  end.

Definition getRecoverySuggestionForCode (c : ErrorCode) : string :=
  match c with
  | CONFIG_FILE_NOT_FOUND => "Check that the configuration file exists and is readable"
  | CONFIG_INVALID_FORMAT => "Verify the configuration file format (INI or JSON)"
  | AUTH_FAILED => "Check username and password"
  | AUTH_ACCOUNT_LOCKED => "Account is locked. Contact administrator"
  | AUTH_PASSWORD_EXPIRED => "Password has expired. Please change your password"
  | NETWORK_BIND_FAILED => "Check if the port is already in use or if you have permission to bind"
  | FS_PERMISSION_DENIED => "Check file permissions and ownership"
  | FS_DISK_FULL => "Free up disk space"
  | _ => "Check logs for more details"
  end.

(** ** The error object *)
Record RSyncError := MkError {
  code_ : ErrorCode;
  category_ : ErrorCategory;
  message_ : string;
  context_ : string;
  fields_ : gmap string string;
  timestamp_ : Z
}.

(** The second constructor; the first is the one with an empty context.  The
    category is what the caller says, [INTERNAL] by default. *)
Definition new_error (now : Z) (code : ErrorCode) (message context : string) (category : ErrorCategory) : RSyncError :=
  MkError code category message context ∅ now.

Definition getCode (e : RSyncError) : ErrorCode := code_ e.
Definition getCategory (e : RSyncError) : ErrorCategory := category_ e.
Definition getMessage (e : RSyncError) : string := message_ e.
Definition getContext (e : RSyncError) : string := context_ e.
Definition getFields (e : RSyncError) : gmap string string := fields_ e.
Definition what (e : RSyncError) : string := c_str (message_ e).

Definition addField (key value : string) (e : RSyncError) : RSyncError :=
  MkError (code_ e) (category_ e) (message_ e) (context_ e) (<[key := value]> (fields_ e)) (timestamp_ e).
Definition setContext (context : string) (e : RSyncError) : RSyncError :=
  MkError (code_ e) (category_ e) (message_ e) context (fields_ e) (timestamp_ e).

Definition isRecoverable (e : RSyncError) : bool := isRecoverableError (code_ e).
Definition getRecoverySuggestion (e : RSyncError) : string := getRecoverySuggestionForCode (code_ e).

Definition toString (e : RSyncError) : string :=
  "[" +:+ getCategoryString (category_ e) +:+ "] [" +:+ getErrorCodeString (code_ e) +:+ "] " +:+ message_ e +:+
  (if is_empty (context_ e) then "" else " (Context: " +:+ context_ e +:+ ")") +:+
  (if bool_decide (fields_ e = ∅) then "" else
     " {" +:+ separated ", " (λ kv, kv.1 +:+ "=" +:+ kv.2) (map_entries (fields_ e)) +:+ "}").

Definition toJSON (put_time : Z → string) (e : RSyncError) : string :=
  "{" +:+ quote "timestamp" +:+ ":" +:+ quote (put_time (timestamp_ e)) +:+ "," +:+
  quote "code" +:+ ":" +:+ to_string (code_number (code_ e)) +:+ "," +:+
  quote "code_string" +:+ ":" +:+ quote (getErrorCodeString (code_ e)) +:+ "," +:+
  quote "category" +:+ ":" +:+ quote (getCategoryString (category_ e)) +:+ "," +:+
  quote "message" +:+ ":" +:+ quote (message_ e) +:+
  (if is_empty (context_ e) then "" else "," +:+ quote "context" +:+ ":" +:+ quote (context_ e)) +:+
  (if bool_decide (fields_ e = ∅) then "" else
     "," +:+ quote "fields" +:+ ":{" +:+
     separated "," (λ kv, quote kv.1 +:+ ":" +:+ quote kv.2) (map_entries (fields_ e)) +:+ "}") +:+ "}".

(** ** Contexts *)
Module ErrorContext.
Record ErrorContext := MkContext {
  fields_ : gmap string string;
  component_ : string;
  operation_ : string;
  path_ : string;
  user_ : string;
  client_address_ : string
}.
Definition empty_context : ErrorContext := MkContext ∅ "" "" "" "" "".

Definition addField (key value : string) (c : ErrorContext) : ErrorContext :=
  MkContext (<[key := value]> (fields_ c)) (component_ c) (operation_ c) (path_ c) (user_ c) (client_address_ c).
Definition setComponent (x : string) (c : ErrorContext) : ErrorContext :=
  MkContext (fields_ c) x (operation_ c) (path_ c) (user_ c) (client_address_ c).
Definition setOperation (x : string) (c : ErrorContext) : ErrorContext :=
  MkContext (fields_ c) (component_ c) x (path_ c) (user_ c) (client_address_ c).
Definition setPath (x : string) (c : ErrorContext) : ErrorContext :=
  MkContext (fields_ c) (component_ c) (operation_ c) x (user_ c) (client_address_ c).
Definition setUser (x : string) (c : ErrorContext) : ErrorContext :=
  MkContext (fields_ c) (component_ c) (operation_ c) (path_ c) x (client_address_ c).
Definition setClientAddress (x : string) (c : ErrorContext) : ErrorContext :=
  MkContext (fields_ c) (component_ c) (operation_ c) (path_ c) (user_ c) x.

(** The named parts with their values, in the order of [build]. *)
Definition parts (c : ErrorContext) : list (string * string) :=
  [("component", component_ c); ("operation", operation_ c); ("path", path_ c); ("user", user_ c);
   ("client", client_address_ c)].
Definition given (l : list (string * string)) : list (string * string) :=
  List.filter (λ kv, negb (is_empty kv.2)) l.

Definition build (c : ErrorContext) : string :=
  separated ", " (λ kv, kv.1 +:+ "=" +:+ kv.2) (given (parts c) ++ map_entries (fields_ c)).

Definition put_given (key value : string) (m : gmap string string) : gmap string string :=
  if is_empty value then m else <[key := value]> m.
Definition getFields (c : ErrorContext) : gmap string string :=
  put_given "client_address" (client_address_ c) (put_given "user" (user_ c) (put_given "path" (path_ c)
    (put_given "operation" (operation_ c) (put_given "component" (component_ c) (fields_ c))))).

(** What [getFields] says of a key: a part that was set wins over a field. *)
Definition part_of (key : string) (c : ErrorContext) : string :=
  if String.eqb key "component" then component_ c else if String.eqb key "operation" then operation_ c
  else if String.eqb key "path" then path_ c else if String.eqb key "user" then user_ c
  else if String.eqb key "client_address" then client_address_ c else "".

Lemma put_given_lookup key value m k :
  put_given key value m !! k = if decide (key = k) then (if is_empty value then m !! k else Some value) else m !! k.
Proof. unfold put_given. destruct (is_empty value); case_decide; simplify_map_eq; done. Qed.

(** Every key of the fields of a context has the value of its part, if one was
    set, and else of the field that was added last. *)
Theorem getFields_lookup c key :
  getFields c !! key = if is_empty (part_of key c) then fields_ c !! key else Some (part_of key c).
Proof.
  unfold getFields, part_of. rewrite !put_given_lookup.
  repeat match goal with |- context [String.eqb ?a ?b] => destruct (String.eqb_spec a b); [subst a|] end;
    repeat (case_decide; [simplify_eq; try done|]); done.
Qed.
End ErrorContext.

(** ** Codes *)
#[export] Instance getErrorCodeString_inj : Inj (=) (=) getErrorCodeString.
Proof. intros [] []; (reflexivity || discriminate). Qed.

#[export] Instance code_number_inj : Inj (=) (=) code_number.
Proof. intros [] []; (reflexivity || discriminate). Qed.

(** The number and the name of a code identify it, and the number lies in the
    range that its kind of error has in the declaration: the thousands digit says
    whether it is an error of configuration (1) up to an external one (9). *)
Theorem codes_identify (c d : ErrorCode) :
  (code_number c = code_number d ↔ c = d) ∧ (getErrorCodeString c = getErrorCodeString d ↔ c = d) ∧
  1 ≤ code_number c `div` 1000 ≤ 9.
Proof.
  split; [split; [apply code_number_inj|by intros ->]|]. split; [split; [apply getErrorCodeString_inj|by intros ->]|].
  destruct c; by vm_compute.
Qed.

(** Text is copied into JSON as it is. *)
Example forged_context :
  let q := String dquote "" in
  toJSON (λ _, "now") (new_error 0 AUTH_FAILED ("x" +:+ q +:+ "," +:+ q +:+ "context" +:+ q +:+ ":" +:+ q +:+ "y") ""
                         AUTHENTICATION) =
  toJSON (λ _, "now") (new_error 0 AUTH_FAILED "x" "y" AUTHENTICATION).
Proof. reflexivity. Qed.
