(* ===== verification/NetworkAccess.v ===== *)
(** * Network access control: [security/network_access.cpp]

    IPv4 addresses are 32-bit values in host order.  [inet_pton(AF_INET, ...)]
    belongs to the C library: it is the interface [InetPton], whose law is its
    documented result (four octets in network order); [dotted_quad] is an
    instance.  The rest is translated: CIDR rules, the mask arithmetic with its
    32-bit shift, the deny/allow decision. *)
From S2P Require Import Prelude CppString.
Open Scope Z_scope.

(** ** The C library's [inet_pton] *)
Record octets := Octets { oct_a : Z; oct_b : Z; oct_c : Z; oct_d : Z }.

Definition octets_ok (o : octets) : Prop :=
  0 ≤ oct_a o < 256 ∧ 0 ≤ oct_b o < 256 ∧ 0 ≤ oct_c o < 256 ∧ 0 ≤ oct_d o < 256.

(** [inet_pton s] is the content of [struct in_addr] when the call returns 1. *)
Class InetPton := {
  inet_pton : string → option octets;
  inet_pton_octets : ∀ s o, inet_pton s = Some o → octets_ok o
}.

Section network_access.
Context `{InetPton}.

(** [ntohl]: the 32-bit value with the first octet most significant. *)
Definition ntohl (o : octets) : Z :=
  Z.lor (Z.shiftl (oct_a o) 24)
    (Z.lor (Z.shiftl (oct_b o) 16) (Z.lor (Z.shiftl (oct_c o) 8) (oct_d o))).

Definition parseIpv4 (address : string) : option Z :=
  ntohl <$> inet_pton (c_str address).

(** A rule: network and prefix length. *)
Definition parseCidr (rule : string) : option (Z * Z) :=
  match find_char "/" rule with
  | None => network ← parseIpv4 rule; Some (network, 32)
  | Some slash =>
      let ip_part := substr 0 slash rule in
      let prefix_part := substr_from (S slash) rule in
      network ← parseIpv4 ip_part;
      prefix ← stoi prefix_part;
      if (prefix <? 0) || (prefix >? 32) then None else Some (network, prefix)
  end.

(** [0xFFFFFFFFu << n], in 32 bits. *)
Definition mask32 (n : Z) : Z := Z.shiftl 0xFFFFFFFF n `mod` 2 ^ 32.

Definition ipInCidr (ip network prefix_len : Z) : bool :=
  if prefix_len =? 0 then true else
  let mask := if prefix_len =? 32 then 0xFFFFFFFF else mask32 (32 - prefix_len) in
  Z.land ip mask =? Z.land network mask.

Definition ipMatchesRule (client_ip rule : string) : bool :=
  match parseIpv4 client_ip with
  | None => false
  | Some client =>
      match parseCidr rule with
      | None => false
      | Some (network, prefix_len) => ipInCidr client network prefix_len
      end
  end.

Fixpoint matchesAny (client_ip : string) (rules : list string) : bool :=
  match rules with
  | [] => false
  | rule :: rules =>
      if is_empty rule then matchesAny client_ip rules
      else if ipMatchesRule client_ip rule then true
      else matchesAny client_ip rules
  end.

Definition isValidIpv4 (address : string) : bool :=
  bool_decide (is_Some (parseIpv4 address)).

Definition hostMatchesRule (client_ip rule : string) : bool :=
  ipMatchesRule client_ip rule.

Definition isAllowed (client_ip : string)
    (denied_hosts denied_networks allowed_hosts allowed_networks : list string) : bool :=
  if matchesAny client_ip denied_hosts || matchesAny client_ip denied_networks
  then false else
  let has_allow_list :=
    negb (bool_decide (allowed_hosts = [])) || negb (bool_decide (allowed_networks = [])) in
  if negb has_allow_list then true
  else matchesAny client_ip allowed_hosts || matchesAny client_ip allowed_networks.

(** ** Specification *)

(** The first [len] of the 32 bits agree. *)
Definition same_network (len ip network : Z) : Prop :=
  ip `div` 2 ^ (32 - len) = network `div` 2 ^ (32 - len).

(** A (non-empty) rule covers an address: both parse, and the address lies in
    the block. *)
Definition covers (rule client_ip : string) : Prop :=
  rule ≠ "" ∧ ∃ ip network len, parseIpv4 client_ip = Some ip ∧ parseCidr rule = Some (network, len) ∧
    same_network len ip network.

(** ** Lemmas *)
Lemma ntohl_range o : octets_ok o → 0 ≤ ntohl o < 2 ^ 32.
Proof.
  intros (Ha & Hb & Hc & Hd). unfold ntohl.
  rewrite (lor_shiftl_add (oct_c o)), (lor_shiftl_add (oct_b o)),
    (lor_shiftl_add (oct_a o)); lia.
Qed.

Lemma parseIpv4_range s ip : parseIpv4 s = Some ip → 0 ≤ ip < 2 ^ 32.
Proof.
  unfold parseIpv4. intros (o & Ho & ->)%fmap_Some. apply ntohl_range.
  by eapply inet_pton_octets.
Qed.

Lemma parseCidr_range rule network len :
  parseCidr rule = Some (network, len) → 0 ≤ network < 2 ^ 32 ∧ 0 ≤ len ≤ 32.
Proof.
  unfold parseCidr. case_match.
  - intros (ip & Hip & (p & Hp & E)%bind_Some)%bind_Some. case_match; simplify_eq.
    split; [by eapply parseIpv4_range|]. lia.
  - intros (ip & Hip & E)%bind_Some. simplify_eq. split; [by eapply parseIpv4_range|]. lia.
Qed.

Lemma ipInCidr_block ip network len :
  0 ≤ ip < 2 ^ 32 → 0 ≤ network < 2 ^ 32 → 0 ≤ len ≤ 32 →
  ipInCidr ip network len = true ↔ same_network len ip network.
Proof.
  intros Hip Hnet Hlen. unfold ipInCidr, same_network, mask32.
  destruct (len =? 0) eqn:E0; bool_hyps.
  { subst. rewrite !Z.div_small by lia. done. }
  assert ((if len =? 32 then 0xFFFFFFFF
           else Z.shiftl 0xFFFFFFFF (32 - len) `mod` 2 ^ 32)
          = Z.shiftl (2 ^ 32 - 1) (32 - len) `mod` 2 ^ 32) as ->.
  { destruct (len =? 32) eqn:E; [|done]. bool_hyps. by subst. }
  rewrite !land_high_mask, Z.eqb_eq by lia. split; [|by intros ->].
  apply Z.mul_cancel_r. apply Z.pow_nonzero; lia.
Qed.

Lemma ipMatchesRule_covers client_ip rule :
  rule ≠ "" → ipMatchesRule client_ip rule = true ↔ covers rule client_ip.
Proof.
  intros Hne. unfold ipMatchesRule, covers. split.
  - destruct (parseIpv4 client_ip) as [ip|] eqn:Hip; [|done].
    destruct (parseCidr rule) as [[network len]|] eqn:Hr; [|done].
    apply parseCidr_range in Hr as R. apply parseIpv4_range in Hip as R'.
    rewrite ipInCidr_block by tauto. eauto 10.
  - intros (_ & ip & network & len & Hip & Hr & Hsame). rewrite Hip, Hr.
    apply parseCidr_range in Hr as R. apply parseIpv4_range in Hip as R'.
    apply ipInCidr_block; tauto.
Qed.

Lemma matchesAny_covers client_ip rules :
  matchesAny client_ip rules = true ↔ ∃ rule, rule ∈ rules ∧ covers rule client_ip.
Proof.
  induction rules as [|r rules IH]; simpl.
  - split; [done|]. by intros (? & ?%elem_of_nil & _).
  - setoid_rewrite elem_of_cons. destruct (is_empty r) eqn:E.
    + apply is_empty_true in E as ->. rewrite IH. split; [naive_solver|].
      intros (rule & [->|?] & Hc); [by destruct Hc|eauto].
    + apply is_empty_false in E. destruct (ipMatchesRule client_ip r) eqn:M.
      * apply ipMatchesRule_covers in M; [|done]. naive_solver.
      * rewrite IH. split; [naive_solver|]. intros (rule & [->|?] & Hc); [|eauto].
        apply ipMatchesRule_covers in Hc; [congruence|done].
Qed.

(** C8: A CIDR test of the mask arithmetic (the 32-bit shift, with its two
    special cases 0 and 32) decides exactly whether the first [len] bits of
    the two addresses agree. *)
Theorem ipInCidr_spec ip network len :
  0 ≤ ip < 2 ^ 32 → 0 ≤ network < 2 ^ 32 → 0 ≤ len ≤ 32 →
  ipInCidr ip network len = true ↔ same_network len ip network.
Proof. apply ipInCidr_block. Qed.

(** C7: A client is admitted exactly when no deny rule covers it and, if there
    is an allow list at all, some allow rule covers it: deny rules win, empty
    and malformed rules cover nobody, and with no allow list everybody else
    is admitted. *)
Theorem isAllowed_spec client_ip denied_hosts denied_networks allowed_hosts allowed_networks :
  isAllowed client_ip denied_hosts denied_networks allowed_hosts allowed_networks = true ↔
  (∀ rule, rule ∈ denied_hosts ++ denied_networks → ¬ covers rule client_ip) ∧
  (allowed_hosts ++ allowed_networks = [] ∨
   ∃ rule, rule ∈ allowed_hosts ++ allowed_networks ∧ covers rule client_ip).
Proof.
  assert (∀ l l', matchesAny client_ip l || matchesAny client_ip l' = true ↔
    ∃ rule, rule ∈ l ++ l' ∧ covers rule client_ip) as Hor.
  { intros l l'. rewrite orb_true_iff, !matchesAny_covers. setoid_rewrite elem_of_app.
    naive_solver. }
  assert (∀ l l' : list string,
    negb (negb (bool_decide (l = [])) || negb (bool_decide (l' = []))) =
    bool_decide (l ++ l' = [])) as Hnil.
  { intros [|] [|]; done. }
  unfold isAllowed. cbv zeta. rewrite Hnil.
  destruct (matchesAny client_ip denied_hosts || _) eqn:D.
  - apply Hor in D as (r & ? & ?). split; [done|]. intros [Hno _]. exfalso. by eapply Hno.
  - assert (∀ rule, rule ∈ denied_hosts ++ denied_networks → ¬ covers rule client_ip).
    { intros r Hr Hc. apply not_true_iff_false in D. apply D, Hor. eauto. }
    case_bool_decide as Hn.
    + split; [|done]. intros _. split; [done|by left].
    + rewrite Hor. naive_solver.
Qed.
End network_access.

(** ** An instance: dotted-decimal parsing *)
Fixpoint split_on (d : ascii) (s : string) : list string :=
  match s with
  | "" => [""]
  | String c s =>
      if bool_decide (c = d) then "" :: split_on d s
      else match split_on d s with
           | [] => [String c ""]
           | l :: ls => String c l :: ls
           end
  end.

(** One to three digits, no leading zero, at most 255. *)
Definition dotted_octet (s : string) : option Z :=
  let '(v, n) := read_digits 0 0 s in
  if negb (Nat.eqb n 0) && Nat.eqb n (String.length s) && (Nat.leb n 3)
     && (Nat.eqb n 1 || negb (starts_with "0" s)) && (0 <=? v) && (v <? 256)
  then Some v else None.

Definition dotted_quad (s : string) : option octets :=
  match split_on "." s with
  | [a; b; c; d] =>
      a ← dotted_octet a; b ← dotted_octet b; c ← dotted_octet c; d ← dotted_octet d;
      Some (Octets a b c d)
  | _ => None
  end.

Lemma dotted_octet_range s v : dotted_octet s = Some v → 0 ≤ v < 256.
Proof.
  unfold dotted_octet. destruct (read_digits 0 0 s) as [w n]. case_match eqn:E; [|done].
  intros [= <-]. bool_hyps. lia.
Qed.

#[export] Program Instance dotted_quad_InetPton : InetPton := {| inet_pton := dotted_quad |}.
Next Obligation.
  intros s o. unfold dotted_quad. do 5 (case_match; try done).
  intros (a & Ha & (b & Hb & (c & Hc & (d & Hd & [= <-])%bind_Some)%bind_Some)%bind_Some)%bind_Some.
  unfold octets_ok. simpl. eauto 10 using dotted_octet_range.
Qed.

(** ** Witnesses *)
Lemma ipInCidr_spec_witness :
  ipInCidr 0x0A000501 0x0A000000 8 = true ↔ same_network 8 0x0A000501 0x0A000000.
Proof. apply (ipInCidr_spec 0x0A000501 0x0A000000 8); lia. Defined.

Lemma isAllowed_spec_witness :
  isAllowed "10.0.0.5" ["10.0.0.6"] [] [] ["192.168.0.0/16"; "10.0.0.0/8"] = true ∧
  isAllowed "10.0.0.5" [] ["10.0.0.0/8"] ["10.0.0.5"] [] = false ∧
  ∃ rule, rule ∈ ["192.168.0.0/16"; "10.0.0.0/8"] ∧ covers rule "10.0.0.5".
Proof.
  assert (isAllowed "10.0.0.5" ["10.0.0.6"] [] [] ["192.168.0.0/16"; "10.0.0.0/8"] = true)
    as Hyes by (vm_compute; reflexivity).
  split; [exact Hyes|]. split; [vm_compute; reflexivity|].
  apply isAllowed_spec in Hyes as [_ [H|H]]; [discriminate H|exact H].
Defined.
