(* ===== verification/RateLimiter.v ===== *)
(** * Connection rate limiting: [security/rate_limiter.cpp]

    A limiter keeps, per client address, a minute window and an hour window
    (count and start).  The steady clock is an argument of each operation, in
    nanoseconds since its epoch; [time_point{}] is 0, which the code uses as
    "never started".  [run] composes the operations as the accept loop of the
    daemon does: ask, and record when admitted. *)
From S2P Require Import Prelude CppString.
Open Scope Z_scope.

Record Window := MkWindow { count : Z; start : Z }.
Definition fresh_window : Window := MkWindow 0 0.

Record ConnectionRateLimiter := MkLimiter {
  max_per_minute : Z;
  max_per_hour : Z;
  minute_windows : gmap string Window;
  hour_windows : gmap string Window
}.

Definition new_limiter (per_minute per_hour : Z) : ConnectionRateLimiter :=
  MkLimiter per_minute per_hour ∅ ∅.

(** [std::chrono::seconds(n)] on a nanosecond clock. *)
Definition seconds (n : Z) : Z := n * 1000000000.
Definition minute_period : Z := seconds 60.
Definition hour_period : Z := seconds 3600.

Definition set_minute (m : gmap string Window) (l : ConnectionRateLimiter) :=
  MkLimiter (max_per_minute l) (max_per_hour l) m (hour_windows l).
Definition set_hour (m : gmap string Window) (l : ConnectionRateLimiter) :=
  MkLimiter (max_per_minute l) (max_per_hour l) (minute_windows l) m.

(** [windows[client_ip]]: the entry, created when absent. *)
Definition window_of (windows : gmap string Window) (client_ip : string) : Window :=
  default fresh_window (windows !! client_ip).

(** Restart a window that never started or whose period is over. *)
Definition refresh (period now : Z) (w : Window) : Window :=
  if (start w =? 0) || (now - start w >=? period) then MkWindow 0 now else w.

Definition incrementWindow (now max_count period : Z) (w : Window) : bool * Window :=
  let w := refresh period now w in
  if (max_count >? 0) && (count w >=? max_count) then (false, w)
  else (true, MkWindow ((count w + 1) `mod` 2 ^ 64) (start w)).

Definition allowConnection (now : Z) (client_ip : string) (l : ConnectionRateLimiter)
    : bool * ConnectionRateLimiter :=
  if (max_per_minute l =? 0) && (max_per_hour l =? 0) then (true, l) else
  let '(minute_ok, l) :=
    if max_per_minute l >? 0 then
      let minute := refresh minute_period now (window_of (minute_windows l) client_ip) in
      (negb (count minute >=? max_per_minute l),
       set_minute (<[client_ip := minute]> (minute_windows l)) l)
    else (true, l) in
  if negb minute_ok then (false, l) else
  if max_per_hour l >? 0 then
    let hour := refresh hour_period now (window_of (hour_windows l) client_ip) in
    let l := set_hour (<[client_ip := hour]> (hour_windows l)) l in
    if count hour >=? max_per_hour l then (false, l) else (true, l)
  else (true, l).

(** Each window that is counted reads the clock again. *)
Definition recordConnection (now now_hour : Z) (client_ip : string) (l : ConnectionRateLimiter)
    : ConnectionRateLimiter :=
  if (max_per_minute l =? 0) && (max_per_hour l =? 0) then l else
  let l :=
    if max_per_minute l >? 0 then
      set_minute (<[client_ip := snd (incrementWindow now (max_per_minute l) minute_period
                                       (window_of (minute_windows l) client_ip))]>
                  (minute_windows l)) l
    else l in
  if max_per_hour l >? 0 then
    set_hour (<[client_ip := snd (incrementWindow now_hour (max_per_hour l) hour_period
                                   (window_of (hour_windows l) client_ip))]>
              (hour_windows l)) l
  else l.

(** A connection attempt as the accept loop handles it: the limiter is asked at
    [asked]; an admitted connection is recorded at [recorded] in the window of
    the minute and at [recorded_hour] in that of the hour. *)
Record attempt := Attempt { client : string; asked : Z; recorded : Z; recorded_hour : Z }.

(** The attempt by its reading for the hour. *)
Definition by_hour (a : attempt) : attempt := Attempt (client a) (asked a) (recorded_hour a) (recorded_hour a).

Definition try_connect (a : attempt) (l : ConnectionRateLimiter)
    : bool * ConnectionRateLimiter :=
  let '(ok, l) := allowConnection (asked a) (client a) l in
  if ok then (true, recordConnection (recorded a) (recorded_hour a) (client a) l) else (false, l).

(** The admitted attempts of a sequence (newest first, before [past]) and the
    final limiter. *)
Fixpoint run (attempts : list attempt) (past : list attempt) (l : ConnectionRateLimiter)
    : list attempt * ConnectionRateLimiter :=
  match attempts with
  | [] => (past, l)
  | a :: attempts =>
      let '(ok, l) := try_connect a l in
      run attempts (if ok then a :: past else past) l
  end.

(** The clock readings of a sequence never go back, and start after the epoch. *)
Fixpoint well_timed (last : Z) (attempts : list attempt) : Prop :=
  match attempts with
  | [] => True
  | a :: attempts => last ≤ asked a ≤ recorded a ∧ recorded a ≤ recorded_hour a ∧ well_timed (recorded_hour a) attempts
  end.

(** How many admitted connections of [ip] were recorded in [[from, till)]. *)
Definition in_span (ip : string) (from till : Z) (a : attempt) : bool :=
  bool_decide (client a = ip) && (from <=? recorded a) && (recorded a <? till).
Definition admitted (ip : string) (from till : Z) (past : list attempt) : Z :=
  Z.of_nat (length (List.filter (in_span ip from till) past)).

(** ** One window against the history of one client *)
Section counting.
Implicit Types h : list attempt.

Lemma admitted_nonneg ip a b h : 0 ≤ admitted ip a b h.
Proof. unfold admitted. lia. Qed.

Lemma admitted_cons ip a b x h :
  admitted ip a b (x :: h) = admitted ip a b h + (if in_span ip a b x then 1 else 0).
Proof. unfold admitted. simpl. destruct (in_span ip a b x); simpl; lia. Qed.

Lemma in_span_decide ip a b x :
  client x = ip → in_span ip a b x = bool_decide (a ≤ recorded x < b).
Proof.
  intros H. unfold in_span. rewrite (bool_decide_eq_true_2 _ H). simpl.
  destruct (Z.leb_spec a (recorded x)), (Z.ltb_spec (recorded x) b); simpl;
    symmetry; (apply bool_decide_eq_true_2 || apply bool_decide_eq_false_2); lia.
Qed.

Lemma in_span_other ip a b x : client x ≠ ip → in_span ip a b x = false.
Proof. intros H. unfold in_span. by rewrite bool_decide_eq_false_2. Qed.

(** Counting is monotone and subadditive in the span. *)
Lemma admitted_cover ip a b c d e f h :
  (∀ x, x ∈ h → client x = ip → a ≤ recorded x < b →
        c ≤ recorded x < d ∨ e ≤ recorded x < f) →
  admitted ip a b h ≤ admitted ip c d h + admitted ip e f h.
Proof.
  induction h as [|x h IH]; intros Hc; [done|]. rewrite !admitted_cons.
  assert (admitted ip a b h ≤ admitted ip c d h + admitted ip e f h).
  { apply IH. intros y Hy. apply Hc. by right. }
  specialize (Hc x (list_elem_of_here x h)).
  destruct (decide (client x = ip)) as [Hx|Hx].
  - rewrite !in_span_decide by done. specialize (Hc Hx).
    repeat case_bool_decide; lia.
  - rewrite !in_span_other by done. simpl. lia.
Qed.

Lemma admitted_none ip a b h :
  (∀ x, x ∈ h → client x = ip → ¬ (a ≤ recorded x < b)) → admitted ip a b h = 0.
Proof.
  induction h as [|x h IH]; intros Hc; [done|]. rewrite admitted_cons, IH.
  - specialize (Hc x (list_elem_of_here x h)).
    destruct (decide (client x = ip)) as [Hx|Hx].
    + rewrite in_span_decide by done. specialize (Hc Hx).
      by rewrite bool_decide_eq_false_2.
    + by rewrite in_span_other.
  - intros y Hy. apply Hc. by right.
Qed.

Lemma admitted_mono ip a b c d h :
  (∀ x, x ∈ h → client x = ip → a ≤ recorded x < b → c ≤ recorded x < d) →
  admitted ip a b h ≤ admitted ip c d h.
Proof.
  intros Hc. pose proof (admitted_cover ip a b c d 0 0 h) as L.
  rewrite (admitted_none ip 0 0) in L by lia. specialize (L ltac:(eauto)). lia.
Qed.

Lemma admitted_other ip a b x h :
  client x ≠ ip → admitted ip a b (x :: h) = admitted ip a b h.
Proof. intros H. rewrite admitted_cons, in_span_other by done. simpl. lia. Qed.

Lemma admitted_outside ip a b x h :
  ¬ (a ≤ recorded x < b) → admitted ip a b (x :: h) = admitted ip a b h.
Proof. 
  intros H. rewrite admitted_cons. destruct (decide (client x = ip)) as [Hx|Hx].
  - rewrite in_span_decide, bool_decide_eq_false_2 by done. lia.
  - rewrite in_span_other by done. lia.
Qed.

Lemma admitted_inside ip a b x h :
  client x = ip → a ≤ recorded x < b → admitted ip a b (x :: h) = admitted ip a b h + 1.
Proof. 
  intros Hx H. by rewrite admitted_cons, in_span_decide, bool_decide_eq_true_2.
Qed.
End counting.

(** The window [w] of [ip] agrees with the history [h] of admitted connections
    up to time [last]: it counts those since its start, at most [max]; at most
    [max] lie in any span of a period that ends at its start, and at most
    [2 * max] in any span of a period at all. *)
Record window_inv (period max : Z) (ip : string) (w : Window) (h : list attempt)
    (last : Z) : Prop := {
  wi_start : 0 ≤ start w ≤ last;
  wi_past : ∀ x, x ∈ h → 0 < recorded x ≤ last;
  wi_in : ∀ x, x ∈ h → client x = ip → start w ≠ 0 ∧ recorded x < start w + period;
  wi_count : count w = admitted ip (start w) (last + 1) h;
  wi_max : count w ≤ max;
  wi_before : ∀ a, start w - period < a → admitted ip a (start w) h ≤ max;
  wi_span : ∀ a, admitted ip a (a + period) h ≤ 2 * max
}.

Section window_invariant.
Context (period max : Z) (Hperiod : 0 < period) (Hmax : 0 < max < 2 ^ 64).

Lemma window_inv_init ip : window_inv period max ip fresh_window [] 0.
Proof using Hmax.
  split; simpl; try lia; try (by intros x ?%elem_of_nil);
    intros; unfold admitted; simpl; lia.
Qed.

Lemma window_inv_later ip w h last now :
  last ≤ now → window_inv period max ip w h last → window_inv period max ip w h now.
Proof using Type.
  intros Hn []. split; auto; [lia|intros x Hx; specialize (wi_past0 x Hx); lia|].
  rewrite wi_count0. apply Z.le_antisymm; apply admitted_mono; [lia|].
  intros x Hx. specialize (wi_past0 x Hx). lia.
Qed.

Lemma refresh_cases now w :
  (refresh period now w = w ∧ start w ≠ 0 ∧ now < start w + period) ∨
  (refresh period now w = MkWindow 0 now ∧ (start w = 0 ∨ start w + period ≤ now)).
Proof using Type.
  unfold refresh. destruct (start w =? 0) eqn:E0; simpl; bool_hyps; [by eauto|].
  destruct (now - start w >=? period) eqn:E1; [right|left]; (split; [done|]); lia.
Qed.

Lemma refresh_count now w : count w < max → count (refresh period now w) < max.
Proof using Hmax. intros H. destruct (refresh_cases now w) as [[-> _]|[-> _]]; simpl; lia. Qed.

Lemma refresh_current now w :
  0 < now → start (refresh period now w) ≠ 0 ∧ now < start (refresh period now w) + period.
Proof using Hperiod.
  intros H. destruct (refresh_cases now w) as [(-> & ?)|[-> _]]; [done|]. simpl. lia.
Qed.

(** Refreshing keeps the invariant. *)
Lemma window_inv_refresh ip w h last now :
  last ≤ now → 0 < now → window_inv period max ip w h last →
  window_inv period max ip (refresh period now w) h now.
Proof using Hperiod Hmax.
  intros Hn Hpos Hinv. apply (window_inv_later _ _ _ _ now) in Hinv as Hnow; [|done].
  destruct (refresh_cases now w) as [(-> & _)|[-> Hover]]; [done|].
  assert (∀ x, x ∈ h → client x = ip → start w ≠ 0 ∧ recorded x < now) as Hold.
  { intros x Hx Hc. destruct (wi_in _ _ _ _ _ _ Hinv x Hx Hc). lia. }
  destruct Hinv, Hnow. split; simpl; [lia|done| | |lia| |done].
  - intros x Hx Hc. specialize (Hold x Hx Hc). lia.
  - symmetry. apply admitted_none. intros x Hx Hc. specialize (Hold x Hx Hc). lia.
  - intros a Ha. etransitivity; [|exact wi_max0]. rewrite wi_count0.
    apply admitted_mono. intros x Hx Hc. specialize (Hold x Hx Hc).
    specialize (wi_past0 x Hx). lia.
Qed.

(** Counting one more connection of [ip] in a current window. *)
Lemma window_inv_count ip w h x :
  client x = ip → start w ≠ 0 → recorded x < start w + period → count w < max →
  0 < recorded x → window_inv period max ip w h (recorded x) →
  window_inv period max ip (MkWindow ((count w + 1) `mod` 2 ^ 64) (start w)) (x :: h) (recorded x).
Proof using Hperiod Hmax.
  intros Hx Hs Hcur Hlt Hpos [].
  assert ((count w + 1) `mod` 2 ^ 64 = count w + 1) as Hwrap.
  { pose proof (admitted_nonneg ip (start w) (recorded x + 1) h). apply Z.mod_small. lia. }
  split; simpl; [done|..].
  - intros y [->|Hy]%elem_of_cons; [lia|auto].
  - intros y [->|Hy]%elem_of_cons; [done|auto].
  - rewrite Hwrap, admitted_inside, wi_count0 by (done || lia). done.
  - lia.
  - intros a Ha. rewrite admitted_outside by lia. auto.
  - intros a. destruct (decide (a ≤ recorded x < a + period)).
    + rewrite admitted_inside by done.
      pose proof (admitted_cover ip a (a + period) a (start w) (start w) (recorded x + 1) h).
      specialize (wi_before0 a). assert (∀ y, y ∈ h → client y = ip →
        a ≤ recorded y < a + period → a ≤ recorded y < start w ∨
        start w ≤ recorded y < recorded x + 1) as Hcov.
      { intros y Hy _ ?. specialize (wi_past0 y Hy). lia. }
      specialize (H Hcov). lia.
    + rewrite admitted_outside by done. auto.
Qed.

(** A connection of another client changes nothing. *)
Lemma window_inv_other ip w h x last :
  client x ≠ ip → last ≤ recorded x → 0 < recorded x →
  window_inv period max ip w h last → window_inv period max ip w (x :: h) (recorded x).
Proof using Type.
  intros Hx Hn Hpos Hinv. apply (window_inv_later _ _ _ _ (recorded x)) in Hinv; [|done].
  destruct Hinv. split; simpl; auto.
  - intros y [->|Hy]%elem_of_cons; [lia|auto].
  - intros y [->|Hy]%elem_of_cons; [done|auto].
  - by rewrite admitted_other.
  - intros a Ha. rewrite admitted_other by done. auto.
  - intros a. rewrite admitted_other by done. auto.
Qed.

(** The invariant for the windows of all clients. *)
Definition windows_inv (ws : gmap string Window) (h : list attempt) (last : Z) : Prop :=
  ∀ ip, window_inv period max ip (window_of ws ip) h last.

Lemma window_of_insert ws ip w : window_of (<[ip := w]> ws) ip = w.
Proof using Type. unfold window_of. by simplify_map_eq. Qed.

Lemma window_of_insert_ne ws ip ip' w :
  ip ≠ ip' → window_of (<[ip := w]> ws) ip' = window_of ws ip'.
Proof using Type. intros. unfold window_of. by simplify_map_eq. Qed.

Lemma windows_inv_init : windows_inv ∅ [] 0.
Proof using Hmax. intros ip. unfold window_of. rewrite lookup_empty. apply window_inv_init. Qed.

Lemma windows_inv_later ws h last now :
  last ≤ now → windows_inv ws h last → windows_inv ws h now.
Proof using Type. intros Hn H ip. by eapply window_inv_later. Qed.

Lemma windows_inv_refresh ws h ip last now :
  last ≤ now → 0 < now → windows_inv ws h last →
  windows_inv (<[ip := refresh period now (window_of ws ip)]> ws) h now.
Proof using Hperiod Hmax.
  intros Hn Hpos H ip'. destruct (decide (ip = ip')) as [<-|Hne].
  - rewrite window_of_insert. by eapply window_inv_refresh.
  - rewrite window_of_insert_ne by done. by eapply window_inv_later.
Qed.

Lemma windows_inv_record ws h x last :
  last ≤ recorded x → 0 < recorded x → count (window_of ws (client x)) < max →
  windows_inv ws h last →
  windows_inv (<[client x := snd (incrementWindow (recorded x) max period
                                   (window_of ws (client x)))]> ws) (x :: h) (recorded x).
Proof using Hperiod Hmax.
  intros Hn Hpos Hc H ip. destruct (decide (client x = ip)) as [<-|Hne].
  - rewrite window_of_insert. unfold incrementWindow.
    apply (refresh_count (recorded x)) in Hc as Hc'.
    destruct (_ && _) eqn:E; [bool_hyps; lia|]. simpl.
    destruct (refresh_current (recorded x) (window_of ws (client x)) Hpos).
    apply window_inv_count; try done. by eapply window_inv_refresh.
  - rewrite window_of_insert_ne by done. by eapply window_inv_other.
Qed.
End window_invariant.

(** ** The limiter *)

(** What the invariant says of a whole limiter, for the limits in force. *)
Record limiter_inv (l : ConnectionRateLimiter) (h : list attempt) (last : Z) : Prop := {
  li_minute : 0 < max_per_minute l →
    windows_inv minute_period (max_per_minute l) (minute_windows l) h last;
  li_hour : 0 < max_per_hour l →
    windows_inv hour_period (max_per_hour l) (hour_windows l) (map by_hour h) last
}.

Definition limits_ok (l : ConnectionRateLimiter) : Prop :=
  0 ≤ max_per_minute l < 2 ^ 64 ∧ 0 ≤ max_per_hour l < 2 ^ 64.

Definition same_limits (l l' : ConnectionRateLimiter) : Prop :=
  max_per_minute l' = max_per_minute l ∧ max_per_hour l' = max_per_hour l.

Lemma new_limiter_inv m h :
  limits_ok (new_limiter m h) → limiter_inv (new_limiter m h) [] 0.
Proof. intros [Hm Hh]. split; intros H; apply windows_inv_init; simpl in *; lia. Qed.

(** One limit of [allowConnection]: the window is refreshed and tested. *)
Lemma ask_window period max now ip ws h last :
  0 < period → 0 < max < 2 ^ 64 → last ≤ now → 0 < now → windows_inv period max ws h last →
  windows_inv period max (<[ip := refresh period now (window_of ws ip)]> ws) h now ∧
  ((count (refresh period now (window_of ws ip)) >=? max) = false →
   count (window_of (<[ip := refresh period now (window_of ws ip)]> ws) ip) < max).
Proof.
  intros Hp Hmax Hn Hpos Hinv. split; [by eapply windows_inv_refresh|].
  rewrite window_of_insert. lia.
Qed.

(** Asking: the windows are refreshed, and a positive answer means that every
    limit in force has room. *)
Lemma allowConnection_inv now ip l h last ok l' :
  limits_ok l → last ≤ now → 0 < now → limiter_inv l h last →
  allowConnection now ip l = (ok, l') →
  same_limits l l' ∧ limiter_inv l' h now ∧
  (ok = true →
   (0 < max_per_minute l → count (window_of (minute_windows l') ip) < max_per_minute l) ∧
   (0 < max_per_hour l → count (window_of (hour_windows l') ip) < max_per_hour l)).
Proof.
  intros [Hm Hh] Hn Hpos [Im Ih]. unfold allowConnection. cbv zeta.
  assert (0 < minute_period ∧ 0 < hour_period) as [Pm Ph] by done.
  assert (∀ p m ws h, windows_inv p m ws h last → windows_inv p m ws h now) as Later.
  { intros p m ws h'. by apply windows_inv_later. }
  destruct (_ && _) eqn:E0; bool_hyps.
  { intros [= <- <-]. split; [done|]. split; [by split; auto|]. lia. }
  assert (¬ (0 < 0)) as N0 by lia.
  destruct (max_per_minute l >? 0) eqn:Em.
  - destruct (ask_window minute_period (max_per_minute l) now ip (minute_windows l) h last
      Pm ltac:(lia) Hn Hpos (Im ltac:(lia))) as [Im' Rm].
    destruct (count (refresh minute_period now (window_of (minute_windows l) ip))
      >=? max_per_minute l) eqn:Ec; cbn [negb].
    { intros [= <- <-]. split; [done|]. split; [|done]. split; cbn; auto. }
    specialize (Rm eq_refl). cbn [set_minute set_hour max_per_hour hour_windows].
    destruct (max_per_hour l >? 0) eqn:Eh.
    + destruct (ask_window hour_period (max_per_hour l) now ip (hour_windows l) (map by_hour h) last
        Ph ltac:(lia) Hn Hpos (Ih ltac:(lia))) as [Ih' Rh].
      destruct (count (refresh hour_period now (window_of (hour_windows l) ip))
        >=? max_per_hour l) eqn:Ed; intros [= <- <-]; (split; [done|]).
      * split; [|done]. split; cbn; auto.
      * split; [split; cbn; auto|]. intros _. split; cbn; auto.
    + intros [= <- <-]. split; [done|]. split; [split; cbn; auto|].
      intros _. split; cbn; auto. lia.
  - cbn [negb set_hour max_per_hour]. destruct (max_per_hour l >? 0) eqn:Eh.
    + destruct (ask_window hour_period (max_per_hour l) now ip (hour_windows l) (map by_hour h) last
        Ph ltac:(lia) Hn Hpos (Ih ltac:(lia))) as [Ih' Rh].
      destruct (count (refresh hour_period now (window_of (hour_windows l) ip))
        >=? max_per_hour l) eqn:Ed; intros [= <- <-]; (split; [done|]).
      * split; [|done]. split; cbn; auto.
      * split; [split; cbn; auto|]. intros _. split; cbn; auto. lia.
    + intros [= <- <-]. split; [done|]. split; [split; auto|]. lia.
Qed.

Lemma recordConnection_inv x l h last :
  limits_ok l → last ≤ recorded x → recorded x ≤ recorded_hour x → 0 < recorded x → limiter_inv l h last →
  (0 < max_per_minute l → count (window_of (minute_windows l) (client x)) < max_per_minute l) →
  (0 < max_per_hour l → count (window_of (hour_windows l) (client x)) < max_per_hour l) →
  same_limits l (recordConnection (recorded x) (recorded_hour x) (client x) l) ∧
  limiter_inv (recordConnection (recorded x) (recorded_hour x) (client x) l) (x :: h) (recorded_hour x).
Proof.
  intros [Hm Hh] Hn Hn2 Hpos [Im Ih] Cm Ch. unfold recordConnection. cbv zeta.
  assert (0 < minute_period ∧ 0 < hour_period) as [Pm Ph] by done.
  assert (0 < max_per_minute l → windows_inv minute_period (max_per_minute l)
    (<[client x := snd (incrementWindow (recorded x) (max_per_minute l) minute_period
       (window_of (minute_windows l) (client x)))]> (minute_windows l)) (x :: h) (recorded_hour x)) as Im'.
  { intros H. apply (windows_inv_later _ _ _ _ (recorded x)); [done|].
    apply (windows_inv_record minute_period (max_per_minute l)) with last; auto; lia. }
  assert (0 < max_per_hour l → windows_inv hour_period (max_per_hour l)
    (<[client x := snd (incrementWindow (recorded_hour x) (max_per_hour l) hour_period
       (window_of (hour_windows l) (client x)))]> (hour_windows l)) (map by_hour (x :: h)) (recorded_hour x)) as Ih'.
  { intros H. apply (windows_inv_record hour_period (max_per_hour l) ltac:(lia) ltac:(lia) _ (map by_hour h) (by_hour x) last);
      cbn; auto; lia. }
  destruct (_ && _) eqn:E0; bool_hyps; [split; [done|]; split; lia|].
  destruct (max_per_minute l >? 0) eqn:Em; cbn [set_minute max_per_hour hour_windows];
    destruct (max_per_hour l >? 0) eqn:Eh;
    (split; [done|]); split; cbn [set_minute set_hour minute_windows hour_windows
      max_per_minute max_per_hour]; intros; auto; lia.
Qed.

Lemma try_connect_inv a l h last ok l' :
  limits_ok l → last ≤ asked a ≤ recorded a → recorded a ≤ recorded_hour a → 0 < asked a → limiter_inv l h last →
  try_connect a l = (ok, l') →
  same_limits l l' ∧ limiter_inv l' (if ok then a :: h else h) (recorded_hour a).
Proof.
  intros Hlim Hn Hn2 Hpos Hinv. unfold try_connect.
  destruct (allowConnection (asked a) (client a) l) as [b l1] eqn:E.
  destruct (allowConnection_inv _ _ _ _ _ _ _ Hlim (proj1 Hn) Hpos Hinv E)
    as ([E1 E2] & Hinv1 & Hroom).
  destruct b; intros [= <- <-].
  - specialize (Hroom eq_refl) as [R1 R2]. rewrite <- E1, <- E2 in *.
    destruct (recordConnection_inv a l1 h (asked a)) as [[F1 F2] G]; try done; try lia.
    + unfold limits_ok. by rewrite E1, E2.
    + split; [|done]. split; congruence.
  - split; [done|]. destruct Hinv1 as [I1 I2].
    split; intros H; apply windows_inv_later with (asked a); auto; lia.
Qed.

Lemma run_inv attempts rest past l last past' l' :
  limits_ok l → 0 < last → well_timed last (attempts ++ rest) → limiter_inv l past last →
  run attempts past l = (past', l') →
  same_limits l l' ∧ ∃ last', 0 < last' ∧ limiter_inv l' past' last' ∧ well_timed last' rest.
Proof.
  revert past l last. induction attempts as [|a attempts IH]; intros past l last Hlim Hpos.
  - intros Hw Hinv [= <- <-]. split; [done|eauto].
  - intros (Ht & Ht2 & Hw) Hinv. simpl. destruct (try_connect a l) as [ok l1] eqn:E. intros Hrun.
    destruct (try_connect_inv _ _ _ _ _ _ Hlim Ht Ht2 ltac:(lia) Hinv E) as [[E1 E2] Hinv1].
    assert (limits_ok l1) as Hlim1 by (unfold limits_ok; by rewrite E1, E2).
    destruct (IH _ _ (recorded_hour a) Hlim1 ltac:(lia) Hw Hinv1 Hrun) as [[F1 F2] G].
    split; [|done]. split; congruence.
Qed.

Lemma run_new_inv m h attempts rest past l :
  0 ≤ m < 2 ^ 64 → 0 ≤ h < 2 ^ 64 → well_timed 1 (attempts ++ rest) →
  run attempts [] (new_limiter m h) = (past, l) →
  same_limits (new_limiter m h) l ∧
  ∃ last, 0 < last ∧ limiter_inv l past last ∧ well_timed last rest.
Proof.
  intros Hm Hh Hw E. assert (limits_ok (new_limiter m h)) as Hlim by done.
  eapply run_inv; [done|..|exact Hw| |exact E]; [lia|].
  destruct (new_limiter_inv _ _ Hlim) as [I1 I2].
  split; intros H; apply windows_inv_later with 0; auto; lia.
Qed.

(** A window whose client had fewer than [max] connections in the last period
    has room. *)
Lemma window_has_room period max ip w h last now :
  0 < max → last ≤ now → window_inv period max ip w h last →
  admitted ip (now - period + 1) (now + 1) h < max → count (refresh period now w) < max.
Proof.
  intros Hmax Hn Hinv Hlt. destruct (refresh_cases period now w) as [(-> & Hs & Hc)|[-> _]];
    [|done]. destruct Hinv. rewrite wi_count0. eapply Z.le_lt_trans; [|exact Hlt].
  apply admitted_mono. intros x Hx _ ?. lia.
Qed.

(** ** Two limiters that agree on one client *)
Definition agree (ip : string) (l l' : ConnectionRateLimiter) : Prop :=
  same_limits l l' ∧
  window_of (minute_windows l') ip = window_of (minute_windows l) ip ∧
  window_of (hour_windows l') ip = window_of (hour_windows l) ip.

#[export] Instance agree_refl ip : Reflexive (agree ip).
Proof. done. Qed.

#[export] Instance agree_sym ip : Symmetric (agree ip).
Proof. by intros l l' ([] & ? & ?). Qed.

#[export] Instance agree_trans ip : Transitive (agree ip).
Proof. intros l1 l2 l3 ([] & ? & ?) ([] & ? & ?). repeat split; congruence. Qed.

(** Unfold an operation on explicit limiters and split on its conditions, the
    tactic [norm] normalising the goal before each split. *)
Ltac limiter_cases norm :=
  unfold allowConnection, recordConnection, agree, same_limits, set_minute, set_hour;
  cbn [max_per_minute max_per_hour minute_windows hour_windows];
  repeat (norm; match goal with
    | |- context [if ?b then _ else _] => destruct b eqn:?
    end; cbn [negb fst snd max_per_minute max_per_hour minute_windows hour_windows]);
  norm; rewrite ?window_of_insert; norm;
  cbn [max_per_minute max_per_hour] in *; try congruence.

Lemma allow_other ip c now l : c ≠ ip → agree ip l (snd (allowConnection now c l)).
Proof.
  intros Hne. destruct l. limiter_cases idtac; rewrite ?window_of_insert_ne by done; done.
Qed.

Lemma record_other ip c now now_hour l : c ≠ ip → agree ip l (recordConnection now now_hour c l).
Proof.
  intros Hne. destruct l. limiter_cases idtac; rewrite ?window_of_insert_ne by done; done.
Qed.

Lemma allow_agree ip now l l' :
  agree ip l l' →
  fst (allowConnection now ip l') = fst (allowConnection now ip l) ∧
  agree ip (snd (allowConnection now ip l)) (snd (allowConnection now ip l')).
Proof.
  destruct l as [pm ph m h], l' as [pm' ph' m' h']. intros ([E1 E2] & E3 & E4).
  simpl in *. subst pm' ph'. limiter_cases ltac:(rewrite ?E3, ?E4); auto.
Qed.

Lemma record_agree ip now now_hour l l' :
  agree ip l l' → agree ip (recordConnection now now_hour ip l) (recordConnection now now_hour ip l').
Proof.
  destruct l as [pm ph m h], l' as [pm' ph' m' h']. intros ([E1 E2] & E3 & E4).
  simpl in *. subst pm' ph'. limiter_cases ltac:(rewrite ?E3, ?E4); auto.
Qed.

(** Another client's attempt leaves what [ip] sees unchanged. *)
Lemma try_connect_other ip a l : client a ≠ ip → agree ip l (snd (try_connect a l)).
Proof.
  intros Hne. unfold try_connect. pose proof (allow_other ip (client a) (asked a) l Hne) as H.
  destruct (allowConnection _ _ _) as [[] l1]; simpl in *; [|done].
  etransitivity; [exact H|by apply record_other].
Qed.

(** [ip]'s own attempt only depends on what [ip] sees. *)
Lemma try_connect_agree ip a l l' :
  client a = ip → agree ip l l' →
  fst (try_connect a l') = fst (try_connect a l) ∧
  agree ip (snd (try_connect a l)) (snd (try_connect a l')).
Proof.
  intros <- Ha. unfold try_connect. destruct (allow_agree _ (asked a) _ _ Ha) as [E1 E2].
  destruct (allowConnection _ _ l) as [b l1], (allowConnection _ _ l') as [b' l1'].
  simpl in *. subst b'. destruct b; simpl; auto using record_agree.
Qed.

Lemma run_agree ip attempts past past' l l' :
  agree ip l l' → past' = List.filter (λ a, bool_decide (client a = ip)) past →
  (run (List.filter (λ a, bool_decide (client a = ip)) attempts) past' l').1 =
  List.filter (λ a, bool_decide (client a = ip)) (run attempts past l).1.
Proof.
  revert past past' l l'. induction attempts as [|a attempts IH]; intros past past' l l' Ha ->;
    [done|]. simpl. destruct (decide (client a = ip)) as [E|E].
  - rewrite bool_decide_eq_true_2 by done. simpl.
    destruct (try_connect_agree ip a l l' E Ha) as [E1 E2].
    destruct (try_connect a l) as [ok l1], (try_connect a l') as [ok' l1']. simpl in *. subst ok'.
    apply IH; [done|]. destruct ok; [|done]. simpl. by rewrite bool_decide_eq_true_2.
  - rewrite bool_decide_eq_false_2 by done.
    pose proof (try_connect_other ip a l E) as Ho.
    destruct (try_connect a l) as [ok l1]. simpl in *. apply IH.
    + etransitivity; [symmetry; exact Ho|exact Ha].
    + destruct ok; [|done]. simpl. by rewrite bool_decide_eq_false_2.
Qed.

(** ** Properties *)

(** Whatever the sequence of connection attempts (from any clients, at any
    non-decreasing times), at most twice the minute limit of connections of one
    client is admitted in any span of 60 seconds, and at most twice the hour
    limit in any span of 3600 seconds: what fixed windows can promise. *)
Theorem run_bounded per_minute per_hour attempts ip from :
  0 ≤ per_minute < 2 ^ 64 → 0 ≤ per_hour < 2 ^ 64 → well_timed 1 attempts →
  let past := (run attempts [] (new_limiter per_minute per_hour)).1 in
  (0 < per_minute → admitted ip from (from + minute_period) past ≤ 2 * per_minute) ∧
  (0 < per_hour → admitted ip from (from + hour_period) (map by_hour past) ≤ 2 * per_hour).
Proof.
  intros Hm Hh Hw. destruct (run attempts [] _) as [past l'] eqn:E.
  rewrite <- (app_nil_r attempts) in Hw.
  destruct (run_new_inv _ _ _ _ _ _ Hm Hh Hw E) as ([E1 E2] & last & _ & [I1 I2] & _).
  simpl in E1, E2. rewrite E1 in I1. rewrite E2 in I2.
  split; intros H; [apply (wi_span _ _ _ _ _ _ (I1 H ip))|apply (wi_span _ _ _ _ _ _ (I2 H ip))].
Qed.

(** A client is never refused below its limits: after any sequence of
    attempts, the next attempt of a client with fewer than the minute limit of
    admitted connections in the last 60 seconds and fewer than the hour limit in
    the last 3600 seconds is admitted. *)
Theorem try_connect_below_limits per_minute per_hour attempts a :
  0 ≤ per_minute < 2 ^ 64 → 0 ≤ per_hour < 2 ^ 64 → well_timed 1 (attempts ++ [a]) →
  let '(past, l) := run attempts [] (new_limiter per_minute per_hour) in
  (0 < per_minute →
     admitted (client a) (asked a - minute_period + 1) (asked a + 1) past < per_minute) →
  (0 < per_hour →
     admitted (client a) (asked a - hour_period + 1) (asked a + 1) (map by_hour past) < per_hour) →
  (try_connect a l).1 = true.
Proof.
  intros Hm Hh Hw. destruct (run attempts [] _) as [past l] eqn:E. intros Lm Lh.
  destruct (run_new_inv _ _ _ _ _ _ Hm Hh Hw E) as ([E1 E2] & last & Hpos & [I1 I2] & Ht & _).
  simpl in E1, E2. rewrite E1 in I1. rewrite E2 in I2.
  assert (0 < per_minute → count (refresh minute_period (asked a)
    (window_of (minute_windows l) (client a))) < per_minute) as Rm.
  { intros H. apply (window_has_room _ _ (client a) _ past last); [done|lia|by apply I1|auto]. }
  assert (0 < per_hour → count (refresh hour_period (asked a)
    (window_of (hour_windows l) (client a))) < per_hour) as Rh.
  { intros H. apply (window_has_room _ _ (client a) _ (map by_hour past) last); [done|lia|by apply I2|auto]. }
  unfold try_connect, allowConnection, set_minute, set_hour. cbv zeta. rewrite E1, E2.
  repeat (case_match; simplify_eq/=; try done); exfalso; bool_hyps; lia.
Qed.

(** Clients do not interfere: the admitted connections of a client are the
    ones it would have had alone. *)
Theorem run_isolated per_minute per_hour attempts ip :
  let mine := List.filter (λ a, bool_decide (client a = ip)) in
  mine (run attempts [] (new_limiter per_minute per_hour)).1 =
  (run (mine attempts) [] (new_limiter per_minute per_hour)).1.
Proof. symmetry. by apply run_agree. Qed.

(** ** Witnesses *)
Definition burst : list attempt :=
  [Attempt "1.2.3.4" 10 20 20; Attempt "1.2.3.4" 30 40 40; Attempt "1.2.3.4" 50 60 60;
   Attempt "5.6.7.8" 70 80 80; Attempt "1.2.3.4" (seconds 90) (seconds 91) (seconds 91)].

(** With two connections a minute: the third of the burst is refused, another
    client is not, and the first client is admitted again a minute later. *)
Example burst_run :
  map recorded (run burst [] (new_limiter 2 0)).1 = [seconds 91; 80; 40; 20].
Proof. vm_compute. reflexivity. Qed.

Lemma run_bounded_witness :
  admitted "1.2.3.4" 0 minute_period (run burst [] (new_limiter 2 0)).1 ≤ 4.
Proof.
  destruct (run_bounded 2 0 burst "1.2.3.4" 0) as [H _];
    [lia|lia|vm_compute; intuition discriminate|].
  apply H. lia.
Defined.

Lemma try_connect_below_limits_witness :
  (try_connect (Attempt "1.2.3.4" (seconds 95) (seconds 96) (seconds 96))
     (run burst [] (new_limiter 2 0)).2).1 = true.
Proof.
  pose proof (try_connect_below_limits 2 0 burst (Attempt "1.2.3.4" (seconds 95) (seconds 96) (seconds 96)))
    as H.
  assert (well_timed 1 (burst ++ [Attempt "1.2.3.4" (seconds 95) (seconds 96) (seconds 96)])) as Hw
    by (vm_compute; intuition discriminate).
  specialize (H ltac:(lia) ltac:(lia) Hw).
  destruct (run burst [] (new_limiter 2 0)) as [past l] eqn:E.
  assert (past = (run burst [] (new_limiter 2 0)).1) as -> by (by rewrite E).
  apply H; [intros _; vm_compute; reflexivity|lia].
Defined.
