(* ===== verification/SshKey.v ===== *)
(** * SSH keys and signatures: [security/ssh_key.cpp]

    Byte strings are [string]s.  The wire reader is explicit state (blob and
    offset).  OpenSSL is the interface [OpenSSL]: base64 BIOs, digests, key
    import and [EVP_DigestVerify] are its operations. *)
From S2P Require Import Prelude CppString.
Open Scope Z_scope.

(** Message digests the code selects; [None] where the code passes [nullptr]. *)
Inductive EVP_MD := EVP_sha1 | EVP_sha256 | EVP_sha384 | EVP_sha512.
#[export] Instance EVP_MD_eq : EqDecision EVP_MD.
Proof. solve_decision. Defined.

(** Elliptic curves [EC_KEY_new_by_curve_name] is called with. *)
Inductive curve := NID_X9_62_prime256v1 | NID_secp384r1 | NID_secp521r1.
#[export] Instance curve_eq : EqDecision curve.
Proof. solve_decision. Defined.

(** The OpenSSL calls: [base64Decode]/[base64Encode] are the BIO filter chains
    of the two wrappers; [rsa_key n e], [ed25519_key raw] and [ec_key curve q]
    build a public key from its numbers, [None] when a call fails;
    [digest_verify] is [EVP_DigestVerifyInit] followed by [EVP_DigestVerify],
    true when both return 1. *)
Class OpenSSL := {
  EVP_PKEY : Type;
  base64Decode : string → string;
  base64Encode : string → string;
  SHA256 : string → string;
  SHA512 : string → string;
  rsa_key : Z → Z → option EVP_PKEY;
  ed25519_key : string → option EVP_PKEY;
  ec_key : curve → string → option EVP_PKEY;
  digest_verify : EVP_PKEY → option EVP_MD → string → string → bool
}.

Definition kMagicV0 : string := "SSH SIG".
Definition kMagicV1 : string := "SSHSIG".
Definition kDefaultNamespace : string := "simple-rsyncd".

(** ** Wire encoding *)

(** The four bytes of [len], most significant first. *)
Definition be32 (len : Z) : string :=
  String (chr (Z.land (Z.shiftr len 24) 0xFF))
    (String (chr (Z.land (Z.shiftr len 16) 0xFF))
      (String (chr (Z.land (Z.shiftr len 8) 0xFF))
        (String (chr (Z.land len 0xFF)) ""))).

(** [static_cast<std::uint32_t>(value.size())] *)
Definition wire_length (value : string) : Z := Z.of_nat (String.length value) `mod` 2 ^ 32.

Definition appendWireString (out value : string) : string :=
  out +:+ be32 (wire_length value) +:+ value.

(** The byte at position [i]; only used within the blob. *)
Definition byte_at (s : string) (i : nat) : Z :=
  match str_drop i s with
  | String c _ => ord c
  | "" => 0
  end.

Definition readBe32 (s : string) (i : nat) : Z :=
  Z.lor (Z.shiftl (byte_at s i) 24)
    (Z.lor (Z.shiftl (byte_at s (i + 1)) 16)
      (Z.lor (Z.shiftl (byte_at s (i + 2)) 8) (byte_at s (i + 3)))).

Record SshWireReader := Reader { data_ : string; offset_ : nat }.

Definition size_ (r : SshWireReader) : nat := String.length (data_ r).
Definition new_reader (blob : string) : SshWireReader := Reader blob 0.
Definition advance (n : nat) (r : SshWireReader) : SshWireReader :=
  Reader (data_ r) (offset_ r + n).

(** On failure after the length field the offset has moved past it. *)
Definition readString (r : SshWireReader) : option string * SshWireReader :=
  if bool_decide (size_ r < offset_ r + 4)%nat then (None, r) else
  let len := readBe32 (data_ r) (offset_ r) in
  let r := advance 4 r in
  if Z.of_nat (offset_ r) + len >? Z.of_nat (size_ r) then (None, r) else
  (Some (substr (offset_ r) (Z.to_nat len) (data_ r)), advance (Z.to_nat len) r).

Definition readByte (r : SshWireReader) : option Z * SshWireReader :=
  if bool_decide (size_ r ≤ offset_ r)%nat then (None, r)
  else (Some (byte_at (data_ r) (offset_ r)), advance 1 r).

(** [BN_bin2bn]: an unsigned big-endian number. *)
Fixpoint bn_bin2bn_go (acc : Z) (s : string) : Z :=
  match s with
  | "" => acc
  | String c s => bn_bin2bn_go (acc * 256 + ord c) s
  end.
Definition bn_bin2bn : string → Z := bn_bin2bn_go 0.

Definition readMpint (r : SshWireReader) : option Z * SshWireReader :=
  match readString r with
  | (None, r) => (None, r)
  | (Some bytes, r) => (Some (if is_empty bytes then 0 else bn_bin2bn bytes), r)
  end.

Definition reader_empty (r : SshWireReader) : bool := bool_decide (size_ r ≤ offset_ r)%nat.
Definition remaining (r : SshWireReader) : nat :=
  if bool_decide (offset_ r < size_ r)%nat then (size_ r - offset_ r)%nat else 0%nat.

(** ** Reads in sequence: the chained [reader.readString(...)] conditions. *)
Definition reading (A : Type) : Type := SshWireReader → option A * SshWireReader.
Definition then_read {A B} (m : reading A) (k : A → reading B) : reading B := λ r,
  match m r with
  | (None, r) => (None, r)
  | (Some a, r) => k a r
  end.
Definition read_done {A} (a : A) : reading A := λ r, (Some a, r).
Definition read_fail {A} : reading A := λ r, (None, r).
Declare Scope reading_scope.
Delimit Scope reading_scope with reading.
Notation "'let*' x ':=' m 'in' k" := (then_read m (λ x, k))
  (at level 10, x name, m at level 100, k at level 200) : reading_scope.

Definition ecNidFromSshType (key_type : string) : option curve :=
  if String.eqb key_type "ecdsa-sha2-nistp256" then Some NID_X9_62_prime256v1
  else if String.eqb key_type "ecdsa-sha2-nistp384" then Some NID_secp384r1
  else if String.eqb key_type "ecdsa-sha2-nistp521" then Some NID_secp521r1
  else None.

Definition mdFromSshSigType (sig_type : string) : option EVP_MD :=
  if String.eqb sig_type "rsa-sha2-256" then Some EVP_sha256
  else if String.eqb sig_type "rsa-sha2-512" then Some EVP_sha512
  else if String.eqb sig_type "ssh-rsa" then Some EVP_sha1
  else None.

(** The fields of an SSHSIG envelope the caller receives. *)
Record SshSig := MkSshSig {
  sig_version : Z;
  sig_namespace : string;
  sig_hash_alg : string;
  sig_type : string;
  sig_raw : string
}.

Definition parseSshSigEnvelope (sig_blob : string) : option SshSig :=
  let header_len :=
    if starts_with kMagicV1 sig_blob then Some (String.length kMagicV1)
    else if starts_with kMagicV0 sig_blob then Some (String.length kMagicV0)
    else None in
  match header_len with
  | None => None
  | Some header_len =>
      if bool_decide (String.length sig_blob < header_len + 4)%nat then None else
      let version := readBe32 sig_blob header_len in
      let reader := new_reader (substr_from (header_len + 4) sig_blob) in
      fst ((let* embedded_pubkey := readString in
            let* namespace_name := readString in
            let* reserved :=
              if version >=? 1 then (let* reserved_string := readString in read_done tt)
              else (let* reserved_byte := readByte in
                    if reserved_byte =? 0 then read_done tt else read_fail) in
            let* hash_alg := readString in
            let* inner_sig_blob := readString in
            λ r,
              (fst ((let* sig_type := readString in
                     let* sig_raw := readString in
                     read_done (MkSshSig version namespace_name hash_alg sig_type sig_raw))%reading
                    (new_reader inner_sig_blob)), r))%reading reader)
  end.

(** ** PEM armor *)
Definition sig_begin : string := "-----BEGIN SSH SIGNATURE-----".
Definition sig_end : string := "-----END SSH SIGNATURE-----".

(** The loop over the lines between the markers; [None] is out of fuel. *)
Fixpoint collect_lines (fuel : nat) (signature : string) (stop pos : nat) (body : string)
    : option string :=
  match fuel with
  | O => None
  | S fuel =>
      if bool_decide (stop ≤ pos)%nat then Some body else
      let line_end := find_char_from newline pos signature in
      let chunk_end := match line_end with
                       | None => stop
                       | Some e => if bool_decide (stop < e)%nat then stop else e
                       end in
      let body := body +:+ substr pos (chunk_end - pos) signature in
      match line_end with
      | None => Some body
      | Some e => if bool_decide (stop ≤ e)%nat then Some body
                  else collect_lines fuel signature stop (S e) body
      end
  end.

Definition normalizeSignatureInput (signature : string) : string :=
  match find_str sig_begin signature with
  | None => signature
  | Some begin =>
      match find_str sig_end signature with
      | None => signature
      | Some stop =>
          match find_char_from newline begin signature with
          | None => signature
          | Some lines_start =>
              default "" (collect_lines (S stop) signature stop (S lines_start) "")
          end
      end
  end.

Section openssl.
Context `{OpenSSL}.

Definition pkeyFromEd25519 (raw32 : string) : option EVP_PKEY :=
  if bool_decide (String.length raw32 = 32%nat) then ed25519_key raw32 else None.

Definition pkeyFromEc (key_type curve_id q_bytes : string) : option EVP_PKEY :=
  match ecNidFromSshType key_type with
  | None => None
  | Some nid => ec_key nid q_bytes
  end.

Definition fromSshBlob (decoded_blob : string) : option EVP_PKEY :=
  match readString (new_reader decoded_blob) with
  | (None, _) => None
  | (Some key_type, reader) =>
      if String.eqb key_type "ssh-rsa" then
        match fst ((let* e := readMpint in let* n := readMpint in
                    read_done (n, e))%reading reader) with
        | None => None
        | Some (n, e) => rsa_key n e
        end
      else if String.eqb key_type "ssh-ed25519" then
        match fst (readString reader) with
        | None => None
        | Some raw => pkeyFromEd25519 raw
        end
      else if starts_with "ecdsa-sha2-" key_type then
        match fst ((let* curve_id := readString in let* q_bytes := readString in
                    read_done (curve_id, q_bytes))%reading reader) with
        | None => None
        | Some (curve_id, q_bytes) => pkeyFromEc key_type curve_id q_bytes
        end
      else None
  end.

Definition digestVerify (pkey : EVP_PKEY) (md : EVP_MD) (data sig_raw : string) : bool :=
  digest_verify pkey (Some md) data sig_raw.

Definition ed25519Verify (pkey : EVP_PKEY) (data sig_raw : string) : bool :=
  digest_verify pkey None data sig_raw.

Definition verifyInnerSignature (pkey : EVP_PKEY) (key_type sig_type sig_raw signed_data : string)
    : bool :=
  if String.eqb key_type "ssh-ed25519" || String.eqb sig_type "ssh-ed25519" then
    ed25519Verify pkey signed_data sig_raw
  else if String.eqb key_type "ssh-rsa" || String.eqb sig_type "ssh-rsa" ||
          String.eqb sig_type "rsa-sha2-256" || String.eqb sig_type "rsa-sha2-512" then
    let md := default EVP_sha256 (mdFromSshSigType sig_type) in
    if digestVerify pkey md signed_data sig_raw then true
    else if negb (String.eqb sig_type "ssh-rsa")
         then digestVerify pkey EVP_sha1 signed_data sig_raw
         else false
  else if starts_with "ecdsa-sha2-" key_type then
    let md := if contains "nistp384" sig_type then EVP_sha384
              else if contains "nistp521" sig_type then EVP_sha512
              else EVP_sha256 in
    digestVerify pkey md signed_data sig_raw
  else false.

Definition hashMessage (hash_alg message : string) : string :=
  if String.eqb hash_alg "sha512" then SHA512 message
  else if String.eqb hash_alg "sha256" then SHA256 message
  else message.

Definition buildOpenSshSignedDataV1 (namespace_name hash_alg message : string) : string :=
  let out := kMagicV1 in
  let out := appendWireString out namespace_name in
  let out := appendWireString out "" in
  let out := appendWireString out hash_alg in
  appendWireString out (hashMessage hash_alg message).

Definition buildOpenSshSignedDataV0 (namespace_name hash_alg message : string) : string :=
  let out := kMagicV0 in
  let out := appendWireString out namespace_name in
  let out := out +:+ String (chr 0) "" in
  let out := appendWireString out hash_alg in
  appendWireString out (hashMessage hash_alg message).

Definition verify (key_type key_data_b64 data signature_b64 : string) : bool :=
  let normalized_sig := normalizeSignatureInput signature_b64 in
  let key_blob := base64Decode key_data_b64 in
  let sig_blob := base64Decode normalized_sig in
  if is_empty key_blob || is_empty sig_blob then false else
  match fromSshBlob key_blob with
  | None => false
  | Some pkey =>
      if starts_with kMagicV0 sig_blob || starts_with kMagicV1 sig_blob then
        match parseSshSigEnvelope sig_blob with
        | None => false
        | Some s =>
            let sign_message :=
              if sig_version s >=? 1
              then buildOpenSshSignedDataV1 (sig_namespace s) (sig_hash_alg s) data
              else buildOpenSshSignedDataV0 (sig_namespace s) (sig_hash_alg s) data in
            verifyInnerSignature pkey key_type (sig_type s) (sig_raw s) sign_message
        end
      else
        match fst ((let* sig_type := readString in let* sig_raw := readString in
                    read_done (sig_type, sig_raw))%reading (new_reader sig_blob)) with
        | None => false
        | Some (sig_type, sig_raw) =>
            if verifyInnerSignature pkey key_type sig_type sig_raw data then true
            else if negb (String.eqb key_type "ssh-ed25519") then false
            else if verifyInnerSignature pkey key_type sig_type sig_raw
                      (buildOpenSshSignedDataV1 kDefaultNamespace "sha512" data) then true
            else verifyInnerSignature pkey key_type sig_type sig_raw
                   (buildOpenSshSignedDataV0 kDefaultNamespace "sha512" data)
        end
  end.

Definition buildEd25519KeyData (raw32 : string) : string :=
  if bool_decide (String.length raw32 ≠ 32%nat) then "" else
  let blob := appendWireString "" "ssh-ed25519" in
  let blob := appendWireString blob raw32 in
  base64Encode blob.

Definition buildSignatureBlob (sig_type sig_raw : string) : string :=
  let blob := appendWireString "" sig_type in
  let blob := appendWireString blob sig_raw in
  base64Encode blob.
End openssl.

(** ** The grammar of the wire format *)

(** A string field, length first. *)
Definition wire (v : string) : string := be32 (wire_length v) +:+ v.

(** What is left to read. *)
Definition unread (r : SshWireReader) : string := str_drop (offset_ r) (data_ r).

(** Sizes fit the 32-bit length field. *)
Definition small (v : string) : Prop := Z.of_nat (String.length v) < 2 ^ 32.

(** A signature blob: type and raw signature, then anything. *)
Definition signature_body (s : SshSig) (junk : string) : string :=
  wire (sig_type s) +:+ wire (sig_raw s) +:+ junk.

(** An SSHSIG envelope carrying the fields [s]. *)
Definition is_envelope (blob : string) (s : SshSig) : Prop :=
  ∃ magic pubkey reserved inner_junk junk,
    (magic = kMagicV1 ∨ magic = kMagicV0) ∧
    blob = magic +:+ be32 (sig_version s) +:+ wire pubkey +:+ wire (sig_namespace s) +:+
           reserved +:+ wire (sig_hash_alg s) +:+ wire (signature_body s inner_junk) +:+ junk ∧
    0 ≤ sig_version s < 2 ^ 32 ∧
    small pubkey ∧ small (sig_namespace s) ∧ small (sig_hash_alg s) ∧
    small (signature_body s inner_junk) ∧ small (sig_type s) ∧ small (sig_raw s) ∧
    (if sig_version s >=? 1 then ∃ v, reserved = wire v ∧ small v
     else reserved = String (chr 0) "").

(** ** Lemmas: bytes and lengths *)
Lemma land_255 x : Z.land x 0xFF = x `mod` 256.
Proof. apply (Z.land_ones x 8). lia. Qed.

Lemma ord_chr_land x : ord (chr (Z.land x 0xFF)) = x `mod` 256.
Proof. rewrite land_255. apply ord_chr, Z.mod_pos_bound. lia. Qed.

Lemma length_be32 n : String.length (be32 n) = 4%nat.
Proof. done. Qed.

Lemma length_wire v : String.length (wire v) = (4 + String.length v)%nat.
Proof. unfold wire. rewrite length_app_str. done. Qed.

Lemma wire_length_small v : small v → wire_length v = Z.of_nat (String.length v).
Proof. unfold small, wire_length. intros H. apply Z.mod_small. lia. Qed.

Lemma join_bytes a b c d :
  0 ≤ b < 256 → 0 ≤ c < 256 → 0 ≤ d < 256 →
  Z.lor (Z.shiftl a 24) (Z.lor (Z.shiftl b 16) (Z.lor (Z.shiftl c 8) d)) =
  a * 2 ^ 24 + b * 2 ^ 16 + c * 2 ^ 8 + d.
Proof.
  intros. rewrite (lor_shiftl_add c), (lor_shiftl_add b), (lor_shiftl_add a) by lia. lia.
Qed.

Lemma readBe32_unread s i c0 c1 c2 c3 t :
  str_drop i s = String c0 (String c1 (String c2 (String c3 t))) →
  readBe32 s i = ord c0 * 2 ^ 24 + ord c1 * 2 ^ 16 + ord c2 * 2 ^ 8 + ord c3.
Proof.
  intros E. unfold readBe32, byte_at.
  rewrite <- (drop_drop_str 1 i), <- (drop_drop_str 2 i), <- (drop_drop_str 3 i), E. simpl.
  rewrite ?drop_0. apply join_bytes; apply ord_range.
Qed.

Lemma readBe32_be32 s i n t :
  0 ≤ n < 2 ^ 32 → str_drop i s = be32 n +:+ t → readBe32 s i = n.
Proof.
  intros Hn E. rewrite (readBe32_unread _ _ _ _ _ _ _ E), !ord_chr_land.
  rewrite !Z.shiftr_div_pow2 by lia.
  pose proof (Z.div_mod n (2 ^ 8) ltac:(lia)) as D1.
  pose proof (Z.div_mod (n `div` 2 ^ 8) 256 ltac:(lia)) as D2.
  pose proof (Z.div_mod (n `div` 2 ^ 16) 256 ltac:(lia)) as D3.
  rewrite Z.div_div in D2 by lia. rewrite Z.div_div in D3 by lia.
  change (2 ^ 8 * 256) with (2 ^ 16) in D2. change (2 ^ 16 * 256) with (2 ^ 24) in D3.
  assert ((n `div` 2 ^ 24) `mod` 256 = n `div` 2 ^ 24) as ->.
  { apply Z.mod_small. split; [apply Z.div_pos; lia|]. apply Z.div_lt_upper_bound; lia. }
  change (2 ^ 8) with 256 in *. lia.
Qed.

Lemma be32_bytes c0 c1 c2 c3 :
  be32 (ord c0 * 2 ^ 24 + ord c1 * 2 ^ 16 + ord c2 * 2 ^ 8 + ord c3) =
  String c0 (String c1 (String c2 (String c3 ""))).
Proof.
  pose proof (ord_range c0). pose proof (ord_range c1).
  pose proof (ord_range c2). pose proof (ord_range c3).
  set (x := ord c0 * 2 ^ 24 + ord c1 * 2 ^ 16 + ord c2 * 2 ^ 8 + ord c3).
  assert (∀ k q r c, 0 < k → x = 2 ^ k * q + r → 0 ≤ r < 2 ^ k → q `mod` 256 = ord c →
    chr (Z.land (Z.shiftr x k) 0xFF) = c) as B.
  { intros k q r c Hk Hx Hr Hq. rewrite land_255, Z.shiftr_div_pow2 by lia.
    rewrite <- (Z.div_unique_pos x (2 ^ k) q r), Hq by done. apply chr_ord. }
  assert (∀ q c, q `mod` 256 = ord c ↔ q `mod` 256 = ord c `mod` 256) as M.
  { intros q c. by rewrite (Z.mod_small (ord c)) by apply ord_range. }
  unfold be32. rewrite (B 24 (ord c0) (x - 2 ^ 24 * ord c0) c0);
    [|lia|lia|unfold x; lia|apply M; done].
  rewrite (B 16 (ord c0 * 256 + ord c1) (ord c2 * 2 ^ 8 + ord c3) c1);
    [|lia|unfold x; lia|lia|symmetry; apply (Z.mod_unique_pos _ _ (ord c0)); lia].
  rewrite (B 8 (ord c0 * 2 ^ 16 + ord c1 * 256 + ord c2) (ord c3) c2);
    [|lia|unfold x; lia|lia|
      symmetry; apply (Z.mod_unique_pos _ _ (ord c0 * 256 + ord c1)); lia].
  rewrite land_255. assert (x `mod` 256 = ord c3) as ->.
  { symmetry. apply (Z.mod_unique_pos _ _ (ord c0 * 2 ^ 16 + ord c1 * 2 ^ 8 + ord c2));
      unfold x; lia. }
  by rewrite chr_ord.
Qed.

(** ** Lemmas: the reader *)

(** Four bytes can be read exactly when four are left. *)
Lemma unread_four r :
  (String.length (data_ r) < offset_ r + 4)%nat ∨
  ∃ n t, 0 ≤ n < 2 ^ 32 ∧ unread r = be32 n +:+ t ∧ readBe32 (data_ r) (offset_ r) = n ∧
    unread (advance 4 r) = t.
Proof.
  destruct (decide (String.length (data_ r) < offset_ r + 4)%nat); [by left|right].
  assert (4 ≤ String.length (unread r))%nat as L by (unfold unread; rewrite length_drop_str; lia).
  destruct (unread r) as [|c0 [|c1 [|c2 [|c3 t]]]] eqn:E; simpl in L; try lia.
  pose proof (readBe32_unread _ _ _ _ _ _ _ E) as R.
  pose proof (ord_range c0). pose proof (ord_range c1).
  pose proof (ord_range c2). pose proof (ord_range c3).
  eexists _, t. split; [|split; [by rewrite be32_bytes|split; [exact R|]]]; [lia|].
  unfold unread, advance in *. simpl. by rewrite <- drop_drop_str, E.
Qed.

(** A read succeeds exactly on a field whose length fits, and consumes it. *)
Lemma readString_iff r v r' :
  readString r = (Some v, r') ↔
  small v ∧ unread r = wire v +:+ unread r' ∧ r' = advance (4 + String.length v) r.
Proof.
  unfold readString, size_. split.
  - destruct (unread_four r) as [Hs|(n & t & Hn & Hu & -> & Ht)].
    { by rewrite bool_decide_eq_true_2. }
    case_bool_decide; [done|]. destruct (_ >? _) eqn:E; [done|]. intros [= <- <-].
    cbn [advance data_ offset_] in *.
    assert (String.length (str_drop (offset_ r + 4) (data_ r)) =
      String.length (data_ r) - (offset_ r + 4))%nat as Hl by apply length_drop_str.
    assert (String.length (substr (offset_ r + 4) (Z.to_nat n) (data_ r)) = Z.to_nat n) as Hv.
    { unfold substr. rewrite length_take_str, Hl. bool_hyps. apply Nat.min_l. lia. }
    assert (small (substr (offset_ r + 4) (Z.to_nat n) (data_ r))) as Hsm
      by (unfold small; rewrite Hv; lia).
    split; [done|]. split; [|rewrite Hv; unfold advance; simpl; f_equal; lia].
    unfold wire. rewrite (wire_length_small _ Hsm), Hv, Z2Nat.id by lia.
    rewrite Hu. unfold unread in *. simpl in *. subst t.
    rewrite app_assoc_str. f_equal. unfold substr.
    rewrite <- (take_drop_str (Z.to_nat n) (str_drop (offset_ r + 4) (data_ r))) at 1.
    by rewrite drop_drop_str.
  - intros (Hsm & Hu & ->). unfold wire in Hu. rewrite app_assoc_str in Hu.
    pose proof Hsm as Hlen. unfold small in Hlen.
    assert (String.length (str_drop (offset_ r) (data_ r)) =
      String.length (data_ r) - offset_ r)%nat as Hl by apply length_drop_str.
    pose proof (f_equal String.length Hu) as L. unfold unread at 1 in L.
    rewrite !length_app_str, Hl, length_be32 in L.
    rewrite bool_decide_eq_false_2 by lia.
    assert (0 ≤ wire_length v < 2 ^ 32) as Hw by (rewrite wire_length_small by done; lia).
    rewrite (readBe32_be32 _ _ _ _ Hw Hu).
    rewrite wire_length_small by done. cbn [advance offset_ data_].
    destruct (_ >? _) eqn:E; [bool_hyps; lia|]. rewrite Nat2Z.id. f_equal.
    + f_equal. unfold substr. rewrite <- drop_drop_str. unfold unread at 1 in Hu.
      rewrite Hu. change 4%nat with (String.length (be32 (wire_length v))).
      by rewrite drop_app_str, take_app_str.
    + unfold advance. simpl. f_equal. lia.
Qed.

Lemma advance_unread n r a t :
  unread r = a +:+ t → String.length a = n → unread (advance n r) = t.
Proof.
  intros Hu <-. unfold unread, advance in *. simpl. by rewrite <- drop_drop_str, Hu, drop_app_str.
Qed.

Lemma readString_wire r v rest :
  small v → unread r = wire v +:+ rest →
  ∃ r', readString r = (Some v, r') ∧ unread r' = rest.
Proof.
  intros Hsm Hu. exists (advance (4 + String.length v) r).
  assert (unread (advance (4 + String.length v) r) = rest) as Hr
    by (by apply (advance_unread _ _ (wire v)); [|apply length_wire]).
  split; [|done]. apply readString_iff. by rewrite Hr.
Qed.

Lemma readByte_iff r b r' :
  readByte r = (Some b, r') ↔
  ∃ c, b = ord c ∧ unread r = String c (unread r') ∧ r' = advance 1 r.
Proof.
  unfold readByte, byte_at, unread, size_. split.
  - case_bool_decide as Hs; [done|]. intros [= <- <-].
    pose proof (length_drop_str (offset_ r) (data_ r)) as L.
    destruct (str_drop (offset_ r) (data_ r)) as [|c t] eqn:E; simpl in L; [lia|].
    exists c. split; [done|]. split; [|done]. simpl. by rewrite <- drop_drop_str, E.
  - intros (c & -> & Hu & ->). pose proof (length_drop_str (offset_ r) (data_ r)) as L.
    rewrite Hu in L. simpl in L. rewrite bool_decide_eq_false_2 by lia. by rewrite Hu.
Qed.

Lemma readByte_cons r c rest :
  unread r = String c rest → ∃ r', readByte r = (Some (ord c), r') ∧ unread r' = rest.
Proof.
  intros Hu. exists (advance 1 r).
  assert (unread (advance 1 r) = rest) as Hr by (by apply (advance_unread _ _ (String c ""))).
  split; [|done]. apply readByte_iff. exists c. by rewrite Hr.
Qed.

Lemma then_read_iff {A B} (m : reading A) (k : A → reading B) r b r' :
  then_read m k r = (Some b, r') ↔ ∃ a r1, m r = (Some a, r1) ∧ k a r1 = (Some b, r').
Proof.
  unfold then_read. destruct (m r) as [[a|] r1]; [naive_solver|]. naive_solver.
Qed.

Lemma fst_Some {A B} (p : option A * B) a : p.1 = Some a ↔ ∃ b, p = (Some a, b).
Proof. destruct p; naive_solver. Qed.

Lemma unread_new t : unread (new_reader t) = t.
Proof. apply drop_0. Qed.

(** A blob that starts with [magic] and has four bytes more. *)
Lemma header_split magic blob :
  starts_with magic blob = true → (String.length magic + 4 ≤ String.length blob)%nat →
  0 ≤ readBe32 blob (String.length magic) < 2 ^ 32 ∧
  blob = magic +:+ be32 (readBe32 blob (String.length magic)) +:+
         substr_from (String.length magic + 4) blob.
Proof.
  intros [t ->]%prefix_app Hl.
  destruct (unread_four (Reader (magic +:+ t) (String.length magic))) as [Hs|(n & u & Hn & Hu & Hr & Ht)].
  { cbn [data_ offset_] in Hs. lia. }
  cbn [data_ offset_] in Hr. rewrite Hr. split; [done|]. unfold unread in Hu, Ht. simpl in Hu, Ht.
  rewrite drop_app_str in Hu. unfold substr_from. by rewrite Ht, <- Hu.
Qed.

Lemma header_join magic n t :
  0 ≤ n < 2 ^ 32 →
  let blob := magic +:+ be32 n +:+ t in
  (String.length magic + 4 ≤ String.length blob)%nat ∧
  readBe32 blob (String.length magic) = n ∧
  substr_from (String.length magic + 4) blob = t.
Proof.
  intros Hn blob. unfold blob. split; [rewrite !length_app_str, length_be32; lia|]. split.
  - apply (readBe32_be32 _ _ _ t Hn). by rewrite drop_app_str.
  - unfold substr_from. rewrite <- drop_drop_str, drop_app_str.
    apply (drop_app_str (be32 n)).
Qed.

(** The two magics: neither is a prefix of the other. *)
Lemma magic_of magic t :
  magic = kMagicV1 ∨ magic = kMagicV0 →
  (if starts_with kMagicV1 (magic +:+ t) then Some (String.length kMagicV1)
   else if starts_with kMagicV0 (magic +:+ t) then Some (String.length kMagicV0)
   else None) = Some (String.length magic).
Proof. intros [-> | ->]; done. Qed.

Lemma magic_cases blob h :
  (if starts_with kMagicV1 blob then Some (String.length kMagicV1)
   else if starts_with kMagicV0 blob then Some (String.length kMagicV0)
   else None) = Some h →
  ∃ magic, (magic = kMagicV1 ∨ magic = kMagicV0) ∧ h = String.length magic ∧
           starts_with magic blob = true.
Proof.
  destruct (starts_with kMagicV1 blob) eqn:E1; [intros [= <-]; eauto|].
  destruct (starts_with kMagicV0 blob) eqn:E0; [intros [= <-]; eauto|done].
Qed.

(** Read the field at the head of [r], giving the next reader. *)
Tactic Notation "read_field" ident(r) "as" ident(r') ident(E) ident(U) :=
  match goal with
  | Hs : small ?v, Hu : unread r = wire ?v +:+ ?rest |- _ =>
      destruct (readString_wire r v rest Hs Hu) as (r' & E & U)
  end.

Lemma parseSshSigEnvelope_sound blob s : parseSshSigEnvelope blob = Some s → is_envelope blob s.
Proof.
  unfold parseSshSigEnvelope, is_envelope.
  destruct (if starts_with kMagicV1 blob then _ else _) as [h|] eqn:Em; [|done].
  apply magic_cases in Em as (magic & Hmagic & -> & Hst).
  case_bool_decide as Hl; [done|].
  destruct (header_split magic blob Hst ltac:(lia)) as [Hv Hb].
  set (n := readBe32 blob (String.length magic)) in *.
  set (t := substr_from (String.length magic + 4) blob) in *. cbv zeta.
  intros (r6 & H)%fst_Some.
  apply then_read_iff in H as (pub & r1 & (Hp & Up & _)%readString_iff & H).
  apply then_read_iff in H as (ns & r2 & (Hns & Uns & _)%readString_iff & H).
  apply then_read_iff in H as ([] & r3 & Hres & H).
  apply then_read_iff in H as (alg & r4 & (Ha & Ua & _)%readString_iff & H).
  apply then_read_iff in H as (inner & r5 & (Hi & Ui & _)%readString_iff & H).
  injection H as (r7 & H)%fst_Some <-.
  apply then_read_iff in H as (ty & r8 & (Ht & Ut & _)%readString_iff & H).
  apply then_read_iff in H as (raw & r9 & (Hr & Ur & _)%readString_iff & [= <- <-]).
  rewrite unread_new in Up, Ut. simpl.
  assert (∃ res, unread r2 = res +:+ unread r3 ∧
    if n >=? 1 then ∃ v, res = wire v ∧ small v else res = String (chr 0) "") as (res & Ures & Hr').
  { destruct (n >=? 1).
    - apply then_read_iff in Hres as (v & r' & (Hv' & Uv & _)%readString_iff & [= <-]). eauto.
    - apply then_read_iff in Hres as (b & r' & (c & -> & Uc & _)%readByte_iff & Hb').
      destruct (ord c =? 0) eqn:E0; [|done]. injection Hb' as <-. bool_hyps.
      exists (String (chr 0) ""). split; [|done]. rewrite Uc. by rewrite <- E0, chr_ord. }
  assert (inner = signature_body (MkSshSig n ns alg ty raw) (unread r9)) as Hinner.
  { unfold signature_body. simpl. by rewrite Ut, Ur. }
  exists magic, pub, res, (unread r9), (unread r5). rewrite <- Hinner. simpl.
  repeat (split; [done|]). split; [|tauto].
  rewrite Hb at 1. by rewrite Up, Uns, Ures, Ua, Ui.
Qed.

Lemma parseSshSigEnvelope_complete blob s : is_envelope blob s → parseSshSigEnvelope blob = Some s.
Proof.
  unfold parseSshSigEnvelope, is_envelope.
  intros (magic & pub & res & ij & junk & Hmagic & -> & Hv & Hp & Hns & Ha & Hi & Ht & Hr & Hres).
  rewrite magic_of by done.
  set (body := wire pub +:+ _).
  destruct (header_join magic (sig_version s) body Hv) as (Hl & Hn & Hsub).
  rewrite bool_decide_eq_false_2 by lia. cbv zeta. rewrite Hn, Hsub. clear Hl Hn Hsub.
  apply fst_Some. assert (unread (new_reader body) = body) as U0 by apply unread_new.
  revert U0. generalize (new_reader body) as r0. unfold body. intros r0 U0.
  read_field r0 as r1 E1 U1. read_field r1 as r2 E2 U2.
  assert (∃ r3, (if sig_version s >=? 1
      then (let* reserved_string := readString in read_done tt)%reading
      else (let* reserved_byte := readByte in
            if reserved_byte =? 0 then read_done tt else read_fail)%reading) r2 = (Some tt, r3) ∧
    unread r3 = wire (sig_hash_alg s) +:+ wire (signature_body s ij) +:+ junk) as (r3 & E3 & U3).
  { destruct (sig_version s >=? 1).
    - destruct Hres as (v & -> & Hsv). read_field r2 as r3 E3 U3. exists r3. split; [|done].
      unfold then_read. by rewrite E3.
    - subst res. destruct (readByte_cons r2 _ _ U2) as (r3 & E3 & U3). exists r3. split; [|done].
      unfold then_read. by rewrite E3. }
  read_field r3 as r4 E4 U4. read_field r4 as r5 E5 U5.
  assert (unread (new_reader (signature_body s ij)) = signature_body s ij) as V0
    by apply unread_new.
  unfold signature_body in V0 at 2.
  destruct (readString_wire _ _ _ Ht V0) as (s1 & F1 & V1). read_field s1 as s2 F2 V2.
  exists r5. apply then_read_iff. eexists _, r1. split; [exact E1|].
  apply then_read_iff. eexists _, r2. split; [exact E2|].
  apply then_read_iff. eexists _, r3. split; [exact E3|].
  apply then_read_iff. eexists _, r4. split; [exact E4|].
  apply then_read_iff. eexists _, r5. split; [exact E5|]. f_equal.
  apply fst_Some. exists s2. apply then_read_iff. eexists _, s1. split; [exact F1|].
  apply then_read_iff. eexists _, s2. split; [exact F2|]. by destruct s.
Qed.

Lemma parseSshSigEnvelope_iff blob s :
  parseSshSigEnvelope blob = Some s ↔ is_envelope blob s.
Proof. split; [apply parseSshSigEnvelope_sound|apply parseSshSigEnvelope_complete]. Qed.

(** C31: The envelope parser accepts exactly the SSHSIG grammar: it returns the
    fields [s] on a blob exactly when the blob is the magic, the version, and the
    length-prefixed public key, namespace, reserved field (a string from version
    1 on, a zero byte before), hash algorithm and signature, whose own fields
    are the returned type and raw signature. *)
Theorem parseSshSigEnvelope_grammar blob s :
  parseSshSigEnvelope blob = Some s ↔ is_envelope blob s.
Proof. apply parseSshSigEnvelope_iff. Qed.

(** ** Lemmas: signed data *)
Lemma wire_inj v v' t t' :
  small v → small v' → wire v +:+ t = wire v' +:+ t' → v = v' ∧ t = t'.
Proof.
  intros Hv Hv' E. assert (unread (new_reader (wire v +:+ t)) = wire v +:+ t) as U by apply unread_new.
  destruct (readString_wire _ _ _ Hv U) as (r & E1 & U1).
  rewrite E in U at 2. destruct (readString_wire _ _ _ Hv' U) as (r' & E2 & U2).
  rewrite E1 in E2. injection E2 as <- <-. split; [done|congruence].
Qed.

Lemma wire_inj_last v v' : small v → small v' → wire v = wire v' → v = v'.
Proof.
  intros Hv Hv' E. apply (wire_inj v v' "" ""); [done..|]. by rewrite !app_nil_str.
Qed.

(** ** Lemmas: the PEM armor *)
Definition unlines (ls : list string) : string := foldr (λ l s, l +:+ nl +:+ s) "" ls.
Definition str_concat (ls : list string) : string := foldr String.app "" ls.

Lemma length_unlines ls : (length ls ≤ String.length (unlines ls))%nat.
Proof. induction ls; simpl; [lia|]. rewrite !length_app_str. simpl. lia. Qed.

Lemma collect_lines_unlines ls fuel s tail stop pos body :
  (length ls < fuel)%nat → str_drop pos s = unlines ls +:+ tail →
  stop = (pos + String.length (unlines ls))%nat → Forall (λ l, no_char newline l = true) ls →
  collect_lines fuel s stop pos body = Some (body +:+ str_concat ls).
Proof.
  revert fuel pos body. induction ls as [|l ls IH]; intros [|fuel] pos body Hf Hd Hs Hl;
    simpl in Hf; try lia.
  - simpl in *. rewrite bool_decide_eq_true_2, app_nil_str by lia. done.
  - apply Forall_cons in Hl as [Hl Hls]. cbn [unlines foldr] in Hd, Hs.
    fold (unlines ls) in Hd, Hs. unfold nl in Hd, Hs.
    rewrite !app_assoc_str, !app_cons_str, app_nil_l_str in Hd.
    rewrite !length_app_str in Hs. simpl in Hs.
    cbn [collect_lines]. rewrite bool_decide_eq_false_2 by lia.
    unfold find_char_from. rewrite Hd, find_char_app by done. cbn [fmap option_fmap option_map].
    rewrite bool_decide_eq_false_2 by lia. rewrite bool_decide_eq_false_2 by lia.
    replace (pos + String.length l - pos)%nat with (String.length l) by lia.
    unfold substr. rewrite Hd, take_app_str.
    rewrite (IH fuel); [|lia| |lia|done].
    + cbn [str_concat foldr]. by rewrite app_assoc_str.
    + replace (S (pos + String.length l))%nat with (pos + S (String.length l))%nat by lia.
      by rewrite <- drop_drop_str, Hd, drop_S_app_str.
Qed.

Lemma collect_lines_total fuel s stop pos body :
  (stop - pos < fuel)%nat → is_Some (collect_lines fuel s stop pos body).
Proof.
  revert pos body. induction fuel as [|fuel IH]; intros pos body Hf; [lia|].
  cbn [collect_lines]. case_bool_decide; [done|].
  destruct (find_char_from newline pos s) as [e|] eqn:E; [|done].
  unfold find_char_from in E. apply fmap_Some in E as (q & _ & ->).
  case_bool_decide; [done|]. apply IH. lia.
Qed.

Lemma find_str_skip pat c s : starts_with pat (String c s) = false →
  find_str pat (String c s) = S <$> find_str pat s.
Proof. intros H. simpl. by rewrite H. Qed.

(** No occurrence of the end marker starts in a text without dashes. *)
Lemma find_end_no_dash a t :
  no_char "-" a = true → find_str sig_end (a +:+ t) = Nat.add (String.length a) <$> find_str sig_end t.
Proof.
  induction a as [|c a IH]; intros H.
  - rewrite app_nil_l_str. by destruct (find_str sig_end t).
  - apply no_char_cons in H as [Hc H]. rewrite app_cons_str, find_str_skip.
    + rewrite IH by done. by destruct (find_str sig_end t).
    + simpl. by rewrite bool_decide_eq_false_2.
Qed.

Lemma no_char_unlines x ls :
  x ≠ newline → Forall (λ l, no_char x l = true) ls → no_char x (unlines ls) = true.
Proof.
  intros Hx H. induction H as [|l ls Hl _ IH]; [done|]. simpl.
  apply no_char_app. split; [done|]. unfold nl. rewrite app_cons_str. by apply no_char_cons.
Qed.

Lemma envelope_magic blob s :
  is_envelope blob s → starts_with kMagicV0 blob || starts_with kMagicV1 blob = true.
Proof.
  intros (magic & pub & res & ij & junk & [-> | ->] & -> & _);
    by rewrite starts_with_app, ?orb_true_r.
Qed.

Lemma envelope_not_empty blob s : is_envelope blob s → is_empty blob = false.
Proof. by intros (magic & pub & res & ij & junk & [-> | ->] & -> & _). Qed.

Section properties.
Context `{OpenSSL}.

(** The digests OpenSSL is asked for, by the type of the key and the type that
    the signature gives itself: none for Ed25519; for RSA the one of the type or
    SHA-256, and SHA-1 besides, except where the type is [ssh-rsa]; for ECDSA the
    one of the curve in the type. *)
Definition digests (key_type sig_type : string) : list (option EVP_MD) :=
  if String.eqb key_type "ssh-ed25519" || String.eqb sig_type "ssh-ed25519" then [None]
  else if bool_decide ("ssh-rsa" = key_type ∨ sig_type ∈ ["ssh-rsa"; "rsa-sha2-256"; "rsa-sha2-512"]) then
    Some (default EVP_sha256 (mdFromSshSigType sig_type)) ::
      (if String.eqb sig_type "ssh-rsa" then [] else [Some EVP_sha1])
  else if starts_with "ecdsa-sha2-" key_type then
    [Some (if contains "nistp384" sig_type then EVP_sha384
           else if contains "nistp521" sig_type then EVP_sha512 else EVP_sha256)]
  else [].

Lemma verifyInnerSignature_iff pkey kt st raw msg :
  verifyInnerSignature pkey kt st raw msg = true ↔ ∃ md, md ∈ digests kt st ∧ digest_verify pkey md msg raw = true.
Proof.
  assert (∀ a b, (∃ md, md ∈ [a; b] ∧ digest_verify pkey md msg raw = true) ↔
    digest_verify pkey a msg raw = true ∨ digest_verify pkey b msg raw = true) as E2 by set_solver.
  assert (∀ a, (∃ md, md ∈ [a] ∧ digest_verify pkey md msg raw = true) ↔ digest_verify pkey a msg raw = true) as E1 by set_solver.
  unfold verifyInnerSignature, digests, digestVerify, ed25519Verify. destruct (_ || _); [by rewrite E1|].
  assert (String.eqb kt "ssh-rsa" || String.eqb st "ssh-rsa" || String.eqb st "rsa-sha2-256" || String.eqb st "rsa-sha2-512" =
    bool_decide ("ssh-rsa" = kt ∨ st ∈ ["ssh-rsa"; "rsa-sha2-256"; "rsa-sha2-512"])) as ->.
  { apply eq_iff_eq_true. rewrite !orb_true_iff, !String.eqb_eq, bool_decide_eq_true. set_solver. }
  destruct (bool_decide _).
  - destruct (String.eqb st "ssh-rsa"); cbn [negb]; [rewrite E1|rewrite E2]; destruct (digest_verify _ _ _ _); naive_solver.
  - destruct (starts_with _ _); [rewrite E1; done|]. split; [done|]. by intros (md & ?%elem_of_nil & _).
Qed.

(** The messages a signature without an envelope may sign, and the one a
    signature in an envelope signs. *)
Definition bare_forms (key_type data : string) : list string :=
  data :: if String.eqb key_type "ssh-ed25519"
          then [buildOpenSshSignedDataV1 kDefaultNamespace "sha512" data;
                buildOpenSshSignedDataV0 kDefaultNamespace "sha512" data]
          else [].
Definition wrapping (s : SshSig) (data : string) : string :=
  if sig_version s >=? 1 then buildOpenSshSignedDataV1 (sig_namespace s) (sig_hash_alg s) data
  else buildOpenSshSignedDataV0 (sig_namespace s) (sig_hash_alg s) data.

(** What a signature says, by its bytes: its type, the raw signature, and the
    message this is a signature of. *)
Inductive says (key_type data blob : string) : string → string → string → Prop :=
  | in_envelope s : is_envelope blob s → says key_type data blob (sig_type s) (sig_raw s) (wrapping s data)
  | bare ty raw junk msg :
      starts_with kMagicV0 blob || starts_with kMagicV1 blob = false →
      blob = wire ty +:+ wire raw +:+ junk → small ty → small raw → msg ∈ bare_forms key_type data →
      says key_type data blob ty raw msg.

Lemma bare_iff blob ty raw :
  fst ((let* sig_type := readString in let* sig_raw := readString in
        read_done (sig_type, sig_raw))%reading (new_reader blob)) = Some (ty, raw) ↔
  ∃ junk, blob = wire ty +:+ wire raw +:+ junk ∧ small ty ∧ small raw.
Proof.
  rewrite fst_Some. split.
  - intros (r & H'). apply then_read_iff in H' as (t & r1 & (Ht & U1 & _)%readString_iff & H').
    apply then_read_iff in H' as (v & r2 & (Hv & U2 & _)%readString_iff & [= <- <- <-]).
    exists (unread r2). by rewrite <- U2, <- U1, unread_new.
  - intros (junk & E & Ht & Hv). pose proof (unread_new blob) as U0. rewrite E in U0 at 2.
    destruct (readString_wire _ _ _ Ht U0) as (r1 & E1 & U1). destruct (readString_wire _ _ _ Hv U1) as (r2 & E2 & _).
    exists r2. apply then_read_iff. exists ty, r1. split; [done|]. apply then_read_iff. by exists raw, r2.
Qed.

(** C4: Verification accepts exactly the signatures that OpenSSL verifies.  The key
    is the one decoded from the user's key data; the raw bytes verified, and the
    type that selects the digest, are those of the submitted signature, by the
    grammar of its envelope or, without one, as two strings; and the message is
    the wrapping of the data for the namespace and hash the envelope names, or the
    data itself, or for Ed25519 keys one of its wrappings for the namespace of the
    program.  Nothing else makes [verify] accept, and nothing more is asked. *)
Theorem verify_iff key_type key_data data signature :
  verify key_type key_data data signature = true ↔
  ∃ pkey ty raw msg md,
    fromSshBlob (base64Decode key_data) = Some pkey ∧
    says key_type data (base64Decode (normalizeSignatureInput signature)) ty raw msg ∧
    md ∈ digests key_type ty ∧ digest_verify pkey md msg raw = true.
Proof.
  unfold verify. set (blob := base64Decode (normalizeSignatureInput signature)). split.
  - destruct (is_empty _ || _); [done|]. destruct (fromSshBlob _) as [pkey|] eqn:Hk; [|done].
    destruct (starts_with kMagicV0 blob || starts_with kMagicV1 blob) eqn:Em.
    + destruct (parseSshSigEnvelope blob) as [s|] eqn:Es; [|done]. fold (wrapping s data).
      intros (md & Hm & Hd)%verifyInnerSignature_iff. exists pkey, (sig_type s), (sig_raw s), (wrapping s data), md.
      split; [done|]. split; [|done]. constructor. by apply parseSshSigEnvelope_iff.
    + destruct (fst _) as [[ty raw]|] eqn:Eb; [|done]. apply bare_iff in Eb as (junk & Eb & Ht & Hr). intros Hv.
      assert (∃ msg, msg ∈ bare_forms key_type data ∧ verifyInnerSignature pkey key_type ty raw msg = true)
        as (msg & Hm & (md & Hmd & Hd)%verifyInnerSignature_iff).
      { unfold bare_forms. revert Hv. destruct (verifyInnerSignature _ _ _ _ data) eqn:E1; [set_solver|].
        destruct (String.eqb key_type "ssh-ed25519"); [|done]. cbn [negb].
        destruct (verifyInnerSignature _ _ _ _ (buildOpenSshSignedDataV1 _ _ _)) eqn:E2; [set_solver|]. intros E3. set_solver. }
      exists pkey, ty, raw, msg, md. split; [done|]. split; [by econstructor|done].
  - intros (pkey & ty & raw & msg & md & Hk & Hs & Hmd & Hd).
    assert (verifyInnerSignature pkey key_type ty raw msg = true) as Hv by (apply verifyInnerSignature_iff; by exists md).
    rewrite Hk. assert (is_empty (base64Decode key_data) = false) as ->
      by (apply is_empty_false; intros E; by rewrite E in Hk). cbn [orb].
    destruct Hs as [s He|ty raw junk msg Em Eb Ht Hr Hm].
    + rewrite (envelope_not_empty _ _ He), (envelope_magic _ _ He), (proj2 (parseSshSigEnvelope_iff _ _) He). exact Hv.
    + assert (is_empty blob = false) as -> by by rewrite Eb. rewrite Em.
      rewrite (proj2 (bare_iff blob ty raw)) by by exists junk. revert Hv. unfold bare_forms in Hm.
      apply elem_of_cons in Hm as [->|Hm]; [by intros ->|]. destruct (verifyInnerSignature _ _ _ _ data); [done|].
      destruct (String.eqb key_type "ssh-ed25519"); [|by apply elem_of_nil in Hm]. cbn [negb].
      apply elem_of_cons in Hm as [->|Hm]; [by intros ->|]. apply list_elem_of_singleton in Hm as ->.
      intros ->. by destruct (verifyInnerSignature _ _ _ _ _).
Qed.

(** A signature in an SSHSIG envelope is verified over the wrapping built
    with the namespace the envelope itself names: the namespace is never
    compared with [kDefaultNamespace], so a signature made for any other
    purpose is as good. *)
Theorem verify_envelope key_type key_data data signature s pkey :
  is_envelope (base64Decode (normalizeSignatureInput signature)) s →
  fromSshBlob (base64Decode key_data) = Some pkey →
  verify key_type key_data data signature =
  verifyInnerSignature pkey key_type (sig_type s) (sig_raw s)
    (if sig_version s >=? 1
     then buildOpenSshSignedDataV1 (sig_namespace s) (sig_hash_alg s) data
     else buildOpenSshSignedDataV0 (sig_namespace s) (sig_hash_alg s) data).
Proof.
  intros He Hk. unfold verify. rewrite Hk.
  assert (is_empty (base64Decode key_data) = false) as ->.
  { apply is_empty_false. intros E. by rewrite E in Hk. }
  assert (parseSshSigEnvelope (base64Decode (normalizeSignatureInput signature)) = Some s) as Hp
    by (by apply parseSshSigEnvelope_iff).
  rewrite Hp. by rewrite (envelope_magic _ _ He), (envelope_not_empty _ _ He).
Qed.

(** C32: The signed wrapping is an injective encoding: two wrappings are equal
    only for the same namespace, hash algorithm and message hash, and a
    version 1 wrapping is never a version 0 one. *)
Theorem signed_data_injective ns alg msg ns' alg' msg' :
  small ns → small ns' → small alg → small alg' →
  small (hashMessage alg msg) → small (hashMessage alg' msg') →
  ((buildOpenSshSignedDataV1 ns alg msg = buildOpenSshSignedDataV1 ns' alg' msg' ∨
    buildOpenSshSignedDataV0 ns alg msg = buildOpenSshSignedDataV0 ns' alg' msg') →
   ns = ns' ∧ alg = alg' ∧ hashMessage alg msg = hashMessage alg' msg') ∧
  buildOpenSshSignedDataV1 ns alg msg ≠ buildOpenSshSignedDataV0 ns' alg' msg'.
Proof.
  intros Hn Hn' Ha Ha' Hh Hh'. unfold buildOpenSshSignedDataV1, buildOpenSshSignedDataV0.
  unfold appendWireString. fold (wire ns) (wire ns') (wire "") (wire alg) (wire alg')
    (wire (hashMessage alg msg)) (wire (hashMessage alg' msg')). rewrite !app_assoc_str.
  split; [|done]. intros [E|E]; apply app_inj_r_str in E;
    apply wire_inj in E as [-> E]; try done; apply app_inj_r_str in E;
    apply wire_inj in E as [-> E]; try done; apply wire_inj_last in E; done.
Qed.
End properties.

(** PEM armor: between the two marker lines, [normalizeSignatureInput]
    returns the concatenation of the lines, whatever follows the end marker. *)
Theorem normalizeSignatureInput_armor ls post :
  Forall (λ l, no_char newline l = true ∧ no_char "-" l = true) ls →
  normalizeSignatureInput (sig_begin +:+ nl +:+ unlines ls +:+ sig_end +:+ post) = str_concat ls.
Proof.
  intros H. unfold normalizeSignatureInput.
  rewrite find_str_prefix by apply starts_with_app.
  assert (find_str sig_end (sig_begin +:+ nl +:+ unlines ls +:+ sig_end +:+ post) =
    Some (String.length sig_begin + 1 + String.length (unlines ls))%nat) as ->.
  { assert (∀ t, find_str sig_end (sig_begin +:+ nl +:+ t) =
      Nat.add (String.length sig_begin + 1)%nat <$> find_str sig_end t) as Hskip.
    { intros t. unfold nl, sig_begin, sig_end.
      repeat (rewrite ?app_cons_str, ?app_nil_l_str; rewrite find_str_skip by (vm_compute; reflexivity)).
      rewrite ?app_nil_l_str. by destruct (find_str _ t). }
    rewrite Hskip, find_end_no_dash, find_str_prefix; [|apply starts_with_app|].
    - simpl. f_equal. lia.
    - apply no_char_unlines; [done|]. eapply Forall_impl; [exact H|]. by intros ? []. }
  unfold find_char_from. rewrite drop_0. unfold nl at 1. rewrite app_cons_str, find_char_app by done.
  cbn [fmap option_fmap option_map].
  erewrite (collect_lines_unlines ls); [done|..].
  - pose proof (length_unlines ls). lia.
  - unfold nl. rewrite app_cons_str, app_nil_l_str. apply drop_S_app_str.
  - simpl. lia.
  - eapply Forall_impl; [exact H|]. by intros ? [].
Qed.

(** The line loop ends: on any input the fuel [normalizeSignatureInput]
    gives it is enough, so its default result is never used. *)
Theorem collect_lines_enough_fuel signature stop pos :
  is_Some (collect_lines (S stop) signature stop pos "").
Proof. apply collect_lines_total. lia. Qed.

(** ** Witnesses: OpenSSL with a transparent base64 and a MAC-like signature *)
Definition toy_openssl : OpenSSL := {|
  EVP_PKEY := string;
  base64Decode := λ s, s;
  base64Encode := λ s, s;
  SHA256 := λ s, s;
  SHA512 := λ s, s;
  rsa_key := λ _ _, None;
  ed25519_key := Some;
  ec_key := λ _ q, Some q;
  digest_verify := λ k _ msg raw, String.eqb raw (k +:+ msg)
|}.

Definition toy_raw : string := "0123456789abcdef0123456789abcdef".
Definition toy_key : string := wire "ssh-ed25519" +:+ wire toy_raw.
(** A signature over ["hi"] made for the namespace ["git"]. *)
Definition toy_sig : SshSig :=
  MkSshSig 1 "git" "none" "ssh-ed25519"
    (toy_raw +:+ @buildOpenSshSignedDataV1 toy_openssl "git" "none" "hi").
Definition toy_envelope : string :=
  kMagicV1 +:+ be32 1 +:+ wire toy_key +:+ wire "git" +:+ wire "" +:+ wire "none" +:+
  wire (signature_body toy_sig "") +:+ "".

Lemma toy_envelope_ok : is_envelope toy_envelope toy_sig.
Proof.
  exists kMagicV1, toy_key, (wire ""), "", "". unfold small. repeat split; try done; [by left|].
  by exists "".
Qed.

(** The envelope accepted, and with its last byte cut off. *)
Lemma verify_iff_example :
  @verify toy_openssl "ssh-ed25519" toy_key "hi" toy_envelope = true ∧
  @verify toy_openssl "ssh-ed25519" toy_key "hi" (str_take (String.length toy_envelope - 1) toy_envelope) = false.
Proof. split; vm_compute; reflexivity. Qed.

Lemma verify_envelope_witness :
  @verify toy_openssl "ssh-ed25519" toy_key "hi" toy_envelope =
  @verifyInnerSignature toy_openssl toy_raw "ssh-ed25519" "ssh-ed25519" (sig_raw toy_sig)
    (@buildOpenSshSignedDataV1 toy_openssl "git" "none" "hi").
Proof.
  apply (@verify_envelope toy_openssl "ssh-ed25519" toy_key "hi" toy_envelope toy_sig toy_raw);
    [exact toy_envelope_ok|vm_compute; reflexivity].
Defined.

Lemma signed_data_injective_witness :
  @buildOpenSshSignedDataV1 toy_openssl "git" "sha512" "m" ≠
  @buildOpenSshSignedDataV0 toy_openssl "file" "sha256" "m'".
Proof.
  apply (@signed_data_injective toy_openssl "git" "sha512" "m" "file" "sha256" "m'");
    vm_compute; reflexivity.
Defined.

Lemma normalizeSignatureInput_armor_witness :
  normalizeSignatureInput (sig_begin +:+ nl +:+ unlines ["U1NI"; "U0lH"] +:+ sig_end +:+ nl) = "U1NIU0lH".
Proof.
  apply (normalizeSignatureInput_armor ["U1NI"; "U0lH"] nl). repeat constructor.
Defined.
