(* ===== verification/KeyObjects.v ===== *)
(** * The OpenSSL objects of a key: [security/ssh_key.cpp]

    [SshKey] says which key a blob gives; this file says what the import does with
    the references to OpenSSL objects it gets.  A run of a function is the list of
    calls it makes that concern ownership, for given answers of OpenSSL.

    What the calls mean for the caller is OpenSSL's documented contract: a
    constructor gives the caller one reference; [X_free] gives one back;
    [RSA_set0_key] and [EVP_PKEY_assign], when they succeed, take over the
    caller's references to what they are given; [EVP_PKEY_set1_*] takes a
    reference of its own. *)
From S2P Require Import Prelude CppString SshKey.
Open Scope Z_scope.

(** The local variables that hold objects. *)
Inductive object := e_ | n_ | rsa_ | ec_ | point_ | pkey_.
#[export] Instance object_eq : EqDecision object.
Proof. solve_decision. Defined.

Inductive call :=
  | New (x : object)                        (* a constructor that succeeds *)
  | Give (x : object)                       (* [set0] and [assign]: the reference passes on *)
  | Share (x : object)                      (* [set1]: the key takes its own reference *)
  | Free (x : object).

(** The answers of OpenSSL to one import. *)
Record answers := MkAnswers {
  version3 : bool;         (* OPENSSL_VERSION_NUMBER >= 0x30000000L *)
  bn_e_works : bool;
  bn_n_works : bool;
  rsa_new_works : bool;
  rsa_set0_works : bool;
  ec_new_works : bool;
  point_new_works : bool;
  oct2point_works : bool;
  set_public_key_works : bool;
  pkey_new_works : bool;
  pkey_takes : bool;
  raw_key_works : bool
}.

(** The references the caller holds after some calls. *)
Definition effect (c : call) (x : object) : Z :=
  match c with
  | New y => if decide (x = y) then 1 else 0
  | Give y | Free y => if decide (x = y) then -1 else 0
  | Share y => 0
  end.
Definition references (l : list call) (x : object) : Z := foldr (λ c n, effect c x + n) 0 l.

Section import.
Context (a : answers).

(** [EVP_PKEY_assign] with OpenSSL 3, [EVP_PKEY_set1_*] before. *)
Definition take_key (x : object) : call := if version3 a then Give x else Share x.

(** The second part of both functions: the answer is whether there is a key. *)
Definition wrap_key (x : object) : bool * list call :=
  if negb (pkey_new_works a) then (false, [Free x])
  else if negb (pkey_takes a) then (false, [New pkey_; Free pkey_; Free x])
  else (true, [New pkey_; take_key x; Free x]).

Definition pkeyFromRsa : bool * list call :=
  if negb (rsa_new_works a) then (false, [])
  else if negb (rsa_set0_works a) then (false, [New rsa_; Free rsa_])
  else let '(ok, l) := wrap_key rsa_ in (ok, New rsa_ :: Give n_ :: Give e_ :: l).

Definition pkeyFromEd25519 (raw32 : string) : bool * list call :=
  if negb (Nat.eqb (String.length raw32) 32) then (false, [])
  else if raw_key_works a then (true, [New pkey_]) else (false, []).

Definition pkeyFromEc (key_type : string) : bool * list call :=
  match ecNidFromSshType key_type with
  | None => (false, [])
  | Some _ =>
      if negb (ec_new_works a) then (false, [])
      else if negb (point_new_works a) then (false, [New ec_; Free ec_])
      else if negb (oct2point_works a) then (false, [New ec_; New point_; Free point_; Free ec_])
      else if negb (set_public_key_works a) then (false, [New ec_; New point_; Free point_; Free ec_])
      else let '(ok, l) := wrap_key ec_ in (ok, New ec_ :: New point_ :: Free point_ :: l)
  end.

Definition fromSshBlob (decoded_blob : string) : bool * list call :=
  match readString (new_reader decoded_blob) with
  | (None, _) => (false, [])
  | (Some key_type, reader) =>
      if String.eqb key_type "ssh-rsa" then
        match readMpint reader with
        | (Some _, reader) =>
            if negb (bn_e_works a) then (false, [])
            else match readMpint reader with
                 | (Some _, _) =>
                     if negb (bn_n_works a) then (false, [New e_; Free e_])
                     else let '(ok, l) := pkeyFromRsa in (ok, New e_ :: New n_ :: l)
                 | (None, _) => (false, [New e_; Free e_])
                 end
        | (None, _) => (false, [])
        end
      else if String.eqb key_type "ssh-ed25519" then
        match readString reader with
        | (Some raw, _) => pkeyFromEd25519 raw
        | (None, _) => (false, [])
        end
      else if starts_with "ecdsa-sha2-" key_type then
        match readString reader with
        | (Some _, reader) =>
            match readString reader with
            | (Some _, _) => pkeyFromEc key_type
            | (None, _) => (false, [])
            end
        | (None, _) => (false, [])
        end
      else (false, [])
  end.

(** [verify]'s use of the key, around the digests: freed at the end. *)
Definition verify_key (decoded_blob : string) : list call :=
  let '(ok, l) := fromSshBlob decoded_blob in if ok then l ++ [Free pkey_] else l.

(** ** The calls agree with [SshKey] on when there is a key *)

(** An OpenSSL that gives these answers. *)
Definition answering : OpenSSL := {|
  EVP_PKEY := unit;
  base64Decode s := s;
  base64Encode s := s;
  SHA256 s := s;
  SHA512 s := s;
  rsa_key _ _ :=
    if bn_e_works a && bn_n_works a && rsa_new_works a && rsa_set0_works a && pkey_new_works a && pkey_takes a
    then Some tt else None;
  ed25519_key _ := if raw_key_works a then Some tt else None;
  ec_key _ _ :=
    if ec_new_works a && point_new_works a && oct2point_works a && set_public_key_works a && pkey_new_works a && pkey_takes a
    then Some tt else None;
  digest_verify _ _ _ _ := true
|}.

Lemma import_agrees blob :
  fst (fromSshBlob blob) = bool_decide (is_Some (@SshKey.fromSshBlob answering blob)).
Proof.
  unfold fromSshBlob, SshKey.fromSshBlob. destruct (readString (new_reader blob)) as [[t|] r]; [|done].
  destruct (String.eqb t "ssh-rsa"); [|destruct (String.eqb t "ssh-ed25519"); [|destruct (starts_with "ecdsa-sha2-" t); [|done]]].
  - unfold then_read, read_done. destruct (readMpint r) as [[e|] r1]; [|done].
    destruct (readMpint r1) as [[n|] r2]; [|by destruct (bn_e_works a)]. cbn.
    unfold pkeyFromRsa, wrap_key.
    destruct (bn_e_works a), (bn_n_works a), (rsa_new_works a), (rsa_set0_works a), (pkey_new_works a), (pkey_takes a); done.
  - destruct (readString r) as [[raw|] r1]; [|done]. cbn. unfold pkeyFromEd25519, SshKey.pkeyFromEd25519.
    destruct (Nat.eqb_spec (String.length raw) 32) as [E|E], (bool_decide_reflect (String.length raw = 32%nat)) as [E'|E'];
      cbn; try done. by destruct (raw_key_works a).
  - unfold then_read, read_done. destruct (readString r) as [[c|] r1]; [|done]. destruct (readString r1) as [[q|] r2]; [|done].
    cbn. unfold pkeyFromEc, SshKey.pkeyFromEc, wrap_key. destruct (ecNidFromSshType t); [|done]. cbn.
    destruct (ec_new_works a), (point_new_works a), (oct2point_works a), (set_public_key_works a), (pkey_new_works a), (pkey_takes a); done.
Qed.

(** ** The references *)

(** The object a key is made from was released once too often. *)
Definition double_free (x : object) (r : bool * list call) : Prop :=
  references r.2 x = -1 ∧ ∀ y, y ≠ x → references r.2 y = if decide (y = pkey_) then 1 else 0.

(** Nothing is held but the key, if there is one. *)
Definition clean (r : bool * list call) : Prop :=
  ∀ x, references r.2 x = if r.1 && bool_decide (x = pkey_) then 1 else 0.
Definition leaks_numbers (r : bool * list call) : Prop :=
  r.1 = false ∧ ∀ x, references r.2 x = if bool_decide (x = n_ ∨ x = e_) then 1 else 0.

(** What the caller holds of a key of type [t]. *)
Definition left_over (t : string) (r : bool * list call) : Prop :=
  if fst r && version3 a then
    if String.eqb t "ssh-rsa" then double_free rsa_ r
    else if String.eqb t "ssh-ed25519" then clean r
    else double_free ec_ r
  else clean r ∨ (leaks_numbers r ∧ t = "ssh-rsa" ∧ rsa_new_works a && rsa_set0_works a = false).

Lemma nothing_held t : left_over t (false, []).
Proof. left. by intros []. Qed.
Hint Resolve nothing_held : core.

Lemma rsa_held e n :
  n = (New e_ :: New n_ :: snd pkeyFromRsa) → e = fst pkeyFromRsa → left_over "ssh-rsa" (e, n).
Proof.
  intros -> ->. unfold left_over, pkeyFromRsa, wrap_key, take_key. cbn [fst].
  destruct (rsa_new_works a); cbn [negb]; [|right; split; [split; [done|by intros []]|done]].
  destruct (rsa_set0_works a); cbn [negb]; [|right; split; [split; [done|by intros []]|done]].
  destruct (pkey_new_works a); cbn [negb]; [|left; by intros []].
  destruct (pkey_takes a); cbn [negb]; [|left; by intros []].
  destruct (version3 a); cbn; [split; [done|by intros []]|left; by intros []].
Qed.

Lemma ed25519_held raw : left_over "ssh-ed25519" (pkeyFromEd25519 raw).
Proof.
  unfold pkeyFromEd25519, left_over. destruct (negb _); [left; by intros []|].
  destruct (raw_key_works a); [|left; by intros []]. cbn. destruct (version3 a); [|left]; by intros [].
Qed.

Lemma ec_held t :
  String.eqb t "ssh-rsa" = false → String.eqb t "ssh-ed25519" = false → left_over t (pkeyFromEc t).
Proof.
  intros Hr He. unfold pkeyFromEc, wrap_key, take_key, left_over. rewrite Hr, He. clear Hr He.
  destruct (ecNidFromSshType t); [|left; by intros []].
  destruct (ec_new_works a); cbn [negb]; [|left; by intros []].
  destruct (point_new_works a); cbn [negb]; [|left; by intros []].
  destruct (oct2point_works a); cbn [negb]; [|left; by intros []].
  destruct (set_public_key_works a); cbn [negb]; [|left; by intros []].
  destruct (pkey_new_works a); cbn [negb]; [|left; by intros []].
  destruct (pkey_takes a); cbn [negb]; [|left; by intros []].
  destruct (version3 a); cbn; [split; [done|by intros []]|left; by intros []].
Qed.

(** C33: References to OpenSSL objects.  Before OpenSSL 3, importing a key leaves the
    caller with the reference to the key and no other, on every path but two: the
    numbers of an RSA key are lost when [RSA_new] or [RSA_set0_key] fails.  With
    OpenSSL 3 every RSA and every EC key that is imported refers to an object
    that the import has freed: [EVP_PKEY_assign] has taken over the reference
    that [RSA_free] or [EC_KEY_free] then gives back; only Ed25519 keys are sound. *)
Theorem import_references blob :
  match readString (new_reader blob) with
  | (Some key_type, _) => left_over key_type (fromSshBlob blob)
  | (None, _) => fromSshBlob blob = (false, [])
  end.
Proof.
  unfold fromSshBlob. destruct (readString (new_reader blob)) as [[t|] r]; [|done].
  destruct (String.eqb t "ssh-rsa") eqn:Er; [|destruct (String.eqb t "ssh-ed25519") eqn:Ee; [|destruct (starts_with "ecdsa-sha2-" t); [|done]]].
  - apply String.eqb_eq in Er. subst t. destruct (readMpint r) as [[e|] r1]; [|done].
    destruct (bn_e_works a); [|done]. cbn [negb].
    destruct (readMpint r1) as [[n|] r2]; [|left; by intros []].
    destruct (bn_n_works a); cbn [negb]; [|left; by intros []].
    destruct pkeyFromRsa as [ok l] eqn:E. apply rsa_held; by rewrite E.
  - apply String.eqb_eq in Ee. subst t. destruct (readString r) as [[raw|] r1]; [apply ed25519_held|done].
  - destruct (readString r) as [[c|] r1]; [|done].
    destruct (readString r1) as [[q|] r2]; [by apply ec_held|done].
Qed.
End import.

(** An RSA key, imported with OpenSSL 3: the RSA object is given back twice. *)
Definition rsa_blob : string :=
  appendWireString (appendWireString (appendWireString "" "ssh-rsa") "A") "B".
Definition all_work (v3 : bool) : answers :=
  MkAnswers v3 true true true true true true true true true true true.

Example rsa_key_freed_twice :
  fromSshBlob (all_work true) rsa_blob =
    (true, [New e_; New n_; New rsa_; Give n_; Give e_; New pkey_; Give rsa_; Free rsa_]) ∧
  references (snd (fromSshBlob (all_work true) rsa_blob)) rsa_ = -1 ∧
  references (snd (fromSshBlob (all_work false) rsa_blob)) rsa_ = 0.
Proof. vm_compute. done. Qed.
