(* ===== verification/Passwords.v ===== *)
(** * Password hashing and password policy: [core/auth.cpp], lines 38-175

    The SHA-256 digest is the interface [Sha256]; random bytes are an argument
    of the operations that draw them.  Times are nanoseconds since the epoch. *)
From S2P Require Import Prelude CppString.
Open Scope Z_scope.

(** [EVP_Digest*] with [EVP_sha256()] over the concatenation of the updates;
    [None] when one of the calls fails. *)
Class Sha256 := { sha256 : string → option string }.

(** [std::chrono::system_clock::time_point::max()] *)
Definition time_max : Z := 2 ^ 63 - 1.

Record UserInfo := MkUserInfo {
  username : string;
  password_hash : string;
  password_hashed : bool;
  password_expires : Z;
  account_expires : Z;
  account_locked : bool;
  failed_login_attempts : Z;
  last_login : Z;
  permissions : list string;
  metadata : gmap string string
}.

Record PasswordPolicy := MkPolicy {
  min_length : Z;
  require_uppercase : bool;
  require_lowercase : bool;
  require_digits : bool;
  require_special : bool;
  expiration_hours : Z;
  max_failed_attempts : Z;
  lockout_duration : Z;
  prevent_reuse : bool;
  password_history_size : Z
}.

(** The default member initializers; the lockout duration is in minutes. *)
Definition default_policy : PasswordPolicy :=
  MkPolicy 8 false false false false (90 * 24) 5 30 false 0.

(** ** PasswordHasher *)
Definition isHashed (hash : string) : bool :=
  match find_str "sha256:" hash with
  | Some O => true
  | _ => false
  end.

(** The drawn bytes in hexadecimal. *)
Definition generateSalt (random : string) : string := to_hex random.

Section hasher.
Context `{Sha256}.

(** [random] is what [generateSalt] would draw. *)
Definition hashPassword (random password salt : string) : string :=
  let actual_salt := if is_empty salt then generateSalt random else salt in
  match sha256 (actual_salt +:+ password) with
  | None => ""
  | Some hash => "sha256:" +:+ actual_salt +:+ ":" +:+ to_hex hash
  end.

(** [s.find(':', from)] with [npos + 1 = 0] after a failed search. *)
Definition after (p : option nat) : nat := from_option S 0%nat p.

Definition verifyPassword (random password hash : string) : bool :=
  if negb (isHashed hash) then String.eqb password hash else
  match find_char ":" hash with
  | None => false
  | Some colon1 =>
      match find_char_from ":" (S colon1) hash with
      | None => false
      | Some colon2 =>
          let algorithm := substr 0 colon1 hash in
          let salt := substr (S colon1) (colon2 - colon1 - 1) hash in
          let stored_hash := substr_from (S colon2) hash in
          if negb (String.eqb algorithm "sha256") then false else
          let computed_hash := hashPassword random password salt in
          let computed_colon :=
            find_char_from ":" (after (find_char ":" computed_hash)) computed_hash in
          let computed_hash_part := substr_from (after computed_colon) computed_hash in
          String.eqb stored_hash computed_hash_part
      end
  end.
End hasher.

(** ** PasswordPolicyValidator *)

(** The four flags of the loop: uppercase, lowercase, digit, special. *)
Record classes := Classes { has_uppercase : bool; has_lowercase : bool; has_digit : bool; has_special : bool }.

Definition classify (seen : classes) (c : ascii) : classes :=
  if isupper c then Classes true (has_lowercase seen) (has_digit seen) (has_special seen)
  else if islower c then Classes (has_uppercase seen) true (has_digit seen) (has_special seen)
  else if isdigit c then Classes (has_uppercase seen) (has_lowercase seen) true (has_special seen)
  else if negb (isalnum c) then Classes (has_uppercase seen) (has_lowercase seen) (has_digit seen) true
  else seen.

Fixpoint classify_all (seen : classes) (password : string) : classes :=
  match password with
  | "" => seen
  | String c password => classify_all (classify seen c) password
  end.

Definition meetsComplexityRequirements (password : string) (policy : PasswordPolicy) : bool :=
  let seen := classify_all (Classes false false false false) password in
  if require_uppercase policy && negb (has_uppercase seen) then false
  else if require_lowercase policy && negb (has_lowercase seen) then false
  else if require_digits policy && negb (has_digit seen) then false
  else if require_special policy && negb (has_special seen) then false
  else true.

Definition validatePassword (password : string) (policy : PasswordPolicy) : bool * string :=
  if Z.of_nat (String.length password) <? min_length policy then
    (false, "Password must be at least " +:+ to_string (min_length policy) +:+ " characters long")
  else
    let complaint :=
      if meetsComplexityRequirements password policy then None else
      let requirements :=
        (if require_uppercase policy then "uppercase letter, " else "") +:+
        (if require_lowercase policy then "lowercase letter, " else "") +:+
        (if require_digits policy then "digit, " else "") +:+
        (if require_special policy then "special character, " else "") in
      if is_empty requirements then None
      else Some (substr 0 (String.length requirements - 2) requirements) in
    match complaint with
    | Some requirements => (false, "Password must contain: " +:+ requirements)
    | None => (true, "")
    end.

(** ** Specifications *)

(** Some character of [s] is in the class [p]. *)
Definition has_char (p : ascii → bool) (s : string) : bool := negb (str_forallb (λ c, negb (p c)) s).

Definition special (c : ascii) : bool := negb (isalnum c).

(** What the policy asks for, in words of the text alone. *)
Definition policy_ok (password : string) (policy : PasswordPolicy) : Prop :=
  min_length policy ≤ Z.of_nat (String.length password) ∧
  (require_uppercase policy = true → has_char isupper password = true) ∧
  (require_lowercase policy = true → has_char islower password = true) ∧
  (require_digits policy = true → has_char isdigit password = true) ∧
  (require_special policy = true → has_char special password = true).

(** The form [hashPassword] writes. *)
Definition stored_form (salt hash : string) : string := "sha256:" +:+ salt +:+ ":" +:+ hash.

(** ** Lemmas: the stored form *)
Lemma isHashed_iff hash : isHashed hash = true ↔ ∃ t, hash = "sha256:" +:+ t.
Proof.
  unfold isHashed. split.
  - destruct (find_str _ _) as [[|p]|] eqn:E; try done. intros _.
    apply find_str_Some in E as (a & b & -> & Ha). destruct a; [|done]. by exists b.
  - intros [t ->]. by rewrite find_str_prefix by apply starts_with_app.
Qed.

(** The two colons of [a:b:c]. *)
Lemma two_colons a b c :
  no_char ":" a = true → no_char ":" b = true →
  let s := a +:+ ":" +:+ b +:+ ":" +:+ c in
  find_char ":" s = Some (String.length a) ∧
  find_char_from ":" (S (String.length a)) s = Some (S (String.length a) + String.length b)%nat ∧
  substr 0 (String.length a) s = a ∧
  substr (S (String.length a)) (S (String.length a) + String.length b - String.length a - 1) s = b ∧
  substr_from (S (S (String.length a) + String.length b)) s = c.
Proof.
  intros Ha Hb s. subst s. rewrite !app_cons_str, !app_nil_l_str.
  unfold find_char_from, substr, substr_from. rewrite drop_0, drop_S_app_str, !find_char_app by done.
  split; [done|]. split; [done|]. rewrite take_app_str. split; [done|].
  replace (S (String.length a) + String.length b - String.length a - 1)%nat
    with (String.length b) by lia.
  rewrite take_app_str. split; [done|].
  replace (S (S (String.length a) + String.length b))
    with (S (String.length a) + S (String.length b))%nat by lia.
  by rewrite <- drop_drop_str, drop_S_app_str, drop_S_app_str.
Qed.

Lemma to_hex_no_colon s : no_char ":" (to_hex s) = true.
Proof. apply hex_no_char; [done|apply to_hex_hex]. Qed.

Section hashing.
Context `{Sha256}.

Definition actual_salt (random salt : string) : string :=
  if is_empty salt then to_hex random else salt.

(** The digest part [verifyPassword] computes; empty when OpenSSL fails. *)
Definition digest_part (salt password : string) : string :=
  from_option to_hex "" (sha256 (salt +:+ password)).

Lemma actual_salt_no_colon random salt :
  no_char ":" salt = true → no_char ":" (actual_salt random salt) = true.
Proof. unfold actual_salt. destruct (is_empty salt); [intros; apply to_hex_no_colon|done]. Qed.

Lemma verify_stored random password salt hash :
  no_char ":" salt = true →
  verifyPassword random password (stored_form salt hash) =
  String.eqb hash (digest_part (actual_salt random salt) password).
Proof.
  intros Hs. unfold verifyPassword.
  assert (isHashed (stored_form salt hash) = true) as -> by (apply isHashed_iff; by eexists).
  unfold stored_form. cbv [negb].
  change ("sha256:" +:+ salt +:+ ":" +:+ hash) with ("sha256" +:+ ":" +:+ salt +:+ ":" +:+ hash).
  destruct (two_colons "sha256" salt hash ltac:(done) Hs) as (E1 & E2 & E3 & E4 & E5).
  rewrite E1, E2, E3, E4, E5. clear E1 E2 E3 E4 E5. rewrite String.eqb_refl.
  unfold hashPassword. fold (generateSalt random). change (generateSalt random) with (to_hex random).
  fold (actual_salt random salt). unfold digest_part.
  destruct (sha256 _) as [d|]; [|done]. cbn [from_option].
  change ("sha256:" +:+ actual_salt random salt +:+ ":" +:+ to_hex d)
    with ("sha256" +:+ ":" +:+ actual_salt random salt +:+ ":" +:+ to_hex d).
  destruct (two_colons "sha256" (actual_salt random salt) (to_hex d) ltac:(done)
    (actual_salt_no_colon random salt Hs)) as (E1 & E2 & _ & _ & E5).
  rewrite E1. cbn [after from_option]. rewrite E2. cbn [after from_option]. rewrite E5. done.
Qed.

(** A hashed entry that accepts has the stored form and the right digest. *)
Lemma verify_hashed_inv random password stored :
  isHashed stored = true → verifyPassword random password stored = true →
  ∃ salt, no_char ":" salt = true ∧
          stored = stored_form salt (digest_part (actual_salt random salt) password).
Proof.
  intros [t ->]%isHashed_iff Hv.
  destruct (find_char ":" t) as [p|] eqn:Et.
  - destruct (find_char_Some _ _ _ Et) as (salt & hash & -> & Hs & _).
    exists salt. split; [done|].
    change ("sha256:" +:+ salt +:+ String ":" hash) with (stored_form salt hash) in Hv |- *.
    rewrite verify_stored in Hv by done. apply String.eqb_eq in Hv. congruence.
  - exfalso. revert Hv. unfold verifyPassword.
    assert (isHashed ("sha256:" +:+ t) = true) as -> by (apply isHashed_iff; by eexists).
    change (find_char ":" ("sha256:" +:+ t)) with (Some 6%nat). cbn [negb].
    unfold find_char_from. change (str_drop 7 ("sha256:" +:+ t)) with (str_drop 0 t).
    rewrite drop_0, Et. done.
Qed.

Lemma hashPassword_stored random password salt d :
  sha256 (actual_salt random salt +:+ password) = Some d →
  hashPassword random password salt = stored_form (actual_salt random salt) (to_hex d).
Proof. intros E. unfold hashPassword. change generateSalt with to_hex. fold (actual_salt random salt). by rewrite E. Qed.

(** What a hashed entry accepts, whichever salt was used to write it. *)
Lemma verify_hash random random' password password' salt d :
  no_char ":" salt = true → actual_salt random salt ≠ "" →
  sha256 (actual_salt random salt +:+ password) = Some d →
  verifyPassword random' password' (hashPassword random password salt) = true ↔
  digest_part (actual_salt random salt) password' = to_hex d.
Proof.
  intros Hs Hne Hd. rewrite (hashPassword_stored _ _ _ d Hd).
  rewrite verify_stored by (by apply actual_salt_no_colon).
  assert (actual_salt random' (actual_salt random salt) = actual_salt random salt) as ->.
  { unfold actual_salt at 1. by apply is_empty_false in Hne as ->. }
  rewrite String.eqb_eq. split; congruence.
Qed.

(** C34: Password verification is digest equality: on what [hashPassword]
    stored for [password] (with a given salt, or with a drawn one when [salt]
    is empty), [verifyPassword] accepts [password'] exactly when the salted
    digests are the same; in particular it accepts [password] itself. *)
Theorem verify_hashPassword random random' password password' salt d d' :
  no_char ":" salt = true → actual_salt random salt ≠ "" →
  sha256 (actual_salt random salt +:+ password) = Some d →
  sha256 (actual_salt random salt +:+ password') = Some d' →
  (verifyPassword random' password' (hashPassword random password salt) = true ↔ d' = d) ∧
  verifyPassword random' password (hashPassword random password salt) = true.
Proof.
  intros Hs Hne Hd Hd'. rewrite !(verify_hash _ _ _ _ _ _ Hs Hne Hd).
  unfold digest_part. rewrite Hd, Hd'. simpl. split; [|done]. split; [apply to_hex_inj|by intros ->].
Qed.
End hashing.

(** ** Lemmas: the policy *)
Lemma has_char_cons p c s : has_char p (String c s) = p c || has_char p s.
Proof. unfold has_char. simpl. by destruct (p c), (str_forallb _ s). Qed.

(** The [else if] chain loses nothing: the classes are disjoint. *)
Lemma classify_spec seen c :
  classify seen c = Classes (has_uppercase seen || isupper c) (has_lowercase seen || islower c)
                            (has_digit seen || isdigit c) (has_special seen || special c).
Proof.
  destruct seen as [u l d s]. unfold classify, special, isalnum. simpl.
  destruct (isupper c) eqn:U, (islower c) eqn:L, (isdigit c) eqn:D; simpl;
    rewrite ?orb_true_r, ?orb_false_r; try done;
    unfold isupper, islower, isdigit in *; bool_hyps; lia.
Qed.

Lemma classify_all_spec seen s :
  classify_all seen s = Classes (has_uppercase seen || has_char isupper s)
    (has_lowercase seen || has_char islower s) (has_digit seen || has_char isdigit s)
    (has_special seen || has_char special s).
Proof.
  revert seen; induction s as [|c s IH]; intros seen; simpl.
  - destruct seen. by rewrite !orb_false_r.
  - by rewrite IH, classify_spec, !has_char_cons; simpl; rewrite !orb_assoc.
Qed.

Lemma meets_iff password policy :
  meetsComplexityRequirements password policy = true ↔
  (require_uppercase policy = true → has_char isupper password = true) ∧
  (require_lowercase policy = true → has_char islower password = true) ∧
  (require_digits policy = true → has_char isdigit password = true) ∧
  (require_special policy = true → has_char special password = true).
Proof.
  unfold meetsComplexityRequirements. rewrite classify_all_spec. cbn [has_uppercase has_lowercase has_digit has_special orb].
  destruct (require_uppercase policy), (require_lowercase policy), (require_digits policy),
    (require_special policy), (has_char isupper password), (has_char islower password),
    (has_char isdigit password), (has_char special password); simpl; intuition congruence.
Qed.

(** A complexity failure always has a requirement to name. *)
Lemma complaint_nonempty password policy :
  meetsComplexityRequirements password policy = false →
  require_uppercase policy || require_lowercase policy || require_digits policy ||
  require_special policy = true.
Proof.
  unfold meetsComplexityRequirements.
  by destruct (require_uppercase policy), (require_lowercase policy), (require_digits policy),
    (require_special policy).
Qed.

Lemma validatePassword_cases password policy :
  (validatePassword password policy = (true, "") ∧ policy_ok password policy) ∨
  (∃ error, validatePassword password policy = (false, error) ∧ ¬ policy_ok password policy).
Proof.
  assert (policy_ok password policy ↔ min_length policy ≤ Z.of_nat (String.length password) ∧
    meetsComplexityRequirements password policy = true) as Hp by (unfold policy_ok; by rewrite meets_iff).
  unfold validatePassword. destruct (_ <? _) eqn:El; bool_hyps.
  { right. eexists. split; [done|]. rewrite Hp. lia. }
  destruct (meetsComplexityRequirements password policy) eqn:Em; [left; split; [done|]; by apply Hp|].
  right. assert (¬ policy_ok password policy) as Hn by (rewrite Hp; by intros []).
  apply complaint_nonempty in Em. clear Hp.
  destruct (require_uppercase policy), (require_lowercase policy), (require_digits policy),
    (require_special policy); try done; eexists; (split; [reflexivity|exact Hn]).
Qed.

(** [validatePassword] accepts exactly the passwords the policy describes:
    long enough and with a character of every required class. *)
Theorem validatePassword_iff password policy :
  (validatePassword password policy).1 = true ↔ policy_ok password policy.
Proof. destruct (validatePassword_cases password policy) as [[-> ?]|(e & -> & ?)]; naive_solver. Qed.

(** ** Witnesses: the identity in place of the digest *)
Definition toy_sha256 : Sha256 := {| sha256 := Some |}.

Lemma verify_hashPassword_witness :
  (@verifyPassword toy_sha256 "r" "Secret" (@hashPassword toy_sha256 "random" "secret" "") = true ↔
   to_hex "random" +:+ "Secret" = to_hex "random" +:+ "secret") ∧
  @verifyPassword toy_sha256 "r" "secret" (@hashPassword toy_sha256 "random" "secret" "") = true.
Proof.
  apply (@verify_hashPassword toy_sha256 "random" "r" "secret" "Secret" ""); by vm_compute.
Defined.
