(* ===== verification/PasswordFile.v ===== *)
(** * The password file: class [PasswordFile] of [core/auth.cpp], lines 177-295

    The file on disk is an argument: its contents, or [None] when it cannot be
    opened. *)
From S2P Require Import Prelude CppString Passwords.
Open Scope Z_scope.

Record PasswordFile := MkFile {
  filename_ : string;
  reject_plaintext_ : bool;
  users_ : gmap string string;
  user_info_ : gmap string UserInfo;
  loaded_ : bool
}.

Definition comment_line (line : string) : bool :=
  match line with
  | "" => true
  | String c _ => bool_decide (c = "#"%char) || bool_decide (c = ";"%char)
  end.

(** The user information of a line: nothing expires, nothing is locked. *)
Definition file_user_info (user password : string) : UserInfo :=
  MkUserInfo user password (isHashed password) time_max time_max false 0 0 [] ∅.

(** The name and password of one line, [None] for a line that is skipped. *)
Definition parse_line (reject : bool) (line : string) : option (string * string) :=
  let line := trim line in
  if comment_line line then None else
  match find_char ":" line with
  | None | Some O => None
  | Some colon_pos =>
      let user := trim (substr 0 colon_pos line) in
      let password := substr_from (S colon_pos) line in
      if reject && negb (isHashed password) then None else Some (user, password)
  end.

Definition add_entry (pf : PasswordFile) (entry : string * string) : PasswordFile :=
  MkFile (filename_ pf) (reject_plaintext_ pf)
    (<[entry.1 := entry.2]> (users_ pf))
    (<[entry.1 := file_user_info entry.1 entry.2]> (user_info_ pf)) (loaded_ pf).

Definition load_line (pf : PasswordFile) (line : string) : PasswordFile :=
  from_option (add_entry pf) pf (parse_line (reject_plaintext_ pf) line).

(** [load] clears [users_] but not [user_info_]. *)
Definition load (disk : option string) (pf : PasswordFile) : bool * PasswordFile :=
  let pf := MkFile (filename_ pf) (reject_plaintext_ pf) ∅ (user_info_ pf) false in
  if is_empty (filename_ pf) then (false, pf) else
  match disk with
  | None => (false, pf)
  | Some contents =>
      let pf := foldl load_line pf (getlines newline contents) in
      (true, MkFile (filename_ pf) (reject_plaintext_ pf) (users_ pf) (user_info_ pf) true)
  end.

Definition new_password_file (disk : option string) (filename : string) (reject : bool) : PasswordFile :=
  snd (load disk (MkFile filename reject ∅ ∅ false)).

Definition reload (disk : option string) (pf : PasswordFile) : bool * PasswordFile := load disk pf.

Definition getUserInfo (user : string) (pf : PasswordFile) : option UserInfo :=
  if negb (loaded_ pf) then None else user_info_ pf !! user.

Definition userExists (user : string) (pf : PasswordFile) : bool :=
  if negb (loaded_ pf) then false else bool_decide (is_Some (users_ pf !! user)).

Definition getUsers (pf : PasswordFile) : list string := (map_entries (users_ pf)).*1.

Definition getUserCount (pf : PasswordFile) : nat := size (users_ pf).

Definition authenticate `{Sha256} (random user password : string) (pf : PasswordFile) : bool :=
  if negb (loaded_ pf) then false else
  match users_ pf !! user with
  | None => false
  | Some stored => verifyPassword random password stored
  end.

(** ** Specification: the last usable line of a name counts *)
Definition entries (reject : bool) (contents : string) : list (string * string) :=
  omap (parse_line reject) (getlines newline contents).

Definition last_entry (user : string) (l : list (string * string)) : option string :=
  snd <$> last (filter (λ e, e.1 = user) l).

(** ** Lemmas *)
Lemma load_lines_fields pf lines :
  filename_ (foldl load_line pf lines) = filename_ pf ∧
  reject_plaintext_ (foldl load_line pf lines) = reject_plaintext_ pf.
Proof.
  revert pf; induction lines as [|l lines IH]; intros pf; [done|]. cbn [foldl].
  destruct (IH (load_line pf l)) as [-> ->]. unfold load_line. by destruct (parse_line _ l).
Qed.

Lemma load_lines_entries pf lines :
  foldl load_line pf lines = foldl add_entry pf (omap (parse_line (reject_plaintext_ pf)) lines).
Proof.
  revert pf; induction lines as [|l lines IH]; intros pf; [done|]. cbn [foldl].
  rewrite IH. pose proof (proj2 (load_lines_fields pf [l])) as Hr. cbn [foldl] in Hr. rewrite Hr.
  cbn [omap list_omap]. unfold load_line.
  by destruct (parse_line (reject_plaintext_ pf) l).
Qed.

Lemma last_entry_cons user e l :
  last_entry user (e :: l) =
  match last_entry user l with
  | Some p => Some p
  | None => if decide (e.1 = user) then Some e.2 else None
  end.
Proof.
  unfold last_entry. rewrite filter_cons. destruct (decide (e.1 = user)); [|by destruct (last _)].
  rewrite last_cons. by destruct (last _).
Qed.

Lemma add_entries_users pf l user :
  users_ (foldl add_entry pf l) !! user =
  match last_entry user l with Some p => Some p | None => users_ pf !! user end.
Proof.
  revert pf; induction l as [|e l IH]; intros pf; [done|].
  cbn [foldl]. rewrite IH, last_entry_cons. destruct (last_entry user l); [done|].
  cbn [users_ add_entry]. case_decide; subst; by simplify_map_eq.
Qed.

Lemma add_entries_info pf l user :
  user_info_ (foldl add_entry pf l) !! user =
  match last_entry user l with
  | Some p => Some (file_user_info user p)
  | None => user_info_ pf !! user
  end.
Proof.
  revert pf; induction l as [|e l IH]; intros pf; [done|].
  cbn [foldl]. rewrite IH, last_entry_cons. destruct (last_entry user l); [done|].
  cbn [user_info_ add_entry]. case_decide; subst; by simplify_map_eq.
Qed.

(** What a successful load leaves. *)
Lemma load_ok contents pf :
  filename_ pf ≠ "" →
  ∃ pf', load (Some contents) pf = (true, pf') ∧ loaded_ pf' = true ∧
    reject_plaintext_ pf' = reject_plaintext_ pf ∧
    ∀ user, users_ pf' !! user = last_entry user (entries (reject_plaintext_ pf) contents) ∧
      user_info_ pf' !! user =
        match last_entry user (entries (reject_plaintext_ pf) contents) with
        | Some p => Some (file_user_info user p)
        | None => user_info_ pf !! user
        end.
Proof.
  intros Hf%is_empty_false. unfold load. cbn [filename_ reject_plaintext_]. rewrite Hf.
  eexists. split; [reflexivity|]. cbn [loaded_ reject_plaintext_ users_ user_info_].
  split; [done|]. split; [by rewrite (proj2 (load_lines_fields _ _))|].
  intros user. rewrite load_lines_entries. cbn [reject_plaintext_].
  rewrite add_entries_users, add_entries_info. cbn [users_ user_info_]. rewrite lookup_empty.
  unfold entries. by destruct (last_entry user _).
Qed.

Lemma load_failed disk pf : (load disk pf).1 = false → loaded_ (load disk pf).2 = false.
Proof. unfold load. cbn. by destruct (is_empty _), disk. Qed.

Lemma parse_line_rejects line user password :
  parse_line true line = Some (user, password) → isHashed password = true.
Proof.
  unfold parse_line. destruct (comment_line _); [done|].
  destruct (find_char _ _) as [[|p]|]; [done| |done]. simpl.
  destruct (isHashed _) eqn:E; [|done]. by intros [= <- <-].
Qed.

Lemma last_entry_elem user l p : last_entry user l = Some p → (user, p) ∈ l.
Proof.
  unfold last_entry. intros ([u q] & Hl & ->)%fmap_Some.
  apply last_Some_elem_of, list_elem_of_filter in Hl as [Hu Hl]. simpl in *. by subst.
Qed.

(** Loading: after a successful load the password of a user is the one of
    the last usable line with that name, whatever the object held before; a
    failed load leaves no user who can log in. *)
Theorem load_last_line disk pf :
  match load disk pf with
  | (true, pf') => ∃ contents, disk = Some contents ∧ loaded_ pf' = true ∧
      ∀ user, users_ pf' !! user = last_entry user (entries (reject_plaintext_ pf) contents)
  | (false, pf') => ∀ (sha : Sha256) random user password,
      userExists user pf' = false ∧ authenticate random user password pf' = false
  end.
Proof.
  destruct (load disk pf) as [[] pf'] eqn:E.
  - assert (filename_ pf ≠ "") as Hf.
    { apply is_empty_false. revert E. unfold load. cbn. by destruct (is_empty _). }
    destruct disk as [contents|]; [|revert E; unfold load; cbn; by destruct (is_empty _)].
    destruct (load_ok contents pf Hf) as (pf2 & E2 & Hl & _ & Hu).
    rewrite E in E2. injection E2 as <-. exists contents. split; [done|]. split; [done|].
    intros user. apply Hu.
  - intros sha random user password. pose proof (load_failed disk pf) as Hl. rewrite E in Hl.
    specialize (Hl eq_refl). cbn in Hl. unfold userExists, authenticate. by rewrite Hl.
Qed.

(** With plain-text passwords rejected, whoever authenticates is matched
    against a salted digest: the stored entry is [sha256:salt:digest] with the
    digest of the salt and the presented password. *)
Theorem reject_plaintext_sound `{Sha256} contents filename random user password :
  authenticate random user password (new_password_file (Some contents) filename true) = true →
  ∃ salt, no_char ":" salt = true ∧
    users_ (new_password_file (Some contents) filename true) !! user =
    Some (stored_form salt (digest_part (actual_salt random salt) password)).
Proof.
  unfold new_password_file. destruct (is_empty filename) eqn:Hf.
  { unfold load. cbn. by rewrite Hf. }
  destruct (load_ok contents (MkFile filename true ∅ ∅ false)) as (pf' & -> & Hl & _ & Hu).
  { by apply is_empty_false. }
  cbn [snd]. destruct (Hu user) as [E _]. cbn [reject_plaintext_] in E.
  unfold authenticate. rewrite Hl. cbn [negb]. destruct (users_ pf' !! user) as [stored|]; [|done].
  intros Hv. symmetry in E. apply last_entry_elem, list_elem_of_omap in E as (line & _ & E).
  apply parse_line_rejects in E.
  destruct (verify_hashed_inv random password stored E Hv) as (salt & Hs & ->). by exists salt.
Qed.

(** [load] does not clear [user_info_]: a user who is no longer in the file
    after a reload does not exist and cannot authenticate, but [getUserInfo]
    still returns the old record. *)
Theorem reload_keeps_removed_user_info `{Sha256} contents pf user info :
  filename_ pf ≠ "" → user_info_ pf !! user = Some info →
  last_entry user (entries (reject_plaintext_ pf) contents) = None →
  let pf' := snd (reload (Some contents) pf) in
  userExists user pf' = false ∧ getUserInfo user pf' = Some info ∧
  ∀ random password, authenticate random user password pf' = false.
Proof.
  intros Hf Hi He. unfold reload. destruct (load_ok contents pf Hf) as (pf' & -> & Hl & _ & Hu).
  cbn [snd]. destruct (Hu user) as [Eu Ei]. rewrite He in Eu, Ei.
  unfold userExists, getUserInfo, authenticate. rewrite Hl. cbn [negb].
  rewrite Eu, Ei. split; [done|]. by split.
Qed.

(** ** Witnesses *)
Definition toy_file : string :=
  "# users" +:+ nl +:+ "alice: sha256:s:" +:+ to_hex "ssecret" +:+ nl +:+
  " bob :plain" +:+ nl +:+ "alice:sha256:s:" +:+ to_hex "ssecret" +:+ nl.

Lemma reject_plaintext_sound_witness :
  ∃ salt, no_char ":" salt = true ∧
    users_ (new_password_file (Some toy_file) "passwd" true) !! "alice" =
    Some (stored_form salt (@digest_part toy_sha256 (actual_salt "r" salt) "secret")).
Proof.
  apply (@reject_plaintext_sound toy_sha256 toy_file "passwd" "r" "alice" "secret").
  vm_compute. reflexivity.
Defined.

Lemma reload_keeps_removed_user_info_witness :
  let pf := new_password_file (Some toy_file) "passwd" false in
  let pf' := snd (reload (Some "alice:x") pf) in
  userExists "bob" pf' = false ∧
  getUserInfo "bob" pf' = Some (file_user_info "bob" "plain") ∧
  ∀ random password, @authenticate toy_sha256 random "bob" password pf' = false.
Proof.
  apply (@reload_keeps_removed_user_info toy_sha256 "alice:x"
           (new_password_file (Some toy_file) "passwd" false) "bob" (file_user_info "bob" "plain"));
    by vm_compute.
Defined.
