(* ===== verification/UserDatabase.v ===== *)
(** * The user database: class [UserDatabase] of [core/auth.cpp], lines 297-505

    The disk maps file names to contents; [writable] says whether a file can be
    opened for writing.  Operations take and return the database and the disk.
    An operation that hashes takes the random bytes it draws. *)
From S2P Require Import Prelude CppString Passwords PasswordFile.
Open Scope Z_scope.

Record UserDatabase := MkDatabase {
  database_file_ : string;
  db_users : gmap string UserInfo
}.

Abbreviation disk := (gmap string string).

Definition with_users (users : gmap string UserInfo) (db : UserDatabase) : UserDatabase :=
  MkDatabase (database_file_ db) users.

(** ** The file format *)
Definition join_permissions (permissions : list string) : string :=
  match permissions with
  | [] => ""
  | p :: ps => foldl (λ s q, s +:+ "," +:+ q) p ps
  end.

Definition user_line (entry : string * UserInfo) : string :=
  entry.1 +:+ ":" +:+ password_hash entry.2 +:+
  (match permissions entry.2 with [] => "" | ps => ":" +:+ join_permissions ps end) +:+ nl.

Definition file_header : string :=
  "# User database file" +:+ nl +:+ "# Format: username:password_hash:permissions:metadata" +:+ nl.

Definition save_text (users : gmap string UserInfo) : string :=
  file_header +:+ foldr (λ e s, user_line e +:+ s) "" (map_entries users).

(** The user of one line, [None] for a line that is skipped. *)
Definition parse_user (line : string) : option (string * UserInfo) :=
  if comment_line line then None else
  match find_char ":" line with
  | None => None
  | Some colon1 =>
      match find_char_from ":" (S colon1) line with
      | None => None
      | Some colon2 =>
          let user := substr 0 colon1 line in
          let hash := substr (S colon1) (colon2 - colon1 - 1) line in
          let permissions_str := substr_from (S colon2) line in
          let perms := if is_empty permissions_str then [] else getlines "," permissions_str in
          Some (user, MkUserInfo user hash (isHashed hash) time_max time_max false 0 0 perms ∅)
      end
  end.

Definition load_line (users : gmap string UserInfo) (line : string) : gmap string UserInfo :=
  match parse_user line with None => users | Some (user, info) => <[user := info]> users end.

Definition load_text (contents : string) : gmap string UserInfo :=
  foldl load_line ∅ (getlines newline contents).

Definition load (db : UserDatabase) (d : disk) : bool * UserDatabase :=
  if is_empty (database_file_ db) then (false, db) else
  match d !! database_file_ db with
  | None => (false, with_users ∅ db)
  | Some contents => (true, with_users (load_text contents) db)
  end.

Definition new_database (file : string) (d : disk) : UserDatabase :=
  let db := MkDatabase file ∅ in
  if negb (is_empty file) then snd (load db d) else db.

Definition getUserInfo (user : string) (db : UserDatabase) : option UserInfo := db_users db !! user.
Definition userExists (user : string) (db : UserDatabase) : bool :=
  bool_decide (is_Some (db_users db !! user)).
Definition getUsers (db : UserDatabase) : list string := (map_entries (db_users db)).*1.

Section operations.
Context `{Sha256} (writable : string → bool).

Definition save (db : UserDatabase) (d : disk) : bool * disk :=
  if is_empty (database_file_ db) then (false, d)
  else if negb (writable (database_file_ db)) then (false, d)
  else (true, <[database_file_ db := save_text (db_users db)]> d).

(** [if (!database_file_.empty()) save();] *)
Definition autosave (db : UserDatabase) (d : disk) : disk :=
  if negb (is_empty (database_file_ db)) then snd (save db d) else d.

Definition createUser (random user password : string) (perms : list string)
    (db : UserDatabase) (d : disk) : bool * UserDatabase * disk :=
  if userExists user db then (false, db, d) else
  let info := MkUserInfo user (hashPassword random password "") true time_max time_max false 0 0 perms ∅ in
  let db := with_users (<[user := info]> (db_users db)) db in
  (true, db, autosave db d).

(** [now] and the expiration are added in nanoseconds. *)
Definition createUserWithPolicy (now : Z) (random user password : string) (perms : list string)
    (policy : PasswordPolicy) (db : UserDatabase) (d : disk) : bool * UserDatabase * disk :=
  if userExists user db then (false, db, d) else
  let '(valid, error) := validatePassword password policy in
  if negb valid then (false, db, d) else
  let expires := if expiration_hours policy >? 0
                 then now + expiration_hours policy * (3600 * 1000000000) else time_max in
  let info := MkUserInfo user (hashPassword random password "") true expires time_max false 0 0 perms ∅ in
  let db := with_users (<[user := info]> (db_users db)) db in
  (true, db, autosave db d).

Definition updatePassword (random user new_password : string)
    (db : UserDatabase) (d : disk) : bool * UserDatabase * disk :=
  match db_users db !! user with
  | None => (false, db, d)
  | Some i =>
      let info := MkUserInfo (username i) (hashPassword random new_password "") true
        (password_expires i) (account_expires i) (account_locked i) 0 (last_login i)
        (permissions i) (metadata i) in
      let db := with_users (<[user := info]> (db_users db)) db in
      (true, db, autosave db d)
  end.

Definition deleteUser (user : string) (db : UserDatabase) (d : disk) : bool * UserDatabase * disk :=
  match db_users db !! user with
  | None => (false, db, d)
  | Some _ =>
      let db := with_users (delete user (db_users db)) db in
      (true, db, autosave db d)
  end.
End operations.

(** ** What a user becomes when the database is saved and loaded again *)

(** Names and permissions the line format can carry. *)
Record saveable (user : string) (info : UserInfo) : Prop := {
  save_name : comment_line user = false;
  save_name_colon : no_char ":" user = true;
  save_name_line : no_char newline user = true;
  save_perms : no_char newline (join_permissions (permissions info)) = true
}.

(** The text after the first two colons of the line of a user whose hash is
    [sha256:salt:digest]. *)
Definition spilled (salt digest : string) (info : UserInfo) : string :=
  salt +:+ ":" +:+ digest +:+
  match permissions info with [] => "" | ps => ":" +:+ join_permissions ps end.

Definition reloaded (user salt digest : string) (info : UserInfo) : UserInfo :=
  MkUserInfo user "sha256" false time_max time_max false 0 0
    (getlines "," (spilled salt digest info)) ∅.

(** ** Lemmas *)
Lemma load_text_app a b :
  no_char newline a = true →
  getlines newline (a +:+ nl +:+ b) = a :: getlines newline b.
Proof. intros Ha. unfold nl. rewrite app_cons_str, app_nil_l_str. by apply getlines_app. Qed.

Lemma comment_line_app s t : comment_line s = false → comment_line (s +:+ t) = false.
Proof. by destruct s. Qed.

Lemma header_lines t :
  getlines newline (file_header +:+ t) =
  "# User database file" :: "# Format: username:password_hash:permissions:metadata" :: getlines newline t.
Proof. unfold file_header. rewrite !app_assoc_str, !load_text_app by (vm_compute; reflexivity). done. Qed.

(** A line of a user with a stored hash is split inside the hash. *)
Lemma parse_user_spilled user salt digest info :
  saveable user info → no_char ":" salt = true →
  parse_user (user +:+ ":" +:+ "sha256" +:+ ":" +:+ spilled salt digest info) =
  Some (user, reloaded user salt digest info).
Proof.
  intros [Hc Hu _ _] Hs. unfold parse_user. rewrite comment_line_app by done.
  destruct (two_colons user "sha256" (spilled salt digest info) Hu eq_refl) as (E1 & E2 & E3 & E4 & E5).
  rewrite E1, E2. cbv zeta. rewrite E3, E4, E5. unfold reloaded.
  assert (is_empty (spilled salt digest info) = false) as ->.
  { unfold spilled. by destruct salt. }
  done.
Qed.

Lemma user_line_spilled user salt digest info :
  password_hash info = stored_form salt digest →
  user_line (user, info) = (user +:+ ":" +:+ "sha256" +:+ ":" +:+ spilled salt digest info) +:+ nl.
Proof.
  intros E. unfold user_line, spilled, stored_form in *. cbn [fst snd]. rewrite E.
  by rewrite !app_assoc_str, !app_cons_str, !app_nil_l_str.
Qed.

(** A user the database holds after hashing a password. *)
Definition hashed_user (user : string) (info : UserInfo) : Prop :=
  saveable user info ∧ ∃ salt digest, password_hash info = stored_form salt digest ∧
    no_char ":" salt = true ∧ no_char newline salt = true ∧ no_char newline digest = true.

(** [r] is what [info] becomes. *)
Definition becomes (user : string) (info r : UserInfo) : Prop :=
  ∃ salt digest, password_hash info = stored_form salt digest ∧ r = reloaded user salt digest info.

Lemma no_newline_spilled user salt digest info :
  saveable user info → no_char newline salt = true → no_char newline digest = true →
  no_char newline (user +:+ ":" +:+ "sha256" +:+ ":" +:+ spilled salt digest info) = true.
Proof.
  intros [_ _ Hn Hp] Hs Hd. unfold spilled. repeat (apply no_char_app; split; try done).
  destruct (permissions info); [done|]. apply no_char_app. by split.
Qed.

Lemma user_line_loads user info :
  hashed_user user info →
  ∃ line r, user_line (user, info) = line +:+ nl ∧ no_char newline line = true ∧
    parse_user line = Some (user, r) ∧ becomes user info r.
Proof.
  intros (Hsave & salt & digest & Hh & Hc & Hs & Hd). eexists _, _.
  split; [by apply user_line_spilled|]. split; [by apply no_newline_spilled|].
  split; [by apply parse_user_spilled|]. by exists salt, digest.
Qed.

Lemma load_lines_lookup l acc :
  Forall (λ e, hashed_user e.1 e.2) l → NoDup l.*1 →
  let users := foldl load_line acc
    (getlines newline (foldr (λ e s, user_line e +:+ s) "" l)) in
  (∀ user info, (user, info) ∈ l → ∃ r, users !! user = Some r ∧ becomes user info r) ∧
  (∀ user, user ∉ l.*1 → users !! user = acc !! user).
Proof.
  revert acc; induction l as [|[u i] l IH]; intros acc Hall Hnd; cbv zeta.
  { split; [by intros ?? ?%elem_of_nil|done]. }
  apply Forall_cons in Hall as [Hi Hall]. cbn [fmap list_fmap fst] in Hnd |- *.
  apply NoDup_cons in Hnd as [Hu Hnd].
  destruct (user_line_loads u i Hi) as (line & r & El & Hline & Ep & Hr).
  cbn [foldr]. rewrite El, app_assoc_str, load_text_app by done. cbn [foldl].
  assert (load_line acc line = <[u := r]> acc) as -> by (unfold load_line; by rewrite Ep).
  destruct (IH (<[u := r]> acc) Hall Hnd) as [IH1 IH2]. split.
  - intros user info [[= -> ->]|Hin]%elem_of_cons; [|by apply IH1].
    exists r. split; [|done]. rewrite IH2 by done. by simplify_map_eq.
  - intros user [Hne Hni]%not_elem_of_cons. rewrite IH2 by done. by simplify_map_eq.
Qed.

Section theorems.
Context `{Sha256} (writable : string → bool).

(** Saving and loading the database does not give it back: the colons
    inside [sha256:salt:digest] are read as field separators.  Every user
    survives, but each stored hash becomes the text [sha256], which is not
    hashed, and the salt and digest move into the permissions; so after a
    restart the password of every user is the word [sha256]. *)
Theorem save_load_loses_hashes db d :
  database_file_ db ≠ "" → writable (database_file_ db) = true →
  map_Forall hashed_user (db_users db) →
  ∃ db', load db (snd (save writable db d)) = (true, db') ∧
    (∀ user, userExists user db' = userExists user db) ∧
    ∀ user info, db_users db !! user = Some info →
      ∃ r, db_users db' !! user = Some r ∧ becomes user info r ∧
        ∀ random password,
          verifyPassword random password (password_hash r) = String.eqb password "sha256".
Proof.
  intros Hf%is_empty_false Hw Hall. unfold save, load. rewrite Hf, Hw. cbn [negb snd].
  rewrite lookup_insert_eq. eexists. split; [done|]. cbn [db_users with_users].
  unfold userExists. cbn [db_users with_users]. unfold load_text, save_text. rewrite header_lines. cbn [foldl].
  change (load_line (load_line ∅ _) _) with (∅ : gmap string UserInfo).
  destruct (load_lines_lookup (map_entries (db_users db)) ∅) as [L1 L2].
  { apply Forall_forall. intros [u i] Hin%elem_of_map_entries. by apply Hall. }
  { apply map_entries_NoDup. }
  split.
  - intros user. apply bool_decide_ext. destruct (db_users db !! user) as [info|] eqn:E.
    + apply elem_of_map_entries in E. destruct (L1 _ _ E) as (r & Er & _). by rewrite Er.
    + rewrite L2; [done|]. intros ([u i] & -> & Hin)%list_elem_of_fmap.
      apply elem_of_map_entries in Hin. simpl in E. congruence.
  - intros user info Hin. apply elem_of_map_entries in Hin. destruct (L1 _ _ Hin) as (r & Er & Hb).
    exists r. split; [done|]. split; [done|]. by destruct Hb as (s & dg & _ & ->).
Qed.

(** [createUser] refuses a name that exists and changes nothing then;
    otherwise exactly that name gets a record with the given permissions, and
    the stored hash accepts a password exactly when the salted digests agree. *)
Theorem createUser_spec random user password perms db d :
  random ≠ "" →
  match createUser writable random user password perms db d with
  | (false, db', d') => userExists user db = true ∧ db' = db ∧ d' = d
  | (true, db', d') => userExists user db = false ∧
      (∀ other, other ≠ user → getUserInfo other db' = getUserInfo other db) ∧
      ∃ info, getUserInfo user db' = Some info ∧ permissions info = perms ∧
        ∀ dg random' password' dg', sha256 (to_hex random +:+ password) = Some dg →
          sha256 (to_hex random +:+ password') = Some dg' →
          (verifyPassword random' password' (password_hash info) = true ↔ dg' = dg)
  end.
Proof.
  intros Hr. unfold createUser. destruct (userExists user db) eqn:E; [done|].
  split; [done|]. unfold getUserInfo. cbn [db_users with_users]. split.
  { intros other Hne. by simplify_map_eq. }
  eexists. split; [by simplify_map_eq|]. split; [done|]. intros dg random' password' dg' Hd Hd'.
  cbn [password_hash]. rewrite (verify_hash random random' password password' "" dg); [|done| |done].
  - unfold digest_part. cbn [actual_salt is_empty]. rewrite Hd'. cbn [from_option].
    split; [apply to_hex_inj|by intros ->].
  - by destruct random.
Qed.

(** [createUserWithPolicy] creates a user only with a password the policy
    accepts, and refuses every other without touching database or disk. *)
Theorem createUserWithPolicy_enforces now random user password perms policy db d :
  match createUserWithPolicy writable now random user password perms policy db d with
  | (ok, db', d') =>
      (ok = true ↔ userExists user db = false ∧ policy_ok password policy) ∧
      (ok = true → userExists user db' = true) ∧
      (ok = false → db' = db ∧ d' = d)
  end.
Proof.
  unfold createUserWithPolicy. destruct (userExists user db) eqn:E; [naive_solver|].
  destruct (validatePassword_cases password policy) as [[-> Hp]|(err & -> & Hp)];
    cbn [negb]; [|naive_solver].
  split; [naive_solver|]. split; [|done]. intros _. unfold userExists. cbn [db_users with_users].
  apply bool_decide_eq_true. by simplify_map_eq.
Qed.
End theorems.

(** ** Witnesses *)
Definition toy_info : UserInfo :=
  MkUserInfo "alice" (stored_form "5a" "61") true time_max time_max false 0 0 ["read"; "write"] ∅.

Lemma save_load_loses_hashes_witness :
  ∃ db', load (MkDatabase "users.db" {["alice" := toy_info]})
           (snd (save (λ _, true) (MkDatabase "users.db" {["alice" := toy_info]}) ∅)) = (true, db') ∧
    db_users db' !! "alice" = Some (reloaded "alice" "5a" "61" toy_info).
Proof.
  destruct (@save_load_loses_hashes toy_sha256 (λ _, true)
    (MkDatabase "users.db" {["alice" := toy_info]}) ∅) as (db' & E & _ & _); [done|done| |].
  { apply map_Forall_singleton. split; [by constructor|]. by exists "5a", "61". }
  exists db'. split; [exact E|]. vm_compute in E. injection E as <-. vm_compute. reflexivity.
Defined.

Lemma createUser_spec_witness :
  "random" ≠ "" ∧
  ∃ db' d', @createUser toy_sha256 (λ _, true) "random" "bob" "secret" [] (MkDatabase "" ∅) ∅ = (true, db', d') ∧
    is_Some (getUserInfo "bob" db').
Proof.
  split; [done|]. pose proof (@createUser_spec toy_sha256 (λ _, true) "random" "bob" "secret" []
    (MkDatabase "" ∅) ∅ ltac:(done)) as Hc.
  destruct (createUser _ _ _ _ _ _ _) as [[[] db'] d'] eqn:E; [|vm_compute in E; discriminate].
  exists db', d'. split; [reflexivity|]. destruct Hc as (_ & _ & info & Hi & _). by exists info.
Defined.
