(* ===== verification/Sessions.v ===== *)
(** * Authenticated sessions: class [SessionManager] of [core/auth.cpp], lines 507-640

    Times are nanoseconds of the system clock, timeouts are seconds.  The mutex
    makes every operation one step; an operation that reads the clock or draws
    random bytes takes them as arguments. *)
From S2P Require Import Prelude CppString.
Open Scope Z_scope.

Record SessionInfo := MkSession {
  session_id : string;
  username : string;
  client_address : string;
  created_at : Z;
  last_activity : Z;
  timeout : Z;
  active : bool
}.

Record SessionManager := MkManager {
  default_timeout_ : Z;
  sessions_ : gmap string SessionInfo
}.

Definition new_manager (default_timeout : Z) : SessionManager := MkManager default_timeout ∅.

Definition with_sessions (s : gmap string SessionInfo) (m : SessionManager) : SessionManager :=
  MkManager (default_timeout_ m) s.

Definition generateSessionId (random : string) : string := to_hex random.

(** [duration_cast<seconds>] rounds towards zero. *)
Definition elapsed_seconds (now since : Z) : Z := (now - since) ÷ 1000000000.

Definition createSession (now : Z) (random user address : string) (requested : Z) (m : SessionManager)
    : string * SessionManager :=
  let timeout := if requested =? 0 then default_timeout_ m else requested in
  let id := generateSessionId random in
  (id, with_sessions (<[id := MkSession id user address now now timeout true]> (sessions_ m)) m).

Definition getSession (id : string) (m : SessionManager) : option SessionInfo := sessions_ m !! id.

Definition touch (now : Z) (s : SessionInfo) : SessionInfo :=
  MkSession (session_id s) (username s) (client_address s) (created_at s) now (timeout s) (active s).

Definition updateActivity (now : Z) (id : string) (m : SessionManager) : bool * SessionManager :=
  match sessions_ m !! id with
  | None => (false, m)
  | Some s => (true, with_sessions (<[id := touch now s]> (sessions_ m)) m)
  end.

Definition isValidSession (now : Z) (id : string) (m : SessionManager) : bool :=
  match sessions_ m !! id with
  | None => false
  | Some s =>
      if negb (active s) then false
      else if elapsed_seconds now (last_activity s) >? timeout s then false else true
  end.

Definition deleteSession (id : string) (m : SessionManager) : bool * SessionManager :=
  match sessions_ m !! id with
  | None => (false, m)
  | Some _ => (true, with_sessions (delete id (sessions_ m)) m)
  end.

Definition expired (now : Z) (s : SessionInfo) : bool :=
  (elapsed_seconds now (last_activity s) >? timeout s) || negb (active s).

(** The iteration that erases while it goes over the map. *)
Definition cleanup_step (now : Z) (acc : gmap string SessionInfo * Z) (e : string * SessionInfo)
    : gmap string SessionInfo * Z :=
  if expired now e.2 then (delete e.1 acc.1, acc.2 + 1) else acc.

Definition cleanupExpiredSessions (now : Z) (m : SessionManager) : Z * SessionManager :=
  let '(kept, cleaned) := foldl (cleanup_step now) (sessions_ m, 0) (map_entries (sessions_ m)) in
  (cleaned, with_sessions kept m).

Definition getActiveSessions (now : Z) (m : SessionManager) : list string :=
  (List.filter (λ e, active (snd e) && (elapsed_seconds now (last_activity (snd e)) <=? timeout (snd e)))
    (map_entries (sessions_ m))).*1.

Definition getSessionCount (m : SessionManager) : Z := Z.of_nat (size (sessions_ m)).

(** ** Histories *)

(** A call of the manager, with the clock reading or random bytes it gets. *)
Inductive call :=
  | Create (now : Z) (random user address : string) (requested : Z)
  | Update (now : Z) (id : string)
  | Delete (id : string)
  | Cleanup (now : Z).

Definition exec (m : SessionManager) (c : call) : SessionManager :=
  match c with
  | Create now random user address requested => snd (createSession now random user address requested m)
  | Update now id => snd (updateActivity now id m)
  | Delete id => snd (deleteSession id m)
  | Cleanup now => snd (cleanupExpiredSessions now m)
  end.

Inductive reachable (default_timeout : Z) : SessionManager → Prop :=
  | reach_new : reachable default_timeout (new_manager default_timeout)
  | reach_call m c : reachable default_timeout m → reachable default_timeout (exec m c).

(** What every session of the map satisfies: it is filed under its own id, it
    is active, and it holds what some [createSession] put there. *)
Definition session_ok (default_timeout : Z) (id : string) (s : SessionInfo) : Prop :=
  session_id s = id ∧ active s = true ∧
  ∃ random requested, id = generateSessionId random ∧
    timeout s = if requested =? 0 then default_timeout else requested.

(** ** Lemmas *)
Lemma list_to_map_cons (k : string) (s : SessionInfo) l id :
  (list_to_map ((k, s) :: l) : gmap string SessionInfo) !! id =
  if decide (id = k) then Some s else (list_to_map l : gmap string SessionInfo) !! id.
Proof.
  change (list_to_map ((k, s) :: l)) with (<[k:=s]> (list_to_map l : gmap string SessionInfo)).
  case_decide; subst; by simplify_map_eq.
Qed.

Lemma cleanup_fold now l acc n :
  NoDup l.*1 → (∀ e, e ∈ l → acc !! e.1 = Some e.2) →
  let r := foldl (cleanup_step now) (acc, n) l in
  (∀ id, r.1 !! id = match (list_to_map l : gmap string SessionInfo) !! id with
                     | Some s => if expired now s then None else acc !! id
                     | None => acc !! id
                     end) ∧
  Z.of_nat (size r.1) + r.2 = Z.of_nat (size acc) + n.
Proof.
  revert acc n; induction l as [|[k s] l IH]; intros acc n Hnd Hacc; cbv zeta; cbn [foldl].
  { by split. }
  cbn [fmap list_fmap fst] in Hnd. apply NoDup_cons in Hnd as [Hk Hnd].
  apply not_elem_of_list_to_map_1 in Hk as Hk'.
  assert (acc !! k = Some s) as Hks by (apply (Hacc (k, s)); left).
  unfold cleanup_step at 2 4 6. cbn [fst snd]. destruct (expired now s) eqn:Ex.
  - destruct (IH (delete k acc) (n + 1) Hnd) as [IH1 IH2].
    { intros e He. rewrite lookup_delete_ne; [apply Hacc; by right|].
      intros ->. destruct Hk. apply list_elem_of_fmap. by exists e. }
    assert (is_Some (acc !! k)) as Hsome by eauto.
    split; [|rewrite IH2, (map_size_delete_Some _ _ Hsome);
             apply map_size_ne_0_lookup_2 in Hsome; lia].
    intros id. rewrite IH1, list_to_map_cons. case_decide as Hid; [subst id|].
    + by rewrite Hk', lookup_delete_eq, Ex.
    + by rewrite lookup_delete_ne by done.
  - destruct (IH acc n Hnd) as [IH1 IH2]; [intros e He; apply Hacc; by right|].
    split; [|done]. intros id. rewrite IH1, list_to_map_cons.
    case_decide as Hid; [subst id|done]. by rewrite Hk', Ex.
Qed.

Lemma cleanup_spec now m :
  let '(n, m') := cleanupExpiredSessions now m in
  (∀ id, sessions_ m' !! id = match sessions_ m !! id with
                              | Some s => if expired now s then None else Some s
                              | None => None
                              end) ∧
  n = getSessionCount m - getSessionCount m'.
Proof.
  unfold cleanupExpiredSessions, getSessionCount. destruct (foldl _ _ _) as [l n] eqn:E. cbn [sessions_ with_sessions].
  destruct (cleanup_fold now (map_entries (sessions_ m)) (sessions_ m) 0 (map_entries_NoDup _)) as [H1 H2].
  { intros [k s]. apply elem_of_map_entries. }
  rewrite E in H1, H2. cbn [fst snd] in H1, H2. split; [|lia].
  intros id. rewrite H1, list_to_map_entries. by destruct (sessions_ m !! id) as [s|].
Qed.

Lemma not_expired now s :
  expired now s = negb (active s && (elapsed_seconds now (last_activity s) <=? timeout s)).
Proof.
  unfold expired. rewrite Z.gtb_ltb, Z.ltb_antisym. by destruct (active s), (_ <=? _).
Qed.

Lemma valid_iff now id m :
  isValidSession now id m = true ↔ ∃ s, sessions_ m !! id = Some s ∧ expired now s = false.
Proof.
  unfold isValidSession, expired. destruct (sessions_ m !! id) as [s|]; [|split; [done|by intros (? & ? & _)]].
  split; [intros E; exists s; split; [done|]|intros (? & [= <-] & E)];
    by destruct (active s), (_ >? _).
Qed.

Lemma active_iff now id m : id ∈ getActiveSessions now m ↔ isValidSession now id m = true.
Proof.
  unfold getActiveSessions. rewrite valid_iff, list_elem_of_fmap. split.
  - intros ([k s] & -> & Hin). apply list_elem_of_In, filter_In in Hin as [Hin Hs].
    apply list_elem_of_In, elem_of_map_entries in Hin. exists s. split; [done|].
    rewrite not_expired. simpl in Hs. by rewrite Hs.
  - intros (s & Hs & He). exists (id, s). split; [done|]. apply list_elem_of_In, filter_In.
    rewrite <- list_elem_of_In, elem_of_map_entries. split; [done|].
    rewrite not_expired in He. by apply negb_false_iff in He.
Qed.

(** Cleanup removes exactly the sessions that are no longer valid: the
    others stay as they are, the ids that remain are those [getActiveSessions]
    listed, every one that remains is valid, and the result counts the removed. *)
Theorem cleanup_exact now m :
  let '(cleaned, m') := cleanupExpiredSessions now m in
  (∀ id, getSession id m' = if isValidSession now id m then getSession id m else None) ∧
  (∀ id, is_Some (getSession id m') ↔ id ∈ getActiveSessions now m) ∧
  (∀ id, isValidSession now id m' = isValidSession now id m) ∧
  cleaned = getSessionCount m - getSessionCount m'.
Proof.
  pose proof (cleanup_spec now m) as Hs. destruct (cleanupExpiredSessions now m) as [n m'].
  destruct Hs as [H ->].
  assert (∀ id, getSession id m' = if isValidSession now id m then getSession id m else None) as Hg.
  { intros id. unfold getSession. rewrite H. destruct (isValidSession now id m) eqn:V.
    - apply valid_iff in V as (s & -> & ->). done.
    - destruct (sessions_ m !! id) as [s|] eqn:E; [|done]. destruct (expired now s) eqn:Ex; [done|].
      assert (isValidSession now id m = true) as V' by (apply valid_iff; eauto). congruence. }
  split; [done|]. split; [|split; [|done]].
  - intros id. rewrite active_iff, Hg. destruct (isValidSession now id m) eqn:V; [|split; [by intros [? ?]|done]].
    apply valid_iff in V as (s & E & _). unfold getSession. by rewrite E.
  - intros id. unfold isValidSession. rewrite H. destruct (sessions_ m !! id) as [s|]; [|done].
    destruct (expired now s) eqn:Ex; [|done]. unfold expired in Ex.
    by destruct (active s), (_ >? _).
Qed.

Lemma elapsed_le now since t :
  since ≤ now → elapsed_seconds now since ≤ t ↔ now - since < (t + 1) * 1000000000.
Proof.
  intros H. unfold elapsed_seconds. rewrite Z.quot_div_nonneg by lia. split; intros Ht.
  - pose proof (Z.mod_pos_bound (now - since) 1000000000 ltac:(lia)).
    pose proof (Z.div_mod (now - since) 1000000000 ltac:(lia)). nia.
  - assert ((now - since) `div` 1000000000 < t + 1); [|lia]. apply Z.div_lt_upper_bound; lia.
Qed.

(** C30: Lifetime: from its creation on (or its last activity) a session is
    valid until its timeout has passed, and not after: seconds are truncated, so
    it dies when timeout plus one second have elapsed.  A timeout of zero is the
    default, and other sessions are not affected. *)
Theorem session_lifetime t0 random user address requested m t1 :
  t0 ≤ t1 →
  let '(id, m') := createSession t0 random user address requested m in
  let limit := if requested =? 0 then default_timeout_ m else requested in
  let m'' := snd (updateActivity t1 id m') in
  (∀ now, t0 ≤ now → isValidSession now id m' = true ↔ now < t0 + (limit + 1) * 1000000000) ∧
  (∀ now, t1 ≤ now → isValidSession now id m'' = true ↔ now < t1 + (limit + 1) * 1000000000) ∧
  (∃ s, getSession id m'' = Some s ∧ username s = user ∧ client_address s = address ∧
        created_at s = t0 ∧ last_activity s = t1) ∧
  (∀ other, other ≠ id → getSession other m'' = getSession other m).
Proof.
  intros Ht. unfold createSession. set (id := generateSessionId random). cbv zeta.
  unfold updateActivity, getSession. cbn [sessions_ with_sessions]. rewrite lookup_insert_eq. cbn [snd sessions_ with_sessions].
  split; [|split; [|split]].
  - intros now Hn. rewrite valid_iff. cbn [sessions_ with_sessions]. rewrite lookup_insert_eq.
    setoid_rewrite not_expired. rewrite <- Z.lt_sub_lt_add_l, <- elapsed_le by done.
    rewrite <- Z.leb_le. split; [|intros E; eexists; split; [done|]; simpl; by rewrite E].
    intros (s & [= <-] & E). simpl in E. by apply negb_false_iff in E.
  - intros now Hn. rewrite valid_iff. cbn [sessions_ with_sessions]. rewrite lookup_insert_eq.
    setoid_rewrite not_expired. rewrite <- Z.lt_sub_lt_add_l, <- elapsed_le by done.
    rewrite <- Z.leb_le. split; [|intros E; eexists; split; [done|]; simpl; by rewrite E].
    intros (s & [= <-] & E). simpl in E. by apply negb_false_iff in E.
  - rewrite lookup_insert_eq. by eexists.
  - intros other Hne. by rewrite !lookup_insert_ne by done.
Qed.

Lemma exec_ok d m c :
  default_timeout_ m = d → map_Forall (session_ok d) (sessions_ m) →
  default_timeout_ (exec m c) = d ∧ map_Forall (session_ok d) (sessions_ (exec m c)).
Proof.
  intros Hd Hall. destruct c as [now random user address requested|now id|id|now]; cbn [exec].
  - split; [done|]. cbn. apply map_Forall_insert_2; [|done]. split; [done|]. split; [done|].
    exists random, requested. split; [done|]. cbn. by rewrite Hd.
  - unfold updateActivity. destruct (sessions_ m !! id) as [s|] eqn:E; [|done].
    split; [done|]. cbn. apply map_Forall_insert_2; [|done]. exact (Hall id s E).
  - unfold deleteSession. destruct (sessions_ m !! id) as [s|] eqn:E; [|done].
    split; [done|]. cbn. by apply map_Forall_delete.
  - pose proof (cleanup_spec now m) as Hs. unfold cleanupExpiredSessions in *.
    destruct (foldl _ _ _) as [kept n]. destruct Hs as [Hs _]. split; [done|].
    intros id s. cbn [snd]. rewrite Hs. destruct (sessions_ m !! id) as [s'|] eqn:E; [|done].
    destruct (expired now s'); [done|]. intros [= <-]. by apply Hall.
Qed.

(** Invariant of every history of calls: each session is filed under its
    own id, which is the hexadecimal text of drawn bytes, is active, and keeps
    the timeout it was created with. *)
Theorem reachable_sessions_ok d m :
  reachable d m → default_timeout_ m = d ∧ map_Forall (session_ok d) (sessions_ m).
Proof.
  induction 1 as [|m c _ [Hd Hall]]; [split; [done|apply map_Forall_empty]|]. by apply exec_ok.
Qed.

(** ** Witnesses *)
Lemma session_lifetime_witness :
  0 ≤ 5 ∧ ∀ now, 5 ≤ now →
    isValidSession now "72" (snd (updateActivity 5 "72" (snd (createSession 0 "r" "bob" "10.0.0.1" 0 (new_manager 60))))) = true
    ↔ now < 61000000005.
Proof.
  split; [lia|]. destruct (session_lifetime 0 "r" "bob" "10.0.0.1" 0 (new_manager 60) 5 ltac:(lia)) as (_ & H & _).
  exact H.
Defined.

Lemma reachable_sessions_ok_witness :
  let m := exec (exec (new_manager 60) (Create 0 "r" "bob" "10.0.0.1" 0)) (Cleanup 7) in
  reachable 60 m ∧ map_Forall (session_ok 60) (sessions_ m).
Proof.
  intros m. assert (reachable 60 m) as Hr by repeat constructor. split; [done|].
  by apply (reachable_sessions_ok 60 m).
Defined.
