(* ===== verification/PublicKeys.v ===== *)
(** * Public keys: classes [PublicKey] and [PublicKeyDatabase] of [core/auth.cpp],
    lines 642-919

    The disk is the one of [UserDatabase]; signatures are checked by [SshKey]. *)
From S2P Require Import Prelude CppString SshKey UserDatabase.
Open Scope Z_scope.

Record PublicKeyInfo := MkKey {
  key_type : string;
  key_data : string;
  comment : string;
  key_user : string
}.
#[export] Instance PublicKeyInfo_eq : EqDecision PublicKeyInfo.
Proof. solve_decision. Defined.

(** ** PublicKey *)

(** [stream >> word]: the next word and what is left of the stream. *)
Fixpoint split_word (s : string) : string * string :=
  match s with
  | "" => ("", "")
  | String c s' => if isspace c then ("", s)
                   else let '(w, r) := split_word s' in (String c w, r)
  end.

Definition next_word (s : string) : option (string * string) :=
  match skip_spaces s with
  | "" => None
  | s => Some (split_word s)
  end.

Definition isSupportedKeyType (t : string) : bool :=
  String.eqb t "ssh-rsa" || String.eqb t "ssh-dss" || starts_with "ecdsa-sha2-" t ||
  String.eqb t "ssh-ed25519".

Definition getSupportedKeyTypes : list string :=
  ["ssh-rsa"; "ssh-dss"; "ecdsa-sha2-nistp256"; "ecdsa-sha2-nistp384"; "ecdsa-sha2-nistp521"; "ssh-ed25519"].

(** The [username] of the result is empty; the callers set it. *)
Definition parse (key_string : string) : option PublicKeyInfo :=
  if is_empty key_string then None else
  match next_word key_string with
  | None => None
  | Some (type, s) =>
      match next_word s with
      | None => None
      | Some (data, s) =>
          let rest := from_option fst "" (getline newline s) in
          let comment := if is_empty rest then "" else substr_from 1 rest in
          if negb (isSupportedKeyType type) then None else Some (MkKey type data comment "")
      end
  end.

Definition set_user (user : string) (k : PublicKeyInfo) : PublicKeyInfo :=
  MkKey (key_type k) (key_data k) (comment k) user.

Definition verifyRSASignature `{OpenSSL} (key_data data signature : string) : bool :=
  verify "ssh-rsa" key_data data signature.
Definition verifyECDSASignature `{OpenSSL} (key_data key_type data signature : string) : bool :=
  verify key_type key_data data signature.
Definition verifyEd25519Signature `{OpenSSL} (key_data data signature : string) : bool :=
  verify "ssh-ed25519" key_data data signature.

Definition key_verifySignature `{OpenSSL} (k : PublicKeyInfo) (data signature : string) : bool :=
  if String.eqb (key_type k) "ssh-rsa" then verifyRSASignature (key_data k) data signature
  else if starts_with "ecdsa-sha2-" (key_type k) then verifyECDSASignature (key_data k) (key_type k) data signature
  else if String.eqb (key_type k) "ssh-ed25519" then verifyEd25519Signature (key_data k) data signature
  else false.

(** ** PublicKeyDatabase *)
Record PublicKeyDatabase := MkKeys {
  key_file_ : string;
  keys_ : gmap string (list PublicKeyInfo);
  keys_loaded_ : bool
}.

Definition with_keys (keys : gmap string (list PublicKeyInfo)) (db : PublicKeyDatabase) : PublicKeyDatabase :=
  MkKeys (key_file_ db) keys (keys_loaded_ db).

(** The loop of [extractKeyLine]: the first type that occurs anywhere cuts. *)
Fixpoint extract_from (types : list string) (line : string) : string :=
  match types with
  | [] => line
  | t :: types => match find_str t line with
                  | Some pos => substr_from pos line
                  | None => extract_from types line
                  end
  end.
Definition extractKeyLine (line : string) : string := extract_from getSupportedKeyTypes line.

Definition usernameFromComment (comment : string) : string :=
  if is_empty comment then "" else
  match find_char "@" comment with
  | Some at_pos => substr 0 at_pos comment
  | None => comment
  end.

(** [colon != npos && colon < line.find("ssh-")], where [npos] is the largest
    position. *)
Definition colon_before_key (line : string) : option nat :=
  match find_char ":" line, find_str "ssh-" line with
  | Some colon, Some key => if bool_decide (colon < key)%nat then Some colon else None
  | Some colon, None => Some colon
  | None, _ => None
  end.

(** The key of one line of the file, with its user set; [None] is [continue]. *)
Definition parse_key_line (line : string) : option PublicKeyInfo :=
  match line with
  | "" => None
  | String c _ =>
      if bool_decide (c = "#"%char) then None else
      let line := trim line in
      if is_empty line then None else
      let '(user, key_line) :=
        match colon_before_key line with
        | Some colon => (substr 0 colon line, ltrim (substr_from (S colon) line))
        | None => ("", line)
        end in
      match parse (extractKeyLine key_line) with
      | None => None
      | Some k =>
          let user := if is_empty user then usernameFromComment (comment k) else user in
          if is_empty user then None else Some (set_user user k)
      end
  end.

(** [keys_[username].push_back(key)] *)
Definition push_key (keys : gmap string (list PublicKeyInfo)) (k : PublicKeyInfo)
    : gmap string (list PublicKeyInfo) :=
  <[key_user k := default [] (keys !! key_user k) ++ [k]]> keys.

Definition load_keys (contents : string) : gmap string (list PublicKeyInfo) :=
  foldl push_key ∅ (omap parse_key_line (getlines newline contents)).

Definition load (db : PublicKeyDatabase) (d : disk) : bool * PublicKeyDatabase :=
  if is_empty (key_file_ db) then (false, db) else
  match d !! key_file_ db with
  | None => (false, with_keys ∅ db)
  | Some contents => (true, MkKeys (key_file_ db) (load_keys contents) true)
  end.

Definition new_key_database (file : string) (d : disk) : PublicKeyDatabase :=
  let db := MkKeys file ∅ false in
  if negb (is_empty file) then snd (load db d) else db.

(** A key as [save] writes it, after the user name. *)
Definition key_text (k : PublicKeyInfo) : string :=
  key_type k +:+ " " +:+ key_data k +:+
  (if is_empty (comment k) then "" else " " +:+ comment k).

Definition key_line (user : string) (k : PublicKeyInfo) : string :=
  user +:+ ": " +:+ key_text k.

Definition keys_header : string :=
  "# Public key database" +:+ nl +:+ "# Format: username: key-type key-data [comment]" +:+ nl.

Definition keys_text (keys : gmap string (list PublicKeyInfo)) : string :=
  keys_header +:+
  foldr (λ e s, foldr (λ k s, key_line e.1 k +:+ nl +:+ s) s e.2) "" (map_entries keys).

Definition save (writable : string → bool) (db : PublicKeyDatabase) (d : disk) : bool * disk :=
  if is_empty (key_file_ db) then (false, d)
  else if negb (writable (key_file_ db)) then (false, d)
  else (true, <[key_file_ db := keys_text (keys_ db)]> d).

(** The end of [addKey] and [removeKey]: save if there is a file. *)
Definition save_result (writable : string → bool) (db : PublicKeyDatabase) (d : disk)
    : bool * PublicKeyDatabase * disk :=
  if negb (is_empty (key_file_ db)) then
    let '(ok, d) := save writable db d in (ok, db, d)
  else (true, db, d).

Definition addKey (writable : string → bool) (user key_string : string)
    (db : PublicKeyDatabase) (d : disk) : bool * PublicKeyDatabase * disk :=
  match parse key_string with
  | None => (false, db, d)
  | Some k => save_result writable (with_keys (push_key (keys_ db) (set_user user k)) db) d
  end.

Definition removeKey (writable : string → bool) (user data : string)
    (db : PublicKeyDatabase) (d : disk) : bool * PublicKeyDatabase * disk :=
  match keys_ db !! user with
  | None => (false, db, d)
  | Some user_keys =>
      let user_keys := List.filter (λ k, negb (String.eqb (key_data k) data)) user_keys in
      let keys := match user_keys with
                  | [] => delete user (keys_ db)
                  | _ => <[user := user_keys]> (keys_ db)
                  end in
      save_result writable (with_keys keys db) d
  end.

Definition getUserKeys (user : string) (db : PublicKeyDatabase) : list PublicKeyInfo :=
  default [] (keys_ db !! user).
Definition userHasKeys (user : string) (db : PublicKeyDatabase) : bool :=
  match keys_ db !! user with Some (_ :: _) => true | _ => false end.
Definition getKeyUsers (db : PublicKeyDatabase) : list string := (map_entries (keys_ db)).*1.

Definition verifySignature `{OpenSSL} (user data signature : string) (db : PublicKeyDatabase) : bool :=
  match keys_ db !! user with
  | None => false
  | Some keys => existsb (λ k, key_verifySignature k data signature) keys
  end.

Definition reload (db : PublicKeyDatabase) (d : disk) : bool * PublicKeyDatabase := load db d.

(** ** Specification: what a key file can carry *)

(** No key-type name occurs in the text of the key but at its start. *)
Definition types_only_at_start (text : string) : Prop :=
  ∀ t, t ∈ getSupportedKeyTypes → find_str t text = None ∨ find_str t text = Some 0%nat.

Record storable (user : string) (k : PublicKeyInfo) : Prop := {
  st_user : key_user k = user;
  st_name : ∃ c s, user = String c s ∧ c ≠ "#"%char ∧ isblank c = false;
  st_name_chars : no_char ":" user = true ∧ no_char newline user = true ∧ contains "ssh-" user = false;
  st_type : isSupportedKeyType (key_type k) = true ∧ is_word (key_type k) = true;
  st_data : is_word (key_data k) = true;
  st_comment : no_char newline (comment k) = true ∧ rtrim (comment k) = comment k;
  st_types : types_only_at_start (key_text k)
}.

(** ** Lemmas: words of a stream *)
Definition stops (s : string) : Prop :=
  match s with "" => True | String c _ => isspace c = true end.

Lemma is_word_cons c w : is_word (String c w) = true → isspace c = false ∧ no_space w = true.
Proof. intros H. apply andb_true_iff in H as [_ H]. by apply no_space_cons in H. Qed.

Lemma split_word_app w s : no_space w = true → stops s → split_word (w +:+ s) = (w, s).
Proof.
  intros Hw Hs. induction w as [|c w IH].
  - rewrite app_nil_l_str. destruct s as [|c s]; [done|]. simpl in *. by rewrite Hs.
  - apply no_space_cons in Hw as [Hc Hw]. rewrite app_cons_str. simpl. by rewrite Hc, IH.
Qed.

Lemma next_word_app w s : is_word w = true → stops s → next_word (w +:+ s) = Some (w, s).
Proof.
  destruct w as [|c w]; [done|]. intros Hw Hs. destruct (is_word_cons c w Hw) as [Hc Hn].
  unfold next_word. rewrite app_cons_str. cbn [skip_spaces]. rewrite Hc.
  cbn [split_word]. by rewrite Hc, split_word_app.
Qed.

Lemma next_word_space w s : is_word w = true → stops s → next_word (" " +:+ w +:+ s) = Some (w, s).
Proof. intros Hw Hs. by rewrite <- (next_word_app w s). Qed.

Lemma no_space_blank s : no_space s = true → no_blank s = true.
Proof.
  apply forallb_impl_str. intros c. rewrite !negb_true_iff. unfold isspace, isblank. intros H.
  bool_hyps. lia.
Qed.

(** ** Lemmas: searching across a separator *)
Lemma starts_with_sep pat a x b :
  no_char x pat = true → starts_with pat (a +:+ String x b) = starts_with pat a.
Proof.
  revert a; induction pat as [|p pat IH]; intros a H; [by destruct a|].
  apply no_char_cons in H as [Hp H]. destruct a as [|c a].
  - rewrite app_nil_l_str. simpl. by rewrite bool_decide_eq_false_2 by done.
  - rewrite app_cons_str. simpl. by rewrite IH.
Qed.

Lemma find_str_sep pat a x b p :
  no_char x pat = true → pat ≠ "" → contains pat a = false →
  find_str pat (a +:+ String x b) = Some p → (String.length a < p)%nat.
Proof.
  intros Hx Hne. revert p. induction a as [|c a IH]; intros p Ha.
  - rewrite app_nil_l_str. simpl. destruct pat as [|d pat]; [done|].
    apply no_char_cons in Hx as [Hd _]. simpl. rewrite bool_decide_eq_false_2 by done. simpl.
    intros (q & _ & ->)%fmap_Some. lia.
  - unfold contains in Ha. apply bool_decide_eq_false in Ha. cbn [find_str] in Ha.
    rewrite app_cons_str. cbn [find_str]. rewrite <- app_cons_str, starts_with_sep by done.
    destruct (starts_with pat (String c a)); [destruct Ha; by eexists|].
    intros (q & Hq & ->)%fmap_Some. cbn [String.length]. apply (IH q) in Hq; [lia|].
    apply bool_decide_eq_false. intros [r Hr]. destruct Ha. rewrite Hr. by eexists.
Qed.

(** ** Lemmas: a stored key is read back *)
Section stored_key.
Context (user : string) (k : PublicKeyInfo) (Hk : storable user k).

Lemma text_head : ∃ c s, key_text k = String c s ∧ isspace c = false.
Proof.
  destruct (st_type _ _ Hk) as [_ Hw]. unfold key_text. destruct (key_type k) as [|c t]; [done|].
  apply is_word_cons in Hw as [Hc _]. rewrite app_cons_str. eauto.
Qed.

Lemma text_rtrim : rtrim (key_text k) = key_text k ∧ key_text k ≠ "".
Proof.
  split; [|destruct text_head as (c & s & -> & _); done].
  unfold key_text. destruct (is_empty (comment k)) eqn:E.
  - rewrite app_nil_str. rewrite <- app_assoc_str. apply rtrim_app.
    + apply rtrim_no_blank, no_space_blank. pose proof (st_data _ _ Hk) as Hd.
      by apply andb_true_iff in Hd as [_ ?].
    + intros Hd. pose proof (st_data _ _ Hk) as Hw. by rewrite Hd in Hw.
  - rewrite <- !app_assoc_str. apply rtrim_app; [apply (st_comment _ _ Hk)|].
    by apply is_empty_false.
Qed.

Lemma text_extract : extractKeyLine (key_text k) = key_text k.
Proof.
  pose proof (st_types _ _ Hk) as H. unfold extractKeyLine. revert H. unfold types_only_at_start.
  induction getSupportedKeyTypes as [|t ts IH]; intros H; [done|]. cbn [extract_from].
  destruct (H t) as [-> | ->]; [by left| |apply drop_0]. apply IH. intros u Hu. apply H. by right.
Qed.

Lemma text_parse : parse (key_text k) = Some (set_user "" k).
Proof.
  unfold parse. destruct text_rtrim as [_ ->%is_empty_false].
  destruct (st_type _ _ Hk) as [Hs Hw]. pose proof (st_data _ _ Hk) as Hd.
  destruct (st_comment _ _ Hk) as [Hc _]. unfold key_text. rewrite next_word_app by done.
  destruct (is_empty (comment k)) eqn:E.
  - rewrite next_word_space by done. cbn. rewrite Hs. cbn [negb]. unfold set_user.
    apply is_empty_true in E. by rewrite E.
  - rewrite next_word_space by done.
    assert (getline newline (" " +:+ comment k) = Some (" " +:+ comment k, "")) as ->.
    { pose proof (getlines_getline newline (" " +:+ comment k)) as Hg.
      rewrite getlines_last in Hg; [|by apply no_char_app|done].
      destruct (getline newline _) as [[l r]|]; [|done]. injection Hg as <- Hr. destruct r; [done|].
      rewrite getlines_getline in Hr. unfold getline in Hr. by destruct (split_at _ _). }
    cbn [from_option fst is_empty]. rewrite Hs. cbn [negb].
    rewrite app_cons_str, app_nil_l_str. by destruct k.
Qed.

Lemma key_line_read : parse_key_line (key_line user k) = Some k.
Proof.
  destruct text_rtrim as [Hr Hne]. destruct text_head as (h & t & Et & Hh).
  pose proof text_extract as Hx. pose proof text_parse as Hp. pose proof (st_user _ _ Hk) as Hu.
  destruct (st_name_chars _ _ Hk) as (Hcolon & _ & Hssh).
  destruct (st_name _ _ Hk) as (c & s & -> & Hc & Hb).
  unfold parse_key_line, key_line. rewrite app_cons_str at 1. rewrite bool_decide_eq_false_2 by done.
  assert (trim (String c s +:+ ": " +:+ key_text k) = String c s +:+ ": " +:+ key_text k) as ->.
  { unfold trim. rewrite app_cons_str at 1. cbn [ltrim]. rewrite Hb, <- app_cons_str.
    rewrite <- app_assoc_str. by apply rtrim_app. }
  cbn [is_empty String.app]. rewrite !app_cons_str, app_nil_l_str, <- app_cons_str.
  assert (colon_before_key (String c s +:+ String ":" (String " " (key_text k))) =
          Some (String.length (String c s))) as ->.
  { unfold colon_before_key. rewrite find_char_app by done. destruct (find_str _ _) as [q|] eqn:E; [|done].
    apply find_str_sep in E; [|done..]. by rewrite bool_decide_eq_true_2. }
  unfold substr, substr_from. rewrite drop_0, take_app_str, drop_S_app_str.
  cbn [ltrim]. change (isblank " ") with true. cbv iota.
  assert (ltrim (key_text k) = key_text k) as ->.
  { rewrite Et. cbn [ltrim]. assert (isblank h = false) as ->; [|done].
    revert Hh. unfold isspace, isblank. intros. bool_hyps. lia. }
  rewrite Hx, Hp. cbn [is_empty]. f_equal. destruct k. unfold set_user. simpl in *. by subst.
Qed.

Lemma key_line_no_newline : no_char newline (key_line user k) = true.
Proof.
  destruct (st_name_chars _ _ Hk) as (_ & Hn & _). destruct (st_type _ _ Hk) as [_ Ht].
  destruct (st_comment _ _ Hk) as [Hc _]. pose proof (st_data _ _ Hk) as Hd.
  assert (∀ w, is_word w = true → no_char newline w = true) as Hw.
  { intros w [_ H]%andb_true_iff. revert H. apply forallb_impl_str. intros c H.
    apply negb_true_iff, bool_decide_eq_false. by intros ->. }
  unfold key_line, key_text. repeat (apply no_char_app; split); auto.
  destruct (is_empty (comment k)); [done|]. by apply no_char_app.
Qed.
End stored_key.

(** ** Lemmas: the whole file *)
Definition storable_keys (user : string) (ks : list PublicKeyInfo) : Prop :=
  ks ≠ [] ∧ Forall (storable user) ks.

Definition keys_of (user : string) (ks : list PublicKeyInfo) : list PublicKeyInfo :=
  filter (λ k, key_user k = user) ks.

Lemma fold_push user acc ks :
  foldl push_key acc ks !! user =
  match keys_of user ks with
  | [] => acc !! user
  | more => Some (default [] (acc !! user) ++ more)
  end.
Proof.
  revert acc; induction ks as [|k ks IH]; intros acc; [done|]. cbn [foldl]. rewrite IH.
  unfold keys_of at 2. rewrite filter_cons. fold (keys_of user ks). unfold push_key.
  case_decide as Hu.
  - rewrite Hu, lookup_insert_eq. destruct (keys_of user ks); [done|]. simpl. by rewrite <- app_assoc.
  - rewrite lookup_insert_ne by done. done.
Qed.

Lemma lines_read user ks rest :
  Forall (storable user) ks →
  omap parse_key_line (getlines newline (foldr (λ k s, key_line user k +:+ nl +:+ s) rest ks)) =
  ks ++ omap parse_key_line (getlines newline rest).
Proof.
  induction 1 as [|k ks Hk _ IH]; [done|]. cbn [foldr].
  rewrite load_text_app by (by apply key_line_no_newline). cbn [omap list_omap].
  rewrite (key_line_read user k Hk). cbn [app]. by rewrite <- IH.
Qed.

Lemma file_read l :
  Forall (λ e, storable_keys e.1 e.2) l →
  omap parse_key_line (getlines newline
    (foldr (λ e s, foldr (λ k s, key_line e.1 k +:+ nl +:+ s) s e.2) "" l)) = concat l.*2.
Proof.
  induction 1 as [|[u ks] l [_ Hks] _ IH]; [done|]. cbn [foldr fst snd fmap list_fmap concat].
  by rewrite lines_read, IH.
Qed.

Lemma keys_of_user user ks : Forall (storable user) ks → keys_of user ks = ks.
Proof.
  induction 1 as [|k ks Hk _ IH]; [done|]. unfold keys_of. rewrite filter_cons_True by apply (st_user _ _ Hk).
  by f_equal.
Qed.

Lemma keys_of_other user other ks : Forall (storable other) ks → user ≠ other → keys_of user ks = [].
Proof.
  induction 1 as [|k ks Hk _ IH]; intros Hne; [done|]. unfold keys_of.
  rewrite filter_cons_False by (rewrite (st_user _ _ Hk); congruence). by apply IH.
Qed.

Lemma keys_of_concat user l :
  Forall (λ e, storable_keys e.1 e.2) l → NoDup l.*1 →
  keys_of user (concat l.*2) = default [] ((list_to_map l : gmap string (list PublicKeyInfo)) !! user).
Proof.
  induction 1 as [|[u ks] l [_ Hks] _ IH]; intros Hnd; [done|]. cbn [fmap list_fmap fst snd concat] in *.
  apply NoDup_cons in Hnd as [Hu Hnd].
  change (list_to_map ((u, ks) :: l)) with (<[u:=ks]> (list_to_map l : gmap string (list PublicKeyInfo))).
  unfold keys_of. rewrite filter_app. fold (keys_of user ks) (keys_of user (concat l.*2)).
  rewrite IH by done. destruct (decide (user = u)) as [->|Hne].
  - rewrite lookup_insert_eq, keys_of_user by done. apply not_elem_of_list_to_map_1 in Hu. rewrite Hu. apply app_nil_r.
  - by rewrite lookup_insert_ne, (keys_of_other user u) by done.
Qed.

Lemma load_keys_text keys : map_Forall storable_keys keys → load_keys (keys_text keys) = keys.
Proof.
  intros Hall. unfold load_keys, keys_text, keys_header.
  rewrite !app_assoc_str, !load_text_app by (vm_compute; reflexivity). cbn [omap list_omap].
  change (parse_key_line "# Public key database") with (@None PublicKeyInfo).
  change (parse_key_line "# Format: username: key-type key-data [comment]") with (@None PublicKeyInfo).
  assert (Forall (λ e, storable_keys e.1 e.2) (map_entries keys)) as Hf.
  { apply Forall_forall. intros [u ks] Hin%elem_of_map_entries. by apply Hall. }
  rewrite file_read by done. apply map_eq. intros user.
  rewrite fold_push, keys_of_concat, list_to_map_entries by (done || apply map_entries_NoDup).
  destruct (keys !! user) as [ks|] eqn:E; [|done]. destruct (Hall user ks E) as [Hne _].
  cbn. by destruct ks.
Qed.

(** C35: Round trip: a public-key database saved to its file and loaded again
    is the same map of users to keys, in the same order, as long as names and
    comments fit the line format and no key text mentions a key type after its
    start. *)
Theorem keys_save_load writable db d :
  key_file_ db ≠ "" → writable (key_file_ db) = true → map_Forall storable_keys (keys_ db) →
  load db (snd (save writable db d)) = (true, MkKeys (key_file_ db) (keys_ db) true).
Proof.
  intros Hf%is_empty_false Hw Hall. unfold save, load. rewrite Hf, Hw. cbn [negb snd].
  by rewrite lookup_insert_eq, load_keys_text.
Qed.

(** [removeKey] removes all keys of the user with the given data and no
    other key, of that user or another, and forgets a user without keys; it
    fails without effect for an unknown user. *)
Theorem removeKey_spec writable user data db d :
  let '(ok, db', d') := removeKey writable user data db d in
  (keys_ db !! user = None → ok = false ∧ db' = db ∧ d' = d) ∧
  (∀ other k, k ∈ getUserKeys other db' ↔
     k ∈ getUserKeys other db ∧ ¬ (other = user ∧ key_data k = data)) ∧
  (is_Some (keys_ db !! user) → userHasKeys user db' = false → keys_ db' !! user = None).
Proof.
  unfold removeKey. destruct (keys_ db !! user) as [ks|] eqn:E.
  2:{ split; [done|]. split; [|by intros [? ?]]. intros other k. split; [|by intros []].
      intros H. split; [done|]. intros [-> _]. unfold getUserKeys in H. rewrite E in H.
      by apply elem_of_nil in H. }
  set (ks' := List.filter _ ks). cbv zeta.
  assert (∀ k, k ∈ ks' ↔ k ∈ ks ∧ key_data k ≠ data) as Hks.
  { intros k. unfold ks'. rewrite !list_elem_of_In, filter_In, negb_true_iff, String.eqb_neq. done. }
  set (keys := match ks' with [] => delete user (keys_ db) | _ => <[user:=ks']> (keys_ db) end).
  assert (∀ other, keys !! other = if decide (other = user) then match ks' with [] => None | l => Some l end
                                   else keys_ db !! other) as Hkeys.
  { intros other. unfold keys. case_decide; subst; destruct ks'; by simplify_map_eq. }
  assert (let '(_, db', _) := save_result writable (with_keys keys db) d in keys_ db' = keys) as Hdb.
  { unfold save_result. destruct (negb _); [|done]. by destruct (save _ _ _). }
  destruct (save_result _ _ _) as [[ok db'] d']. clearbody keys. subst keys. split; [done|]. split.
  - intros other k. unfold getUserKeys. rewrite Hkeys. case_decide as Ho; [subst other|].
    + rewrite E. assert (default [] (match ks' with [] => None | l => Some l end) = ks') as ->
        by (by destruct ks'). cbn [default]. rewrite Hks. tauto.
    + tauto.
  - intros _. unfold userHasKeys. rewrite Hkeys, decide_True by done. by destruct ks'.
Qed.

(** A signature is accepted for a user only if one of the user's own keys
    verifies it, under that key's own type; a [ssh-dss] key, although supported
    by [parse], never verifies anything. *)
Theorem verifySignature_iff `{OpenSSL} user data signature db :
  verifySignature user data signature db = true ↔
  ∃ k, k ∈ getUserKeys user db ∧ key_type k ≠ "ssh-dss" ∧ isSupportedKeyType (key_type k) = true ∧
       verify (key_type k) (key_data k) data signature = true.
Proof.
  unfold verifySignature, getUserKeys. assert (∀ k, key_verifySignature k data signature = true ↔
    key_type k ≠ "ssh-dss" ∧ isSupportedKeyType (key_type k) = true ∧
    verify (key_type k) (key_data k) data signature = true) as Hk.
  { intros k. unfold key_verifySignature, isSupportedKeyType, verifyRSASignature, verifyECDSASignature, verifyEd25519Signature.
    destruct (String.eqb_spec (key_type k) "ssh-rsa") as [->|N1]; [naive_solver|].
    destruct (starts_with "ecdsa-sha2-" (key_type k)) eqn:N2.
    { split; [intros Hv|by intros (_ & _ & ?)]. split; [by intros E; rewrite E in N2|].
      by rewrite orb_true_r. }
    destruct (String.eqb_spec (key_type k) "ssh-ed25519") as [->|N3]; [naive_solver|].
    destruct (String.eqb_spec (key_type k) "ssh-dss"); simpl; naive_solver. }
  destruct (keys_ db !! user) as [ks|]; cbn [default].
  - rewrite existsb_In. split; intros (k & Hin & Hv); exists k; (split; [done|]); by apply Hk.
  - split; [done|]. by intros (k & Hin%elem_of_nil & _).
Qed.

(** ** Witnesses *)
Definition toy_keys : gmap string (list PublicKeyInfo) :=
  {["alice" := [MkKey "ssh-ed25519" "AAAAC3Nz" "alice@host work laptop" "alice";
                MkKey "ecdsa-sha2-nistp256" "AAAAE2Vj" "" "alice"]]}.

Lemma types_only_check text :
  forallb (λ t, match find_str t text with None | Some O => true | _ => false end)
    getSupportedKeyTypes = true → types_only_at_start text.
Proof.
  rewrite forallb_forall. intros H t Ht%list_elem_of_In%H. destruct (find_str t text) as [[]|]; auto; done.
Qed.

Lemma toy_keys_storable : map_Forall storable_keys toy_keys.
Proof.
  apply map_Forall_singleton. split; [done|].
  repeat (apply Forall_cons; split); [| |by constructor];
    (constructor; [done|by exists "a"%char, "lice"|done..|]; by apply types_only_check).
Qed.

Lemma keys_save_load_witness :
  load (MkKeys "keys" toy_keys false) (snd (save (λ _, true) (MkKeys "keys" toy_keys false) ∅)) =
  (true, MkKeys "keys" toy_keys true).
Proof. apply (keys_save_load (λ _, true) (MkKeys "keys" toy_keys false) ∅); [done|done|exact toy_keys_storable]. Defined.
