(* ===== verification/ConfigTypes.v ===== *)
(** * The configuration structures: [config/config.hpp], lines 42-199, and
    [ModuleConfig] of [core/module.hpp], lines 221-327

    Each record has the fields of the struct (with a prefix for the struct) and
    a [default_] value with its member initializers.  Durations are in the unit
    of their type. *)
From S2P Require Import Prelude CppString Passwords.
Open Scope Z_scope.

Record SSLConfig := MkSSL {
  ssl_enabled : bool;
  certificate_file : string;
  private_key_file : string;
  ca_file : string;
  cipher_suite : string;
  require_client_cert : bool;
  tls_version : string;
  verify_peer : bool
}.
Definition default_ssl : SSLConfig := MkSSL false "" "" "" "" false "1.2" true.

Record AuthConfig := MkAuth {
  auth_enabled : bool;
  method : string;
  realm : string;
  password_file : string;
  public_key_file : string;
  oauth2_config_file : string;
  anonymous_access : bool;
  allowed_users : list string;
  denied_users : list string;
  reject_plaintext_passwords : bool;
  password_policy : PasswordPolicy;
  session_timeout : Z;
  enable_session_management : bool
}.
Definition default_auth : AuthConfig :=
  MkAuth false "password" "simple-rsyncd" "" "" "" false [] [] false default_policy 3600 true.

Record AccessConfig := MkAccess {
  access_enabled : bool;
  allowed_hosts : list string;
  denied_hosts : list string;
  allowed_networks : list string;
  denied_networks : list string;
  reverse_dns_lookup : bool;
  access_log_file : string;
  access_log_format : string
}.
Definition default_access : AccessConfig := MkAccess false [] [] [] [] false "" "combined".

Record RateLimitConfig := MkRateLimit {
  rate_enabled : bool;
  max_connections_per_minute : Z;
  max_connections_per_hour : Z;
  max_bandwidth_per_connection : Z;
  max_bandwidth_total : Z;
  connection_timeout : Z;
  idle_timeout : Z
}.
Definition default_rate_limit : RateLimitConfig := MkRateLimit false 60 1000 0 0 300 60.

Record LogConfig := MkLog {
  level : string;
  log_file : string;
  format : string;
  console_output : bool;
  file_output : bool;
  syslog_output : bool;
  syslog_facility : string;
  max_file_size : Z;
  max_files : Z;
  compress_old_logs : bool
}.
Definition default_log : LogConfig :=
  MkLog "info" "" "{timestamp} [{level}] {message}" true false false "daemon" (10 * 1024 * 1024) 5 true.

Record NetworkConfig := MkNetwork {
  bind_address : string;
  bind_port : Z;
  backlog : Z;
  reuse_address : bool;
  keep_alive : bool;
  keep_alive_time : Z;
  keep_alive_interval : Z;
  keep_alive_probes : Z;
  max_connections : Z;
  worker_threads : Z
}.
Definition default_network : NetworkConfig := MkNetwork "0.0.0.0" 873 128 true true 7200 75 9 100 4.

Record SecurityConfig := MkSecurity {
  chroot_enabled : bool;
  chroot_directory : string;
  sec_user : string;
  sec_group : string;
  drop_privileges : bool;
  allowed_commands : list string;
  denied_commands : list string;
  restrict_to_module_path : bool;
  sec_allow_symlinks : bool;
  sec_allow_hardlinks : bool;
  allow_devices : bool;
  allow_sockets : bool;
  sec_umask : string
}.
Definition default_security : SecurityConfig :=
  MkSecurity false "" "" "" true [] [] true false false false false "022".

Record PerformanceConfig := MkPerformance {
  buffer_size : Z;
  max_memory_usage : Z;
  enable_compression : bool;
  compression_level : string;
  enable_checksum_verification : bool;
  checksum_algorithm : string;
  max_concurrent_transfers : Z;
  enable_pipelining : bool;
  pipeline_depth : Z
}.
Definition default_performance : PerformanceConfig :=
  MkPerformance (64 * 1024) (512 * 1024 * 1024) true "6" true "md5" 10 true 5.

Record MonitoringConfig := MkMonitoring {
  mon_enabled : bool;
  metrics_file : string;
  health_check_file : string;
  metrics_interval : Z;
  health_check_interval : Z;
  enable_prometheus_metrics : bool;
  prometheus_endpoint : string;
  prometheus_port : Z;
  prometheus_address : string
}.
Definition default_monitoring : MonitoringConfig :=
  MkMonitoring false "" "" 60 300 false "/metrics" 9090 "127.0.0.1".

(** ** ModuleConfig *)
Record ModuleConfig := MkModule {
  mod_name : string;
  mod_path : string;
  mod_comment : string;
  read_only : bool;
  list_ : bool;
  allow_delete : bool;
  overwrite : bool;
  exclude_patterns : list string;
  include_patterns : list string;
  environment_variables : gmap string string;
  pre_transfer_script : string;
  post_transfer_script : string;
  pre_delete_script : string;
  post_delete_script : string;
  pre_list_script : string;
  post_list_script : string;
  allow_symlinks : bool;
  allow_hardlinks : bool;
  custom_options : gmap string string
}.
Definition default_module : ModuleConfig :=
  MkModule "" "" "" false true false false [] [] ∅ "" "" "" "" "" "" false false ∅.

(** A pattern is a name, or a prefix and a suffix around its first star. *)
Definition matchesPattern (filename pattern : string) : bool :=
  if String.eqb pattern "*" then true
  else if String.eqb pattern filename then true
  else match find_char "*" pattern with
       | Some star_pos =>
           let prefix := substr 0 star_pos pattern in
           let suffix := substr_from (S star_pos) pattern in
           if bool_decide (String.length filename < String.length prefix + String.length suffix)%nat
           then false
           else String.eqb (substr 0 (String.length prefix) filename) prefix &&
                String.eqb (substr_from (String.length filename - String.length suffix) filename) suffix
       | None => false
       end.

Definition isExcluded (c : ModuleConfig) (filename : string) : bool :=
  existsb (matchesPattern filename) (exclude_patterns c).

Definition isIncluded (c : ModuleConfig) (filename : string) : bool :=
  match include_patterns c with
  | [] => true
  | patterns => existsb (matchesPattern filename) patterns
  end.

Definition getEnvironmentVariable (c : ModuleConfig) (name default_value : string) : string :=
  default default_value (environment_variables c !! name).

Definition getCustomOption (c : ModuleConfig) (name default_value : string) : string :=
  default default_value (custom_options c !! name).

(** ** The configuration object

    [errors_], [is_valid_] and [has_changed_] are its private state; [last_modified]
    is the modification time of the file it was loaded from. *)
Record Configuration := MkConfiguration {
  ssl : SSLConfig;
  auth : AuthConfig;
  access : AccessConfig;
  rate_limit : RateLimitConfig;
  log : LogConfig;
  network : NetworkConfig;
  security : SecurityConfig;
  performance : PerformanceConfig;
  monitoring : MonitoringConfig;
  modules : gmap string ModuleConfig;
  pid_file : string;
  state_file : string;
  config_file : string;
  working_directory : string;
  daemonize : bool;
  conf_user : string;
  conf_group : string;
  conf_umask : string;
  verbose : bool;
  debug : bool;
  version : string;
  config_file_path : string;
  last_modified : Z;
  auto_reload : bool;
  reload_interval : Z;
  errors_ : list string;
  is_valid_ : bool;
  has_changed_ : bool
}.

(** ** Field updates *)
Definition set_bind_address (x : string) (n : NetworkConfig) : NetworkConfig :=
  MkNetwork x (bind_port n) (backlog n) (reuse_address n) (keep_alive n) (keep_alive_time n)
    (keep_alive_interval n) (keep_alive_probes n) (max_connections n) (worker_threads n).
Definition set_bind_port (x : Z) (n : NetworkConfig) : NetworkConfig :=
  MkNetwork (bind_address n) x (backlog n) (reuse_address n) (keep_alive n) (keep_alive_time n)
    (keep_alive_interval n) (keep_alive_probes n) (max_connections n) (worker_threads n).
Definition set_max_connections (x : Z) (n : NetworkConfig) : NetworkConfig :=
  MkNetwork (bind_address n) (bind_port n) (backlog n) (reuse_address n) (keep_alive n) (keep_alive_time n)
    (keep_alive_interval n) (keep_alive_probes n) x (worker_threads n).
Definition set_backlog (x : Z) (n : NetworkConfig) : NetworkConfig :=
  MkNetwork (bind_address n) (bind_port n) x (reuse_address n) (keep_alive n) (keep_alive_time n)
    (keep_alive_interval n) (keep_alive_probes n) (max_connections n) (worker_threads n).
Definition set_worker_threads (x : Z) (n : NetworkConfig) : NetworkConfig :=
  MkNetwork (bind_address n) (bind_port n) (backlog n) (reuse_address n) (keep_alive n) (keep_alive_time n)
    (keep_alive_interval n) (keep_alive_probes n) (max_connections n) x.
Definition set_ssl_enabled (x : bool) (s : SSLConfig) : SSLConfig :=
  MkSSL x (certificate_file s) (private_key_file s) (ca_file s) (cipher_suite s) (require_client_cert s)
    (tls_version s) (verify_peer s).
Definition set_certificate_file (x : string) (s : SSLConfig) : SSLConfig :=
  MkSSL (ssl_enabled s) x (private_key_file s) (ca_file s) (cipher_suite s) (require_client_cert s)
    (tls_version s) (verify_peer s).
Definition set_private_key_file (x : string) (s : SSLConfig) : SSLConfig :=
  MkSSL (ssl_enabled s) (certificate_file s) x (ca_file s) (cipher_suite s) (require_client_cert s)
    (tls_version s) (verify_peer s).
Definition set_ca_file (x : string) (s : SSLConfig) : SSLConfig :=
  MkSSL (ssl_enabled s) (certificate_file s) (private_key_file s) x (cipher_suite s) (require_client_cert s)
    (tls_version s) (verify_peer s).
Definition set_auth_enabled (x : bool) (a : AuthConfig) : AuthConfig :=
  MkAuth x (method a) (realm a) (password_file a) (public_key_file a) (oauth2_config_file a)
    (anonymous_access a) (allowed_users a) (denied_users a) (reject_plaintext_passwords a) (password_policy
    a) (session_timeout a) (enable_session_management a).
Definition set_method (x : string) (a : AuthConfig) : AuthConfig :=
  MkAuth (auth_enabled a) x (realm a) (password_file a) (public_key_file a) (oauth2_config_file a)
    (anonymous_access a) (allowed_users a) (denied_users a) (reject_plaintext_passwords a) (password_policy
    a) (session_timeout a) (enable_session_management a).
Definition set_password_file (x : string) (a : AuthConfig) : AuthConfig :=
  MkAuth (auth_enabled a) (method a) (realm a) x (public_key_file a) (oauth2_config_file a)
    (anonymous_access a) (allowed_users a) (denied_users a) (reject_plaintext_passwords a) (password_policy
    a) (session_timeout a) (enable_session_management a).
Definition set_public_key_file (x : string) (a : AuthConfig) : AuthConfig :=
  MkAuth (auth_enabled a) (method a) (realm a) (password_file a) x (oauth2_config_file a) (anonymous_access
    a) (allowed_users a) (denied_users a) (reject_plaintext_passwords a) (password_policy a)
    (session_timeout a) (enable_session_management a).
Definition set_realm (x : string) (a : AuthConfig) : AuthConfig :=
  MkAuth (auth_enabled a) (method a) x (password_file a) (public_key_file a) (oauth2_config_file a)
    (anonymous_access a) (allowed_users a) (denied_users a) (reject_plaintext_passwords a) (password_policy
    a) (session_timeout a) (enable_session_management a).
Definition set_anonymous_access (x : bool) (a : AuthConfig) : AuthConfig :=
  MkAuth (auth_enabled a) (method a) (realm a) (password_file a) (public_key_file a) (oauth2_config_file a)
    x (allowed_users a) (denied_users a) (reject_plaintext_passwords a) (password_policy a) (session_timeout
    a) (enable_session_management a).
Definition set_allowed_users (x : list string) (a : AuthConfig) : AuthConfig :=
  MkAuth (auth_enabled a) (method a) (realm a) (password_file a) (public_key_file a) (oauth2_config_file a)
    (anonymous_access a) x (denied_users a) (reject_plaintext_passwords a) (password_policy a)
    (session_timeout a) (enable_session_management a).
Definition set_denied_users (x : list string) (a : AuthConfig) : AuthConfig :=
  MkAuth (auth_enabled a) (method a) (realm a) (password_file a) (public_key_file a) (oauth2_config_file a)
    (anonymous_access a) (allowed_users a) x (reject_plaintext_passwords a) (password_policy a)
    (session_timeout a) (enable_session_management a).
Definition set_reject_plaintext_passwords (x : bool) (a : AuthConfig) : AuthConfig :=
  MkAuth (auth_enabled a) (method a) (realm a) (password_file a) (public_key_file a) (oauth2_config_file a)
    (anonymous_access a) (allowed_users a) (denied_users a) x (password_policy a) (session_timeout a)
    (enable_session_management a).
Definition set_password_policy (x : PasswordPolicy) (a : AuthConfig) : AuthConfig :=
  MkAuth (auth_enabled a) (method a) (realm a) (password_file a) (public_key_file a) (oauth2_config_file a)
    (anonymous_access a) (allowed_users a) (denied_users a) (reject_plaintext_passwords a) x
    (session_timeout a) (enable_session_management a).
Definition set_session_timeout (x : Z) (a : AuthConfig) : AuthConfig :=
  MkAuth (auth_enabled a) (method a) (realm a) (password_file a) (public_key_file a) (oauth2_config_file a)
    (anonymous_access a) (allowed_users a) (denied_users a) (reject_plaintext_passwords a) (password_policy
    a) x (enable_session_management a).
Definition set_level (x : string) (l : LogConfig) : LogConfig :=
  MkLog x (log_file l) (format l) (console_output l) (file_output l) (syslog_output l) (syslog_facility l)
    (max_file_size l) (max_files l) (compress_old_logs l).
Definition set_log_file (x : string) (l : LogConfig) : LogConfig :=
  MkLog (level l) x (format l) (console_output l) (file_output l) (syslog_output l) (syslog_facility l)
    (max_file_size l) (max_files l) (compress_old_logs l).
Definition set_file_output (x : bool) (l : LogConfig) : LogConfig :=
  MkLog (level l) (log_file l) (format l) (console_output l) x (syslog_output l) (syslog_facility l)
    (max_file_size l) (max_files l) (compress_old_logs l).
Definition set_format (x : string) (l : LogConfig) : LogConfig :=
  MkLog (level l) (log_file l) x (console_output l) (file_output l) (syslog_output l) (syslog_facility l)
    (max_file_size l) (max_files l) (compress_old_logs l).
Definition set_max_file_size (x : Z) (l : LogConfig) : LogConfig :=
  MkLog (level l) (log_file l) (format l) (console_output l) (file_output l) (syslog_output l)
    (syslog_facility l) x (max_files l) (compress_old_logs l).
Definition set_max_files (x : Z) (l : LogConfig) : LogConfig :=
  MkLog (level l) (log_file l) (format l) (console_output l) (file_output l) (syslog_output l)
    (syslog_facility l) (max_file_size l) x (compress_old_logs l).
Definition set_compress_old_logs (x : bool) (l : LogConfig) : LogConfig :=
  MkLog (level l) (log_file l) (format l) (console_output l) (file_output l) (syslog_output l)
    (syslog_facility l) (max_file_size l) (max_files l) x.
Definition set_sec_user (x : string) (s : SecurityConfig) : SecurityConfig :=
  MkSecurity (chroot_enabled s) (chroot_directory s) x (sec_group s) (drop_privileges s) (allowed_commands
    s) (denied_commands s) (restrict_to_module_path s) (sec_allow_symlinks s) (sec_allow_hardlinks s)
    (allow_devices s) (allow_sockets s) (sec_umask s).
Definition set_sec_group (x : string) (s : SecurityConfig) : SecurityConfig :=
  MkSecurity (chroot_enabled s) (chroot_directory s) (sec_user s) x (drop_privileges s) (allowed_commands s)
    (denied_commands s) (restrict_to_module_path s) (sec_allow_symlinks s) (sec_allow_hardlinks s)
    (allow_devices s) (allow_sockets s) (sec_umask s).
Definition set_mod_name (x : string) (m : ModuleConfig) : ModuleConfig :=
  MkModule x (mod_path m) (mod_comment m) (read_only m) (list_ m) (allow_delete m) (overwrite m)
    (exclude_patterns m) (include_patterns m) (environment_variables m) (pre_transfer_script m)
    (post_transfer_script m) (pre_delete_script m) (post_delete_script m) (pre_list_script m)
    (post_list_script m) (allow_symlinks m) (allow_hardlinks m) (custom_options m).
Definition set_mod_path (x : string) (m : ModuleConfig) : ModuleConfig :=
  MkModule (mod_name m) x (mod_comment m) (read_only m) (list_ m) (allow_delete m) (overwrite m)
    (exclude_patterns m) (include_patterns m) (environment_variables m) (pre_transfer_script m)
    (post_transfer_script m) (pre_delete_script m) (post_delete_script m) (pre_list_script m)
    (post_list_script m) (allow_symlinks m) (allow_hardlinks m) (custom_options m).
Definition set_mod_comment (x : string) (m : ModuleConfig) : ModuleConfig :=
  MkModule (mod_name m) (mod_path m) x (read_only m) (list_ m) (allow_delete m) (overwrite m)
    (exclude_patterns m) (include_patterns m) (environment_variables m) (pre_transfer_script m)
    (post_transfer_script m) (pre_delete_script m) (post_delete_script m) (pre_list_script m)
    (post_list_script m) (allow_symlinks m) (allow_hardlinks m) (custom_options m).
Definition set_read_only (x : bool) (m : ModuleConfig) : ModuleConfig :=
  MkModule (mod_name m) (mod_path m) (mod_comment m) x (list_ m) (allow_delete m) (overwrite m)
    (exclude_patterns m) (include_patterns m) (environment_variables m) (pre_transfer_script m)
    (post_transfer_script m) (pre_delete_script m) (post_delete_script m) (pre_list_script m)
    (post_list_script m) (allow_symlinks m) (allow_hardlinks m) (custom_options m).
Definition set_list (x : bool) (m : ModuleConfig) : ModuleConfig :=
  MkModule (mod_name m) (mod_path m) (mod_comment m) (read_only m) x (allow_delete m) (overwrite m)
    (exclude_patterns m) (include_patterns m) (environment_variables m) (pre_transfer_script m)
    (post_transfer_script m) (pre_delete_script m) (post_delete_script m) (pre_list_script m)
    (post_list_script m) (allow_symlinks m) (allow_hardlinks m) (custom_options m).
Definition set_allow_delete (x : bool) (m : ModuleConfig) : ModuleConfig :=
  MkModule (mod_name m) (mod_path m) (mod_comment m) (read_only m) (list_ m) x (overwrite m)
    (exclude_patterns m) (include_patterns m) (environment_variables m) (pre_transfer_script m)
    (post_transfer_script m) (pre_delete_script m) (post_delete_script m) (pre_list_script m)
    (post_list_script m) (allow_symlinks m) (allow_hardlinks m) (custom_options m).
Definition set_overwrite (x : bool) (m : ModuleConfig) : ModuleConfig :=
  MkModule (mod_name m) (mod_path m) (mod_comment m) (read_only m) (list_ m) (allow_delete m) x
    (exclude_patterns m) (include_patterns m) (environment_variables m) (pre_transfer_script m)
    (post_transfer_script m) (pre_delete_script m) (post_delete_script m) (pre_list_script m)
    (post_list_script m) (allow_symlinks m) (allow_hardlinks m) (custom_options m).
Definition set_exclude_patterns (x : list string) (m : ModuleConfig) : ModuleConfig :=
  MkModule (mod_name m) (mod_path m) (mod_comment m) (read_only m) (list_ m) (allow_delete m) (overwrite m)
    x (include_patterns m) (environment_variables m) (pre_transfer_script m) (post_transfer_script m)
    (pre_delete_script m) (post_delete_script m) (pre_list_script m) (post_list_script m) (allow_symlinks m)
    (allow_hardlinks m) (custom_options m).
Definition set_include_patterns (x : list string) (m : ModuleConfig) : ModuleConfig :=
  MkModule (mod_name m) (mod_path m) (mod_comment m) (read_only m) (list_ m) (allow_delete m) (overwrite m)
    (exclude_patterns m) x (environment_variables m) (pre_transfer_script m) (post_transfer_script m)
    (pre_delete_script m) (post_delete_script m) (pre_list_script m) (post_list_script m) (allow_symlinks m)
    (allow_hardlinks m) (custom_options m).
Definition set_pre_transfer_script (x : string) (m : ModuleConfig) : ModuleConfig :=
  MkModule (mod_name m) (mod_path m) (mod_comment m) (read_only m) (list_ m) (allow_delete m) (overwrite m)
    (exclude_patterns m) (include_patterns m) (environment_variables m) x (post_transfer_script m)
    (pre_delete_script m) (post_delete_script m) (pre_list_script m) (post_list_script m) (allow_symlinks m)
    (allow_hardlinks m) (custom_options m).
Definition set_post_transfer_script (x : string) (m : ModuleConfig) : ModuleConfig :=
  MkModule (mod_name m) (mod_path m) (mod_comment m) (read_only m) (list_ m) (allow_delete m) (overwrite m)
    (exclude_patterns m) (include_patterns m) (environment_variables m) (pre_transfer_script m) x
    (pre_delete_script m) (post_delete_script m) (pre_list_script m) (post_list_script m) (allow_symlinks m)
    (allow_hardlinks m) (custom_options m).
Definition set_pre_delete_script (x : string) (m : ModuleConfig) : ModuleConfig :=
  MkModule (mod_name m) (mod_path m) (mod_comment m) (read_only m) (list_ m) (allow_delete m) (overwrite m)
    (exclude_patterns m) (include_patterns m) (environment_variables m) (pre_transfer_script m)
    (post_transfer_script m) x (post_delete_script m) (pre_list_script m) (post_list_script m)
    (allow_symlinks m) (allow_hardlinks m) (custom_options m).
Definition set_post_delete_script (x : string) (m : ModuleConfig) : ModuleConfig :=
  MkModule (mod_name m) (mod_path m) (mod_comment m) (read_only m) (list_ m) (allow_delete m) (overwrite m)
    (exclude_patterns m) (include_patterns m) (environment_variables m) (pre_transfer_script m)
    (post_transfer_script m) (pre_delete_script m) x (pre_list_script m) (post_list_script m)
    (allow_symlinks m) (allow_hardlinks m) (custom_options m).
Definition set_pre_list_script (x : string) (m : ModuleConfig) : ModuleConfig :=
  MkModule (mod_name m) (mod_path m) (mod_comment m) (read_only m) (list_ m) (allow_delete m) (overwrite m)
    (exclude_patterns m) (include_patterns m) (environment_variables m) (pre_transfer_script m)
    (post_transfer_script m) (pre_delete_script m) (post_delete_script m) x (post_list_script m)
    (allow_symlinks m) (allow_hardlinks m) (custom_options m).
Definition set_post_list_script (x : string) (m : ModuleConfig) : ModuleConfig :=
  MkModule (mod_name m) (mod_path m) (mod_comment m) (read_only m) (list_ m) (allow_delete m) (overwrite m)
    (exclude_patterns m) (include_patterns m) (environment_variables m) (pre_transfer_script m)
    (post_transfer_script m) (pre_delete_script m) (post_delete_script m) (pre_list_script m) x
    (allow_symlinks m) (allow_hardlinks m) (custom_options m).
Definition set_allow_links (symlinks hardlinks : bool) (m : ModuleConfig) : ModuleConfig :=
  MkModule (mod_name m) (mod_path m) (mod_comment m) (read_only m) (list_ m) (allow_delete m) (overwrite m)
    (exclude_patterns m) (include_patterns m) (environment_variables m) (pre_transfer_script m)
    (post_transfer_script m) (pre_delete_script m) (post_delete_script m) (pre_list_script m)
    (post_list_script m) symlinks hardlinks (custom_options m).
Definition set_custom_options (x : gmap string string) (m : ModuleConfig) : ModuleConfig :=
  MkModule (mod_name m) (mod_path m) (mod_comment m) (read_only m) (list_ m) (allow_delete m) (overwrite m)
    (exclude_patterns m) (include_patterns m) (environment_variables m) (pre_transfer_script m)
    (post_transfer_script m) (pre_delete_script m) (post_delete_script m) (pre_list_script m)
    (post_list_script m) (allow_symlinks m) (allow_hardlinks m) x.
Definition set_ssl (x : SSLConfig) (c : Configuration) : Configuration :=
  MkConfiguration x (auth c) (access c) (rate_limit c) (log c) (network c) (security c) (performance c)
    (monitoring c) (modules c) (pid_file c) (state_file c) (config_file c) (working_directory c) (daemonize
    c) (conf_user c) (conf_group c) (conf_umask c) (verbose c) (debug c) (version c) (config_file_path c)
    (last_modified c) (auto_reload c) (reload_interval c) (errors_ c) (is_valid_ c) (has_changed_ c).
Definition set_auth (x : AuthConfig) (c : Configuration) : Configuration :=
  MkConfiguration (ssl c) x (access c) (rate_limit c) (log c) (network c) (security c) (performance c)
    (monitoring c) (modules c) (pid_file c) (state_file c) (config_file c) (working_directory c) (daemonize
    c) (conf_user c) (conf_group c) (conf_umask c) (verbose c) (debug c) (version c) (config_file_path c)
    (last_modified c) (auto_reload c) (reload_interval c) (errors_ c) (is_valid_ c) (has_changed_ c).
Definition set_access (x : AccessConfig) (c : Configuration) : Configuration :=
  MkConfiguration (ssl c) (auth c) x (rate_limit c) (log c) (network c) (security c) (performance c)
    (monitoring c) (modules c) (pid_file c) (state_file c) (config_file c) (working_directory c) (daemonize
    c) (conf_user c) (conf_group c) (conf_umask c) (verbose c) (debug c) (version c) (config_file_path c)
    (last_modified c) (auto_reload c) (reload_interval c) (errors_ c) (is_valid_ c) (has_changed_ c).
Definition set_rate_limit (x : RateLimitConfig) (c : Configuration) : Configuration :=
  MkConfiguration (ssl c) (auth c) (access c) x (log c) (network c) (security c) (performance c) (monitoring
    c) (modules c) (pid_file c) (state_file c) (config_file c) (working_directory c) (daemonize c)
    (conf_user c) (conf_group c) (conf_umask c) (verbose c) (debug c) (version c) (config_file_path c)
    (last_modified c) (auto_reload c) (reload_interval c) (errors_ c) (is_valid_ c) (has_changed_ c).
Definition set_log (x : LogConfig) (c : Configuration) : Configuration :=
  MkConfiguration (ssl c) (auth c) (access c) (rate_limit c) x (network c) (security c) (performance c)
    (monitoring c) (modules c) (pid_file c) (state_file c) (config_file c) (working_directory c) (daemonize
    c) (conf_user c) (conf_group c) (conf_umask c) (verbose c) (debug c) (version c) (config_file_path c)
    (last_modified c) (auto_reload c) (reload_interval c) (errors_ c) (is_valid_ c) (has_changed_ c).
Definition set_network (x : NetworkConfig) (c : Configuration) : Configuration :=
  MkConfiguration (ssl c) (auth c) (access c) (rate_limit c) (log c) x (security c) (performance c)
    (monitoring c) (modules c) (pid_file c) (state_file c) (config_file c) (working_directory c) (daemonize
    c) (conf_user c) (conf_group c) (conf_umask c) (verbose c) (debug c) (version c) (config_file_path c)
    (last_modified c) (auto_reload c) (reload_interval c) (errors_ c) (is_valid_ c) (has_changed_ c).
Definition set_security (x : SecurityConfig) (c : Configuration) : Configuration :=
  MkConfiguration (ssl c) (auth c) (access c) (rate_limit c) (log c) (network c) x (performance c)
    (monitoring c) (modules c) (pid_file c) (state_file c) (config_file c) (working_directory c) (daemonize
    c) (conf_user c) (conf_group c) (conf_umask c) (verbose c) (debug c) (version c) (config_file_path c)
    (last_modified c) (auto_reload c) (reload_interval c) (errors_ c) (is_valid_ c) (has_changed_ c).
Definition set_performance (x : PerformanceConfig) (c : Configuration) : Configuration :=
  MkConfiguration (ssl c) (auth c) (access c) (rate_limit c) (log c) (network c) (security c) x (monitoring
    c) (modules c) (pid_file c) (state_file c) (config_file c) (working_directory c) (daemonize c)
    (conf_user c) (conf_group c) (conf_umask c) (verbose c) (debug c) (version c) (config_file_path c)
    (last_modified c) (auto_reload c) (reload_interval c) (errors_ c) (is_valid_ c) (has_changed_ c).
Definition set_monitoring (x : MonitoringConfig) (c : Configuration) : Configuration :=
  MkConfiguration (ssl c) (auth c) (access c) (rate_limit c) (log c) (network c) (security c) (performance
    c) x (modules c) (pid_file c) (state_file c) (config_file c) (working_directory c) (daemonize c)
    (conf_user c) (conf_group c) (conf_umask c) (verbose c) (debug c) (version c) (config_file_path c)
    (last_modified c) (auto_reload c) (reload_interval c) (errors_ c) (is_valid_ c) (has_changed_ c).
Definition set_modules (x : gmap string ModuleConfig) (c : Configuration) : Configuration :=
  MkConfiguration (ssl c) (auth c) (access c) (rate_limit c) (log c) (network c) (security c) (performance
    c) (monitoring c) x (pid_file c) (state_file c) (config_file c) (working_directory c) (daemonize c)
    (conf_user c) (conf_group c) (conf_umask c) (verbose c) (debug c) (version c) (config_file_path c)
    (last_modified c) (auto_reload c) (reload_interval c) (errors_ c) (is_valid_ c) (has_changed_ c).
Definition set_pid_file (x : string) (c : Configuration) : Configuration :=
  MkConfiguration (ssl c) (auth c) (access c) (rate_limit c) (log c) (network c) (security c) (performance
    c) (monitoring c) (modules c) x (state_file c) (config_file c) (working_directory c) (daemonize c)
    (conf_user c) (conf_group c) (conf_umask c) (verbose c) (debug c) (version c) (config_file_path c)
    (last_modified c) (auto_reload c) (reload_interval c) (errors_ c) (is_valid_ c) (has_changed_ c).
Definition set_conf_user (x : string) (c : Configuration) : Configuration :=
  MkConfiguration (ssl c) (auth c) (access c) (rate_limit c) (log c) (network c) (security c) (performance
    c) (monitoring c) (modules c) (pid_file c) (state_file c) (config_file c) (working_directory c)
    (daemonize c) x (conf_group c) (conf_umask c) (verbose c) (debug c) (version c) (config_file_path c)
    (last_modified c) (auto_reload c) (reload_interval c) (errors_ c) (is_valid_ c) (has_changed_ c).
Definition set_conf_group (x : string) (c : Configuration) : Configuration :=
  MkConfiguration (ssl c) (auth c) (access c) (rate_limit c) (log c) (network c) (security c) (performance
    c) (monitoring c) (modules c) (pid_file c) (state_file c) (config_file c) (working_directory c)
    (daemonize c) (conf_user c) x (conf_umask c) (verbose c) (debug c) (version c) (config_file_path c)
    (last_modified c) (auto_reload c) (reload_interval c) (errors_ c) (is_valid_ c) (has_changed_ c).
Definition set_config_file_path (x : string) (c : Configuration) : Configuration :=
  MkConfiguration (ssl c) (auth c) (access c) (rate_limit c) (log c) (network c) (security c) (performance
    c) (monitoring c) (modules c) (pid_file c) (state_file c) (config_file c) (working_directory c)
    (daemonize c) (conf_user c) (conf_group c) (conf_umask c) (verbose c) (debug c) (version c) x
    (last_modified c) (auto_reload c) (reload_interval c) (errors_ c) (is_valid_ c) (has_changed_ c).
Definition set_last_modified (x : Z) (c : Configuration) : Configuration :=
  MkConfiguration (ssl c) (auth c) (access c) (rate_limit c) (log c) (network c) (security c) (performance
    c) (monitoring c) (modules c) (pid_file c) (state_file c) (config_file c) (working_directory c)
    (daemonize c) (conf_user c) (conf_group c) (conf_umask c) (verbose c) (debug c) (version c)
    (config_file_path c) x (auto_reload c) (reload_interval c) (errors_ c) (is_valid_ c) (has_changed_ c).
Definition set_auto_reload (x : bool) (c : Configuration) : Configuration :=
  MkConfiguration (ssl c) (auth c) (access c) (rate_limit c) (log c) (network c) (security c) (performance
    c) (monitoring c) (modules c) (pid_file c) (state_file c) (config_file c) (working_directory c)
    (daemonize c) (conf_user c) (conf_group c) (conf_umask c) (verbose c) (debug c) (version c)
    (config_file_path c) (last_modified c) x (reload_interval c) (errors_ c) (is_valid_ c) (has_changed_ c).
Definition set_reload_interval (x : Z) (c : Configuration) : Configuration :=
  MkConfiguration (ssl c) (auth c) (access c) (rate_limit c) (log c) (network c) (security c) (performance
    c) (monitoring c) (modules c) (pid_file c) (state_file c) (config_file c) (working_directory c)
    (daemonize c) (conf_user c) (conf_group c) (conf_umask c) (verbose c) (debug c) (version c)
    (config_file_path c) (last_modified c) (auto_reload c) x (errors_ c) (is_valid_ c) (has_changed_ c).
Definition set_errors (x : list string) (c : Configuration) : Configuration :=
  MkConfiguration (ssl c) (auth c) (access c) (rate_limit c) (log c) (network c) (security c) (performance
    c) (monitoring c) (modules c) (pid_file c) (state_file c) (config_file c) (working_directory c)
    (daemonize c) (conf_user c) (conf_group c) (conf_umask c) (verbose c) (debug c) (version c)
    (config_file_path c) (last_modified c) (auto_reload c) (reload_interval c) x (is_valid_ c) (has_changed_
    c).
Definition set_is_valid (x : bool) (c : Configuration) : Configuration :=
  MkConfiguration (ssl c) (auth c) (access c) (rate_limit c) (log c) (network c) (security c) (performance
    c) (monitoring c) (modules c) (pid_file c) (state_file c) (config_file c) (working_directory c)
    (daemonize c) (conf_user c) (conf_group c) (conf_umask c) (verbose c) (debug c) (version c)
    (config_file_path c) (last_modified c) (auto_reload c) (reload_interval c) (errors_ c) x (has_changed_
    c).
Definition set_has_changed (x : bool) (c : Configuration) : Configuration :=
  MkConfiguration (ssl c) (auth c) (access c) (rate_limit c) (log c) (network c) (security c) (performance
    c) (monitoring c) (modules c) (pid_file c) (state_file c) (config_file c) (working_directory c)
    (daemonize c) (conf_user c) (conf_group c) (conf_umask c) (verbose c) (debug c) (version c)
    (config_file_path c) (last_modified c) (auto_reload c) (reload_interval c) (errors_ c) (is_valid_ c) x.

(** ** The constructor: [config.cpp], lines 97-99 and the [setDefault] functions *)
Definition setDefaultSSL : Configuration → Configuration :=
  set_ssl (MkSSL false "" "" "" "ECDHE-RSA-AES256-GCM-SHA384" false "1.2" true).
Definition setDefaultAuth (c : Configuration) : Configuration :=
  let a := auth c in
  set_auth (MkAuth false "password" "simple-rsyncd" "" "" "" false (allowed_users a) (denied_users a)
              (reject_plaintext_passwords a) (password_policy a) (session_timeout a)
              (enable_session_management a)) c.
Definition setDefaultAccess : Configuration → Configuration :=
  set_access (MkAccess true ["127.0.0.1"; "::1"] [] ["10.0.0.0/8"; "172.16.0.0/12"] [] false "" "combined").
Definition setDefaultRateLimit : Configuration → Configuration :=
  set_rate_limit (MkRateLimit true 60 1000 0 0 300 60).
Definition setDefaultLog : Configuration → Configuration :=
  set_log (MkLog "info" "" "{timestamp} [{level}] {message}" true false false "daemon" (10 * 1024 * 1024) 5 true).
Definition setDefaultNetwork : Configuration → Configuration :=
  set_network (MkNetwork "0.0.0.0" 873 128 true true 7200 75 9 100 4).
Definition setDefaultSecurity (c : Configuration) : Configuration :=
  let s := security c in
  set_security (MkSecurity false "" "" "" true (allowed_commands s) (denied_commands s) true false false false
                  false "022") c.
Definition setDefaultPerformance : Configuration → Configuration :=
  set_performance (MkPerformance (64 * 1024) (512 * 1024 * 1024) true "6" true "md5" 10 true 5).
Definition setDefaultMonitoring : Configuration → Configuration :=
  set_monitoring (MkMonitoring true "" "" 60 300 false "/metrics" 9090 "127.0.0.1").
Definition setDefaults (c : Configuration) : Configuration :=
  setDefaultMonitoring (setDefaultPerformance (setDefaultSecurity (setDefaultNetwork (setDefaultLog
    (setDefaultRateLimit (setDefaultAccess (setDefaultAuth (setDefaultSSL c)))))))).

Definition new_configuration : Configuration :=
  setDefaults (MkConfiguration default_ssl default_auth default_access default_rate_limit default_log
    default_network default_security default_performance default_monitoring ∅ "" "" "" "" false "" "" ""
    false false "0.3.0" "" 0 false 30 [] false false).

(** ** Lemmas: the glob *)
Lemma drop_suffix a b : str_drop (String.length (a +:+ b) - String.length b) (a +:+ b) = b.
Proof.
  rewrite length_app_str.
  replace (String.length a + String.length b - String.length b)%nat with (String.length a) by lia.
  apply drop_app_str.
Qed.

Lemma split_pattern p s :
  no_char "*" p = true →
  let pattern := p +:+ "*" +:+ s in
  find_char "*" pattern = Some (String.length p) ∧
  substr 0 (String.length p) pattern = p ∧ substr_from (S (String.length p)) pattern = s.
Proof.
  intros Hp. cbv zeta. rewrite app_cons_str, app_nil_l_str, find_char_app by done.
  unfold substr, substr_from. by rewrite drop_0, take_app_str, drop_S_app_str.
Qed.

(** C38: Pattern matching is globbing with one star: a pattern without a star
    matches only itself, and a pattern with a first star matches exactly the
    names made of what stands before it, anything, and what stands after it.
    Later stars and question marks are ordinary characters, although the
    documentation gives patterns with two stars and says that a question mark
    stands for one character. *)
Theorem matchesPattern_spec filename :
  (∀ pattern, no_char "*" pattern = true → matchesPattern filename pattern = true ↔ filename = pattern) ∧
  (∀ p s, no_char "*" p = true →
     matchesPattern filename (p +:+ "*" +:+ s) = true ↔
     ∃ mid, filename = p +:+ mid +:+ s).
Proof.
  split.
  - intros pattern Hp. unfold matchesPattern. apply find_char_None in Hp as Hf. rewrite Hf.
    destruct (String.eqb_spec pattern "*") as [->|_]; [done|].
    destruct (String.eqb_spec pattern filename); naive_solver.
  - intros p s Hp. destruct (split_pattern p s Hp) as (E1 & E2 & E3).
    unfold matchesPattern. rewrite E1. cbv zeta. rewrite E2, E3.
    destruct (String.eqb_spec (p +:+ "*" +:+ s) "*") as [E|_].
    { split; [|done]. intros _. exists filename. apply (f_equal String.length) in E.
      rewrite !length_app_str in E. destruct p, s; simpl in E; try lia.
      by rewrite app_nil_l_str, app_nil_str. }
    destruct (String.eqb_spec (p +:+ "*" +:+ s) filename) as [<-|Hne].
    { split; [|done]. intros _. by exists "*". }
    case_bool_decide as Hl.
    { split; [done|]. intros (mid & ->). rewrite !length_app_str in Hl. lia. }
    rewrite andb_true_iff, !String.eqb_eq. split.
    + intros [Hpre Hsuf]. unfold substr in Hpre. rewrite drop_0 in Hpre.
      pose proof (take_drop_str (String.length p) filename) as E. rewrite Hpre in E.
      unfold substr_from in Hsuf.
      set (rest := str_drop (String.length p) filename) in *.
      assert (String.length filename = String.length p + String.length rest)%nat as Hlen
        by (by rewrite <- E, length_app_str).
      exists (str_take (String.length rest - String.length s) rest). rewrite <- E at 1. f_equal.
      rewrite <- (take_drop_str (String.length rest - String.length s) rest) at 1. f_equal.
      unfold rest. rewrite drop_drop_str. fold rest. rewrite <- Hsuf at 2. f_equal. lia.
    + intros (mid & ->). unfold substr, substr_from. rewrite drop_0, take_app_str.
      split; [done|]. rewrite <- app_assoc_str. apply drop_suffix.
Qed.
