(* ===== verification/TransferStats.v ===== *)
(** * Transfer statistics: [core/module.hpp] and the statistics of [core/module.cpp]

    Times are readings of the steady clock in nanoseconds, 0 for [time_point{}];
    [double] is IEEE binary64, as the standard library's executable specification
    of floating point ([SpecFloat]). *)
From Stdlib Require Import SpecFloat.
From S2P Require Import Prelude CppString ConfigTypes.
Open Scope Z_scope.

(** ** binary64 *)
Definition double : Type := spec_float.
Definition of_int (n : Z) : double := binary_normalize 53 1024 n 0 false.
Definition div (x y : double) : double := SFdiv 53 1024 x y.
Definition zero : double := S754_zero false.

(** ** TransferStats *)
Record TransferStats := MkStats {
  bytes_transferred : Z;
  files_transferred : Z;
  directories_created : Z;
  symlinks_created : Z;
  hardlinks_created : Z;
  failed_transfers : Z;
  start_time : Z;
  end_time : Z
}.
Definition new_stats : TransferStats := MkStats 0 0 0 0 0 0 0 0.

(** [duration_cast<milliseconds>] truncates; [count() / 1000.0]. *)
Definition milliseconds (ns : Z) : Z := Z.quot ns 1000000.
Definition getDuration (now : Z) (s : TransferStats) : double :=
  if end_time s =? 0 then div (of_int (milliseconds (now - start_time s))) (of_int 1000)
  else div (of_int (milliseconds (end_time s - start_time s))) (of_int 1000).

Definition getTransferRate (now : Z) (s : TransferStats) : double :=
  let duration := getDuration now s in
  if SFleb duration zero then zero else div (of_int (bytes_transferred s)) duration.

Definition reset (now : Z) (s : TransferStats) : TransferStats := MkStats 0 0 0 0 0 0 now now.

(** ** The module object: its configuration and its statistics *)
Record Module := MkModule { config_ : ModuleConfig; stats_ : TransferStats }.

(** [createModule], through the constructors of [FileSystemModule] and [Module]. *)
Definition createModule (now : Z) (config : ModuleConfig) : Module := MkModule config (reset now new_stats).
Definition getStats (m : Module) : TransferStats := stats_ m.
Definition resetStats (now : Z) (m : Module) : Module := MkModule (config_ m) (reset now (stats_ m)).

(** The statistics a transfer returns: [start], and [stop] when it is over.  The
    early returns leave [end_time] unset. *)
Definition transfer_stats (start : Z) (outcome : option bool) (stop : Z) : TransferStats :=
  match outcome with
  | None => MkStats 0 0 0 0 0 0 start 0
  | Some true => MkStats 0 1 0 0 0 0 start stop
  | Some false => MkStats 0 0 0 0 0 1 start stop
  end.

(** ** What the statistics say *)
Lemma no_time now s :
  -1000000 < end_time s - start_time s < 1000000 → end_time s ≠ 0 →
  getDuration now s = zero ∧ getTransferRate now s = zero.
Proof.
  intros Ht He. assert (milliseconds (end_time s - start_time s) = 0) as Hm.
  { unfold milliseconds. destruct (Z.le_gt_cases 0 (end_time s - start_time s)).
    - apply Z.quot_small. lia.
    - rewrite <- (Z.opp_involutive (end_time s - start_time s)), Z.quot_opp_l by lia.
      rewrite Z.quot_small by lia. done. }
  apply Z.eqb_neq in He. unfold getTransferRate, getDuration. rewrite He, Hm. by vm_compute.
Qed.

(** The statistics of a module never say anything: whenever they are reset, and
    whenever they are asked for, no file and no byte has been counted, and the
    duration and the rate are zero. *)
Theorem stats_say_nothing config made resets now :
  made ≠ 0 → Forall (λ t, t ≠ 0) resets →
  let s := getStats (foldl (λ m t, resetStats t m) (createModule made config) resets) in
  bytes_transferred s = 0 ∧ files_transferred s = 0 ∧ failed_transfers s = 0 ∧
  getDuration now s = zero ∧ getTransferRate now s = zero.
Proof.
  intros Hm Hr s. assert (∃ t, t ≠ 0 ∧ s = reset t new_stats) as (t & Ht & ->).
  { unfold s. clear s. induction resets as [|t l IH] using rev_ind; [by exists made|].
    rewrite foldl_app. cbn. exists t. split; [|done]. apply Forall_app in Hr as [_ Hr]. by inversion Hr. }
  do 3 (split; [done|]). apply no_time; cbn; [lia|done].
Qed.

(** 3 bytes in two milliseconds are 1500 bytes per second, and exactly so. *)
Example rate_of_three_bytes :
  getTransferRate 0 (MkStats 3 1 0 0 0 0 5 2000005) = of_int 1500.
Proof. vm_compute. reflexivity. Qed.

(** A transfer that is refused has no end: its duration goes on growing. *)
Example refused_goes_on :
  getDuration 4000000000 (transfer_stats 1000000000 None 0) = of_int 3.
Proof. vm_compute. reflexivity. Qed.
