(* ===== verification/AuthManager.v ===== *)
(** * Authentication: class [AuthenticationManager] of [core/auth.cpp], lines 921-1081

    The manager owns the password file, the user database, the key database and
    the session manager of the other files.  An attempt takes what it reads and
    draws: the clock, the bytes of a session id, the bytes of a salt. *)
From S2P Require Import Prelude CppString ConfigTypes Passwords SshKey.
From S2P Require PasswordFile UserDatabase Sessions PublicKeys.
Open Scope Z_scope.

Record AuthenticationManager := MkManager {
  config_ : AuthConfig;
  password_file_ : option PasswordFile.PasswordFile;
  user_database_ : option UserDatabase.UserDatabase;
  public_key_database_ : option PublicKeys.PublicKeyDatabase;
  session_manager_ : Sessions.SessionManager;
  use_user_database_ : bool
}.

Record draws := Draws { now : Z; session_bytes : string; salt_bytes : string }.

Definition new_manager (config : AuthConfig) (d : UserDatabase.disk) : AuthenticationManager :=
  let sessions := Sessions.new_manager 3600 in
  if String.eqb (method config) "password" then
    MkManager config
      (if negb (is_empty (password_file config))
       then Some (PasswordFile.new_password_file (d !! password_file config) (password_file config)
                    (reject_plaintext_passwords config))
       else None)
      (Some (UserDatabase.new_database "" d)) None sessions false
  else if String.eqb (method config) "public_key" then
    MkManager config None None
      (if negb (is_empty (public_key_file config))
       then Some (PublicKeys.new_key_database (public_key_file config) d) else None)
      sessions false
  else MkManager config None None None sessions false.

Definition with_session_manager (s : Sessions.SessionManager) (m : AuthenticationManager)
    : AuthenticationManager :=
  MkManager (config_ m) (password_file_ m) (user_database_ m) (public_key_database_ m) s
    (use_user_database_ m).

(** [session_manager_->createSession(user, client_address)] *)
Definition open_session (e : draws) (user client_address : string) (m : AuthenticationManager)
    : string * AuthenticationManager :=
  let '(id, s) := Sessions.createSession (now e) (session_bytes e) user client_address 0
                    (session_manager_ m) in
  (id, with_session_manager s m).

(** [std::find(list.begin(), list.end(), user) != list.end()] *)
Definition listed (user : string) (l : list string) : bool := bool_decide (user ∈ l).

Section authentication.
Context `{Sha256} `{OpenSSL}.

(** The check against the user database or the password file. *)
Definition check_password (e : draws) (user password : string) (m : AuthenticationManager) : bool :=
  match use_user_database_ m, user_database_ m with
  | true, Some db =>
      match UserDatabase.getUserInfo user db with
      | Some info => verifyPassword (salt_bytes e) password (password_hash info)
      | None => false
      end
  | _, _ =>
      match password_file_ m with
      | Some pf => PasswordFile.authenticate (salt_bytes e) user password pf
      | None => false
      end
  end.

Definition authenticate (e : draws) (user password client_address : string)
    (m : AuthenticationManager) : string * AuthenticationManager :=
  let config := config_ m in
  if negb (auth_enabled config) then
    if anonymous_access config then open_session e "anonymous" client_address m else ("", m)
  else if String.eqb (method config) "password" then
    if listed user (denied_users config) then ("", m)
    else if negb (bool_decide (allowed_users config = [])) && negb (listed user (allowed_users config))
    then ("", m)
    else if check_password e user password m then open_session e user client_address m
    else ("", m)
  else ("", m).

Definition authenticateWithKey (e : draws) (user data signature client_address : string)
    (m : AuthenticationManager) : string * AuthenticationManager :=
  let config := config_ m in
  if negb (auth_enabled config) then
    if anonymous_access config then open_session e "anonymous" client_address m else ("", m)
  else if negb (String.eqb (method config) "public_key") then ("", m)
  else if listed user (denied_users config) then ("", m)
  else if negb (bool_decide (allowed_users config = [])) && negb (listed user (allowed_users config))
  then ("", m)
  else match public_key_database_ m with
       | Some db => if PublicKeys.verifySignature user data signature db
                    then open_session e user client_address m else ("", m)
       | None => ("", m)
       end.

Definition authenticateUser (e : draws) (user password : string) (m : AuthenticationManager)
    : bool * AuthenticationManager :=
  let '(session_id, m) := authenticate e user password "" m in (negb (is_empty session_id), m).

Definition authenticateUserWithKey (e : draws) (user challenge signature_b64 : string)
    (m : AuthenticationManager) : bool * AuthenticationManager :=
  let '(session_id, m) := authenticateWithKey e user challenge signature_b64 "" m in
  (negb (is_empty session_id), m).
End authentication.

Definition isEnabled (m : AuthenticationManager) : bool := auth_enabled (config_ m).
Definition allowsAnonymous (m : AuthenticationManager) : bool := anonymous_access (config_ m).
Definition getRealm (m : AuthenticationManager) : string := realm (config_ m).

Definition reload (d : UserDatabase.disk) (m : AuthenticationManager) : bool * AuthenticationManager :=
  match password_file_ m, user_database_ m, public_key_database_ m with
  | Some pf, _, _ =>
      let '(ok, pf) := PasswordFile.reload (d !! PasswordFile.filename_ pf) pf in
      (ok, MkManager (config_ m) (Some pf) (user_database_ m) (public_key_database_ m)
             (session_manager_ m) (use_user_database_ m))
  | None, udb, kdb =>
      match udb, use_user_database_ m, kdb with
      | Some db, false, _ =>
          let '(ok, db) := UserDatabase.load db d in
          (ok, MkManager (config_ m) None (Some db) (public_key_database_ m)
                 (session_manager_ m) (use_user_database_ m))
      | _, _, Some db =>
          let '(ok, db) := PublicKeys.reload db d in
          (ok, MkManager (config_ m) None (user_database_ m) (Some db)
                 (session_manager_ m) (use_user_database_ m))
      | _, _, None => (true, m)
      end
  end.

(** [getPublicKeyDatabase] creates the database on the first call. *)
Definition getPublicKeyDatabase (d : UserDatabase.disk) (m : AuthenticationManager)
    : PublicKeys.PublicKeyDatabase * AuthenticationManager :=
  match public_key_database_ m with
  | Some db => (db, m)
  | None =>
      let db := PublicKeys.new_key_database (public_key_file (config_ m)) d in
      (db, MkManager (config_ m) (password_file_ m) (user_database_ m) (Some db)
             (session_manager_ m) (use_user_database_ m))
  end.

(** ** Specification *)

(** The user passes the deny list and the allow list. *)
Definition passes_lists (config : AuthConfig) (user : string) : Prop :=
  (user ∉ denied_users config) ∧ (allowed_users config = [] ∨ user ∈ allowed_users config).

(** What an attempt gives: access exactly when [granted], a live session of
    [who] then, and an unchanged manager otherwise. *)
Definition attempt_spec (e : draws) (granted : Prop) (who client_address : string)
    (m : AuthenticationManager) (r : string * AuthenticationManager) : Prop :=
  let '(id, m') := r in
  ((id ≠ "") ↔ granted) ∧ (id = "" → m' = m) ∧
  (id ≠ "" → Sessions.isValidSession (now e) id (session_manager_ m') = true ∧
    (∃ s, Sessions.getSession id (session_manager_ m') = Some s ∧ Sessions.username s = who ∧
          Sessions.client_address s = client_address)).

(** ** Lemmas *)
Lemma open_session_spec e user address m :
  session_bytes e ≠ "" → 0 ≤ Sessions.default_timeout_ (session_manager_ m) →
  attempt_spec e True user address m (open_session e user address m).
Proof.
  intros Hb Ht. unfold open_session, Sessions.createSession, attempt_spec. cbn [Z.eqb].
  assert (Sessions.generateSessionId (session_bytes e) ≠ "") as Hid by (by destruct (session_bytes e)).
  set (id := Sessions.generateSessionId (session_bytes e)) in *. split; [done|]. split; [done|]. intros _.
  unfold Sessions.isValidSession, Sessions.getSession. cbn. rewrite lookup_insert_eq. cbn.
  split; [|by eexists]. unfold Sessions.elapsed_seconds. rewrite Z.sub_diag. cbn [Z.quot Z.quotrem fst].
  destruct (_ >? _) eqn:E; [|done]. bool_hyps. change (0 ÷ 1000000000) with 0 in E. lia.
Qed.

Lemma denied_spec e granted user address m :
  ¬ granted → attempt_spec e granted user address m ("", m).
Proof. unfold attempt_spec. tauto. Qed.

Lemma granted_spec e granted user address m r :
  granted → attempt_spec e True user address m r → attempt_spec e granted user address m r.
Proof. destruct r as [id m']. unfold attempt_spec. tauto. Qed.

Lemma allow_test config user :
  negb (bool_decide (allowed_users config = [])) && negb (listed user (allowed_users config)) = false ↔
  allowed_users config = [] ∨ user ∈ allowed_users config.
Proof.
  unfold listed. rewrite <- negb_orb, negb_false_iff, orb_true_iff, !bool_decide_eq_true. done.
Qed.

(** The two list tests of both ways to authenticate. *)
Lemma lists_cases config user (P : bool → bool → Prop) :
  (¬ passes_lists config user → P true false ∧ P false true ∧ P true true) →
  (passes_lists config user → P false false) →
  P (listed user (denied_users config))
    (negb (bool_decide (allowed_users config = [])) && negb (listed user (allowed_users config))).
Proof.
  intros Hno Hyes. pose proof (allow_test config user) as Ha. unfold passes_lists in *.
  destruct (listed user (denied_users config)) eqn:D; unfold listed in D; bool_hyps;
    destruct (negb _ && _); naive_solver.
Qed.

Section theorems.
Context `{Sha256} `{OpenSSL}.

(** The manager with another user database in the place of its own. *)
Definition with_database (db : UserDatabase.UserDatabase) (m : AuthenticationManager) : AuthenticationManager :=
  MkManager (config_ m) (password_file_ m) (Some db) (public_key_database_ m) (session_manager_ m) (use_user_database_ m).

Lemma check_password_hashes e user password m db db' :
  user_database_ m = Some db → password_hash <$> UserDatabase.db_users db' = password_hash <$> UserDatabase.db_users db →
  check_password e user password (with_database db' m) = check_password e user password m.
Proof.
  intros Ed Eh. unfold check_password, with_database. cbn. rewrite Ed. destruct (use_user_database_ m); [|done].
  unfold UserDatabase.getUserInfo. apply (f_equal (lookup user)) in Eh. rewrite !lookup_fmap in Eh.
  destruct (UserDatabase.db_users db' !! user), (UserDatabase.db_users db !! user); cbn in Eh; try done.
  by injection Eh as ->.
Qed.

Lemma open_session_database e user address m db :
  fst (open_session e user address (with_database db m)) = fst (open_session e user address m).
Proof. unfold open_session, with_database. cbn. by repeat case_match. Qed.

(** C5: What password authentication depends on.  With authentication enabled it
    succeeds exactly by the password method, for a user who is not denied and, if
    there is an allow list, is on it, and whose password checks; with
    authentication disabled, exactly when anonymous access is on.  Success opens a
    session that is valid and belongs to that user (to [anonymous] when disabled);
    failure changes nothing, so failures are not counted.  Of a user database only
    the hashes matter: locked and expired users, and users whose password has
    expired, log in like others (the documentation says otherwise). *)
Theorem authenticate_spec e user password address m :
  session_bytes e ≠ "" → 0 ≤ Sessions.default_timeout_ (session_manager_ m) →
  attempt_spec e
    (if isEnabled m then method (config_ m) = "password" ∧ passes_lists (config_ m) user ∧
                         check_password e user password m = true
     else allowsAnonymous m = true)
    (if isEnabled m then user else "anonymous") address m
    (authenticate e user password address m) ∧
  ∀ db db', user_database_ m = Some db →
    password_hash <$> UserDatabase.db_users db' = password_hash <$> UserDatabase.db_users db →
    fst (authenticate e user password address (with_database db' m)) = fst (authenticate e user password address m).
Proof.
  intros Hb Ht. split.
  - unfold authenticate, isEnabled, allowsAnonymous.
    destruct (auth_enabled (config_ m)); cbn [negb].
    2:{ destruct (anonymous_access (config_ m)); [|by apply denied_spec].
        apply granted_spec; [done|]. by apply open_session_spec. }
    destruct (String.eqb_spec (method (config_ m)) "password") as [Em|Em]; [|apply denied_spec; tauto].
    apply lists_cases; intros Hl; [repeat split; apply denied_spec; tauto|].
    destruct (check_password e user password m) eqn:Ec; [|by apply denied_spec; intros (_ & _ & ?)].
    apply granted_spec; [done|]. by apply open_session_spec.
  - intros db db' Ed Eh. unfold authenticate. rewrite (check_password_hashes _ _ _ _ _ _ Ed Eh).
    change (config_ (with_database db' m)) with (config_ m).
    pose proof (open_session_database e "anonymous" address m db') as E1.
    pose proof (open_session_database e user address m db') as E2.
    by repeat case_match.
Qed.

(** Public-key authentication likewise: enabled, only by the public-key
    method, for a user the lists pass, with a signature one of the user's keys
    verifies. *)
Theorem authenticateWithKey_spec e user data signature address m :
  session_bytes e ≠ "" → 0 ≤ Sessions.default_timeout_ (session_manager_ m) →
  attempt_spec e
    (if isEnabled m then method (config_ m) = "public_key" ∧ passes_lists (config_ m) user ∧
       ∃ db, public_key_database_ m = Some db ∧
             PublicKeys.verifySignature user data signature db = true
     else allowsAnonymous m = true)
    (if isEnabled m then user else "anonymous") address m
    (authenticateWithKey e user data signature address m).
Proof.
  intros Hb Ht. unfold authenticateWithKey, isEnabled, allowsAnonymous.
  destruct (auth_enabled (config_ m)); cbn [negb].
  2:{ destruct (anonymous_access (config_ m)); [|by apply denied_spec].
      apply granted_spec; [done|]. by apply open_session_spec. }
  destruct (String.eqb_spec (method (config_ m)) "public_key") as [Em|Em]; cbn [negb];
    [|apply denied_spec; tauto].
  apply lists_cases; intros Hl; [repeat split; apply denied_spec; tauto|].
  destruct (public_key_database_ m) as [db|] eqn:Ed; [|apply denied_spec; naive_solver].
  destruct (PublicKeys.verifySignature user data signature db) eqn:Ev.
  - apply granted_spec; [eauto 6|]. by apply open_session_spec.
  - apply denied_spec. intros (_ & _ & db' & [= <-] & ?). congruence.
Qed.

(** ** Histories of the manager *)
Inductive reachable (config : AuthConfig) : AuthenticationManager → Prop :=
  | reach_new d : reachable config (new_manager config d)
  | reach_password e user password address m : reachable config m →
      reachable config (snd (authenticate e user password address m))
  | reach_key e user data signature address m : reachable config m →
      reachable config (snd (authenticateWithKey e user data signature address m))
  | reach_reload d m : reachable config m → reachable config (snd (reload d m))
  | reach_keys d m : reachable config m → reachable config (snd (getPublicKeyDatabase d m))
  | reach_call c m : reachable config m →
      reachable config (with_session_manager (Sessions.exec (session_manager_ m) c) m).

Lemma open_session_fields e user address m :
  config_ (snd (open_session e user address m)) = config_ m ∧
  Sessions.default_timeout_ (session_manager_ (snd (open_session e user address m))) =
  Sessions.default_timeout_ (session_manager_ m).
Proof. done. Qed.

(** Every step keeps the configuration and the default timeout. *)
Lemma reachable_fields config m :
  reachable config m →
  config_ m = config ∧ Sessions.default_timeout_ (session_manager_ m) = 3600.
Proof.
  induction 1 as [d|e user password address m _ IH|e user data signature address m _ IH|d m _ IH|d m _ IH|c m _ IH].
  - unfold new_manager. by repeat case_match.
  - unfold authenticate. by repeat (case_match; try done).
  - unfold authenticateWithKey. by repeat (case_match; try done).
  - unfold reload. by repeat (case_match; try done).
  - unfold getPublicKeyDatabase. by case_match.
  - destruct IH as [IHc Hd]. split; [exact IHc|]. cbn. rewrite <- Hd. destruct c; cbn [Sessions.exec]; [done| | |].
    + unfold Sessions.updateActivity. by case_match.
    + unfold Sessions.deleteSession. by case_match.
    + unfold Sessions.cleanupExpiredSessions. by case_match.
Qed.

(** The configured session timeout is never used: whatever
    [session_timeout] says, every session that authentication opens, in any
    history of the manager, lasts the built-in hour. *)
Theorem session_timeout_ignored config m e user password address :
  reachable config m →
  let '(id, m') := authenticate e user password address m in
  id ≠ "" → session_bytes e ≠ "" →
  ∃ s, Sessions.getSession id (session_manager_ m') = Some s ∧ Sessions.timeout s = 3600.
Proof.
  intros Hm. destruct (authenticate e user password address m) as [id m'] eqn:E. intros Hid _.
  assert (∃ who, (id, m') = open_session e who address m) as [who Ho].
  { revert E. unfold authenticate. repeat (case_match; try (by intros [= <- <-])); eauto. }
  apply reachable_fields in Hm as [_ Hd]. revert Ho. unfold open_session, Sessions.createSession.
  cbn [Z.eqb]. rewrite Hd. intros [= -> ->]. unfold Sessions.getSession. cbn. rewrite lookup_insert_eq.
  by eexists.
Qed.
End theorems.

(** ** Witnesses *)
Definition toy_config : AuthConfig :=
  MkAuth true "password" "realm" "passwd" "" "" false ["alice"; "bob"] ["bob"] false default_policy 60 true.
Definition toy_disk : UserDatabase.disk := {["passwd" := "alice:secret"]}.
Definition toy_draws : draws := Draws 0 "0123456789abcdef" "salt".

Lemma authenticate_spec_witness :
  session_bytes toy_draws ≠ "" ∧
  fst (@authenticate toy_sha256 toy_draws "alice" "secret" "10.0.0.1" (new_manager toy_config toy_disk)) ≠ "" ∧
  fst (@authenticate toy_sha256 toy_draws "bob" "secret" "10.0.0.1" (new_manager toy_config toy_disk)) = "".
Proof.
  split; [done|]. pose proof (proj1 (@authenticate_spec toy_sha256 toy_draws "alice" "secret" "10.0.0.1"
    (new_manager toy_config toy_disk) ltac:(done) ltac:(done))) as Ha.
  destruct (authenticate _ _ _ _ _) as [id m'] eqn:E in Ha. destruct Ha as [[_ Ha] _].
  rewrite E. split; [|by vm_compute]. apply Ha. cbn. split; [done|]. split; [|by vm_compute].
  split; [|right; left]. cbn. by intros [?|?%elem_of_nil]%elem_of_cons.
Defined.

Definition toy_key_config : AuthConfig :=
  MkAuth true "public_key" "realm" "" "keys" "" false [] [] false default_policy 60 true.

Lemma authenticateWithKey_spec_witness :
  let m := new_manager toy_key_config {["keys" := "alice: ssh-ed25519 " +:+ toy_key]} in
  session_bytes toy_draws ≠ "" ∧
  attempt_spec toy_draws
    (method (config_ m) = "public_key" ∧ passes_lists (config_ m) "alice" ∧
     ∃ db, public_key_database_ m = Some db ∧
           @PublicKeys.verifySignature toy_openssl "alice" "hi" "x" db = true) "alice" "10.0.0.1" m
    (@authenticateWithKey toy_openssl toy_draws "alice" "hi" "x" "10.0.0.1" m).
Proof.
  intros m. split; [done|]. apply (@authenticateWithKey_spec toy_openssl toy_draws "alice" "hi" "x" "10.0.0.1" m); done.
Defined.

Lemma session_timeout_ignored_witness :
  session_timeout toy_config = 60 ∧
  ∃ s, Sessions.getSession (to_hex "0123456789abcdef") (session_manager_ (snd
    (@authenticate toy_sha256 toy_draws "alice" "secret" "10.0.0.1" (new_manager toy_config toy_disk)))) = Some s ∧
    Sessions.timeout s = 3600.
Proof.
  split; [done|]. pose proof (@session_timeout_ignored toy_sha256 toy_openssl toy_config
    (new_manager toy_config toy_disk) toy_draws "alice" "secret" "10.0.0.1" (reach_new _ _)) as Hs.
  destruct (authenticate _ _ _ _ _) as [id m'] eqn:E in Hs. rewrite E. cbn [snd].
  assert (id = to_hex "0123456789abcdef") as <- by (vm_compute in E; injection E as <- _; by vm_compute).
  apply Hs; [|done]. intros ->. vm_compute in E. discriminate.
Defined.
