(* ===== verification/FileSys.v ===== *)
(** * Paths and the file system

    What [core/module.cpp] and [core/session.cpp] use of [std::filesystem] and
    of file streams, on a file system of files, directories and symbolic links.

    A path is its text, as [std::filesystem::path::string()]; the lexical
    operations follow the POSIX grammar.  A location is the list of names from
    the root.  Lookups follow links up to the limit of 40 of the Linux kernel;
    permissions are part of the world and never change.  Operations are in the
    monad [io]: they may change the world and may throw. *)
From S2P Require Import Prelude CppString.

(** ** Lexical paths *)
Definition is_absolute (p : string) : bool := starts_with "/" p.

(** The text between slashes: ["/a//b/"] gives [[""; "a"; ""; "b"; ""]]. *)
Fixpoint split_slash (s : string) : list string :=
  match s with
  | "" => [""]
  | String c s =>
      if bool_decide (c = "/"%char) then "" :: split_slash s
      else match split_slash s with
           | [] => [String c ""]
           | w :: ws => String c w :: ws
           end
  end.

(** The names of a path; [trailing_slash] tells whether an empty one follows. *)
Definition names (p : string) : list string := List.filter (λ s, negb (is_empty s)) (split_slash p).
Definition has_filename (p : string) : bool :=
  match last_char p with None => false | Some c => bool_decide (c ≠ "/"%char) end.
Definition trailing_slash (p : string) : bool := negb (has_filename p) && negb (bool_decide (names p = [])).

(** The elements of [for (part : p)]. *)
Definition path_parts (p : string) : list string :=
  (if is_absolute p then ["/"] else []) ++ names p ++ (if trailing_slash p then [""] else []).

(** [a / b] *)
Definition path_append (a b : string) : string :=
  if is_absolute b then b
  else if has_filename a then a +:+ "/" +:+ b else a +:+ b.

Fixpoint join (l : list string) : string :=
  match l with
  | [] => ""
  | [x] => x
  | x :: l => x +:+ "/" +:+ join l
  end.

(** The text of a location, and of a normalized relative path. *)
Definition render (root : bool) (l : list string) : string := (if root then "/" else "") +:+ join l.

(** One part of [lexically_normal]: [acc] holds the names kept so far, last
    first; [slash] tells whether the text ends in a separator. *)
Definition normal_step (root : bool) (s : list string * bool) (part : string) : list string * bool :=
  let '(acc, slash) := s in
  if String.eqb part ".." then
    match acc with
    | [] => if root then ([], false) else ([".."], false)
    | x :: acc' => if String.eqb x ".." then (".." :: acc, false) else (acc', negb (bool_decide (acc' = [])))
    end
  else if is_empty part || String.eqb part "." then (acc, negb (bool_decide (acc = [])))
  else (part :: acc, false).

Definition lexically_normal (p : string) : string :=
  if is_empty p then "" else
  let root := is_absolute p in
  let '(acc, slash) := foldl (normal_step root) ([], false)
                         (names p ++ if trailing_slash p then [""] else []) in
  let slash := match acc with ".." :: _ => false | _ => slash end in
  match root, acc with
  | false, [] => "."
  | _, _ => render root (reverse acc) +:+ (if slash then "/" else "")
  end.

(** The last element, empty after a slash. *)
Definition filename (p : string) : string :=
  if has_filename p then default "" (last (split_slash p)) else "".

(** [parent_path]: without the last element and the slashes before it. *)
Fixpoint strip_slashes (rev : list ascii) : list ascii :=
  match rev with
  | c :: ((_ :: _) as r) => if bool_decide (c = "/"%char) then strip_slashes r else rev
  | _ => rev
  end.
Fixpoint drop_name (rev : list ascii) : list ascii :=
  match rev with
  | c :: r => if bool_decide (c = "/"%char) then rev else drop_name r
  | [] => []
  end.
Definition parent_path (p : string) : string :=
  String.string_of_list_ascii
    (reverse (strip_slashes (drop_name (reverse (String.list_ascii_of_string p))))).

(** [path(p).extension()]: from the last period of the file name, which must not
    be its first character. *)
Fixpoint last_period (s : string) : option nat :=
  match s with
  | "" => None
  | String c s =>
      match last_period s with
      | Some n => Some (S n)
      | None => if bool_decide (c = "."%char) then Some 0%nat else None
      end
  end.
Definition extension (p : string) : string :=
  let f := filename p in
  if String.eqb f ".." then "" else
  match last_period f with
  | Some (S n) => str_drop (S n) f
  | _ => ""
  end.

(** ** The world *)
Definition location := list string.

Inductive node := File (contents : string) | Dir | Link (target : string).
#[export] Instance node_eq : EqDecision node.
Proof. solve_decision. Defined.

(** [nodes] holds everything below the root directory.  [cwd] is the text of the
    working directory; the predicates are what the operating system allows. *)
Record world := MkWorld {
  nodes : gmap location node;
  cwd : string;
  may_search : location → bool;
  may_read : location → bool;
  may_write : location → bool
}.

Definition with_nodes (n : gmap location node) (w : world) : world :=
  MkWorld n (cwd w) (may_search w) (may_read w) (may_write w).

Definition node_at (w : world) (l : location) : option node :=
  match l with [] => Some Dir | _ => nodes w !! l end.

Definition parent (l : location) : location := take (pred (length l)) l.

(** What a lookup finds: a node; nothing, in an existing directory and under the
    last name; nothing at all; or an error that is not "not found". *)
Inductive lookup_result :=
  | Found (l : location)
  | Absent (dir : location) (name : string)
  | Missing
  | Failed.

(** Follow [todo] from the directory [cur]; [links] more links may be followed,
    the last one only if [follow]. *)
Fixpoint walk (links : nat) (w : world) (follow : bool) (cur : location) (todo : list string)
    : lookup_result :=
  (fix go (cur : location) (todo : list string) : lookup_result :=
     match todo with
     | [] => Found cur
     | c :: todo =>
         match node_at w cur with
         | Some Dir =>
             if is_empty c then go cur todo
             else if negb (may_search w cur) then Failed
             else if String.eqb c "." then go cur todo
             else if String.eqb c ".." then go (parent cur) todo
             else let next := cur ++ [c] in
                  match nodes w !! next with
                  | None => if bool_decide (todo = []) then Absent cur c else Missing
                  | Some (Link target) =>
                      if negb follow && bool_decide (todo = []) then Found next else
                      match links with
                      | O => Failed
                      | S links => walk links w follow (if is_absolute target then [] else cur)
                                     (split_slash target ++ todo)
                      end
                  | Some _ => go next todo
                  end
         | _ => Missing
         end
     end) cur todo.

Definition absolute (w : world) (p : string) : string :=
  if is_absolute p then p else path_append (cwd w) p.

Definition lookup_path (follow : bool) (w : world) (p : string) : lookup_result :=
  if is_empty p then Missing else walk 40 w follow [] (split_slash (absolute w p)).

(** ** Effects *)

(** An operation gives a result, or [None] when it throws, and the new world. *)
Definition io (A : Type) : Type := world → option A * world.
Definition ret {A} (a : A) : io A := λ w, (Some a, w).
Definition throw {A} : io A := λ w, (None, w).
Definition bind {A B} (m : io A) (k : A → io B) : io B := λ w,
  match m w with
  | (None, w) => (None, w)
  | (Some a, w) => k a w
  end.
(** [try { m } catch (const std::exception&) { h }] *)
Definition try_catch {A} (m h : io A) : io A := λ w,
  match m w with
  | (None, w) => h w
  | r => r
  end.
Definition ask {A} (f : world → A) : io A := λ w, (Some (f w), w).

Declare Scope io_scope.
Delimit Scope io_scope with io.
Notation "'do' x '<-' m ';' k" := (bind m (λ x, k))
  (at level 10, x name, m at level 100, k at level 200, format "'do'  x  '<-'  m ';' '//' k") : io_scope.
Notation "'if!' c 'then' a 'else' b" := (bind c (λ v : bool, if v then a else b))
  (at level 10, c at level 100, a at level 100, b at level 200) : io_scope.
Open Scope io_scope.

Definition io_and (a b : io bool) : io bool := if! a then b else ret false.
Definition io_not (a : io bool) : io bool := do v <- a; ret (negb v).

(** ** Queries: [status] and [symlink_status] throw on errors other than "not
    found" *)
Definition test (follow : bool) (f : node → bool) (p : string) : io bool := λ w,
  match lookup_path follow w p with
  | Failed => (None, w)
  | Found l => (Some (from_option f false (node_at w l)), w)
  | _ => (Some false, w)
  end.

Definition exists_ : string → io bool := test true (λ _, true).
Definition is_directory : string → io bool := test true (λ n, bool_decide (n = Dir)).
Definition is_regular_file : string → io bool :=
  test true (λ n, match n with File _ => true | _ => false end).
Definition is_symlink : string → io bool :=
  test false (λ n, match n with Link _ => true | _ => false end).

(** [canonical]: the location the path leads to; throws if there is none. *)
Definition canonical (p : string) : io string := λ w,
  match lookup_path true w p with
  | Found l => (Some (render true l), w)
  | _ => (None, w)
  end.

(** The loop of [weakly_canonical]: the longest existing prefix and the parts
    that are left. *)
Fixpoint existing_prefix (result : string) (parts : list string) : io (string * list string) :=
  match parts with
  | [] => ret (result, [])
  | part :: rest =>
      if! exists_ (path_append result part) then existing_prefix (path_append result part) rest
      else ret (result, parts)
  end.

Definition weakly_canonical (p : string) : io string :=
  do r <- existing_prefix "" (path_parts p);
  do base <- (if is_empty r.1 then ret "" else canonical r.1);
  ret (lexically_normal (foldl path_append base r.2)).

(** ** Changes *)
Definition put (l : location) (n : node) : io unit := λ w, (Some tt, with_nodes (<[l := n]> (nodes w)) w).

(** [mkdir]: [true] if it made the directory, [false] if one is there. *)
Definition create_directory (p : string) : io bool := λ w,
  match lookup_path false w (if trailing_slash p then parent_path p else p) with
  | Found _ => (do d <- is_directory p; if d : bool then ret false else throw) w
  | Absent dir name =>
      if may_write w dir then (do _ <- put (dir ++ [name]) Dir; ret true) w else (None, w)
  | _ => (None, w)
  end.

(** The missing directories of a path from the top down; the result is that of
    the last one. *)
Fixpoint create_each (made : bool) (prefix : string) (parts : list string) : io bool :=
  match parts with
  | [] => ret made
  | part :: parts =>
      let prefix := path_append prefix part in
      do there <- is_directory prefix;
      do made <- (if there : bool then ret false else create_directory prefix);
      create_each made prefix parts
  end.

Definition create_directories (p : string) : io bool :=
  if is_empty p then throw else
  create_each false (if is_absolute p then "/" else "") (names p).

(** Below a location: the location itself and everything under it. *)
Definition below (l k : location) : bool := bool_decide (l `prefix_of` k).

Definition children (w : world) (l : location) : list location :=
  List.filter (λ k, bool_decide (parent k = l ∧ k ≠ [])) (map_to_list (nodes w)).*1.

Definition descendants (w : world) (l : location) : list location :=
  List.filter (λ k, below l k && negb (bool_decide (k = l))) (map_to_list (nodes w)).*1.

(** [remove]: a link itself, a file, or an empty directory; [false] if there is
    nothing. *)
Definition remove (p : string) : io bool := λ w,
  match lookup_path false w p with
  | Failed => (None, w)
  | Found l =>
      if bool_decide (l = []) || negb (may_write w (parent l)) || negb (bool_decide (children w l = []))
      then (None, w)
      else (Some true, with_nodes (delete l (nodes w)) w)
  | _ => (Some false, w)
  end.

(** [remove_all]: the number of nodes removed.  The whole tree must be
    removable; otherwise it throws. *)
Definition remove_all (p : string) : io nat := λ w,
  match lookup_path false w p with
  | Failed => (None, w)
  | Found l =>
      if bool_decide (l = []) || negb (may_write w (parent l)) ||
         existsb (λ k, negb (may_write w (parent k))) (descendants w l)
      then (None, w)
      else (Some (S (length (descendants w l))),
            with_nodes (filter (λ kn, below l kn.1 = false) (nodes w)) w)
  | _ => (Some 0, w)
  end.

(** Opening for reading: the contents, if it opens. *)
Definition open_read (p : string) : io (option string) := λ w,
  match lookup_path true w p with
  | Found l => match node_at w l with
               | Some (File s) => (Some (if may_read w l then Some s else None), w)
               | _ => (Some None, w)
               end
  | _ => (Some None, w)
  end.

(** [std::ifstream] and everything it gives: a directory opens and has nothing
    to read. *)
Definition read_stream (p : string) : io (option string) := λ w,
  match lookup_path true w p with
  | Found l => match node_at w l with
               | Some Dir => (Some (if may_read w l then Some "" else None), w)
               | _ => open_read p w
               end
  | _ => open_read p w
  end.

(** Opening for writing, truncated, created if missing; [exclusive] fails if
    anything is there.  Gives the location of the open file. *)
Definition open_write (exclusive : bool) (p : string) : io (option location) := λ w,
  match lookup_path (negb exclusive) w p with
  | Found l =>
      match node_at w l with
      | Some (File _) =>
          if exclusive || negb (may_write w l) then (Some None, w)
          else (Some (Some l), with_nodes (<[l := File ""]> (nodes w)) w)
      | _ => (Some None, w)
      end
  | Absent dir name =>
      if may_write w dir then (Some (Some (dir ++ [name])), with_nodes (<[dir ++ [name] := File ""]> (nodes w)) w)
      else (Some None, w)
  | _ => (Some None, w)
  end.

(** Opening for appending, created if missing. *)
Definition open_append (p : string) : io (option location) := λ w,
  match lookup_path true w p with
  | Found l =>
      match node_at w l with
      | Some (File _) => (Some (if may_write w l then Some l else None), w)
      | _ => (Some None, w)
      end
  | Absent dir name =>
      if may_write w dir then (Some (Some (dir ++ [name])), with_nodes (<[dir ++ [name] := File ""]> (nodes w)) w)
      else (Some None, w)
  | _ => (Some None, w)
  end.

(** Appending to an open file. *)
Definition append_to (l : location) (data : string) : io unit := λ w,
  match nodes w !! l with
  | Some (File s) => (Some tt, with_nodes (<[l := File (s +:+ data)]> (nodes w)) w)
  | _ => (Some tt, w)
  end.

(** [data] at the position [pos] of a file, which is filled up with zero bytes
    if it is shorter. *)
Fixpoint zeros (n : nat) : string := match n with O => "" | S n => String zero (zeros n) end.
Definition overwrite_at (pos : nat) (data c : string) : string :=
  str_take pos c +:+ zeros (pos - String.length c) +:+ data +:+ str_drop (pos + String.length data) c.

(** Writing to an open file at the stream's position. *)
Definition write_at (l : location) (pos : nat) (data : string) : io unit := λ w,
  match nodes w !! l with
  | Some (File c) => (Some tt, with_nodes (<[l := File (overwrite_at pos data c)]> (nodes w)) w)
  | _ => (Some tt, w)
  end.

(** The two paths lead to the same node. *)
Definition same_file (a b : string) : io bool := λ w,
  match lookup_path true w a, lookup_path true w b with
  | Found x, Found y => (Some (bool_decide (x = y)), w)
  | _, _ => (Some false, w)
  end.

(** [copy_file] with [overwrite_existing] or [none]. *)
Definition copy_file (from to : string) (overwrite : bool) : io unit :=
  do src <- open_read from;
  match src with
  | None => throw
  | Some contents =>
      do there <- exists_ to;
      do regular <- is_regular_file to;
      do same <- same_file from to;
      if (there && negb (regular && overwrite)) || same then throw else
      do out <- open_write (negb overwrite) to;
      match out with
      | None => throw
      | Some l => append_to l contents
      end
  end.

(** Move a node and everything under it. *)
Definition moved (src dst : location) (n : gmap location node) : gmap location node :=
  let inside := filter (λ kn, below src kn.1 = true) n in
  map_fold (λ k v m, <[dst ++ drop (length src) k := v]> m)
    (filter (λ kn, below src kn.1 = false ∧ below dst kn.1 = false) n) inside.

(** [rename]: throws when a side cannot be looked up or changed. *)
Definition rename (from to : string) : io unit := λ w,
  match lookup_path false w from, lookup_path false w to with
  | Found src, Found dst =>
      if bool_decide (src = dst) then (Some tt, w) else
      if may_write w (parent src) && may_write w (parent dst) && negb (below src dst) &&
         negb (bool_decide (dst = [])) && bool_decide (children w dst = []) &&
         bool_decide (node_at w src = Some Dir ↔ node_at w dst = Some Dir)
      then (Some tt, with_nodes (moved src dst (nodes w)) w) else (None, w)
  | Found src, Absent dir name =>
      if may_write w (parent src) && may_write w dir && negb (below src (dir ++ [name]))
      then (Some tt, with_nodes (moved src (dir ++ [name]) (nodes w)) w) else (None, w)
  | _, _ => (None, w)
  end.

(** ** Operations that leave the world as it is *)
Class Quiet {A} (m : io A) : Prop := quiet w : (m w).2 = w.
#[export] Typeclasses Opaque ret throw bind try_catch ask io_and io_not test exists_ is_directory
  is_regular_file is_symlink canonical existing_prefix weakly_canonical open_read.

#[export] Instance ret_quiet {A} (a : A) : Quiet (ret a).
Proof. done. Qed.
#[export] Instance throw_quiet {A} : Quiet (@throw A).
Proof. done. Qed.
#[export] Instance ask_quiet {A} (f : world → A) : Quiet (ask f).
Proof. done. Qed.
#[export] Instance bind_quiet {A B} (m : io A) (k : A → io B) :
  Quiet m → (∀ a, Quiet (k a)) → Quiet (bind m k).
Proof.
  intros Hm Hk w. unfold bind. pose proof (Hm w) as E. destruct (m w) as [[a|] w']; cbn in *; [|done].
  rewrite (Hk a). done.
Qed.
#[export] Instance try_catch_quiet {A} (m h : io A) : Quiet m → Quiet h → Quiet (try_catch m h).
Proof.
  intros Hm Hh w. unfold try_catch. pose proof (Hm w) as E. destruct (m w) as [[a|] w']; cbn in *; [done|].
  rewrite (Hh w'). done.
Qed.
#[export] Instance if_quiet {A} (c : bool) (a b : io A) : Quiet a → Quiet b → Quiet (if c then a else b).
Proof. by destruct c. Qed.
#[export] Instance test_quiet follow f p : Quiet (test follow f p).
Proof. intros w. unfold test. by destruct (lookup_path _ _ _). Qed.
#[export] Instance exists_quiet p : Quiet (exists_ p).
Proof. apply test_quiet. Qed.
#[export] Instance is_directory_quiet p : Quiet (is_directory p).
Proof. apply test_quiet. Qed.
#[export] Instance is_regular_file_quiet p : Quiet (is_regular_file p).
Proof. apply test_quiet. Qed.
#[export] Instance is_symlink_quiet p : Quiet (is_symlink p).
Proof. apply test_quiet. Qed.
#[export] Instance canonical_quiet p : Quiet (canonical p).
Proof. intros w. unfold canonical. by destruct (lookup_path _ _ _). Qed.
#[export] Instance existing_prefix_quiet result parts : Quiet (existing_prefix result parts).
Proof. revert result; induction parts; intros result; cbn [existing_prefix]; apply _. Qed.
#[export] Instance weakly_canonical_quiet p : Quiet (weakly_canonical p).
Proof. unfold weakly_canonical. apply _. Qed.
#[export] Instance io_and_quiet a b : Quiet a → Quiet b → Quiet (io_and a b).
Proof. intros ??. unfold io_and. apply _. Qed.
#[export] Instance io_not_quiet a : Quiet a → Quiet (io_not a).
Proof. intros ?. unfold io_not. apply _. Qed.
#[export] Instance open_read_quiet p : Quiet (open_read p).
Proof. intros w. unfold open_read. by repeat case_match. Qed.

Lemma quiet_world {A} (m : io A) `{!Quiet m} w r w' : m w = (r, w') → w' = w.
Proof. intros E. by rewrite <- (quiet (m:=m) w), E. Qed.

(** ** Rewriting an operation by what it gives in a world *)
Lemma bind_some {A B} (m : io A) (k : A → io B) w w' a :
  m w = (Some a, w') → bind m k w = k a w'.
Proof. unfold bind. by intros ->. Qed.

Lemma bind_none {A B} (m : io A) (k : A → io B) w w' :
  m w = (None, w') → bind m k w = (None, w').
Proof. unfold bind. by intros ->. Qed.

Lemma io_not_some (m : io bool) w b w' : m w = (Some b, w') → io_not m w = (Some (negb b), w').
Proof. intros E. unfold io_not. by rewrite (bind_some _ _ _ _ _ E). Qed.

Lemma bind_inv {A B} (m : io A) (k : A → io B) w b w' :
  bind m k w = (Some b, w') → ∃ a w1, m w = (Some a, w1) ∧ k a w1 = (Some b, w').
Proof. unfold bind. destruct (m w) as [[a|] w1]; [eauto|done]. Qed.

Lemma ret_inv {A} (a b : A) w w' : ret a w = (Some b, w') → b = a ∧ w' = w.
Proof. by intros [= -> ->]. Qed.

(** ** Lemmas: texts of clean names *)
Record clean (n : string) : Prop := {
  clean_nonempty : n ≠ "";
  clean_slash : no_char "/" n = true;
  clean_dot : n ≠ ".";
  clean_dotdot : n ≠ ".."
}.

Lemma split_slash_app a s :
  no_char "/" a = true → split_slash (a +:+ String "/" s) = a :: split_slash s.
Proof.
  induction a as [|c a IH]; intros H.
  - by rewrite app_nil_l_str.
  - apply no_char_cons in H as [Hc H]. rewrite app_cons_str. cbn [split_slash].
    by rewrite bool_decide_eq_false_2, IH.
Qed.

Lemma split_slash_name a : no_char "/" a = true → split_slash a = [a].
Proof.
  induction a as [|c a IH]; intros H; [done|]. apply no_char_cons in H as [Hc H].
  cbn [split_slash]. by rewrite bool_decide_eq_false_2, IH.
Qed.

Lemma join_cons x l : l ≠ [] → join (x :: l) = x +:+ String "/" (join l).
Proof. by destruct l. Qed.

Lemma join_app l m : l ≠ [] → m ≠ [] → join (l ++ m) = join l +:+ String "/" (join m).
Proof.
  intros Hl Hm. induction l as [|x l IH]; [done|]. cbn [app]. rewrite join_cons by (by destruct l).
  destruct l as [|y l]; [done|]. rewrite IH by done. rewrite (join_cons x (y :: l)) by done.
  by rewrite app_assoc_str, app_cons_str.
Qed.

Lemma split_join l : l ≠ [] → Forall clean l → split_slash (join l) = l.
Proof.
  intros Hl H. induction H as [|x l Hx H IH]; [done|]. destruct l as [|y l].
  - apply split_slash_name, Hx.
  - rewrite join_cons, split_slash_app by (done || apply Hx). by rewrite IH.
Qed.

Lemma split_render root l :
  l ≠ [] → Forall clean l → split_slash (render root l) = (if root then [""] else []) ++ l.
Proof.
  intros Hl H. unfold render. destruct root.
  - change ("/" +:+ join l) with ("" +:+ String "/" (join l)).
    by rewrite split_slash_app, split_join.
  - by rewrite app_nil_l_str, split_join.
Qed.

Lemma filter_clean l : Forall clean l → List.filter (λ s, negb (is_empty s)) l = l.
Proof.
  induction 1 as [|x l Hx _ IH]; [done|]. cbn [List.filter].
  by rewrite (proj2 (is_empty_false x) (clean_nonempty x Hx)), IH.
Qed.

Lemma names_render root l : Forall clean l → names (render root l) = l.
Proof.
  intros H. destruct (decide (l = [])) as [->|Hl]; [by destruct root|].
  unfold names. rewrite split_render by done. destruct root; cbn [app]; [|by apply filter_clean].
  cbn [List.filter is_empty negb]. by apply filter_clean.
Qed.

Lemma last_char_app s t : t ≠ "" → last_char (s +:+ t) = last_char t.
Proof.
  intros Ht. induction s as [|c s IH]; [done|]. rewrite app_cons_str. cbn [last_char].
  rewrite IH. destruct (s +:+ t) eqn:E; [|done].
  apply (f_equal String.length) in E. rewrite length_app_str in E. destruct t; [done|simpl in E; lia].
Qed.

Lemma last_char_clean n : clean n → ∃ c, last_char n = Some c ∧ c ≠ "/"%char.
Proof.
  intros [Hn Hs _ _]. induction n as [|c n IH]; [done|]. apply no_char_cons in Hs as [Hc Hs].
  destruct n as [|d n]; [by exists c|]. destruct IH as (e & E & He); [done..|]. exists e. by rewrite <- E.
Qed.

Lemma join_nonempty l : l ≠ [] → Forall clean l → join l ≠ "".
Proof.
  intros Hl H. destruct H as [|x l Hx H]; [done|]. pose proof (clean_nonempty x Hx).
  destruct l as [|y l]; [done|]. rewrite join_cons by done. by destruct x.
Qed.

Lemma last_char_join l : l ≠ [] → Forall clean l → ∃ c, last_char (join l) = Some c ∧ c ≠ "/"%char.
Proof.
  intros Hl H. induction H as [|x l Hx H IH]; [done|]. destruct l as [|y l]; [by apply last_char_clean|].
  rewrite join_cons, last_char_app by done. change (String "/" (join (y :: l))) with ("/" +:+ join (y :: l)).
  rewrite last_char_app by (by apply join_nonempty). by apply IH.
Qed.

Lemma has_filename_render root l : l ≠ [] → Forall clean l → has_filename (render root l) = true.
Proof.
  intros Hl H. destruct (last_char_join l Hl H) as (c & E & Hc). unfold has_filename, render.
  rewrite last_char_app by (by apply join_nonempty). rewrite E. by apply bool_decide_eq_true_2.
Qed.

Lemma trailing_render root l : Forall clean l → trailing_slash (render root l) = false.
Proof.
  intros H. unfold trailing_slash. rewrite names_render by done.
  destruct (decide (l = [])) as [->|Hl]; [by rewrite andb_false_r|].
  by rewrite has_filename_render.
Qed.

Lemma absolute_render l : is_absolute (render true l) = true.
Proof. done. Qed.

Lemma relative_render l : Forall clean l → is_absolute (render false l) = false.
Proof.
  intros H. destruct H as [|x l Hx H]; [done|]. unfold render, is_absolute. rewrite app_nil_l_str.
  pose proof (clean_slash x Hx). pose proof (clean_nonempty x Hx).
  assert (∃ d t, join (x :: l) = String d t ∧ d ≠ "/"%char) as (d & t & -> & Hd).
  { destruct x as [|d x]; [done|]. apply no_char_cons in H0 as [Hd _].
    destruct l; [by exists d, x|]. rewrite join_cons by done. by eexists d, _. }
  simpl. by rewrite bool_decide_eq_false_2 by congruence.
Qed.

Lemma parts_render root l :
  Forall clean l → path_parts (render root l) = (if root then ["/"] else []) ++ l.
Proof.
  intros H. unfold path_parts. rewrite names_render, trailing_render, app_nil_r by done.
  destruct root; [done|]. by rewrite relative_render.
Qed.

Lemma append_name l n : Forall clean l → clean n → path_append (render true l) n = render true (l ++ [n]).
Proof.
  intros Hl Hn. unfold path_append.
  assert (is_absolute n = false) as ->.
  { rewrite <- (relative_render [n]) by (by apply Forall_singleton). unfold render. by rewrite app_nil_l_str. }
  destruct (decide (l = [])) as [->|Hne]; [done|].
  rewrite has_filename_render by done. unfold render. rewrite join_app by done.
  by rewrite !app_cons_str, !app_nil_l_str.
Qed.

Lemma append_names l ns : Forall clean l → Forall clean ns →
  foldl path_append (render true l) ns = render true (l ++ ns).
Proof.
  intros Hl Hns. revert l Hl. induction Hns as [|n ns Hn _ IH]; intros l Hl; [by rewrite app_nil_r|].
  cbn [foldl]. rewrite append_name by done. rewrite IH by (apply Forall_app; split; [done|by apply Forall_singleton]).
  by rewrite <- app_assoc.
Qed.

Lemma append_render l ns : Forall clean l → Forall clean ns → ns ≠ [] →
  path_append (render true l) (render false ns) = render true (l ++ ns).
Proof.
  intros Hl Hns Hne. unfold path_append. rewrite relative_render by done.
  destruct (decide (l = [])) as [->|Hnl]; [done|].
  rewrite has_filename_render by done. unfold render. rewrite join_app by done.
  by rewrite !app_cons_str, !app_nil_l_str.
Qed.

Lemma normal_names root acc slash l :
  Forall clean l → l ≠ [] → foldl (normal_step root) (acc, slash) l = (reverse l ++ acc, false).
Proof.
  intros H. revert acc slash. induction H as [|n l [Hn _ Hd Hdd] _ IH]; intros acc slash Hne; [done|].
  cbn [foldl normal_step]. apply String.eqb_neq in Hd, Hdd. rewrite Hdd, Hd.
  apply is_empty_false in Hn. rewrite Hn. cbn [orb]. rewrite reverse_cons, <- app_assoc.
  destruct l as [|m l]; [done|]. by rewrite IH.
Qed.

Lemma normal_render l : Forall clean l → lexically_normal (render true l) = render true l.
Proof.
  intros H. unfold lexically_normal. change (is_empty (render true l)) with false. cbv iota zeta.
  rewrite absolute_render, names_render, trailing_render, app_nil_r by done.
  destruct (decide (l = [])) as [->|Hl]; [done|].
  rewrite normal_names, app_nil_r, reverse_involutive by done.
  assert (match reverse l with ".." :: _ => false | _ => false end = false) as -> by (by repeat case_match).
  by rewrite app_nil_str.
Qed.

(** ** Lemmas: lookups without links *)
Lemma walk_nil links w follow cur : walk links w follow cur [] = Found cur.
Proof. by destruct links. Qed.

Lemma walk_cons links w follow cur c todo :
  walk links w follow cur (c :: todo) =
  match node_at w cur with
  | Some Dir =>
      if is_empty c then walk links w follow cur todo
      else if negb (may_search w cur) then Failed
      else if String.eqb c "." then walk links w follow cur todo
      else if String.eqb c ".." then walk links w follow (parent cur) todo
      else let next := cur ++ [c] in
           match nodes w !! next with
           | None => if bool_decide (todo = []) then Absent cur c else Missing
           | Some (Link target) =>
               if negb follow && bool_decide (todo = []) then Found next else
               match links with
               | O => Failed
               | S links => walk links w follow (if is_absolute target then [] else cur)
                              (split_slash target ++ todo)
               end
           | Some _ => walk links w follow next todo
           end
  | _ => Missing
  end.
Proof. by destruct links. Qed.

(** No link on the way to [l], and its directories can be searched. *)
Definition plain (w : world) (l : location) : Prop :=
  (∀ k t, k `prefix_of` l → node_at w k ≠ Some (Link t)) ∧
  (∀ k, k `prefix_of` l → node_at w k = Some Dir → may_search w k = true).

Lemma plain_prefix w k l : plain w l → k `prefix_of` l → plain w k.
Proof. intros [H1 H2] Hk. split; intros; [eapply H1|eapply H2]; try done; by etrans. Qed.

Lemma plain_app w k l : plain w (k ++ l) → plain w k.
Proof. intros H. eapply plain_prefix; [exact H|]. apply prefix_app_r. reflexivity. Qed.

Lemma node_at_app w l n : node_at w (l ++ [n]) = nodes w !! (l ++ [n]).
Proof. by destruct l. Qed.

Lemma walk_clean links w follow cur c todo :
  clean c → may_search w cur = true → node_at w cur = Some Dir →
  (∀ t, node_at w (cur ++ [c]) ≠ Some (Link t)) →
  walk links w follow cur (c :: todo) =
  match node_at w (cur ++ [c]) with
  | None => if bool_decide (todo = []) then Absent cur c else Missing
  | Some _ => walk links w follow (cur ++ [c]) todo
  end.
Proof.
  intros [Hn _ Hd Hdd] Hs Hdir Hl. rewrite walk_cons, Hdir, Hs. apply is_empty_false in Hn. rewrite Hn.
  apply String.eqb_neq in Hd, Hdd. rewrite Hd, Hdd. cbn [negb]. cbv zeta. rewrite <- node_at_app.
  destruct (node_at w (cur ++ [c])) as [[s| |t]|]; try done. by destruct (Hl t).
Qed.

(** A lookup along plain names finds exactly the node they name, or nothing. *)
Lemma walk_plain links w follow cur ns :
  Forall clean ns → plain w (cur ++ ns) →
  walk links w follow cur ns = Found (cur ++ ns) ∨ walk links w follow cur ns = Missing ∨
  ∃ d n, walk links w follow cur ns = Absent d n.
Proof.
  intros Hns. revert cur. induction Hns as [|n ns Hn _ IH]; intros cur Hp.
  - left. by rewrite walk_nil, app_nil_r.
  - assert (cur ++ n :: ns = (cur ++ [n]) ++ ns) as E by (by rewrite <- app_assoc).
    destruct Hp as [Hl Hs]. destruct (node_at w cur) as [[s| |t]|] eqn:Ec.
    1,3,4: right; left; by rewrite walk_cons, Ec.
    rewrite (walk_clean _ _ _ _ _ _ Hn); [|by apply Hs; [apply prefix_app_r|]|done|].
    2:{ intros t. apply Hl. rewrite E. by apply prefix_app_r. }
    destruct (node_at w (cur ++ [n])) as [m|]; [|case_bool_decide; eauto].
    rewrite E. apply IH. rewrite <- E. done.
Qed.

Lemma lookup_render follow w l :
  Forall clean l → lookup_path follow w (render true l) = walk 40 w follow [] l.
Proof.
  intros H. unfold lookup_path, absolute. rewrite absolute_render. change (is_empty (render true l)) with false.
  cbv iota. destruct (decide (l = [])) as [->|Hl].
  - unfold render. cbn [join]. change (split_slash ("/" +:+ "")) with [""; ""].
    by rewrite !walk_cons, !walk_nil.
  - rewrite split_render by done. cbn [app]. by rewrite walk_cons.
Qed.

Lemma lookup_plain follow w l :
  Forall clean l → plain w l →
  lookup_path follow w (render true l) = Found l ∨ lookup_path follow w (render true l) = Missing ∨
  ∃ d n, lookup_path follow w (render true l) = Absent d n.
Proof. intros Hl Hp. rewrite lookup_render by done. by apply walk_plain. Qed.

(** A query of a plain path does not throw; a positive answer means the path
    leads to the location it names. *)
Lemma test_plain follow f w l :
  Forall clean l → plain w l →
  ∃ b, test follow f (render true l) w = (Some b, w) ∧
    (b = true → lookup_path follow w (render true l) = Found l ∧ from_option f false (node_at w l) = true).
Proof.
  intros Hl Hp. unfold test. destruct (lookup_plain follow w l Hl Hp) as [E|[E|(d & n & E)]]; rewrite E;
    [by eexists|by exists false..].
Qed.

Lemma existing_prefix_plain w k ns :
  Forall clean (k ++ ns) → plain w (k ++ ns) → lookup_path true w (render true k) = Found k →
  ∃ r1 r2, ns = r1 ++ r2 ∧ existing_prefix (render true k) ns w = (Some (render true (k ++ r1), r2), w) ∧
           lookup_path true w (render true (k ++ r1)) = Found (k ++ r1).
Proof.
  revert k. induction ns as [|n ns IH]; intros k Hc Hp Hk; cbn [existing_prefix].
  - exists [], []. by rewrite (app_nil_r k).
  - assert (k ++ n :: ns = (k ++ [n]) ++ ns) as E by (by rewrite <- app_assoc). rewrite E in Hc, Hp.
    apply Forall_app in Hc as Hc'. destruct Hc' as [Hkn Hns].
    apply Forall_app in Hkn as Hkn'. destruct Hkn' as [Hck Hn]. apply Forall_cons in Hn as [Hn _].
    rewrite append_name by done. unfold exists_.
    destruct (test_plain true (λ _, true) w (k ++ [n])) as (b & Eb & Hb);
      [done|by eapply plain_prefix; [|apply prefix_app_r]|].
    rewrite (bind_some _ _ _ _ _ Eb). destruct b.
    + destruct (IH (k ++ [n]) Hc Hp) as (r1 & r2 & -> & Er & Hr); [by apply Hb|].
      exists (n :: r1), r2. rewrite <- app_assoc in Er, Hr. done.
    + exists [], (n :: ns). by rewrite (app_nil_r k).
Qed.

Lemma weakly_canonical_plain w l :
  Forall clean l → plain w l → weakly_canonical (render true l) w = (Some (render true l), w).
Proof.
  intros Hl Hp. unfold weakly_canonical. rewrite parts_render by done. cbn [app existing_prefix].
  assert (lookup_path true w (render true []) = Found []) as E0
    by (rewrite lookup_render by constructor; apply walk_nil).
  change (path_append "" "/") with (render true []).
  assert (exists_ (render true []) w = (Some true, w)) as Ee by (unfold exists_, test; by rewrite E0).
  destruct (existing_prefix_plain w [] l Hl Hp E0) as (r1 & r2 & -> & Er & Hr). cbn [app] in *.
  erewrite bind_some; [|rewrite (bind_some _ _ _ _ _ Ee); exact Er]. cbn [fst snd].
  change (is_empty (render true r1)) with false. cbv iota.
  apply Forall_app in Hl as Hl'. destruct Hl' as [Hr1 Hr2].
  erewrite bind_some; [|unfold canonical; by rewrite Hr].
  unfold ret. by rewrite append_names, normal_render.
Qed.

(** A lookup that succeeds through a last link finds the link itself when it
    does not follow it. *)
Lemma walk_to_link links w cur ns n t x :
  Forall clean ns → clean n → plain w (cur ++ ns) → node_at w ((cur ++ ns) ++ [n]) = Some (Link t) →
  walk links w true cur (ns ++ [n]) = Found x →
  walk links w false cur (ns ++ [n]) = Found ((cur ++ ns) ++ [n]).
Proof.
  intros Hns Hn. revert cur. induction Hns as [|m ns Hm _ IH]; intros cur [Hl Hs] Hlink.
  - rewrite app_nil_r in Hlink. cbn [app]. rewrite !walk_cons.
    destruct (node_at w cur) as [[s| |u]|] eqn:Ec; try done.
    destruct Hn as [Hne _ Hd Hdd]. apply is_empty_false in Hne. apply String.eqb_neq in Hd, Hdd.
    rewrite Hne, Hd, Hdd, Hs; [|apply prefix_app_r; reflexivity|done]. cbn [negb andb]. cbv zeta.
    rewrite <- node_at_app, Hlink. cbn. by rewrite (app_nil_r cur).
  - assert (cur ++ m :: ns = (cur ++ [m]) ++ ns) as E by (by rewrite <- app_assoc).
    rewrite E in Hl, Hs, Hlink |- *. cbn [app].
    destruct (node_at w cur) as [[s| |u]|] eqn:Ec; [by rewrite walk_cons, Ec| |by rewrite walk_cons, Ec..].
    assert (may_search w cur = true) as Hcur
      by (apply Hs; [rewrite <- app_assoc; apply prefix_app_r|]; done).
    rewrite !walk_clean; try done; [|intros u; apply Hl; apply prefix_app_r; done..].
    destruct (node_at w (cur ++ [m])); [|by case_bool_decide]. by apply IH.
Qed.

(** ** The directory of a clean path, and opening a new file in it *)
Lemma list_ascii_app s t :
  String.list_ascii_of_string (s +:+ t) = String.list_ascii_of_string s ++ String.list_ascii_of_string t.
Proof. induction s as [|c s IH]; [done|]. rewrite app_cons_str. cbn. by rewrite IH. Qed.

Lemma drop_name_clean a r :
  no_char "/" a = true →
  drop_name (reverse (String.list_ascii_of_string a) ++ "/"%char :: r) = "/"%char :: r.
Proof.
  intros Ha. rewrite <- (reverse_involutive (String.list_ascii_of_string a)).
  assert (Forall (λ c, c ≠ "/"%char) (reverse (String.list_ascii_of_string a))) as Hf.
  { rewrite Forall_reverse. induction a as [|c a IH]; [constructor|]. cbn in Ha. apply andb_true_iff in Ha as [Hc Ha].
    constructor; [|by apply IH]. by apply negb_true_iff, bool_decide_eq_false in Hc. }
  rewrite reverse_involutive. induction Hf as [|c l Hc _ IH]; [done|]. cbn. by rewrite bool_decide_eq_false_2.
Qed.

Lemma parent_render dir n :
  Forall clean dir → clean n → parent_path (render true (dir ++ [n])) = render true dir.
Proof.
  intros Hd Hn. assert (no_char "/" n = true) as Hs by apply Hn. unfold parent_path.
  destruct (decide (dir = [])) as [->|Hne].
  - unfold render. cbn [app join]. rewrite list_ascii_app, reverse_app. cbn [String.list_ascii_of_string].
    rewrite reverse_singleton, drop_name_clean by done. done.
  - unfold render at 1. rewrite join_app by done. cbn [join].
    change (String "/" n) with ("/" +:+ n). rewrite !list_ascii_app, !reverse_app, <- !app_assoc.
    cbn [String.list_ascii_of_string]. rewrite reverse_singleton. cbn [app].
    rewrite drop_name_clean by done.
    destruct (last_char_join dir Hne Hd) as (c & Hc & Hslash).
    assert (∃ r, reverse (String.list_ascii_of_string (join dir)) = c :: r) as [r Er].
    { clear -Hc. induction (join dir) as [|d s IH]; [done|].
      cbn [String.list_ascii_of_string last_char] in *. rewrite reverse_cons. destruct s as [|d' s]; [injection Hc as ->; by exists []|].
      destruct (IH Hc) as [r ->]. by exists (r ++ [d]). }
    rewrite Er. cbn [app strip_slashes]. rewrite bool_decide_eq_true_2 by done.
    destruct (r ++ ["/"%char]) as [|x rest] eqn:Ex; [by apply app_eq_nil in Ex as [_ ?]|].
    rewrite <- Ex. assert (strip_slashes (c :: r ++ ["/"%char]) = c :: r ++ ["/"%char]) as Est.
    { rewrite Ex. cbn. by rewrite bool_decide_eq_false_2. }
    rewrite Ex in Est |- *. cbn [strip_slashes] in Est. rewrite bool_decide_eq_false_2 by done.
    rewrite <- Ex. replace (c :: r ++ ["/"%char]) with (reverse (String.list_ascii_of_string (render true dir))).
    + by rewrite reverse_involutive, String.string_of_list_ascii_of_string.
    + unfold render. rewrite list_ascii_app, reverse_app, Er. done.
Qed.

Lemma walk_last links w cur ns n follow :
  Forall clean ns → clean n → plain w ((cur ++ ns) ++ [n]) →
  walk links w true cur ns = Found (cur ++ ns) → node_at w (cur ++ ns) = Some Dir →
  walk links w follow cur (ns ++ [n]) =
  match node_at w ((cur ++ ns) ++ [n]) with
  | None => Absent (cur ++ ns) n
  | Some _ => Found ((cur ++ ns) ++ [n])
  end.
Proof.
  intros Hns Hn. revert cur. induction Hns as [|m ns Hm _ IH]; intros cur [Hl Hs] Hf Hdir.
  - rewrite app_nil_r in *. cbn [app]. rewrite walk_clean; try done;
      [|apply Hs; [by apply prefix_app_r|done]|by intros; apply Hl].
    rewrite walk_nil. by destruct (node_at w (cur ++ [n])).
  - assert (cur ++ m :: ns = (cur ++ [m]) ++ ns) as E by (by rewrite <- app_assoc).
    rewrite E in *. cbn [app]. destruct (node_at w cur) as [[s| |u]|] eqn:Ec;
      [by rewrite walk_cons, Ec in Hf| |by rewrite walk_cons, Ec in Hf..].
    assert (∀ t, node_at w (cur ++ [m]) ≠ Some (Link t)) as Hlm
      by (intros t; apply Hl; rewrite <- app_assoc; by apply prefix_app_r).
    assert (may_search w cur = true) as Hcur
      by (apply Hs; [rewrite <- !app_assoc; by apply prefix_app_r|done]).
    rewrite walk_clean in Hf |- * by done.
    destruct (node_at w (cur ++ [m])); [by apply IH|]. by case_bool_decide.
Qed.

(** Creating a file in a directory that is there. *)
Lemma open_write_new w dir n :
  Forall clean (dir ++ [n]) → plain w (dir ++ [n]) →
  lookup_path true w (render true dir) = Found dir → node_at w dir = Some Dir → may_write w dir = true →
  node_at w (dir ++ [n]) = None →
  open_write false (render true (dir ++ [n])) w =
  (Some (Some (dir ++ [n])), with_nodes (<[dir ++ [n] := File ""]> (nodes w)) w).
Proof.
  intros Hc Hp Hf Hdir Hw Hnew. apply Forall_app in Hc as Hc'. destruct Hc' as [Hcd Hcn].
  apply Forall_cons in Hcn as [Hcn _]. rewrite lookup_render in Hf by done.
  unfold open_write. cbn [negb]. rewrite lookup_render by done.
  assert (walk 40 w true [] (dir ++ [n]) = Absent dir n) as ->.
  { rewrite (walk_last 40 w [] dir n true) by done. cbn [app]. by rewrite Hnew. }
  by rewrite Hw.
Qed.

(** A suffix of the last name. *)
Lemma join_suffix dir n x : join (dir ++ [n]) +:+ x = join (dir ++ [n +:+ x]).
Proof.
  destruct (decide (dir = [])) as [->|Hd]; [done|]. rewrite !join_app by done. cbn [join].
  rewrite app_assoc_str. f_equal.
Qed.

Lemma render_suffix root dir n x : render root (dir ++ [n]) +:+ x = render root (dir ++ [n +:+ x]).
Proof. unfold render. by rewrite app_assoc_str, join_suffix. Qed.

Lemma clean_suffix n x : clean n → no_char "/" x = true → (2 < String.length x)%nat → clean (n +:+ x).
Proof.
  intros Hn Hx Hl. assert (no_char "/" n = true) as Hs by apply Hn.
  assert (∀ t, (String.length t ≤ 2)%nat → n +:+ x ≠ t) as Hne.
  { intros t Ht E. apply (f_equal String.length) in E. rewrite length_app_str in E. lia. }
  constructor; [apply Hne; cbn; lia| |apply Hne; cbn; lia|apply Hne; cbn; lia].
  unfold no_char in *. by rewrite forallb_app_str, Hs, Hx.
Qed.

(** ** What every result of an operation satisfies *)
Definition Yields {A} (P : A → Prop) (m : io A) : Prop := ∀ w a w', m w = (Some a, w') → P a.

Lemma yields_ret {A} (P : A → Prop) a : P a → Yields P (ret a).
Proof. by intros H w b w' [= -> _]. Qed.
Lemma yields_bind {A B} (P : B → Prop) (m : io A) k : (∀ a, Yields P (k a)) → Yields P (bind m k).
Proof. intros H w b w' (a & w1 & _ & E)%bind_inv. by eapply H. Qed.
Lemma yields_known {A B} (P : B → Prop) (m : io A) (k : A → io B) a :
  (∀ w, m w = (Some a, w)) → Yields P (k a) → Yields P (bind m k).
Proof. intros Hm H w b w'. rewrite (bind_some _ _ _ _ _ (Hm w)). apply H. Qed.
Lemma yields_try {A} (P : A → Prop) (m h : io A) : Yields P m → Yields P h → Yields P (try_catch m h).
Proof.
  intros Hm Hh w a w'. unfold try_catch. destruct (m w) as [[b|] w1] eqn:E; [|apply Hh].
  intros [= -> ->]. by eapply Hm.
Qed.
Lemma yields_if {A} (P : A → Prop) (c : bool) (a b : io A) :
  (c = true → Yields P a) → (c = false → Yields P b) → Yields P (if c then a else b).
Proof. destruct c; auto. Qed.
Lemma yields_any {A} (m : io A) : Yields (λ _, True) m.
Proof. done. Qed.
