(* ===== verification/Folders.v ===== *)
(** * Directories that hold only files

    The file system seen from one directory: a map from names to contents.  The
    operations of [FileSys] on its files are the operations of the map. *)
From S2P Require Import Prelude CppString FileSys.

Record folder (w : world) (dir : location) (m : gmap string string) : Prop := {
  folder_clean : Forall clean dir;
  folder_way k : k `prefix_of` dir → node_at w k = Some Dir ∧ may_search w k = true;
  folder_write : may_write w dir = true;
  folder_files n : nodes w !! (dir ++ [n]) = File <$> m !! n;
  folder_flat n k l : nodes w !! (dir ++ n :: k :: l) = None
}.

(** The path of a file. *)
Definition file_in (dir : location) (n : string) : string := render true (dir ++ [n]).

Lemma file_in_clean dir n : Forall clean dir → clean n → Forall clean (dir ++ [n]).
Proof. intros Hd Hn. apply Forall_app; auto. Qed.

Section folder.
Context (w : world) (dir : location) (m : gmap string string) (Hf : folder w dir m).

Lemma folder_plain n : plain w (dir ++ [n]).
Proof.
  destruct Hf as [_ Hway _ Hfiles _]. split.
  - intros k t [l E]. destruct l as [|x l _] using rev_ind.
    + rewrite app_nil_r in E. subst k. rewrite node_at_app, Hfiles. by destruct (m !! n).
    + rewrite app_assoc in E. apply app_inj_tail in E as [E _].
      destruct (Hway k) as [-> _]; [by exists l|done].
  - intros k [l E] Hk. destruct l as [|x l _] using rev_ind.
    + rewrite app_nil_r in E. subst k. rewrite node_at_app, Hfiles in Hk. by destruct (m !! n).
    + rewrite app_assoc in E. apply app_inj_tail in E as [E _]. apply (Hway k). by exists l.
Qed.

Lemma folder_found : walk 40 w true [] dir = Found dir.
Proof.
  destruct Hf as [Hc Hway _ _ _].
  assert (∀ l k, k ++ l = dir → walk 40 w true k l = Found dir) as H; [|by apply (H dir [])].
  induction l as [|c l IH]; intros k E.
  - rewrite walk_nil. by rewrite <- E, app_nil_r.
  - destruct (Hway k) as [Hk Hs]; [by exists (c :: l)|].
    assert (node_at w (k ++ [c]) = Some Dir) as Hkc
      by (apply Hway; exists l; by rewrite <- app_assoc).
    rewrite walk_clean; [|rewrite <- E in Hc; by apply Forall_app in Hc as [_ [? _]%Forall_cons]|done|done|by rewrite Hkc].
    rewrite Hkc. apply IH. by rewrite <- app_assoc.
Qed.

Lemma folder_lookup follow n :
  clean n → lookup_path follow w (file_in dir n) =
  match m !! n with Some _ => Found (dir ++ [n]) | None => Absent dir n end.
Proof.
  intros Hn. unfold file_in. pose proof Hf as [Hc Hway _ Hfiles _].
  rewrite lookup_render by by apply file_in_clean.
  rewrite (walk_last 40 w [] dir n follow); [|done|done|apply folder_plain|apply folder_found|by apply Hway].
  cbn [app]. rewrite node_at_app, Hfiles. by destruct (m !! n).
Qed.

Lemma folder_exists n : clean n → exists_ (file_in dir n) w = (Some (bool_decide (is_Some (m !! n))), w).
Proof.
  intros Hn. unfold exists_, test. rewrite folder_lookup by done. pose proof Hf as [_ _ _ Hfiles _].
  destruct (m !! n) eqn:E; [|done]. by rewrite node_at_app, Hfiles, E.
Qed.
End folder.

(** Changing one file. *)
Lemma folder_update w dir m n nodes' m' :
  folder w dir m →
  (∀ l, l ≠ dir ++ [n] → nodes' !! l = nodes w !! l) → nodes' !! (dir ++ [n]) = File <$> m' !! n →
  (∀ x, x ≠ n → m' !! x = m !! x) →
  folder (with_nodes nodes' w) dir m'.
Proof.
  intros [Hc Hway Hw Hfiles Hflat] Hother Hn Hm. constructor; [done| |done| |].
  - intros k Hk. destruct (Hway k Hk) as [Hd Hs]. split; [|done]. rewrite <- Hd. unfold node_at.
    destruct k as [|c k]; [done|]. apply Hother. intros E. rewrite E in Hk. apply prefix_length in Hk.
    rewrite length_app in Hk. cbn in Hk. lia.
  - intros x. cbn. destruct (decide (x = n)) as [->|Hne]; [done|]. rewrite Hother; [by rewrite Hm, Hfiles|].
    intros E. apply app_inj_2 in E as [_ E]; [|done]. congruence.
  - intros x k l. cbn. rewrite Hother; [apply Hflat|]. intros E%app_inj_1; [|done]. by destruct E as [_ E].
Qed.

Lemma folder_insert w dir m n s :
  folder w dir m → folder (with_nodes (<[dir ++ [n] := File s]> (nodes w)) w) dir (<[n := s]> m).
Proof.
  intros Hf. apply (folder_update w dir m n); [done| | |]; intros; by rewrite ?lookup_insert_eq, ?lookup_insert_ne.
Qed.

Lemma folder_delete w dir m n :
  folder w dir m → folder (with_nodes (delete (dir ++ [n]) (nodes w)) w) dir (delete n m).
Proof.
  intros Hf. apply (folder_update w dir m n); [done| | |]; intros; by rewrite ?lookup_delete_eq, ?lookup_delete_ne.
Qed.

(** ** Renaming *)
Lemma parent_last dir n : parent (dir ++ [n]) = dir.
Proof. unfold parent. rewrite length_app. cbn. rewrite Nat.add_1_r. cbn [pred]. by rewrite take_app_length. Qed.

Lemma below_file w dir m n k v :
  folder w dir m → nodes w !! k = Some v → below (dir ++ [n]) k = bool_decide (k = dir ++ [n]).
Proof.
  intros Hf Hk. unfold below. apply bool_decide_ext. split; [|by intros ->].
  intros [l ->]. destruct l as [|c l]; [by rewrite app_nil_r|].
  rewrite <- app_assoc in Hk. cbn [app] in Hk. by rewrite (folder_flat _ _ _ Hf) in Hk.
Qed.

Lemma children_file w dir m n : folder w dir m → children w (dir ++ [n]) = [].
Proof.
  intros Hf. unfold children.
  destruct (List.filter _ _) as [|k l] eqn:E; [done|exfalso].
  assert (k ∈ k :: l) as Hk by apply list_elem_of_here. rewrite <- E in Hk.
  apply list_elem_of_In, filter_In in Hk as [Hk Hp%bool_decide_eq_true]. destruct Hp as [Hp Hne].
  apply list_elem_of_In, list_elem_of_fmap in Hk as ([k' v] & -> & Hk%elem_of_map_to_list). cbn [fst] in *.
  destruct k' as [|c k' _] using rev_ind; [done|]. rewrite parent_last in Hp. subst k'.
  rewrite <- app_assoc in Hk. cbn [app] in Hk. by rewrite (folder_flat _ _ _ Hf) in Hk.
Qed.

Lemma moved_file w dir m a b s :
  folder w dir m → m !! a = Some s →
  moved (dir ++ [a]) (dir ++ [b]) (nodes w) = <[dir ++ [b] := File s]> (delete (dir ++ [a]) (nodes w)).
Proof.
  intros Hf Ha. assert (nodes w !! (dir ++ [a]) = Some (File s)) as Hsrc by by rewrite (folder_files _ _ _ Hf), Ha.
  unfold moved. cbv zeta.
  assert (filter (λ kn, below (dir ++ [a]) kn.1 = true) (nodes w) = {[dir ++ [a] := File s]}) as ->.
  { apply map_eq. intros k. rewrite map_lookup_filter. destruct (nodes w !! k) as [v|] eqn:Ek; cbn.
    - rewrite (below_file _ _ _ _ _ _ Hf Ek). destruct (decide (k = dir ++ [a])) as [->|Hne].
      + rewrite lookup_singleton_eq, option_guard_True; [exact (eq_trans (eq_sym Ek) Hsrc)|]. by apply bool_decide_eq_true.
      + rewrite lookup_singleton_ne, option_guard_False; [done| |by apply not_eq_sym]. by rewrite bool_decide_eq_true.
    - rewrite lookup_singleton_ne; [done|]. intros <-. discriminate (eq_trans (eq_sym Hsrc) Ek). }
  rewrite map_fold_singleton. rewrite drop_all, app_nil_r. apply map_eq. intros k.
  destruct (decide (k = dir ++ [b])) as [->|Hb]; [by rewrite !lookup_insert_eq|]. rewrite !lookup_insert_ne by done.
  rewrite map_lookup_filter. destruct (nodes w !! k) as [v|] eqn:Ek; cbn.
  - rewrite !(below_file _ _ _ _ _ _ Hf Ek). destruct (decide (k = dir ++ [a])) as [->|Hne].
    + rewrite lookup_delete_eq, option_guard_False; [done|]. intros [H _]. by rewrite bool_decide_true in H.
    + rewrite option_guard_True by (by rewrite !bool_decide_false).
      rewrite lookup_delete_ne by (by apply not_eq_sym). exact (eq_sym Ek).
  - destruct (decide (k = dir ++ [a])) as [->|Hne]; [by rewrite lookup_delete_eq|by rewrite lookup_delete_ne].
Qed.

Lemma folder_rename w dir m a b s :
  folder w dir m → clean a → clean b → a ≠ b → m !! a = Some s →
  ∃ w', rename (file_in dir a) (file_in dir b) w = (Some tt, w') ∧ folder w' dir (<[b := s]> (delete a m)).
Proof.
  intros Hf Hca Hcb Hab Ha. eexists. split; [|exact (folder_insert _ _ _ b s (folder_delete _ _ _ a Hf))].
  unfold rename. rewrite !(folder_lookup _ _ _ Hf), Ha by done.
  assert (dir ++ [a] ≠ dir ++ [b]) as Hne by (intros E%app_inj_1; [|done]; destruct E as [_ [= E]]; done).
  assert (below (dir ++ [a]) (dir ++ [b]) = false) as Hbelow.
  { unfold below. apply bool_decide_eq_false. intros [l E]. apply (f_equal length) in E as El.
    rewrite !length_app in El. destruct l; [|cbn in El; lia]. rewrite app_nil_r in E. done. }
  destruct (m !! b) as [t|] eqn:Eb;
    rewrite ?parent_last, ?(folder_write _ _ _ Hf), ?Hbelow, ?(moved_file _ _ _ _ _ _ Hf Ha); cbn [andb negb]; [|done].
  rewrite (children_file _ _ _ _ Hf), !node_at_app, !(folder_files _ _ _ Hf), Ha, Eb.
  rewrite (bool_decide_false _ Hne), (bool_decide_false (dir ++ [b] = [])) by (by destruct dir).
  by rewrite !bool_decide_true.
Qed.

(** ** Opening for writing *)
Lemma folder_open w dir m n :
  folder w dir m → clean n → m !! n = None →
  ∃ w', open_write false (file_in dir n) w = (Some (Some (dir ++ [n])), w') ∧ folder w' dir (<[n := ""]> m).
Proof.
  intros Hf Hc Hn. eexists. split; [|exact (folder_insert _ _ _ n "" Hf)].
  unfold open_write. cbn [negb]. by rewrite (folder_lookup _ _ _ Hf), Hn, (folder_write _ _ _ Hf).
Qed.

(** ** Numbered copies of a file, [stem.i.ext] *)
(** [path(p).stem()] *)
Definition stem (p : string) : string :=
  str_take (String.length (filename p) - String.length (extension p)) (filename p).

Lemma filename_in dir n : Forall clean dir → clean n → filename (file_in dir n) = n.
Proof.
  intros Hd Hn. unfold filename, file_in. assert (Forall clean (dir ++ [n])) as H by by apply file_in_clean.
  assert (dir ++ [n] ≠ []) as Hne by by destruct dir.
  rewrite has_filename_render by done. rewrite split_render by done. cbn [app].
  change ("" :: dir ++ [n]) with (("" :: dir) ++ [n]). by rewrite last_snoc.
Qed.

Lemma last_period_Some s k : last_period s = Some k → ∃ r, str_drop k s = String "." r.
Proof.
  revert k. induction s as [|c s IH]; intros k; cbn [last_period]; [done|].
  destruct (last_period s) as [j|]; [intros [= <-]; by apply IH|].
  case_bool_decide as Hc; [|done]. intros [= <-]. rewrite drop_0, Hc. eauto.
Qed.

(** A stem is not empty; an extension is empty or begins with a period. *)
Definition starts_period (b : string) : Prop := b = "" ∨ ∃ r, b = String "." r.

Lemma stem_extension dir n :
  Forall clean dir → clean n →
  let a := stem (file_in dir n) in let b := extension (file_in dir n) in
  n = a +:+ b ∧ a ≠ "" ∧ starts_period b.
Proof.
  intros Hd Hn. unfold stem, extension. rewrite filename_in by done.
  assert (String.eqb n ".." = false) as -> by (apply String.eqb_neq, Hn). cbv zeta.
  assert (n = str_take (String.length n - 0) n +:+ "" ∧ str_take (String.length n - 0) n ≠ "" ∧ starts_period "") as Hall.
  { rewrite Nat.sub_0_r, take_all_str, app_nil_str. split; [done|]. split; [apply Hn|by left]. }
  destruct (last_period n) as [[|k]|] eqn:E; [exact Hall| |exact Hall].
  destruct (last_period_Some _ _ E) as [r Er]. rewrite length_drop_str.
  assert (S k < String.length n)%nat as Hk.
  { apply (f_equal String.length) in Er. rewrite length_drop_str in Er. cbn [String.length] in Er. lia. }
  replace (String.length n - (String.length n - S k))%nat with (S k) by lia. rewrite take_drop_str.
  split; [done|]. split; [|right; eauto]. intros H%(f_equal String.length).
  rewrite length_take_str in H. cbn [String.length] in H. lia.
Qed.

Definition numbered (a b : string) (i : nat) : string := a +:+ "." +:+ to_string (Z.of_nat i) +:+ b.

Section numbered.
Context (a b : string) (Ha : a ≠ "") (Hb : starts_period b) (Hn : clean (a +:+ b)).

Lemma number_no_char c i : isdigit c = false → no_char c (to_string (Z.of_nat i)) = true.
Proof. intros Hc. apply digits_no_char; [done|]. apply to_string_digits. Qed.

Lemma numbered_length i : (String.length (a +:+ b) + 1 < String.length (numbered a b i))%nat.
Proof. unfold numbered. rewrite !length_app_str. cbn. pose proof (to_string_nonempty i). lia. Qed.

Lemma numbered_clean i : clean (numbered a b i).
Proof.
  assert (2 < String.length (numbered a b i))%nat as Hlen.
  { pose proof (numbered_length i) as H. rewrite length_app_str in H. destruct a; [done|]. cbn in *. lia. }
  destruct Hn as [_ Hs _ _]. apply no_char_app in Hs as [Hsa Hsb].
  constructor; [| |intros E; rewrite E in Hlen; cbn in Hlen; lia..].
  - intros E. rewrite E in Hlen. cbn in Hlen. lia.
  - unfold numbered. by rewrite !no_char_app, number_no_char.
Qed.

Lemma numbered_ne i : numbered a b i ≠ a +:+ b.
Proof. intros E. pose proof (numbered_length i) as H. rewrite E in H. lia. Qed.

(** What follows the number, up to the extension. *)
Lemma number_end i j r :
  to_string (Z.of_nat i) +:+ b = to_string (Z.of_nat j) +:+ b +:+ r →
  r = "" ∧ i = j ∨ to_string (Z.of_nat i) = to_string (Z.of_nat j) +:+ r.
Proof.
  intros E. destruct Hb as [->|[x ->]]; [right; by rewrite app_nil_str, app_nil_l_str in E|].
  left. rewrite app_cons_str in E. apply (f_equal (split_at ".")) in E.
  rewrite !split_at_app in E by by apply number_no_char. injection E as E1 E2.
  apply to_string_inj in E1. split; [|lia]. apply (f_equal String.length) in E2.
  rewrite length_app_str in E2. destruct r; [done|]. cbn in E2. lia.
Qed.

(** Numbered names that are equal up to a suffix. *)
Lemma numbered_suffix i j r :
  numbered a b i = numbered a b j +:+ r → r = "" ∧ i = j ∨ to_string (Z.of_nat i) = to_string (Z.of_nat j) +:+ r.
Proof.
  unfold numbered. intros E. rewrite !app_assoc_str in E.
  apply (f_equal (str_drop (String.length (a +:+ ".")))) in E.
  rewrite <- !(app_assoc_str a), !drop_app_str in E. by apply number_end.
Qed.

Lemma numbered_inj i j : numbered a b i = numbered a b j → i = j.
Proof.
  intros E. destruct (numbered_suffix i j "") as [[_ H]|H]; [by rewrite app_nil_str|done|].
  rewrite app_nil_str in H. apply to_string_inj in H. lia.
Qed.

Lemma numbered_gz i j : numbered a b i ≠ numbered a b j +:+ ".gz".
Proof.
  intros [[H _]|H]%numbered_suffix; [done|].
  pose proof (number_no_char "." i eq_refl) as Hi. rewrite H, no_char_app in Hi. by destruct Hi.
Qed.
End numbered.

(** ** A world with one directory *)
Definition one_folder (d : string) (m : gmap string string) : world :=
  MkWorld (<[[d] := Dir]> (kmap (λ n, [d; n]) (File <$> m))) "/" (λ _, true) (λ _, true) (λ _, true).

Lemma one_folder_ok d m : clean d → folder (one_folder d m) [d] m.
Proof.
  intros Hd. assert (Inj (=) (=) (λ n, [d; n])) as Hinj by (by intros x y [= ->]).
  set (inner := kmap (λ n, [d; n]) (File <$> m) : gmap location node).
  assert (∀ l, l ≠ [d] → nodes (one_folder d m) !! l = inner !! l) as Hother
    by (intros l Hl; cbn; by rewrite lookup_insert_ne).
  constructor; [by apply Forall_singleton| |done| |].
  - intros k Hk. split; [|done].
    destruct k as [|c k]; [done|]. apply prefix_cons_inv_1 in Hk as Hc. subst c.
    apply prefix_cons_inv_2, prefix_nil_inv in Hk. subst k. cbn. by rewrite lookup_insert_eq.
  - intros n. cbn [app]. rewrite Hother by done. unfold inner. by rewrite (lookup_kmap (λ n, [d; n])), lookup_fmap.
  - intros n k l. cbn [app]. rewrite Hother by done. apply lookup_kmap_None; [done|]. done.
Qed.
