(* ===== verification/Logger.v ===== *)
(** * The logger: [utils/logger.cpp]

    A [Logger] with its mutex, which is not recursive: an operation either ends,
    throws, or waits for ever.  Formatting a time and matching a regular
    expression are the library's; both are parameters. *)
From S2P Require Import Prelude CppString FileSys Folders.
Open Scope Z_scope.

Inductive LogLevel := DEBUG | INFO | WARN | ERROR | FATAL.
Inductive LogFormat := TEXT | JSON.
#[export] Instance LogFormat_eq_dec : EqDecision LogFormat.
Proof. solve_decision. Defined.

Definition level_number (l : LogLevel) : Z :=
  match l with DEBUG => 0 | INFO => 1 | WARN => 2 | ERROR => 3 | FATAL => 4 end.
Definition level_name (l : LogLevel) : string :=
  match l with
  | DEBUG => "DEBUG" | INFO => "INFO" | WARN => "WARN" | ERROR => "ERROR" | FATAL => "FATAL"
  end.

Record LogEntry := MkEntry {
  timestamp : Z;
  level : LogLevel;
  message : string;
  component : string;
  fields : gmap string string
}.

(** ** Entries as text *)
Section text.
Context (put_time : Z → string).

Definition toJSON (e : LogEntry) : string :=
  "{" +:+ quote "timestamp" +:+ ":" +:+ quote (put_time (timestamp e)) +:+ "," +:+
  quote "level" +:+ ":" +:+ quote (level_name (level e)) +:+ "," +:+
  quote "message" +:+ ":" +:+ quote (message e) +:+
  (if is_empty (component e) then "" else "," +:+ quote "component" +:+ ":" +:+ quote (component e)) +:+
  (if bool_decide (fields e = ∅) then "" else
     "," +:+ quote "fields" +:+ ":{" +:+
     separated "," (λ kv, quote kv.1 +:+ ":" +:+ quote kv.2) (map_entries (fields e)) +:+ "}") +:+ "}".

Definition toText (e : LogEntry) : string :=
  "[" +:+ put_time (timestamp e) +:+ "] [" +:+ level_name (level e) +:+ "]" +:+
  (if is_empty (component e) then "" else " [" +:+ component e +:+ "]") +:+ " " +:+ message e +:+
  (if bool_decide (fields e = ∅) then "" else
     " {" +:+ separated ", " (λ kv, kv.1 +:+ "=" +:+ kv.2) (map_entries (fields e)) +:+ "}").
End text.

(** ** The logger *)
Record Logger := MkLogger {
  level_ : LogLevel;
  format_ : LogFormat;
  log_file_ : string;
  log_stream_ : option location; (* the open file *)
  max_file_size_ : Z;
  max_files_ : Z;
  compress_old_logs_ : bool;
  current_file_size_ : Z;
  filters_ : list string;
  console : string; (* what was written to the standard output *)
  held : bool (* the mutex *)
}.

Definition new_logger : Logger := MkLogger INFO TEXT "" None (10 * 1024 * 1024) 5 true 0 [] "" false.

Definition with_settings (lv : LogLevel) (fm : LogFormat) (size files : Z) (compress : bool) (g : Logger) : Logger :=
  MkLogger lv fm (log_file_ g) (log_stream_ g) size files compress (current_file_size_ g) (filters_ g) (console g)
    (held g).
Definition with_file (name : string) (stream : option location) (size : Z) (g : Logger) : Logger :=
  MkLogger (level_ g) (format_ g) name stream (max_file_size_ g) (max_files_ g) (compress_old_logs_ g) size
    (filters_ g) (console g) (held g).
Definition with_filters (fs : list string) (g : Logger) : Logger :=
  MkLogger (level_ g) (format_ g) (log_file_ g) (log_stream_ g) (max_file_size_ g) (max_files_ g)
    (compress_old_logs_ g) (current_file_size_ g) fs (console g) (held g).
Definition with_console (s : string) (g : Logger) : Logger :=
  MkLogger (level_ g) (format_ g) (log_file_ g) (log_stream_ g) (max_file_size_ g) (max_files_ g)
    (compress_old_logs_ g) (current_file_size_ g) (filters_ g) s (held g).
Definition with_held (b : bool) (g : Logger) : Logger :=
  MkLogger (level_ g) (format_ g) (log_file_ g) (log_stream_ g) (max_file_size_ g) (max_files_ g)
    (compress_old_logs_ g) (current_file_size_ g) (filters_ g) (console g) b.

(** ** Operations: they end, throw, or wait for ever *)
Inductive outcome (A : Type) := Done (a : A) | Threw | Blocked.
Arguments Done {A} _.
Arguments Threw {A}.
Arguments Blocked {A}.

Definition op (A : Type) : Type := Logger → world → outcome A * Logger * world.
#[export] Instance op_ret : MRet op := λ A a g w, (Done a, g, w).
#[export] Instance op_bind : MBind op := λ A B k m g w,
  match m g w with
  | (Done a, g, w) => k a g w
  | (Threw, g, w) => (Threw, g, w)
  | (Blocked, g, w) => (Blocked, g, w)
  end.
Definition get {A} (f : Logger → A) : op A := λ g w, (Done (f g), g, w).
Definition update (f : Logger → Logger) : op unit := λ g w, (Done tt, f g, w).
Definition file {A} (m : io A) : op A := λ g w,
  match m w with
  | (Some a, w) => (Done a, g, w)
  | (None, w) => (Threw, g, w)
  end.
(** [std::lock_guard] around the rest of a function. *)
Definition guarded {A} (m : op A) : op A := λ g w,
  if held g then (Blocked, g, w) else
  match m (with_held true g) w with
  | (Blocked, g, w) => (Blocked, g, w)
  | (r, g, w) => (r, with_held false g, w)
  end.

(** ** Settings *)
Definition setLevel (l : LogLevel) : op unit := guarded (update (λ g,
  with_settings l (format_ g) (max_file_size_ g) (max_files_ g) (compress_old_logs_ g) g)).
Definition getLevel (g : Logger) : LogLevel := level_ g.
Definition setFormat (f : LogFormat) : op unit := guarded (update (λ g,
  with_settings (level_ g) f (max_file_size_ g) (max_files_ g) (compress_old_logs_ g) g)).
Definition getFormat (g : Logger) : LogFormat := format_ g.
Definition setMaxFileSize (n : Z) : op unit := guarded (update (λ g,
  with_settings (level_ g) (format_ g) n (max_files_ g) (compress_old_logs_ g) g)).
Definition setMaxFiles (n : Z) : op unit := guarded (update (λ g,
  with_settings (level_ g) (format_ g) (max_file_size_ g) n (compress_old_logs_ g) g)).
Definition setCompressOldLogs (b : bool) : op unit := guarded (update (λ g,
  with_settings (level_ g) (format_ g) (max_file_size_ g) (max_files_ g) b g)).

(** The size of an open file. *)
Definition size_of (w : world) (l : location) : Z :=
  match nodes w !! l with Some (File s) => Z.of_nat (String.length s) | _ => 0 end.

Definition setFile (name : string) : op unit := guarded (
  update (λ g, with_file name None (current_file_size_ g) g);;
  if is_empty name then mret tt else
  stream ← file (open_append name);
  match stream with
  | Some l => size ← file (ask (λ w, size_of w l)); update (with_file name (Some l) size)
  | None => mret tt
  end).

Definition addFilter (pattern : string) : op unit := guarded (update (λ g, with_filters (filters_ g ++ [pattern]) g)).
Definition removeFilter (pattern : string) : op unit := guarded (update (λ g,
  with_filters (List.filter (λ f, negb (String.eqb f pattern)) (filters_ g)) g)).
Definition clearFilters : op unit := guarded (update (with_filters [])).

(** ** Rotation *)
Definition getLogFilename (index : nat) (g : Logger) : string :=
  if is_empty (log_file_ g) then "" else
  let dir := parent_path (log_file_ g) in
  let rotated_file := stem (log_file_ g) +:+ "." +:+ to_string (Z.of_nat index) +:+ extension (log_file_ g) in
  if is_empty dir then rotated_file else dir +:+ "/" +:+ rotated_file.

Definition compressLog (filename : string) : io unit :=
  if! exists_ filename then rename filename (filename +:+ ".gz") else ret tt.

(** The loop, from [i] down to 1; [last] is its first index. *)
Fixpoint rotate_files (compress : bool) (name : nat → string) (last i : nat) : io unit :=
  match i with
  | O => ret tt
  | S j =>
      do _ <- (if! exists_ (name j)
               then (if bool_decide (i = last) && compress then compressLog (name j) else rename (name j) (name i))
               else ret tt);
      rotate_files compress name last j
  end.

Definition rotateLog : op unit := guarded (
  name ← get log_file_;
  stream ← get log_stream_;
  if is_empty name || bool_decide (stream = None) then mret tt else
  update (λ g, with_file name None (current_file_size_ g) g);;
  compress ← get compress_old_logs_;
  rotated ← get (λ g i, getLogFilename i g);
  last ← get (λ g, Z.to_nat ((max_files_ g - 1) `mod` 2 ^ 64));
  file (rotate_files compress rotated last last);;
  file (if! exists_ name then rename name (rotated 0%nat) else ret tt);;
  stream ← file (open_write false name);
  update (with_file name stream 0)).

(** ** Writing *)
Section writing.
Context (put_time : Z → string) (regex_search : string → string → option bool).

(** Called with the mutex held. *)
Definition checkRotation : op unit :=
  big ← get (λ g, current_file_size_ g >=? max_file_size_ g);
  if big : bool then rotateLog else mret tt.

Definition log_line (f : LogFormat) (e : LogEntry) : string :=
  match f with JSON => toJSON put_time e | TEXT => toText put_time e end +:+ nl.

Definition logEntry (e : LogEntry) : op unit := guarded (
  line ← get (λ g, log_line (format_ g) e);
  update (λ g, with_console (console g +:+ line) g);;
  stream ← get log_stream_;
  match stream with
  | None => mret tt
  | Some l =>
      file (append_to l line);;
      update (λ g, with_file (log_file_ g) (log_stream_ g)
                     ((current_file_size_ g + Z.of_nat (String.length line)) `mod` 2 ^ 64) g);;
      big ← get (λ g, current_file_size_ g >=? max_file_size_ g);
      if big : bool then checkRotation else mret tt
  end).

(** A filter that is not a regular expression ([None]) is skipped. *)
Definition shouldLog (message : string) (g : Logger) : bool :=
  forallb (λ pattern, negb (default false (regex_search pattern message))) (filters_ g).

Definition log (now : Z) (lv : LogLevel) (message component : string) (fields : gmap string string) : op unit :=
  low ← get (λ g, level_number lv <? level_number (level_ g));
  if low : bool then mret tt else
  wanted ← get (shouldLog message);
  if negb wanted then mret tt else
  logEntry (MkEntry now lv message component fields).

Definition debug (now : Z) (message : string) : op unit := log now DEBUG message "" ∅.
Definition info (now : Z) (message : string) : op unit := log now INFO message "" ∅.
Definition warn (now : Z) (message : string) : op unit := log now WARN message "" ∅.
Definition error (now : Z) (message : string) : op unit := log now ERROR message "" ∅.
Definition fatal (now : Z) (message : string) : op unit := log now FATAL message "" ∅.

(** ** The mutex *)
Lemma guarded_free {A} (m : op A) g w r g' w' :
  held g = false → guarded m g w = (r, g', w') → r ≠ Blocked → held g' = false.
Proof.
  unfold guarded. intros ->. destruct (m _ w) as [[[a| |] g1] w1]; by intros [= <- <- <-].
Qed.

Lemma guarded_held {A} (m : op A) g w : held g = true → guarded m g w = (Blocked, g, w).
Proof. unfold guarded. by intros ->. Qed.

(** An entry that passes the level and the filters. *)
Definition admitted (g : Logger) (e : LogEntry) : bool :=
  (negb (level_number (level e) <? level_number (level_ g))) && shouldLog (message e) g.

Definition log_entry (e : LogEntry) : op unit := log (timestamp e) (level e) (message e) (component e) (fields e).

Lemma log_entry_admitted e g w :
  log_entry e g w = if admitted g e then logEntry e g w else (Done tt, g, w).
Proof.
  unfold log_entry, log, admitted, mbind, op_bind, get. destruct (_ <? _); cbn; [done|].
  destruct (shouldLog _ _); [by destruct e|done].
Qed.

(** A logger that writes to an open file which holds [s]. *)
Definition writes_to (l : location) (s : string) (g : Logger) (w : world) : Prop :=
  log_stream_ g = Some l ∧ nodes w !! l = Some (File s) ∧ current_file_size_ g = Z.of_nat (String.length s).

Definition same_settings (g g' : Logger) : Prop :=
  level_ g' = level_ g ∧ filters_ g' = filters_ g ∧ format_ g' = format_ g ∧ max_file_size_ g' = max_file_size_ g.

(** Rotation waits for the mutex its caller holds. *)
Lemma checkRotation_waits g w :
  held g = true → (current_file_size_ g >=? max_file_size_ g) = true → checkRotation g w = (Blocked, g, w).
Proof.
  intros Hh Hb. unfold checkRotation, rotateLog, mbind, op_bind, get. rewrite Hb. by rewrite guarded_held.
Qed.

Lemma logEntry_writes e l s g w :
  held g = false → writes_to l s g w →
  Z.of_nat (String.length (s +:+ log_line (format_ g) e)) < 2 ^ 64 →
  let full := Z.of_nat (String.length (s +:+ log_line (format_ g) e)) >=? max_file_size_ g in
  ∃ r g' w', logEntry e g w = (r, g', w') ∧ writes_to l (s +:+ log_line (format_ g) e) g' w' ∧
    same_settings g g' ∧ console g' = console g +:+ log_line (format_ g) e ∧
    held g' = full ∧ r = (if full then Blocked else Done tt).
Proof.
  intros Hh (Hl & Hf & Hs) Hlt full. set (line := log_line _ _) in *.
  unfold logEntry, guarded. rewrite Hh.
  unfold mbind, op_bind, get, update, file, append_to. cbn. rewrite Hl. cbn. rewrite Hf. cbn.
  fold line. rewrite Hs, <- Nat2Z.inj_add, <- length_app_str, Z.mod_small by lia.
  fold full. destruct full eqn:Ef; cbn.
  - rewrite checkRotation_waits by done. eexists _, _, _. split; [reflexivity|]. split; [|done].
    split; [done|]. cbn. split; [by rewrite lookup_insert_eq|]. done.
  - eexists _, _, _. split; [reflexivity|]. split; [|done].
    split; [done|]. cbn. split; [by rewrite lookup_insert_eq|]. done.
Qed.

(** A run of entries, and the text it should write. *)
Fixpoint log_all (es : list LogEntry) : op unit :=
  match es with
  | [] => mret tt
  | e :: es => log_entry e;; log_all es
  end.

Definition written (g : Logger) (e : LogEntry) : string :=
  if admitted g e then log_line (format_ g) e else "".
Fixpoint lines (g : Logger) (es : list LogEntry) : string :=
  match es with
  | [] => ""
  | e :: es => written g e +:+ lines g es
  end.

Lemma same_written g g' e : same_settings g g' → written g' e = written g e.
Proof. intros (E1 & E2 & E3 & _). unfold written, admitted, shouldLog. by rewrite E1, E2, E3. Qed.

Lemma same_lines g g' es : same_settings g g' → lines g' es = lines g es.
Proof. intros Hg. induction es as [|e es IH]; cbn; [done|]. by rewrite IH, (same_written g g'). Qed.

Definition text_size (s : string) (g : Logger) (es : list LogEntry) : Z :=
  Z.of_nat (String.length (s +:+ lines g es)).

Lemma text_size_cons s g e es : text_size s g (e :: es) = text_size (s +:+ written g e) g es.
Proof. unfold text_size. cbn [lines]. by rewrite app_assoc_str. Qed.

Lemma log_entry_writes e l s g w :
  held g = false → writes_to l s g w → text_size s g [e] < 2 ^ 64 → Z.of_nat (String.length s) < max_file_size_ g →
  let full := text_size s g [e] >=? max_file_size_ g in
  ∃ r g' w', log_entry e g w = (r, g', w') ∧ writes_to l (s +:+ written g e) g' w' ∧ same_settings g g' ∧
    held g' = full ∧ r = (if full then Blocked else Done tt).
Proof.
  intros Hh Hw Hlt Hs full. rewrite log_entry_admitted. unfold full, text_size, written in *. cbn [lines] in *.
  unfold written in *. destruct (admitted g e); rewrite !app_nil_str in *.
  - destruct (logEntry_writes e l s g w Hh Hw Hlt) as (r & g' & w' & E & H1 & H2 & _ & H3 & H4). by exists r, g', w'.
  - exists (Done tt), g, w. rewrite Z.geb_leb. replace (_ <=? _) with false by (symmetry; apply Z.leb_gt; lia). done.
Qed.

(** C40: A run of entries is written to the file, in order and
    each as one line, as long as the file stays below its limit.  The entry that
    reaches the limit is still written, and then the logger waits for its own
    mutex for ever: rotation never happens. *)
Theorem log_until_full es l : ∀ s g w,
  held g = false → writes_to l s g w → Z.of_nat (String.length s) < max_file_size_ g → text_size s g es < 2 ^ 64 →
  ∃ r g' w' n, log_all es g w = (r, g', w') ∧ writes_to l (s +:+ lines g (take n es)) g' w' ∧
    (∀ k, (k < n)%nat → text_size s g (take k es) < max_file_size_ g) ∧
    ((r = Done tt ∧ n = length es ∧ held g' = false ∧ text_size s g es < max_file_size_ g) ∨
     (r = Blocked ∧ held g' = true ∧ max_file_size_ g ≤ text_size s g (take n es))).
Proof.
  induction es as [|e es IH]; intros s g w Hh Hw Hs Hlt.
  - exists (Done tt), g, w, 0%nat. cbn. rewrite app_nil_str. split; [done|]. split; [done|]. split; [lia|].
    left. unfold text_size. cbn. rewrite app_nil_str. done.
  - rewrite text_size_cons in Hlt.
    assert (text_size s g [e] ≤ text_size (s +:+ written g e) g es) as Hle.
    { unfold text_size. cbn [lines]. rewrite !length_app_str. cbn. lia. }
    destruct (log_entry_writes e l s g w Hh Hw) as (r & g1 & w1 & E & Hw1 & Hg & Hh1 & Hr); [lia|done|].
    cbn [log_all]. unfold mbind at 1, op_bind. rewrite E. clear E.
    assert (∀ k, (k < 1)%nat → text_size s g (take k (e :: es)) < max_file_size_ g) as Hfirst.
    { intros k Hk. replace k with 0%nat by lia. unfold text_size. cbn. by rewrite app_nil_str. }
    destruct (text_size s g [e] >=? max_file_size_ g) eqn:Efull; subst r; bool_hyps.
    + exists Blocked, g1, w1, 1%nat. cbn [take lines]. rewrite app_nil_str. split; [done|]. split; [done|].
      split; [done|]. right. done.
    + destruct (IH (s +:+ written g e) g1 w1) as (r & g' & w' & n & E & Hw' & Hk & Hend); [done|done| | |].
      { destruct Hg as (_ & _ & _ & ->). unfold text_size in Efull. cbn in Efull. by rewrite app_nil_str in Efull. }
      { unfold text_size. by rewrite (same_lines g g1). }
      exists r, g', w', (S n). cbn [take lines]. split; [exact E|]. rewrite (same_lines g g1) in Hw' by done.
      rewrite <- app_assoc_str. split; [exact Hw'|].
      assert (∀ es, text_size (s +:+ written g e) g1 es = text_size s g (e :: es)) as Ht.
      { intros es'. rewrite text_size_cons. unfold text_size. by rewrite (same_lines g g1). }
      assert (max_file_size_ g1 = max_file_size_ g) as Hm by apply Hg. rewrite Hm in *.
      split.
      * intros [|k] Hkn; [apply Hfirst; lia|]. cbn [take]. rewrite <- Ht. apply Hk. lia.
      * rewrite !Ht in Hend. destruct Hend as [(-> & -> & H1 & H2)|H1]; [left; done|right; done].
Qed.
End writing.

(** ** Rotation, on the names of the files of one directory *)
Definition move (a b : string) (m : gmap string string) : gmap string string :=
  match m !! a with
  | Some s => <[b := s]> (delete a m)
  | None => m
  end.

(** The abstract rotation: the files of a directory as a map. *)
Fixpoint rotate_names (compress : bool) (base : nat → string) (last i : nat) (m : gmap string string)
    : gmap string string :=
  match i with
  | O => m
  | S j =>
      rotate_names compress base last j
        (move (base j) (if bool_decide (i = last) && compress then base j +:+ ".gz" else base i) m)
  end.

Lemma folder_move w dir m a b :
  folder w dir m → clean a → clean b → a ≠ b →
  ∃ w', (if! exists_ (file_in dir a) then rename (file_in dir a) (file_in dir b) else ret tt) w = (Some tt, w') ∧
        folder w' dir (move a b m).
Proof.
  intros Hf Ha Hb Hab. rewrite (bind_some _ _ _ _ _ (folder_exists _ _ _ Hf a Ha)). unfold move.
  destruct (m !! a) as [s|] eqn:E.
  - rewrite bool_decide_true by eauto. by apply folder_rename.
  - rewrite bool_decide_false by (by intros [? ?]). by exists w.
Qed.

Section rotation.
Context (dir : location) (base : nat → string) (compress : bool).
Context (Hbase : ∀ i, clean (base i)) (Hinj : ∀ i j, base i = base j → i = j)
        (Hgz : ∀ i j, base i ≠ base j +:+ ".gz").

Lemma gz_clean i : clean (base i +:+ ".gz").
Proof. apply clean_suffix; [apply Hbase|done|cbn; lia]. Qed.

Lemma compress_move w m i :
  folder w dir m →
  ∃ w', compressLog (file_in dir (base i)) w = (Some tt, w') ∧ folder w' dir (move (base i) (base i +:+ ".gz") m).
Proof.
  intros Hf. unfold compressLog, file_in at 3. rewrite render_suffix.
  apply (folder_move w dir m); [done|apply Hbase|apply gz_clean|apply Hgz].
Qed.

(** The loop over files is the loop over names. *)
Lemma rotate_files_names last i : ∀ w m,
  folder w dir m →
  ∃ w', rotate_files compress (λ j, file_in dir (base j)) last i w = (Some tt, w') ∧
        folder w' dir (rotate_names compress base last i m).
Proof.
  induction i as [|j IH]; intros w m Hf; cbn [rotate_files rotate_names]; [by exists w|].
  assert (∃ w1, (if! exists_ (file_in dir (base j)) then
      (if bool_decide (S j = last) && compress then compressLog (file_in dir (base j))
       else rename (file_in dir (base j)) (file_in dir (base (S j)))) else ret tt) w = (Some tt, w1) ∧
    folder w1 dir (move (base j) (if bool_decide (S j = last) && compress then base j +:+ ".gz" else base (S j)) m))
    as (w1 & E & Hf1).
  { destruct (bool_decide (S j = last) && compress).
    - destruct (compress_move w m j Hf) as (w1 & E & Hf1). pose proof (folder_exists _ _ _ Hf _ (Hbase j)) as He.
      rewrite (bind_some _ _ _ _ _ He). unfold move in *. destruct (m !! base j) eqn:Ej.
      + rewrite bool_decide_true by eauto. by exists w1.
      + rewrite bool_decide_false by (by intros [? ?]). by exists w.
    - apply folder_move; [done|apply Hbase|apply Hbase|]. intros H%Hinj. lia. }
  rewrite (bind_some _ _ _ _ _ E). by apply IH.
Qed.

(** A name that is neither moved nor overwritten. *)
Lemma move_other a b m n : n ≠ a → n ≠ b → move a b m !! n = m !! n.
Proof. intros Ha Hb. unfold move. destruct (m !! a); [|done]. by rewrite lookup_insert_ne, lookup_delete_ne by done. Qed.

Lemma move_to a b m : a ≠ b → move a b m !! b = match m !! a with Some s => Some s | None => m !! b end.
Proof. intros Hab. unfold move. destruct (m !! a); [by rewrite lookup_insert_eq|done]. Qed.

Lemma move_from a b m : a ≠ b → move a b m !! a = None.
Proof.
  intros Hab. unfold move. destruct (m !! a) eqn:E; [|done]. by rewrite lookup_insert_ne, lookup_delete_eq by done.
Qed.

(** Where a step moves the file of index [j]. *)
Definition target (last j : nat) : string :=
  if bool_decide (S j = last) && compress then base j +:+ ".gz" else base (S j).

Lemma target_ne last j : base j ≠ target last j.
Proof. unfold target. destruct (_ && _); [apply Hgz|]. intros H%Hinj. lia. Qed.

Lemma rotate_above last n : ∀ i m,
  (∀ j, (j < i)%nat → n ≠ base j ∧ n ≠ target last j) → rotate_names compress base last i m !! n = m !! n.
Proof.
  induction i as [|i IH]; intros m Hn; cbn [rotate_names]; [done|]. fold (target last i).
  destruct (Hn i) as [H1 H2]; [lia|]. rewrite IH, move_other; [done..|]. intros j Hj. apply Hn. lia.
Qed.

Lemma target_low last j : (S j < last)%nat → target last j = base (S j).
Proof. intros Hj. unfold target. rewrite bool_decide_false by lia. done. Qed.

Lemma base_target last j k : base k = target last j → k = S j.
Proof. unfold target. destruct (_ && _); [by intros ?%Hgz|apply Hinj]. Qed.

(** The highest index goes to its target, unless there is no such file. *)
Lemma rotate_top last j m :
  (S j ≤ last)%nat →
  rotate_names compress base last (S j) m !! target last j =
  match m !! base j with Some s => Some s | None => m !! target last j end.
Proof.
  intros Hj. cbn [rotate_names]. fold (target last j). rewrite (rotate_above last (target last j)).
  - apply move_to, target_ne.
  - intros i Hi. rewrite (target_low last i) by lia.
    split; intros E; symmetry in E; apply base_target in E; lia.
Qed.

(** The others go up by one. *)
Lemma rotate_shift last i : ∀ m, (i ≤ last)%nat →
  (∀ k, (0 < k < i)%nat → rotate_names compress base last i m !! base k = m !! base (k - 1)) ∧
  ((0 < i)%nat → rotate_names compress base last i m !! base 0 = None).
Proof.
  induction i as [|j IH]; intros m Hi; [split; [intros k Hk|]; lia|].
  destruct (IH (move (base j) (target last j) m)) as [IH1 IH2]; [lia|].
  assert (∀ k, (k < j)%nat → move (base j) (target last j) m !! base k = m !! base k) as Hlow.
  { intros k Hk. apply move_other; [intros E%Hinj; lia|intros E%base_target; lia]. }
  assert (move (base j) (target last j) m !! base j = None) as Hgone by apply move_from, target_ne.
  cbn [rotate_names]. fold (target last j). split.
  - intros k Hk. destruct (decide (k = j)) as [->|Hne].
    + destruct j as [|j]; [lia|]. pose proof (rotate_top last j (move (base (S j)) (target last (S j)) m)) as Htop.
      rewrite target_low in Htop by lia. rewrite Htop, Hgone, Hlow by lia.
      replace (S j - 1)%nat with j by lia. by destruct (m !! base j).
    + rewrite IH1 by lia. apply Hlow. lia.
  - intros _. destruct j as [|j]; [exact Hgone|]. apply IH2. lia.
Qed.

(** A compressed file leaves the next index alone. *)
Lemma rotate_last last m :
  (0 < last)%nat → compress = true → rotate_names compress base last last m !! base last = m !! base last.
Proof.
  intros Hl Hc. apply rotate_above. intros j Hj. split; [intros E%Hinj; lia|].
  intros E. pose proof E as E'. apply base_target in E'. unfold target in E.
  rewrite bool_decide_true, Hc in E by done. by apply Hgz in E.
Qed.
End rotation.

Lemma rotate_files_ext compress f g last i w :
  (∀ j, f j = g j) → rotate_files compress f last i w = rotate_files compress g last i w.
Proof.
  intros E. revert w. induction i as [|i IH]; intros w; cbn [rotate_files]; [done|]. rewrite !E. unfold bind at 1 3.
  by destruct ((if! exists_ (g i) then _ else _) w) as [[[]|] w'].
Qed.

(** The steps of [rotateLog] for an open log file. *)
Lemma rotateLog_steps g w w1 w2 w3 l :
  let last := Z.to_nat ((max_files_ g - 1) `mod` 2 ^ 64) in
  held g = false → log_stream_ g ≠ None → is_empty (log_file_ g) = false →
  rotate_files (compress_old_logs_ g) (λ i, getLogFilename i g) last last w = (Some tt, w1) →
  (if! exists_ (log_file_ g) then rename (log_file_ g) (getLogFilename 0 g) else ret tt) w1 = (Some tt, w2) →
  open_write false (log_file_ g) w2 = (Some (Some l), w3) →
  rotateLog g w =
  (Done tt, with_held false (with_file (log_file_ g) (Some l) 0 (with_held true
              (with_file (log_file_ g) None (current_file_size_ g) g))), w3).
Proof.
  intros last Hh Hs He E1 E2 E3.
  unfold rotateLog, guarded. rewrite Hh. unfold mbind, op_bind, get, update. cbn [log_file_ log_stream_ with_held].
  rewrite He, bool_decide_false by done. cbn [orb max_files_ compress_old_logs_ with_held with_file].
  unfold file. fold last.
  change (λ i, getLogFilename i (with_file (log_file_ g) None (current_file_size_ (with_held true g)) (with_held true g)))
    with (λ i, getLogFilename i g).
  rewrite E1. change (getLogFilename 0 (with_file _ _ _ _)) with (getLogFilename 0 g). rewrite E2, E3. done.
Qed.

(** The names that rotation uses for a log file of a directory. *)
Lemma getLogFilename_in dir n g i :
  dir ≠ [] → Forall clean dir → clean n → log_file_ g = file_in dir n →
  getLogFilename i g = file_in dir (numbered (stem (log_file_ g)) (extension (log_file_ g)) i).
Proof.
  intros Hne Hd Hn Hg. unfold getLogFilename. set (a := stem _). set (b := extension _). cbv zeta.
  rewrite Hg. assert (parent_path (file_in dir n) = render true dir) as -> by by apply parent_render.
  change (is_empty (file_in dir n)) with false. change (is_empty (render true dir)) with false.
  cbv iota. unfold numbered, file_in, render. rewrite join_app by done. cbn [join].
  by rewrite app_assoc_str.
Qed.

(** Rotation.  Called with the mutex free, for an open log file of a directory
    that holds only files, [rotateLog] ends: the log becomes the file of index 0
    and starts again empty, every file of a lower index takes the place of the
    next, and the oldest is kept under the last index or, when compressing, under
    its own name with [.gz], where it replaces what was kept there. *)
Theorem rotateLog_spec dir n g w m text :
  let base := numbered (stem (log_file_ g)) (extension (log_file_ g)) in
  let last := Z.to_nat (max_files_ g - 1) in
  held g = false → log_stream_ g ≠ None → log_file_ g = file_in dir n → 1 ≤ max_files_ g < 2 ^ 64 →
  dir ≠ [] → clean n → folder w dir m → m !! n = Some text →
  ∃ g' w' m', rotateLog g w = (Done tt, g', w') ∧ folder w' dir m' ∧ writes_to (dir ++ [n]) "" g' w' ∧
    held g' = false ∧ m' !! base 0%nat = Some text ∧
    (∀ k, (0 < k < last)%nat → m' !! base k = m !! base (k - 1)%nat) ∧
    ((0 < last)%nat →
      let kept := if compress_old_logs_ g then base (last - 1)%nat +:+ ".gz" else base last in
      m' !! kept = match m !! base (last - 1)%nat with Some s => Some s | None => m !! kept end).
Proof.
  intros base last Hh Hs Hg Hmax Hdir Hn Hf Htext. pose proof (folder_clean _ _ _ Hf) as Hd.
  destruct (stem_extension dir n Hd Hn) as (En & Ha & Hb). rewrite <- Hg in En, Ha, Hb.
  assert (clean (stem (log_file_ g) +:+ extension (log_file_ g))) as Hab by by rewrite <- En.
  assert (∀ i, clean (base i)) as Hc by (intros i; by apply numbered_clean).
  assert (∀ i j, base i = base j → i = j) as Hinj by (intros i j; by apply numbered_inj).
  assert (∀ i j, base i ≠ base j +:+ ".gz") as Hgz by (intros i j; by apply numbered_gz).
  assert (∀ i, n ≠ base i) as Hbn by (intros i E; symmetry in E; revert E; rewrite En; by apply numbered_ne).
  assert (∀ i, n ≠ base i +:+ ".gz") as Hbz.
  { intros i E. apply (f_equal String.length) in E. rewrite length_app_str in E.
    pose proof (numbered_length (stem (log_file_ g)) (extension (log_file_ g)) i) as Hl. rewrite <- En in Hl.
    unfold base in E. lia. }
  destruct (rotate_files_names dir base (compress_old_logs_ g) Hc Hinj Hgz last last w m Hf) as (w1 & E1 & Hf1).
  set (m1 := rotate_names (compress_old_logs_ g) base last last m) in *.
  assert (m1 !! n = Some text) as Hn1.
  { unfold m1. rewrite rotate_above; [done|]. intros j _. split; [apply Hbn|]. unfold target.
    destruct (_ && _); [apply Hbz|apply Hbn]. }
  destruct (folder_rename w1 dir m1 n (base 0%nat) text Hf1 Hn (Hc 0%nat) (Hbn 0%nat) Hn1) as (w2 & E2 & Hf2).
  set (m2 := <[base 0%nat := text]> (delete n m1)) in *.
  assert (m2 !! n = None) as Hn2
    by (unfold m2; rewrite lookup_insert_ne, lookup_delete_eq; [done|apply not_eq_sym, Hbn]).
  destruct (folder_open w2 dir m2 n Hf2 Hn Hn2) as (w3 & E3 & Hf3).
  assert (∀ x, x ≠ n → x ≠ base 0%nat → <[n := ""]> m2 !! x = m1 !! x) as Hother
    by (intros x H1 H2; unfold m2; by rewrite lookup_insert_ne, lookup_insert_ne, lookup_delete_ne).
  exists (with_held false (with_file (log_file_ g) (Some (dir ++ [n])) 0 (with_held true
           (with_file (log_file_ g) None (current_file_size_ g) g)))), w3, (<[n := ""]> m2).
  split; [|split; [exact Hf3|split; [|split; [done|split; [|split]]]]].
  - assert (∀ i, getLogFilename i g = file_in dir (base i)) as Hname by (intros i; by apply (getLogFilename_in dir n)).
    apply (rotateLog_steps g w w1 w2 w3 (dir ++ [n])); [done|done|by rewrite Hg| | |by rewrite Hg].
    + rewrite Z.mod_small by lia. by rewrite (rotate_files_ext _ _ _ _ _ _ Hname).
    + rewrite Hname, Hg, (bind_some _ _ _ _ _ (folder_exists _ _ _ Hf1 n Hn)), Hn1, bool_decide_true by eauto.
      exact E2.
  - split; [done|]. split; [|done]. by rewrite (folder_files _ _ _ Hf3), lookup_insert_eq.
  - rewrite lookup_insert_ne by apply Hbn. apply lookup_insert_eq.
  - intros k Hk. rewrite Hother; [|apply not_eq_sym, Hbn|intros E%Hinj; lia].
    by apply (rotate_shift base (compress_old_logs_ g) Hinj Hgz last last m).
  - intros Hl. destruct last as [|j] eqn:El; [lia|]. replace (S j - 1)%nat with j by lia. intros kept.
    assert (kept = target base (compress_old_logs_ g) (S j) j) as Ek
      by (unfold kept, target; by rewrite bool_decide_true).
    rewrite Hother; [rewrite Ek; by apply rotate_top|unfold kept; destruct (compress_old_logs_ g); apply not_eq_sym; auto|].
    rewrite Ek. intros E. symmetry in E. apply (base_target base (compress_old_logs_ g) Hinj Hgz) in E. lia.
Qed.

(** ** Witnesses *)
Definition toy_time (_ : Z) : string := "2024-01-01 00:00:00".
Definition toy_search (pattern message : string) : option bool := Some (contains pattern message).
Definition log_world : world :=
  MkWorld (list_to_map [(["log"], Dir); (["log"; "d.log"], File ("old" +:+ nl))]) "/" (λ _, true) (λ _, true) (λ _, true).
Definition note (lv : LogLevel) (message : string) : LogEntry := MkEntry 0 lv message "" ∅.
Definition toy_entries : list LogEntry := [note INFO "first"; note DEBUG "quiet"; note ERROR "second"; note INFO "third"].

(** A limit of 60 bytes is reached by the second line that is written. *)
Definition open_logger (limit : Z) : Logger * world :=
  match (setMaxFileSize limit;; setFile "/log/d.log") new_logger log_world with (_, g, w) => (g, w) end.

Lemma log_until_full_witness :
  let '(g, w) := open_logger 60 in
  ∃ g' w', log_all toy_time toy_search toy_entries g w = (Blocked, g', w') ∧ held g' = true.
Proof.
  destruct (log_until_full toy_time toy_search toy_entries ["log"; "d.log"] ("old" +:+ nl)
              (open_logger 60).1 (open_logger 60).2) as (r & g' & w' & n & E & _ & _ & Hend);
    [vm_compute; reflexivity|vm_compute; repeat split; reflexivity|vm_compute; reflexivity|vm_compute; reflexivity|].
  change (open_logger 60) with ((open_logger 60).1, (open_logger 60).2). cbv iota beta.
  exists g', w'. destruct Hend as [(-> & _ & _ & Hend)|(-> & Hh & _)]; [|by split].
  exfalso. vm_compute in Hend. discriminate.
Defined.

(** Three numbered files: the oldest takes the place of the one compressed
    before. *)
Definition rotated_files : gmap string string :=
  {["d.log" := "now"; "d.0.log" := "zero"; "d.1.log" := "one"; "d.1.log.gz" := "packed"]}.
Definition rotating_logger : Logger :=
  with_settings INFO TEXT 60 3 true (with_file "/log/d.log" (Some ["log"; "d.log"]) 3 new_logger).

Lemma rotateLog_spec_witness :
  ∃ g' w' m', rotateLog rotating_logger (one_folder "log" rotated_files) = (Done tt, g', w') ∧ folder w' ["log"] m' ∧
    m' !! "d.0.log" = Some "now" ∧ m' !! "d.1.log" = Some "zero" ∧ m' !! "d.1.log.gz" = Some "one".
Proof.
  destruct (rotateLog_spec ["log"] "d.log" rotating_logger (one_folder "log" rotated_files) rotated_files "now")
    as (g' & w' & m' & E & Hf & _ & _ & H0 & H1 & H2);
    [done|done|reflexivity|done|done|by constructor|by apply one_folder_ok; constructor|reflexivity|].
  exists g', w', m'. split; [exact E|]. split; [exact Hf|]. split; [exact H0|].
  split; [exact (H1 1%nat ltac:(vm_compute; lia))|exact (H2 ltac:(vm_compute; lia))].
Defined.

(** Text is written into JSON as it is: a message can forge a field. *)
Example forged_field :
  let q := String dquote "" in
  toJSON toy_time (note INFO ("x" +:+ q +:+ "," +:+ q +:+ "component" +:+ q +:+ ":" +:+ q +:+ "auth")) =
  toJSON toy_time (MkEntry 0 INFO "x" "auth" ∅).
Proof. reflexivity. Qed.
