(* ===== verification/State.v ===== *)
(** * Stateful operations that read the world and may throw

    [st S A] is an operation on an object of type [S]: it reads the world, gives a
    value or an exception, and leaves the object as it then is.  The loaders of
    the configuration and the operations of the daemon are written in it, with
    stdpp's monad notation. *)
From S2P Require Import Prelude FileSys.

(** Exceptions of yaml-cpp are caught by the YAML loader, others are not. *)
Inductive exn := YamlError (what : string) | OtherError (what : string).
Definition exn_what (e : exn) : string := match e with YamlError what | OtherError what => what end.

Definition st (S A : Type) : Type := world → S → (exn + A) * S.
#[export] Instance st_ret S : MRet (st S) := λ A a w c, (inr a, c).
#[export] Instance st_bind S : MBind (st S) := λ A B k m w c,
  match m w c with
  | (inr a, c) => k a w c
  | (inl e, c) => (inl e, c)
  end.

Section operations.
Context {S : Type}.

Definition gets {A} (f : S → A) : st S A := λ w c, (inr (f c), c).
Definition modify (f : S → S) : st S unit := λ w c, (inr tt, f c).
Definition lift {A} (r : exn + A) : st S A := λ w c, (r, c).
(** A query of the file system; an exception is a [filesystem_error]. *)
Definition query {A} (m : io A) : st S A := λ w c,
  (match fst (m w) with Some a => inr a | None => inl (OtherError "filesystem error") end, c).
Definition try_yaml {A} (m : st S A) (h : string → st S A) : st S A := λ w c,
  match m w c with
  | (inl (YamlError e), c) => h e w c
  | r => r
  end.
(** [catch (const std::exception&)] *)
Definition try_any {A} (m h : st S A) : st S A := λ w c,
  match m w c with
  | (inl _, c) => h w c
  | r => r
  end.

Fixpoint each {A} (f : A → st S unit) (l : list A) : st S unit :=
  match l with
  | [] => mret tt
  | x :: l => f x;; each f l
  end.

(** ** Steps *)
Lemma st_bind_inr {A B} (m : st S A) (k : A → st S B) w c b c' :
  (m ≫= k) w c = (inr b, c') → ∃ a c1, m w c = (inr a, c1) ∧ k a w c1 = (inr b, c').
Proof. unfold mbind, st_bind. destruct (m w c) as [[e|a] c1]; [done|eauto]. Qed.

Lemma st_step {A B} (m : st S A) (k : A → st S B) w c a c1 :
  m w c = (inr a, c1) → (m ≫= k) w c = k a w c1.
Proof. unfold mbind, st_bind. by intros ->. Qed.

Lemma query_step {A} (m : io A) w c a : fst (m w) = Some a → query m w c = (inr a, c).
Proof. unfold query. by intros ->. Qed.

(** ** What an operation keeps of the object *)
Class Preserves (P : S → Prop) {A} (m : st S A) : Prop :=
  preserves w c : P c → P (snd (m w c)).

#[export] Instance preserves_ret P {A} (a : A) : Preserves P (mret a : st S A).
Proof. by intros w c Hc. Qed.
#[export] Instance preserves_bind P {A B} (m : st S A) (k : A → st S B) :
  Preserves P m → (∀ a, Preserves P (k a)) → Preserves P (m ≫= k).
Proof.
  intros Hm Hk w c Hc. specialize (Hm w c Hc). unfold mbind, st_bind.
  destruct (m w c) as [[e|a] c1]; [done|]. by apply Hk.
Qed.
#[export] Instance preserves_gets P {A} (f : S → A) : Preserves P (gets f).
Proof. by intros w c Hc. Qed.
#[export] Instance preserves_lift P {A} (r : exn + A) : Preserves P (lift r).
Proof. by intros w c Hc. Qed.
#[export] Instance preserves_query P {A} (m : io A) : Preserves P (query m).
Proof. by intros w c Hc. Qed.
#[export] Instance preserves_try P {A} (m : st S A) h :
  Preserves P m → (∀ e, Preserves P (h e)) → Preserves P (try_yaml m h).
Proof.
  intros Hm Hh w c Hc. specialize (Hm w c Hc). unfold try_yaml.
  destruct (m w c) as [[[e|e]|a] c1]; [by apply Hh|done|done].
Qed.
#[export] Instance preserves_any P {A} (m h : st S A) :
  Preserves P m → Preserves P h → Preserves P (try_any m h).
Proof.
  intros Hm Hh w c Hc. specialize (Hm w c Hc). unfold try_any.
  destruct (m w c) as [[e|a] c1]; [by apply Hh|done].
Qed.
#[export] Instance preserves_if P {A} (b : bool) (m n : st S A) :
  Preserves P m → Preserves P n → Preserves P (if b then m else n).
Proof. by destruct b. Qed.
#[export] Instance preserves_each P {A} (f : A → st S unit) l :
  (∀ x, Preserves P (f x)) → Preserves P (each f l).
Proof. intros Hf. induction l; cbn [each]; apply _. Qed.
Lemma preserves_modify (P : S → Prop) f : (∀ c, P c → P (f c)) → Preserves P (modify f).
Proof. intros Hf w c. apply Hf. Qed.
End operations.

(** [Preserves] by the shape of the operation; unknown parts are left. *)
Ltac keep :=
  repeat lazymatch goal with
  | |- Preserves _ (mret _) => apply preserves_ret
  | |- Preserves _ (lift _) => apply preserves_lift
  | |- Preserves _ (gets _) => apply preserves_gets
  | |- Preserves _ (query _) => apply preserves_query
  | |- Preserves _ (modify _) => apply preserves_modify; let H := fresh in intros ? H; first [exact H | reflexivity | destruct H; split; first [assumption | reflexivity]]
  | |- Preserves _ (mbind _ _) => apply preserves_bind; [|intros ?]
  | |- Preserves _ (each _ _) => apply preserves_each; intros ?
  | |- Preserves _ (try_yaml _ _) => apply preserves_try; [|intros ?]
  | |- Preserves _ (try_any _ _) => apply preserves_any
  | |- Preserves _ (if _ then _ else _) => apply preserves_if
  | |- Preserves _ (match ?x with _ => _ end) => destruct x
  end.
