(* ===== verification/ConfigText.v ===== *)
(** * Configuration text: [config/config.cpp], lines 150-345 and 1174-1257

    Variables of the environment in a value, and the INI form of a
    configuration file.  [cfg] is [st] over the configuration object. *)
From S2P Require Import Prelude CppString ConfigTypes FileSys State.
Open Scope Z_scope.

(** ** The loaders' monad *)
Abbreviation cfg := (st Configuration).

(** [errors_.push_back] *)
Definition report (message : string) : cfg unit := modify (λ c, set_errors (errors_ c ++ [message]) c).

(** Updates of one section. *)
Definition on_ssl (f : SSLConfig → SSLConfig) (c : Configuration) := set_ssl (f (ssl c)) c.
Definition on_auth (f : AuthConfig → AuthConfig) (c : Configuration) := set_auth (f (auth c)) c.
Definition on_log (f : LogConfig → LogConfig) (c : Configuration) := set_log (f (log c)) c.
Definition on_network (f : NetworkConfig → NetworkConfig) (c : Configuration) := set_network (f (network c)) c.
Definition on_security (f : SecurityConfig → SecurityConfig) (c : Configuration) := set_security (f (security c)) c.

(** [modules[name]], created if missing. *)
Definition find_module (name : string) (c : Configuration) : ModuleConfig := default default_module (modules c !! name).
Definition on_module (name : string) (f : ModuleConfig → ModuleConfig) (c : Configuration) : Configuration :=
  set_modules (<[name := f (find_module name c)]> (modules c)) c.

(** ** Variables of the environment *)
Section environment.
Context (getenv : string → option string).

(** [result.replace(pos, len, value)] *)
Definition replace (pos len : nat) (value s : string) : string :=
  str_take pos s +:+ value +:+ str_drop (pos + len) s.

(** [${NAME}] and [${NAME:default}].  Every iteration leaves fewer characters
    after [start]; [None] is out of fuel. *)
Fixpoint expand_braces (fuel : nat) (result : string) (start : nat) : option string :=
  match fuel with
  | O => None
  | S fuel =>
      match find_str_from "${" start result with
      | None => Some result
      | Some start =>
          match find_char_from "}" (start + 2) result with
          | None => Some result
          | Some end_pos =>
              let reference := substr (start + 2) (end_pos - start - 2) result in
              let '(var_name, default_value) :=
                match find_char ":" reference with
                | Some colon => (substr 0 colon reference, substr_from (colon + 1) reference)
                | None => (reference, "")
                end in
              let put value := expand_braces fuel (replace start (end_pos - start + 1) value result)
                                 (start + String.length value) in
              match getenv (c_str var_name) with
              | Some value => put value
              | None => if negb (is_empty default_value) then put default_value
                        else expand_braces fuel result (end_pos + 1)
              end
          end
      end
  end%nat.

Definition var_char (c : ascii) : bool := isalnum c || bool_decide (c = "_"%char).
Fixpoint var_length (s : string) : nat :=
  match s with
  | String c s => if var_char c then S (var_length s) else 0
  | "" => 0
  end%nat.

(** [$NAME] *)
Fixpoint expand_names (fuel : nat) (result : string) (start : nat) : option string :=
  match fuel with
  | O => None
  | S fuel =>
      match find_char_from "$" start result with
      | None => Some result
      | Some start =>
          if bool_decide (String.length result ≤ start + 1) then Some result
          else if starts_with "{" (str_drop (start + 1) result) then expand_names fuel result (start + 2)
          else
            let n := var_length (str_drop (start + 1) result) in
            if bool_decide (0 < n) then
              match getenv (substr (start + 1) n result) with
              | Some value => expand_names fuel (replace start (n + 1) value result) (start + String.length value)
              | None => expand_names fuel result (start + 1 + n)
              end
            else expand_names fuel result (start + 1)
      end
  end%nat.

Definition substituteEnvironmentVariables (value : string) : string :=
  default value
    (result ← expand_braces (S (String.length value)) value 0; expand_names (S (String.length result)) result 0).
Definition expandVariables (value : string) : string := substituteEnvironmentVariables value.

(** ** Keys of an INI file *)
Definition is_true (value : string) : bool :=
  String.eqb value "true" || String.eqb value "1" || String.eqb value "yes".

Definition one_of (key : string) (names : list string) : bool := existsb (String.eqb key) names.

Definition parseGlobalConfig (key value : string) : cfg unit :=
  if one_of key ["bind_address"; "address"] then modify (on_network (set_bind_address value))
  else if one_of key ["bind_port"; "port"] then
    match stoul value with
    | Some n => modify (on_network (set_bind_port (n `mod` 2 ^ 16)))
    | None => report ("Invalid port value: " +:+ value)
    end
  else if String.eqb key "max_connections" then
    match stoul value with
    | Some n => modify (on_network (set_max_connections n))
    | None => report ("Invalid max_connections value: " +:+ value)
    end
  else if String.eqb key "ssl_enabled" then modify (on_ssl (set_ssl_enabled (is_true value)))
  else if one_of key ["ssl_certificate_file"; "ssl_cert"] then modify (on_ssl (set_certificate_file value))
  else if one_of key ["ssl_private_key_file"; "ssl_key"] then modify (on_ssl (set_private_key_file value))
  else if one_of key ["ssl_ca_file"; "ssl_ca"] then modify (on_ssl (set_ca_file value))
  else if String.eqb key "auth_enabled" then modify (on_auth (set_auth_enabled (is_true value)))
  else if String.eqb key "auth_method" then modify (on_auth (set_method value))
  else if one_of key ["auth_password_file"; "password_file"] then modify (on_auth (set_password_file value))
  else if one_of key ["auth_public_key_file"; "public_key_file"] then modify (on_auth (set_public_key_file value))
  else if String.eqb key "auth_realm" then modify (on_auth (set_realm value))
  else if one_of key ["auth_anonymous_access"; "anonymous_access"]
  then modify (on_auth (set_anonymous_access (is_true value)))
  else if String.eqb key "reject_plaintext_passwords"
  then modify (on_auth (set_reject_plaintext_passwords (is_true value)))
  else if one_of key ["log_level"; "log"] then modify (on_log (set_level value))
  else if String.eqb key "log_file" then modify (on_log (λ l, set_file_output true (set_log_file value l)))
  else if String.eqb key "pid_file" then modify (set_pid_file value)
  else if String.eqb key "user" then modify (λ c, on_security (set_sec_user value) (set_conf_user value c))
  else if String.eqb key "group" then modify (λ c, on_security (set_sec_group value) (set_conf_group value c))
  else mret tt.

Definition set_module_key (key value : string) (m : ModuleConfig) : ModuleConfig :=
  if String.eqb key "path" then set_mod_path value m
  else if String.eqb key "comment" then set_mod_comment value m
  else if one_of key ["read_only"; "read only"] then set_read_only (is_true value) m
  else if String.eqb key "list" then set_list (is_true value) m
  else if String.eqb key "delete" then set_allow_delete (is_true value) m
  else if String.eqb key "overwrite" then set_overwrite (is_true value) m
  else if String.eqb key "exclude" then set_exclude_patterns (exclude_patterns m ++ [value]) m
  else if String.eqb key "include" then set_include_patterns (include_patterns m ++ [value]) m
  else if one_of key ["pre_transfer_script"; "pre-transfer-script"] then set_pre_transfer_script value m
  else if one_of key ["post_transfer_script"; "post-transfer-script"] then set_post_transfer_script value m
  else if one_of key ["pre_delete_script"; "pre-delete-script"] then set_pre_delete_script value m
  else if one_of key ["post_delete_script"; "post-delete-script"] then set_post_delete_script value m
  else if one_of key ["pre_list_script"; "pre-list-script"] then set_pre_list_script value m
  else if one_of key ["post_list_script"; "post-list-script"] then set_post_list_script value m
  else set_custom_options (<[key := value]> (custom_options m)) m.

Definition parseModuleConfig (module_name key value : string) : cfg unit :=
  modify (on_module module_name (set_module_key key value)).

(** ** Lines of an INI file *)
Record ini_state := MkIni {
  current_section : string;
  in_module : bool;
  current_module : string
}.
Definition ini_start : ini_state := MkIni "" false "".

(** A pair of quotes around a value. *)
Definition quoted (value : string) : bool :=
  (starts_with (String dquote "") value && bool_decide (last_char value = Some dquote)) ||
  (starts_with "'" value && bool_decide (last_char value = Some "'"%char)).
Definition unquote (value : string) : string :=
  if negb (is_empty value) && quoted value then substr 1 (String.length value - 2) value else value.

Definition ini_section (section : string) (st : ini_state) : cfg ini_state :=
  if String.eqb section "global" then mret (MkIni "global" false (current_module st))
  else if starts_with "module:" section then
    let name := substr_from 7 section in
    modify (on_module name id);;
    mret (MkIni "module" true name)
  else mret (MkIni section false (current_module st)).

Definition ini_entry (key value : string) (st : ini_state) : cfg unit :=
  if String.eqb (current_section st) "global" || is_empty (current_section st) then parseGlobalConfig key value
  else if in_module st && String.eqb (current_section st) "module"
  then parseModuleConfig (current_module st) key value
  else mret tt.

Definition ini_line (number : Z) (raw : string) (st : ini_state) : cfg ini_state :=
  let line := trim raw in
  if is_empty line || starts_with "#" line || starts_with ";" line then mret st
  else if starts_with "[" line && bool_decide (last_char line = Some "]"%char)
  then ini_section (trim (substr 1 (String.length line - 2) line)) st
  else
    match find_char "=" line with
    | None => report ("Invalid line " +:+ to_string number +:+ ": " +:+ line);; mret st
    | Some eq_pos =>
        let key := trim (substr 0 eq_pos line) in
        let value := unquote (trim (substr_from (eq_pos + 1) line)) in
        ini_entry key (substituteEnvironmentVariables value) st;;
        mret st
    end.

Fixpoint ini_lines (number : Z) (lines : list string) (st : ini_state) : cfg unit :=
  match lines with
  | [] => mret tt
  | line :: lines =>
      st ← ini_line number line st;
      ini_lines (number + 1) lines st
  end.

Definition load_ini (contents : string) : cfg unit := ini_lines 1 (getlines newline contents) ini_start.
End environment.

(** ** Lemmas: values made of text and references *)
Lemma find_str_no_char c pat s t :
  no_char c s = true → find_str (String c pat) (s +:+ t) = Nat.add (String.length s) <$> find_str (String c pat) t.
Proof.
  induction s as [|d s IH]; intros Hs.
  - rewrite app_nil_l_str. by destruct (find_str _ t).
  - apply no_char_cons in Hs as [Hd Hs]. rewrite app_cons_str. cbn [find_str starts_with].
    rewrite bool_decide_eq_false_2 by done. cbn [andb]. rewrite IH by done.
    by destruct (find_str (String c pat) t).
Qed.

Lemma find_str_no c pat s : no_char c s = true → find_str (String c pat) s = None.
Proof. intros Hs. rewrite <- (app_nil_str s), find_str_no_char by done. done. Qed.

Inductive piece := Text (s : string) | Reference (name default : string).

Definition piece_text (p : piece) : string :=
  match p with
  | Text s => s
  | Reference name d => "${" +:+ name +:+ (if is_empty d then "" else ":" +:+ d) +:+ "}"
  end.
Definition piece_ok (p : piece) : Prop :=
  match p with
  | Text s => no_char "$" s = true
  | Reference name d =>
      no_char "$" name = true ∧ no_char ":" name = true ∧ no_char "}" name = true ∧ c_str name = name ∧
      no_char "$" d = true ∧ no_char "}" d = true
  end.
Fixpoint pieces_text (l : list piece) : string :=
  match l with
  | [] => ""
  | p :: l => piece_text p +:+ pieces_text l
  end.

(** ** The loops of substitution end *)
Lemma find_char_from_bound x pos s p :
  find_char_from x pos s = Some p → (pos ≤ p ∧ p < String.length s)%nat.
Proof.
  unfold find_char_from. intros (q & Hq%find_char_lt & ->)%fmap_Some. rewrite length_drop_str in Hq. lia.
Qed.

Lemma find_str_from_bound pat pos s p :
  pat ≠ "" → find_str_from pat pos s = Some p → (pos ≤ p ∧ p + String.length pat ≤ String.length s)%nat.
Proof.
  intros Hpat. unfold find_str_from. intros (q & (a & b & Hab & ->)%find_str_Some & ->)%fmap_Some.
  apply (f_equal String.length) in Hab. rewrite length_drop_str, !length_app_str in Hab.
  assert (String.length pat ≠ 0)%nat by (by destruct pat). lia.
Qed.

Lemma replace_length pos len value s :
  (pos + len ≤ String.length s)%nat →
  (String.length (replace pos len value s) + len = String.length s + String.length value)%nat.
Proof. intros H. unfold replace. rewrite !length_app_str, length_take_str, length_drop_str. lia. Qed.

Lemma var_length_bound s : (var_length s ≤ String.length s)%nat.
Proof. induction s as [|c s IH]; [done|]. cbn. destruct (var_char c); cbn; lia. Qed.

Lemma expand_braces_ends getenv fuel : ∀ result start,
  (String.length result - start < fuel)%nat → is_Some (expand_braces getenv fuel result start).
Proof.
  induction fuel as [|fuel IH]; intros result start Hf; [lia|]. cbn [expand_braces].
  destruct (find_str_from "${" start result) as [p|] eqn:Ep; [|by eexists].
  apply find_str_from_bound in Ep as [Hp1 Hp2]; [|done]. cbn [String.length] in Hp2.
  destruct (find_char_from "}" (p + 2) result) as [e|] eqn:Ee; [|by eexists].
  apply find_char_from_bound in Ee as [He1 He2].
  assert (∀ v, is_Some (expand_braces getenv fuel (replace p (e - p + 1) v result) (p + String.length v))) as Hput.
  { intros v. apply IH. pose proof (replace_length p (e - p + 1) v result ltac:(lia)). lia. }
  set (reference := substr _ _ _). destruct (match find_char ":" reference with Some _ => _ | None => _ end) as [name def].
  destruct (getenv (c_str name)); [apply Hput|]. destruct (negb (is_empty def)); [apply Hput|]. apply IH. lia.
Qed.

Lemma expand_names_ends getenv fuel : ∀ result start,
  (String.length result - start < fuel)%nat → is_Some (expand_names getenv fuel result start).
Proof.
  induction fuel as [|fuel IH]; intros result start Hf; [lia|]. cbn [expand_names].
  destruct (find_char_from "$" start result) as [p|] eqn:Ep; [|by eexists].
  apply find_char_from_bound in Ep as [Hp1 Hp2]. case_bool_decide; [by eexists|].
  destruct (starts_with "{" _); [apply IH; lia|].
  set (n := var_length (str_drop (p + 1) result)).
  assert (p + 1 + n ≤ String.length result)%nat as Hn.
  { pose proof (var_length_bound (str_drop (p + 1) result)) as Hb. rewrite length_drop_str in Hb. lia. }
  case_bool_decide; [|apply IH; lia]. destruct (getenv _) as [v|]; [|apply IH; lia].
  apply IH. pose proof (replace_length p (n + 1) v result ltac:(lia)). lia.
Qed.

(** Both loops of the substitution end, on every value and with every
    environment: the fuel they are given is enough, and the default of
    [substituteEnvironmentVariables] is never used. *)
Theorem substitution_ends getenv value :
  ∃ braces, expand_braces getenv (S (String.length value)) value 0 = Some braces ∧
    expand_names getenv (S (String.length braces)) braces 0 = Some (substituteEnvironmentVariables getenv value).
Proof.
  destruct (expand_braces_ends getenv (S (String.length value)) value 0 ltac:(lia)) as [b Eb]. exists b. split; [done|].
  destruct (expand_names_ends getenv (S (String.length b)) b 0 ltac:(lia)) as [r Er].
  unfold substituteEnvironmentVariables. rewrite Eb. cbn [mbind option_bind]. by rewrite Er.
Qed.

Section pieces.
Context (getenv : string → option string).

(** What a piece stands for: a reference to a variable that is not set and has
    no default stays as it is. *)
Definition piece_value (p : piece) : string :=
  match p with
  | Text s => s
  | Reference name d =>
      match getenv name with
      | Some v => v
      | None => if is_empty d then piece_text p else d
      end
  end.
Fixpoint pieces_value (l : list piece) : string :=
  match l with
  | [] => ""
  | p :: l => piece_value p +:+ pieces_value l
  end.

Definition split_reference (r : string) : string * string :=
  match find_char ":" r with
  | Some colon => (substr 0 colon r, substr_from (colon + 1) r)
  | None => (r, "")
  end.

Lemma drop_plus a n s : str_drop (String.length a + n) (a +:+ s) = str_drop n s.
Proof. by rewrite <- drop_drop_str, drop_app_str. Qed.

Lemma replace_middle a b v t : replace (String.length a) (String.length b) v (a +:+ b +:+ t) = a +:+ v +:+ t.
Proof. unfold replace. by rewrite take_app_str, drop_plus, drop_app_str. Qed.

Lemma find_dollar pat d mid t :
  no_char "$" mid = true →
  find_str_from (String "$" pat) (String.length d) (d +:+ mid +:+ t) =
  Nat.add (String.length (d +:+ mid)) <$> find_str (String "$" pat) t.
Proof.
  intros Hm. unfold find_str_from. rewrite drop_app_str, find_str_no_char by done.
  rewrite length_app_str. destruct (find_str (String "$" pat) t); [|done]. cbn. f_equal. lia.
Qed.

(** One reference. *)
Lemma brace_step fuel d mid r t :
  no_char "$" mid = true → no_char "}" r = true →
  let '(name, default_value) := split_reference r in
  let p := d +:+ mid in
  let whole := "${" +:+ r +:+ "}" in
  expand_braces getenv (S fuel) (d +:+ mid +:+ whole +:+ t) (String.length d) =
  match match getenv (c_str name) with
        | Some v => Some v
        | None => if negb (is_empty default_value) then Some default_value else None
        end with
  | Some v => expand_braces getenv fuel ((p +:+ v) +:+ t) (String.length (p +:+ v))
  | None => expand_braces getenv fuel ((p +:+ whole) +:+ t) (String.length (p +:+ whole))
  end.
Proof.
  intros Hm Hr. destruct (split_reference r) as [name def] eqn:Esp. cbv zeta.
  set (p := d +:+ mid). set (whole := "${" +:+ r +:+ "}").
  assert (d +:+ mid +:+ whole +:+ t = p +:+ whole +:+ t) as Er by (unfold p; by rewrite !app_assoc_str).
  assert (String.length whole = (String.length r + 3)%nat) as Hlen
    by (unfold whole; rewrite !length_app_str; cbn; lia).
  cbn [expand_braces]. rewrite (find_dollar "{") by done. fold p.
  assert (find_str "${" (whole +:+ t) = Some 0%nat) as -> by (by apply find_str_prefix).
  cbn [fmap option_fmap option_map]. rewrite Nat.add_0_r, Er.
  assert (find_char_from "}" (String.length p + 2) (p +:+ whole +:+ t) =
    Some (String.length p + 2 + String.length r)%nat) as ->.
  { unfold find_char_from. rewrite drop_plus.
    change (str_drop 2 (whole +:+ t)) with ((r +:+ "}") +:+ t). rewrite app_assoc_str.
    change ("}" +:+ t) with (String "}" t). by rewrite find_char_app. }
  assert (substr (String.length p + 2) (String.length p + 2 + String.length r - String.length p - 2)
    (p +:+ whole +:+ t) = r) as ->.
  { unfold substr. rewrite drop_plus. change (str_drop 2 (whole +:+ t)) with ((r +:+ "}") +:+ t).
    rewrite app_assoc_str. replace (_ - _ - 2)%nat with (String.length r) by lia. apply take_app_str. }
  unfold split_reference in Esp.
  assert (∀ v, replace (String.length p) (String.length p + 2 + String.length r - String.length p + 1) v
    (p +:+ whole +:+ t) = (p +:+ v) +:+ t) as Hrep.
  { intros v. replace (_ - _ + 1)%nat with (String.length whole) by lia. by rewrite replace_middle, app_assoc_str. }
  rewrite Esp.
  replace (String.length p + 2 + String.length r + 1)%nat with (String.length (p +:+ whole))
    by (rewrite length_app_str; lia).
  destruct (getenv (c_str name)); [by rewrite Hrep, <- length_app_str|].
  destruct (is_empty def); cbn [negb]; [|by rewrite Hrep, <- length_app_str].
  clearbody p whole. by rewrite app_assoc_str.
Qed.

(** The values substituted hold no references of their own. *)
Definition plain_environment : Prop := ∀ name v, getenv name = Some v → no_char "$" v = true.

Lemma split_reference_piece name d :
  no_char ":" name = true →
  split_reference (name +:+ (if is_empty d then "" else ":" +:+ d)) = (name, d).
Proof.
  intros Hn. unfold split_reference. destruct (is_empty d) eqn:E.
  - apply is_empty_true in E as ->. rewrite app_nil_str. apply find_char_None in Hn as ->. done.
  - change (":" +:+ d) with (String ":" d). rewrite find_char_app by done. unfold substr, substr_from.
    rewrite drop_0, take_app_str. by rewrite Nat.add_1_r, drop_S_app_str.
Qed.

Fixpoint references (l : list piece) : nat :=
  match l with
  | [] => 0
  | Text _ :: l => references l
  | Reference _ _ :: l => S (references l)
  end.

Lemma references_length l : (references l ≤ String.length (pieces_text l))%nat.
Proof.
  induction l as [|[s|n d] l IH]; cbn [references pieces_text piece_text]; [cbn; lia| |];
    rewrite !length_app_str; cbn; lia.
Qed.

Lemma expand_braces_pieces l : ∀ fuel d mid,
  Forall piece_ok l → no_char "$" mid = true → (references l < fuel)%nat →
  expand_braces getenv fuel (d +:+ mid +:+ pieces_text l) (String.length d) = Some (d +:+ mid +:+ pieces_value l).
Proof.
  induction l as [|p l IH]; intros fuel d mid Hl Hm Hf; (destruct fuel as [|fuel]; [cbn in Hf; lia|]).
  - cbn [pieces_text pieces_value]. cbn [expand_braces]. rewrite (find_dollar "{") by done. done.
  - apply Forall_cons in Hl as [Hp Hl]. destruct p as [s|name def]; cbn [references pieces_text pieces_value] in *.
    + cbn [piece_text piece_value piece_ok] in *. rewrite <- (app_assoc_str mid s), IH;
        [by rewrite <- (app_assoc_str mid s)|done|by apply no_char_app|done].
    + cbn [piece_text piece_value]. destruct Hp as (Hn1 & Hn2 & Hn3 & Hn4 & Hd1 & Hd2).
      set (r := name +:+ (if is_empty def then "" else ":" +:+ def)).
      assert (no_char "}" r = true) as Hr.
      { unfold r. apply no_char_app. split; [done|]. destruct (is_empty def); [done|]. by apply no_char_cons. }
      replace ("${" +:+ name +:+ (if is_empty def then "" else ":" +:+ def) +:+ "}") with ("${" +:+ r +:+ "}")
        by (unfold r; by rewrite !app_assoc_str).
      pose proof (brace_step fuel d mid r (pieces_text l) Hm Hr) as Hstep.
      assert (split_reference r = (name, def)) as Er by (by apply split_reference_piece).
      rewrite Er, Hn4 in Hstep. cbv zeta in Hstep. rewrite Hstep.
      assert (∀ v, expand_braces getenv fuel (((d +:+ mid) +:+ v) +:+ pieces_text l)
        (String.length ((d +:+ mid) +:+ v)) = Some (d +:+ mid +:+ v +:+ pieces_value l)) as Hgo.
      { intros v. pose proof (IH fuel ((d +:+ mid) +:+ v) "" Hl eq_refl ltac:(lia)) as Hi.
        rewrite !app_nil_l_str in Hi. by rewrite Hi, !app_assoc_str. }
      destruct (getenv name); [apply Hgo|]. destruct (is_empty def) eqn:Ed; cbn [negb]; [|apply Hgo].
      rewrite Hgo. unfold r. by rewrite !app_assoc_str.
Qed.

(** The references that stay. *)
Fixpoint kept (l : list piece) : nat :=
  match l with
  | [] => 0
  | Text _ :: l => kept l
  | Reference name d :: l =>
      match getenv name with
      | Some _ => kept l
      | None => if is_empty d then S (kept l) else kept l
      end
  end.

Lemma kept_length l : (kept l ≤ String.length (pieces_value l))%nat.
Proof.
  induction l as [|[s|n d] l IH]; cbn [kept pieces_value piece_value]; [cbn; lia|rewrite length_app_str; lia|].
  destruct (getenv n); [rewrite length_app_str; lia|]. destruct (is_empty d) eqn:E; cbn [piece_text];
    rewrite !length_app_str; cbn; lia.
Qed.

Lemma names_skip fuel d mid t :
  no_char "$" mid = true →
  expand_names getenv (S fuel) (d +:+ mid +:+ "${" +:+ t) (String.length d) =
  expand_names getenv fuel ((d +:+ mid +:+ "${") +:+ t) (String.length (d +:+ mid +:+ "${")).
Proof.
  intros Hm. cbn [expand_names].
  assert (find_char_from "$" (String.length d) (d +:+ mid +:+ "${" +:+ t) = Some (String.length (d +:+ mid))) as ->.
  { unfold find_char_from. rewrite drop_app_str. change ("${" +:+ t) with (String "$" (String "{" t)).
    rewrite find_char_app by done. by rewrite length_app_str. }
  rewrite bool_decide_eq_false_2 by (rewrite !length_app_str; cbn; lia).
  assert (starts_with "{" (str_drop (String.length (d +:+ mid) + 1) (d +:+ mid +:+ "${" +:+ t)) = true) as ->.
  { rewrite <- (app_assoc_str d mid), drop_plus. done. }
  rewrite !app_assoc_str. f_equal. rewrite !length_app_str. cbn. lia.
Qed.

Lemma expand_names_pieces l : ∀ fuel d mid,
  plain_environment → Forall piece_ok l → no_char "$" mid = true → (kept l < fuel)%nat →
  expand_names getenv fuel (d +:+ mid +:+ pieces_value l) (String.length d) = Some (d +:+ mid +:+ pieces_value l).
Proof.
  induction l as [|p l IH]; intros fuel d mid Henv Hl Hm Hf.
  - destruct fuel as [|fuel]; [lia|]. cbn [pieces_value expand_names]. unfold find_char_from.
    rewrite drop_app_str, app_nil_str. apply find_char_None in Hm as ->. done.
  - apply Forall_cons in Hl as [Hp Hl].
    assert (∀ v, no_char "$" v = true → (kept l < fuel)%nat →
      expand_names getenv fuel (d +:+ mid +:+ v +:+ pieces_value l) (String.length d) =
      Some (d +:+ mid +:+ v +:+ pieces_value l)) as Hplain.
    { intros v Hv Hfuel. pose proof (IH fuel d (mid +:+ v) Henv Hl ltac:(by apply no_char_app) Hfuel) as Hi.
      by rewrite !app_assoc_str in Hi. }
    destruct p as [s|name def]; cbn [kept pieces_value piece_value] in *; [by apply Hplain|].
    destruct Hp as (Hn1 & Hn2 & Hn3 & Hn4 & Hd1 & Hd2).
    destruct (getenv name) as [v|] eqn:Ev; [apply Hplain; [by eapply Henv|done]|].
    destruct (is_empty def) eqn:Ed; [|by apply Hplain]. cbn [piece_text]. rewrite Ed.
    destruct fuel as [|fuel]; [lia|].
    assert (no_char "$" (name +:+ "}") = true) as Hm' by (by apply no_char_app).
    pose proof (IH fuel (d +:+ mid +:+ "${") (name +:+ "}") Henv Hl Hm' ltac:(lia)) as Hi.
    rewrite !app_assoc_str in Hi |- *. rewrite names_skip by done. rewrite !app_assoc_str. exact Hi.
Qed.

(** C25: Substitution of environment variables.  In a value made of plain text and
    references [${NAME}] or [${NAME:default}], every reference is replaced by the
    variable if it is set, else by its default if there is one, else left as it
    is; everything else is kept, in order, and both loops run to their end.  (The
    values must hold no dollar sign: the second pass would expand that too.) *)
Theorem substitute_spec l :
  plain_environment → Forall piece_ok l →
  substituteEnvironmentVariables getenv (pieces_text l) = pieces_value l.
Proof.
  intros Henv Hl. unfold substituteEnvironmentVariables.
  pose proof (references_length l) as Hlen.
  pose proof (expand_braces_pieces l (S (String.length (pieces_text l))) "" "" Hl eq_refl ltac:(lia)) as E.
  rewrite !app_nil_l_str in E. change (String.length "") with 0%nat in E. rewrite E. cbn [mbind option_bind].
  pose proof (kept_length l) as Hkept.
  pose proof (expand_names_pieces l (S (String.length (pieces_value l))) "" "" Henv Hl eq_refl ltac:(lia)) as En.
  rewrite !app_nil_l_str in En. change (String.length "") with 0%nat in En. by rewrite En.
Qed.
End pieces.

(** ** Files of module sections *)
Definition entry_text (kv : string * string) : string := kv.1 +:+ " = " +:+ kv.2 +:+ nl.
Fixpoint entries_text (l : list (string * string)) : string :=
  match l with
  | [] => ""
  | kv :: l => entry_text kv +:+ entries_text l
  end.
Fixpoint sections_text (l : list (string * list (string * string))) : string :=
  match l with
  | [] => ""
  | (name, entries) :: l => "[module:" +:+ name +:+ "]" +:+ nl +:+ entries_text entries +:+ sections_text l
  end.

(** Keys and values that a line keeps apart. *)
Record entry_ok (kv : string * string) : Prop := {
  key_plain : trim kv.1 = kv.1 ∧ no_char "=" kv.1 = true ∧ no_char newline kv.1 = true;
  key_starts : ∃ c k, kv.1 = String c k ∧ c ≠ "#"%char ∧ c ≠ ";"%char ∧ c ≠ "["%char;
  value_plain : trim kv.2 = kv.2 ∧ kv.2 ≠ "" ∧ no_char newline kv.2 = true ∧ quoted kv.2 = false
}.
Definition section_ok (s : string * list (string * string)) : Prop :=
  trim s.1 = s.1 ∧ no_char newline s.1 = true ∧ Forall entry_ok s.2.

Section sections.
Context (getenv : string → option string).

Definition apply_key (m : ModuleConfig) (kv : string * string) : ModuleConfig :=
  set_module_key kv.1 (substituteEnvironmentVariables getenv kv.2) m.
Definition apply_section (c : Configuration) (s : string * list (string * string)) : Configuration :=
  on_module s.1 (λ m, foldl apply_key m s.2) c.

Lemma entry_line n kv name :
  entry_ok kv →
  ini_line getenv n (kv.1 +:+ " = " +:+ kv.2) (MkIni "module" true name) =
  (parseModuleConfig name kv.1 (substituteEnvironmentVariables getenv kv.2);; mret (MkIni "module" true name)).
Proof.
  destruct kv as [k v]. intros [(Hk & Hkeq & _) (ch & k' & Ek & H1 & H2 & H3) (Hv & Hv' & _ & Hq)]. cbn [fst snd] in *.
  assert (k ≠ "") as Hk' by (by rewrite Ek). unfold ini_line. rewrite trim_between by done. cbv zeta.
  assert (is_empty (k +:+ " = " +:+ v) = false) as -> by (by rewrite Ek).
  assert (starts_with "#" (k +:+ " = " +:+ v) = false ∧ starts_with ";" (k +:+ " = " +:+ v) = false ∧
          starts_with "[" (k +:+ " = " +:+ v) = false) as (-> & -> & ->).
  { rewrite Ek, app_cons_str. cbn. by rewrite !bool_decide_eq_false_2 by done. }
  cbn [orb andb]. change (" = " +:+ v) with (" " +:+ String "=" (" " +:+ v)). rewrite <- app_assoc_str.
  rewrite find_char_app by (by apply no_char_app).
  assert (substr 0 (String.length (k +:+ " ")) ((k +:+ " ") +:+ String "=" (" " +:+ v)) = k +:+ " ") as ->.
  { unfold substr. by rewrite drop_0, take_app_str. }
  assert (substr_from (String.length (k +:+ " ") + 1) ((k +:+ " ") +:+ String "=" (" " +:+ v)) = " " +:+ v) as ->.
  { unfold substr_from. by rewrite Nat.add_1_r, drop_S_app_str. }
  assert (trim (k +:+ " ") = k) as ->.
  { apply trim_parts in Hk as [Hl Hr]. unfold trim. by rewrite ltrim_app, rtrim_space. }
  assert (trim (" " +:+ v) = v) as -> by exact Hv.
  unfold unquote. rewrite Hq, andb_false_r. done.
Qed.

Lemma header_line n name st :
  trim name = name →
  ini_line getenv n ("[module:" +:+ name +:+ "]") st =
  (modify (on_module name id);; mret (MkIni "module" true name)).
Proof.
  intros Hn. unfold ini_line.
  assert (trim ("[module:" +:+ name +:+ "]") = "[module:" +:+ name +:+ "]") as -> by (by apply trim_between).
  cbv zeta. change (is_empty ("[module:" +:+ name +:+ "]")) with false.
  change (starts_with "#" ("[module:" +:+ name +:+ "]")) with false.
  change (starts_with ";" ("[module:" +:+ name +:+ "]")) with false.
  change (starts_with "[" ("[module:" +:+ name +:+ "]")) with true. cbn [orb andb].
  assert (last_char ("[module:" +:+ name +:+ "]") = Some "]"%char) as ->.
  { rewrite <- app_assoc_str. by rewrite last_char_app. }
  rewrite bool_decide_eq_true_2 by done.
  assert (substr 1 (String.length ("[module:" +:+ name +:+ "]") - 2) ("[module:" +:+ name +:+ "]") =
    "module:" +:+ name) as ->.
  { unfold substr. change (str_drop 1 ("[module:" +:+ name +:+ "]")) with ("module:" +:+ name +:+ "]").
    rewrite <- (app_assoc_str "module:" name "]"). replace (_ - 2)%nat with (String.length ("module:" +:+ name)); [apply take_app_str|].
    rewrite !length_app_str. cbn. lia. }
  assert (trim ("module:" +:+ name) = "module:" +:+ name) as ->.
  { apply trim_parts in Hn as [_ Hr]. unfold trim. rewrite ltrim_app by done.
    destruct (decide (name = "")) as [->|Hne]; [done|]. by apply rtrim_app. }
  unfold ini_section. change (String.eqb ("module:" +:+ name) "global") with false.
  rewrite starts_with_app. done.
Qed.

Lemma on_module_twice name f g c : on_module name f (on_module name g c) = on_module name (λ m, f (g m)) c.
Proof.
  unfold on_module, find_module. cbn [modules set_modules]. rewrite lookup_insert_eq. cbn [default].
  by rewrite insert_insert_eq.
Qed.

Lemma set_modules_same c : set_modules (modules c) c = c.
Proof. by destruct c. Qed.

Lemma entries_load name entries w : ∀ n f c rest,
  Forall entry_ok entries →
  ini_lines getenv n (getlines newline (entries_text entries +:+ rest)) (MkIni "module" true name) w (on_module name f c) =
  ini_lines getenv (n + Z.of_nat (length entries)) (getlines newline rest) (MkIni "module" true name) w
    (on_module name (λ m, foldl apply_key (f m) entries) c).
Proof.
  induction entries as [|kv entries IH]; intros n f c rest Hok.
  - cbn [entries_text length foldl]. by rewrite app_nil_l_str, Z.add_0_r.
  - apply Forall_cons in Hok as [Hkv Hok]. cbn [entries_text]. unfold entry_text. rewrite !app_assoc_str.
    assert (kv.1 +:+ " = " +:+ kv.2 +:+ nl +:+ entries_text entries +:+ rest =
      (kv.1 +:+ " = " +:+ kv.2) +:+ String newline (entries_text entries +:+ rest)) as ->
      by (by rewrite !app_assoc_str).
    assert (no_char newline (kv.1 +:+ " = " +:+ kv.2) = true) as Hnl.
    { destruct Hkv as [(_ & _ & H1) _ (_ & _ & H2 & _)]. apply no_char_app. split; [done|].
      apply no_char_app. by split. }
    rewrite getlines_app by done. cbn [ini_lines]. rewrite entry_line by done.
    unfold mbind, st_bind, mret, st_ret. cbn [parseModuleConfig modify]. unfold parseModuleConfig, modify.
    rewrite on_module_twice, (IH (n + 1)) by done. cbn [length foldl].
    by replace (n + Z.of_nat (S (length entries))) with (n + 1 + Z.of_nat (length entries)) by lia.
Qed.

Lemma sections_load sections w : ∀ n c st,
  Forall section_ok sections →
  ini_lines getenv n (getlines newline (sections_text sections)) st w c = (inr tt, foldl apply_section c sections).
Proof.
  induction sections as [|[name entries] sections IH]; intros n c st Hok; [done|].
  apply Forall_cons in Hok as [(Hn & Hnl & He) Hok]. cbn [fst snd] in *. cbn [sections_text].
  assert ("[module:" +:+ name +:+ "]" +:+ nl +:+ entries_text entries +:+ sections_text sections =
    ("[module:" +:+ name +:+ "]") +:+ String newline (entries_text entries +:+ sections_text sections)) as ->
    by (by rewrite !app_assoc_str).
  assert (no_char newline ("[module:" +:+ name +:+ "]") = true) as Hl
    by (apply no_char_app; split; [done|]; by apply no_char_app).
  rewrite getlines_app by done. cbn [ini_lines]. rewrite header_line by done.
  unfold mbind, st_bind, mret, st_ret, modify. rewrite entries_load by done. by rewrite IH.
Qed.

(** *** What the keys mean *)

(** The values given to any of these keys, in order, with the environment
    substituted. *)
Definition values_of (keys : list string) (entries : list (string * string)) : list string :=
  (substituteEnvironmentVariables getenv ∘ snd) <$> filter (λ kv, kv.1 ∈ keys) entries.
Definition last_of (keys : list string) (entries : list (string * string)) : option string := last (values_of keys entries).
Definition truth (value : string) : bool := bool_decide (value ∈ ["true"; "1"; "yes"]).

Definition known_keys : list string :=
  ["path"; "comment"; "read_only"; "read only"; "list"; "delete"; "overwrite"; "exclude"; "include";
   "pre_transfer_script"; "pre-transfer-script"; "post_transfer_script"; "post-transfer-script";
   "pre_delete_script"; "pre-delete-script"; "post_delete_script"; "post-delete-script";
   "pre_list_script"; "pre-list-script"; "post_list_script"; "post-list-script"].

(** The module [m] is [m0] with these entries: the last value of a key counts, but
    for the patterns, which accumulate; a key that is not known is kept among the
    options; and nothing else changes. *)
Record described (entries : list (string * string)) (m0 m : ModuleConfig) : Prop := {
  says_path : mod_path m = default (mod_path m0) (last_of ["path"] entries);
  says_comment : mod_comment m = default (mod_comment m0) (last_of ["comment"] entries);
  says_read_only : read_only m = default (read_only m0) (truth <$> last_of ["read_only"; "read only"] entries);
  says_list : list_ m = default (list_ m0) (truth <$> last_of ["list"] entries);
  says_delete : allow_delete m = default (allow_delete m0) (truth <$> last_of ["delete"] entries);
  says_overwrite : overwrite m = default (overwrite m0) (truth <$> last_of ["overwrite"] entries);
  says_exclude : exclude_patterns m = exclude_patterns m0 ++ values_of ["exclude"] entries;
  says_include : include_patterns m = include_patterns m0 ++ values_of ["include"] entries;
  says_pre_transfer : pre_transfer_script m =
    default (pre_transfer_script m0) (last_of ["pre_transfer_script"; "pre-transfer-script"] entries);
  says_post_transfer : post_transfer_script m =
    default (post_transfer_script m0) (last_of ["post_transfer_script"; "post-transfer-script"] entries);
  says_pre_delete : pre_delete_script m =
    default (pre_delete_script m0) (last_of ["pre_delete_script"; "pre-delete-script"] entries);
  says_post_delete : post_delete_script m =
    default (post_delete_script m0) (last_of ["post_delete_script"; "post-delete-script"] entries);
  says_pre_list : pre_list_script m = default (pre_list_script m0) (last_of ["pre_list_script"; "pre-list-script"] entries);
  says_post_list : post_list_script m =
    default (post_list_script m0) (last_of ["post_list_script"; "post-list-script"] entries);
  says_options key : custom_options m !! key =
    if bool_decide (key ∈ known_keys) then custom_options m0 !! key
    else match last_of [key] entries with Some v => Some v | None => custom_options m0 !! key end;
  says_no_more : mod_name m = mod_name m0 ∧ environment_variables m = environment_variables m0 ∧
    allow_symlinks m = allow_symlinks m0 ∧ allow_hardlinks m = allow_hardlinks m0
}.

Lemma values_snoc keys entries kv :
  values_of keys (entries ++ [kv]) = values_of keys entries ++
    (if bool_decide (kv.1 ∈ keys) then [substituteEnvironmentVariables getenv kv.2] else []).
Proof.
  unfold values_of. rewrite filter_app, fmap_app. f_equal. case_bool_decide; [by rewrite filter_cons_True|by rewrite filter_cons_False].
Qed.

(** A field that only these keys set. *)
Lemma field_last {A} keys (g : string → A) (f : ModuleConfig → A) entries m :
  (∀ k v m, f (set_module_key k v m) = if bool_decide (k ∈ keys) then g v else f m) →
  f (foldl apply_key m entries) = default (f m) (g <$> last_of keys entries).
Proof.
  intros Hf. unfold last_of. induction entries as [|kv entries IH] using rev_ind; [done|].
  rewrite foldl_app, values_snoc. cbn [foldl]. unfold apply_key at 1. rewrite Hf.
  case_bool_decide; [by rewrite last_snoc|by rewrite app_nil_r].
Qed.
Lemma field_all keys (f : ModuleConfig → list string) entries m :
  (∀ k v m, f (set_module_key k v m) = if bool_decide (k ∈ keys) then f m ++ [v] else f m) →
  f (foldl apply_key m entries) = f m ++ values_of keys entries.
Proof.
  intros Hf. induction entries as [|kv entries IH] using rev_ind; [by rewrite app_nil_r|].
  rewrite foldl_app, values_snoc. cbn [foldl]. unfold apply_key at 1. rewrite Hf, IH.
  case_bool_decide; [by rewrite app_assoc|by rewrite app_nil_r].
Qed.

Lemma is_true_truth v : is_true v = truth v.
Proof.
  unfold is_true, truth. apply eq_iff_eq_true. rewrite !orb_true_iff, !String.eqb_eq, bool_decide_eq_true. set_solver.
Qed.

(** Which key set a field, by the tests of [set_module_key] in turn. *)
Ltac by_keys :=
  let k := fresh "k" in let v := fresh "v" in let m := fresh "m" in
  intros k v m; unfold set_module_key, one_of; cbn [existsb];
  repeat match goal with |- context [String.eqb k ?x] => destruct (String.eqb_spec k x) as [->|?]; [reflexivity|] end;
  rewrite ?bool_decide_eq_false_2 by (rewrite ?elem_of_cons, ?elem_of_nil; tauto); done.

Lemma set_key_options k v m key :
  custom_options (set_module_key k v m) !! key =
  if bool_decide (k ∈ known_keys) then custom_options m !! key
  else if bool_decide (k ∈ [key]) then Some v else custom_options m !! key.
Proof.
  revert k v m. intros k v m. unfold set_module_key, one_of. cbn [existsb].
  repeat match goal with |- context [String.eqb k ?x] => destruct (String.eqb_spec k x) as [->|?]; [reflexivity|] end.
  rewrite (bool_decide_eq_false_2 (k ∈ known_keys)) by (unfold known_keys; rewrite !elem_of_cons, elem_of_nil; tauto).
  cbn. case_bool_decide as Hk.
  - apply list_elem_of_singleton in Hk as ->. by rewrite lookup_insert_eq.
  - rewrite lookup_insert_ne; [done|]. intros ->. by apply Hk; left.
Qed.

Lemma options_last entries m key :
  custom_options (foldl apply_key m entries) !! key =
  if bool_decide (key ∈ known_keys) then custom_options m !! key
  else match last_of [key] entries with Some v => Some v | None => custom_options m !! key end.
Proof.
  unfold last_of. induction entries as [|kv entries IH] using rev_ind; [by case_bool_decide|].
  rewrite foldl_app, values_snoc. cbn [foldl]. unfold apply_key at 1. rewrite set_key_options, IH.
  destruct (decide (kv.1 ∈ [key])) as [E|E].
  - rewrite (bool_decide_eq_true_2 (kv.1 ∈ [key])) by done. pose proof E as ->%list_elem_of_singleton.
    case_bool_decide; [done|]. by rewrite last_snoc.
  - rewrite (bool_decide_eq_false_2 (kv.1 ∈ [key])) by done. rewrite app_nil_r. by destruct (bool_decide (kv.1 ∈ known_keys)).
Qed.

(** The fields that no key sets. *)
Definition other_fields (m : ModuleConfig) := (mod_name m, environment_variables m, allow_symlinks m, allow_hardlinks m).
Lemma set_key_others k v m : other_fields (set_module_key k v m) = other_fields m.
Proof. unfold set_module_key. by repeat (case_match; [done|]). Qed.

Lemma entries_describe entries m : described entries m (foldl apply_key m entries).
Proof.
  constructor.
  - rewrite (field_last ["path"] id mod_path) by by_keys. by rewrite option_fmap_id.
  - rewrite (field_last ["comment"] id mod_comment) by by_keys. by rewrite option_fmap_id.
  - apply (field_last _ truth read_only). intros k v m0. rewrite <- is_true_truth. revert k v m0. by_keys.
  - apply (field_last _ truth list_). intros k v m0. rewrite <- is_true_truth. revert k v m0. by_keys.
  - apply (field_last _ truth allow_delete). intros k v m0. rewrite <- is_true_truth. revert k v m0. by_keys.
  - apply (field_last _ truth overwrite). intros k v m0. rewrite <- is_true_truth. revert k v m0. by_keys.
  - apply (field_all _ exclude_patterns). by_keys.
  - apply (field_all _ include_patterns). by_keys.
  - rewrite (field_last ["pre_transfer_script"; "pre-transfer-script"] id pre_transfer_script) by by_keys. by rewrite option_fmap_id.
  - rewrite (field_last ["post_transfer_script"; "post-transfer-script"] id post_transfer_script) by by_keys. by rewrite option_fmap_id.
  - rewrite (field_last ["pre_delete_script"; "pre-delete-script"] id pre_delete_script) by by_keys. by rewrite option_fmap_id.
  - rewrite (field_last ["post_delete_script"; "post-delete-script"] id post_delete_script) by by_keys. by rewrite option_fmap_id.
  - rewrite (field_last ["pre_list_script"; "pre-list-script"] id pre_list_script) by by_keys. by rewrite option_fmap_id.
  - rewrite (field_last ["post_list_script"; "post-list-script"] id post_list_script) by by_keys. by rewrite option_fmap_id.
  - intros key. apply options_last.
  - assert (other_fields (foldl apply_key m entries) = other_fields m) as E; [|by injection E].
    revert m. induction entries as [|kv entries IH]; intros m; [done|]. cbn [foldl]. rewrite IH. apply set_key_others.
Qed.

(** The entries of the sections of a module, in the order of the file. *)
Definition entries_of (name : string) (sections : list (string * list (string * string))) : list (string * string) :=
  concat (snd <$> filter (λ s, s.1 = name) sections).

Lemma sections_modules sections : ∀ c,
  let c' := foldl apply_section c sections in
  c' = set_modules (modules c') c ∧
  ∀ name, modules c' !! name =
    if bool_decide (name ∈ sections.*1) then Some (foldl apply_key (find_module name c) (entries_of name sections))
    else modules c !! name.
Proof.
  induction sections as [|[name entries] sections IH]; intros c; cbn [foldl].
  - split; [by destruct c|]. intros name. by rewrite bool_decide_eq_false_2 by apply not_elem_of_nil.
  - destruct (IH (apply_section c (name, entries))) as [E Hm]. split; [by rewrite E at 1|]. intros n. rewrite Hm.
    unfold apply_section, on_module. cbn [modules set_modules fst snd]. unfold entries_of.
    rewrite filter_cons. cbn [fst]. rewrite fmap_cons. cbn [fst]. destruct (decide (name = n)) as [->|Hne].
    + rewrite (bool_decide_eq_true_2 (n ∈ n :: _)) by by left. rewrite lookup_insert_eq. unfold find_module at 1.
      cbn [modules set_modules]. rewrite lookup_insert_eq. cbn [default fmap concat snd list_fmap]. rewrite foldl_app.
      case_bool_decide as Hin; [done|]. f_equal. assert (filter (λ s, s.1 = n) sections = []) as ->; [|done].
      clear -Hin. induction sections as [|y sections IH]; [done|]. rewrite fmap_cons, not_elem_of_cons in Hin.
      rewrite filter_cons_False by (by destruct Hin). by apply IH, Hin.
    + rewrite lookup_insert_ne by done. unfold find_module at 1. cbn [modules set_modules]. rewrite lookup_insert_ne by done.
      rewrite (bool_decide_ext (n ∈ name :: sections.*1) (n ∈ sections.*1)); [done|]. rewrite elem_of_cons.
      split; [intros [?|?]; congruence|by right].
Qed.


(** ** An INI file names no module *)
Definition unnamed (c : Configuration) : Prop := ∀ key m, modules c !! key = Some m → mod_name m = "".

Lemma set_key_name key value m : mod_name (set_module_key key value m) = mod_name m.
Proof. unfold set_module_key. by repeat (case_match; [done|]). Qed.

Lemma on_module_unnamed name f c :
  (∀ m, mod_name (f m) = mod_name m) → unnamed c → unnamed (on_module name f c).
Proof.
  intros Hf Hc key m. unfold on_module. cbn [modules set_modules].
  destruct (decide (name = key)) as [->|Hne].
  - rewrite lookup_insert_eq. intros [= <-]. rewrite Hf. unfold find_module.
    destruct (modules c !! key) eqn:E; [by eapply Hc|done].
  - rewrite lookup_insert_ne by done. apply Hc.
Qed.

Lemma global_modules key value w c : modules (snd (parseGlobalConfig key value w c)) = modules c.
Proof. unfold parseGlobalConfig. by repeat (case_match; try done). Qed.

Lemma ini_entry_unnamed key value st w c : unnamed c → unnamed (snd (ini_entry key value st w c)).
Proof.
  intros Hc. unfold ini_entry. case_match; [|case_match; [|done]].
  - unfold unnamed. by rewrite global_modules.
  - apply on_module_unnamed; [|done]. intros m. apply set_key_name.
Qed.

#[local] Instance ini_entry_preserves key value st : Preserves unnamed (ini_entry key value st).
Proof. intros w c. apply ini_entry_unnamed. Qed.
#[local] Instance report_preserves message : Preserves unnamed (report message).
Proof. by apply preserves_modify. Qed.
#[local] Instance section_preserves section st : Preserves unnamed (ini_section section st).
Proof.
  unfold ini_section. apply preserves_if; [apply _|]. apply preserves_if; [|apply _].
  apply preserves_bind; [|apply _]. apply preserves_modify. intros c Hc. by apply on_module_unnamed.
Qed.
#[local] Instance line_preserves n line st : Preserves unnamed (ini_line getenv n line st).
Proof.
  unfold ini_line. apply preserves_if; [apply _|]. apply preserves_if; [apply _|]. case_match; apply _.
Qed.
#[local] Instance lines_preserve lines n st : Preserves unnamed (ini_lines getenv n lines st).
Proof. revert n st; induction lines; intros n st; cbn [ini_lines]; apply _. Qed.

(** Unlike the other loaders, the INI loader never sets the name of a module:
    after any file, whatever its text, every module it created answers [getName]
    with the empty string. *)
Theorem load_ini_unnamed contents w c : unnamed c → unnamed (snd (load_ini getenv contents w c)).
Proof. unfold load_ini. apply (lines_preserve (getlines newline contents) 1 ini_start w c). Qed.
End sections.

(** ** Witnesses *)
Definition toy_env (name : string) : option string :=
  if String.eqb name "ROOT" then Some "/srv" else if String.eqb name "DEEP" then Some "$ROOT" else None.

Lemma substitute_spec_witness :
  let plain name := if String.eqb name "ROOT" then Some "/srv" else None in
  substituteEnvironmentVariables plain "a ${ROOT}/${DIR:data} ${MISSING} b" = "a /srv/data ${MISSING} b".
Proof.
  intros plain. apply (substitute_spec plain
    [Text "a "; Reference "ROOT" ""; Text "/"; Reference "DIR" "data"; Text " "; Reference "MISSING" ""; Text " b"]).
  - intros name v. unfold plain. case_match; [|done]. by intros [= <-].
  - repeat (constructor; [repeat split; reflexivity|]). constructor.
Defined.

(** A value with a dollar sign is expanded again. *)
Example substituted_twice : substituteEnvironmentVariables toy_env "${DEEP}" = "/srv".
Proof. reflexivity. Qed.

Definition toy_sections : list (string * list (string * string)) :=
  [("data", [("path", "/srv/data"); ("exclude", "*.tmp"); ("exclude_patterns", "*.log, .DS_Store")]);
   ("docs", [("path", "/srv/docs"); ("read only", "yes")]);
   ("data", [("path", "${ROOT}/data  # the data"); ("exclude", "*.bak")])].

Lemma toy_sections_ok : Forall section_ok toy_sections.
Proof.
  repeat (constructor; [split; [reflexivity|split; [reflexivity|]]|]); [| | |constructor];
    repeat (constructor; [constructor; [done|by do 2 eexists|done]|]); constructor.
Qed.

Definition toy_empty : world := MkWorld ∅ "/" (λ _, true) (λ _, true) (λ _, true).


Lemma load_ini_unnamed_witness :
  unnamed new_configuration ∧
  unnamed (snd (load_ini toy_env (sections_text toy_sections) toy_empty new_configuration)).
Proof.
  assert (unnamed new_configuration) as H by (intros key m Hm; change (modules new_configuration) with (∅ : gmap string ModuleConfig) in Hm;
    by rewrite lookup_empty in Hm).
  split; [exact H|]. by apply (load_ini_unnamed toy_env (sections_text toy_sections) toy_empty).
Defined.
