(* ===== verification/ConfigDocuments.v ===== *)
(** * JSON and YAML configurations: [config/config.cpp], lines 347-861

    jsoncpp and yaml-cpp are the interfaces [JsonLibrary] and [YamlLibrary]:
    what the loaders call, each call with the exceptions it may throw.  The
    loaders are sequences of steps, one per key, in the order of the code; an
    exception leaves the keys before it applied. *)
From S2P Require Import Prelude CppString Passwords ConfigTypes FileSys State ConfigText.
Open Scope Z_scope.

Class JsonLibrary := {
  JValue : Type;
  json_available : bool;
  json_parse : string → string + JValue; (* or the formatted error messages *)
  isMember : JValue → string → exn + bool;
  json_at : JValue → string → exn + JValue;
  asString : JValue → exn + string;
  asBool : JValue → exn + bool;
  asUInt : JValue → exn + Z;
  isArray : JValue → option (list JValue);
  isObject : JValue → bool;
  getMemberNames : JValue → exn + list string
}.

Class YamlLibrary := {
  YNode : Type;
  yaml_available : bool;
  yaml_load : string → exn + YNode;
  yaml_at : YNode → string → exn + YNode;
  IsDefined : YNode → bool;
  IsNull : YNode → bool;
  IsSequence : YNode → option (list YNode);
  IsMap : YNode → option (list (YNode * YNode));
  as_string : YNode → exn + string;
  as_bool : YNode → exn + bool;
  as_uint : YNode → exn + Z;
  as_size : YNode → exn + Z
}.

(** The classes the program declares in the place of a library it was built without. *)
Definition no_json : JsonLibrary := {|
  JValue := unit; json_available := false; json_parse _ := inl "JSON parsing not available";
  isMember _ _ := inr false; json_at v _ := inr v; asString _ := inr ""; asBool _ := inr false; asUInt _ := inr 0;
  isArray _ := None; isObject _ := false; getMemberNames _ := inr []
|}.
Definition no_yaml : YamlLibrary := {|
  YNode := unit; yaml_available := false; yaml_load _ := inr tt; yaml_at _ _ := inr tt; IsDefined _ := false;
  IsNull _ := false; IsSequence _ := None; IsMap _ := None; as_string _ := inr ""; as_bool _ := inr false;
  as_uint _ := inr 0; as_size _ := inr 0
|}.

Definition set_min_length (x : Z) (p : PasswordPolicy) : PasswordPolicy :=
  MkPolicy x (require_uppercase p) (require_lowercase p) (require_digits p) (require_special p)
    (expiration_hours p) (max_failed_attempts p) (lockout_duration p) (prevent_reuse p)
    (password_history_size p).
Definition set_require_uppercase (x : bool) (p : PasswordPolicy) : PasswordPolicy :=
  MkPolicy (min_length p) x (require_lowercase p) (require_digits p) (require_special p) (expiration_hours
    p) (max_failed_attempts p) (lockout_duration p) (prevent_reuse p) (password_history_size p).
Definition set_require_lowercase (x : bool) (p : PasswordPolicy) : PasswordPolicy :=
  MkPolicy (min_length p) (require_uppercase p) x (require_digits p) (require_special p) (expiration_hours
    p) (max_failed_attempts p) (lockout_duration p) (prevent_reuse p) (password_history_size p).
Definition set_require_digits (x : bool) (p : PasswordPolicy) : PasswordPolicy :=
  MkPolicy (min_length p) (require_uppercase p) (require_lowercase p) x (require_special p)
    (expiration_hours p) (max_failed_attempts p) (lockout_duration p) (prevent_reuse p)
    (password_history_size p).
Definition set_require_special (x : bool) (p : PasswordPolicy) : PasswordPolicy :=
  MkPolicy (min_length p) (require_uppercase p) (require_lowercase p) (require_digits p) x (expiration_hours
    p) (max_failed_attempts p) (lockout_duration p) (prevent_reuse p) (password_history_size p).
Definition set_expiration_hours (x : Z) (p : PasswordPolicy) : PasswordPolicy :=
  MkPolicy (min_length p) (require_uppercase p) (require_lowercase p) (require_digits p) (require_special p)
    x (max_failed_attempts p) (lockout_duration p) (prevent_reuse p) (password_history_size p).
Definition on_policy (f : PasswordPolicy → PasswordPolicy) (a : AuthConfig) : AuthConfig :=
  set_password_policy (f (password_policy a)) a.

(** ** JSON *)
Section json.
Context `{JsonLibrary}.

(** [if (v.isMember(key)) k(v[key])] *)
Definition member (v : JValue) (key : string) (k : JValue → cfg unit) : cfg unit :=
  there ← lift (isMember v key);
  if there : bool then x ← lift (json_at v key); k x else mret tt.
Definition field {A} (v : JValue) (key : string) (as_ : JValue → exn + A)
    (set : A → Configuration → Configuration) : cfg unit :=
  member v key (λ x, a ← lift (as_ x); modify (set a)).
(** The first of two keys that is there. *)
Definition either {A} (v : JValue) (key other : string) (as_ : JValue → exn + A)
    (set : A → Configuration → Configuration) : cfg unit :=
  there ← lift (isMember v key);
  if there : bool then x ← lift (json_at v key); a ← lift (as_ x); modify (set a)
  else field v other as_ set.
(** Every element of an array; anything else is skipped. *)
Definition strings (v : JValue) (key : string) (add : string → Configuration → Configuration) : cfg unit :=
  member v key (λ x, match isArray x with
                     | Some l => each (λ y, a ← lift (asString y); modify (add a)) l
                     | None => mret tt
                     end).

Definition parseJSONGlobal (global : JValue) : cfg unit :=
  either global "bind_address" "address" asString (λ a, on_network (set_bind_address a));;
  either global "bind_port" "port" asUInt (λ n, on_network (set_bind_port (n `mod` 2 ^ 16)));;
  field global "max_connections" asUInt (λ n, on_network (set_max_connections n));;
  field global "pid_file" asString set_pid_file;;
  field global "user" asString (λ u c, on_security (set_sec_user u) (set_conf_user u c));;
  field global "group" asString (λ g c, on_security (set_sec_group g) (set_conf_group g c)).

Definition parseJSONModule (name : string) (v : JValue) : cfg unit :=
  modify (on_module name (set_mod_name name));;
  field v "path" asString (λ x, on_module name (set_mod_path x));;
  field v "comment" asString (λ x, on_module name (set_mod_comment x));;
  field v "read_only" asBool (λ x, on_module name (set_read_only x));;
  field v "list" asBool (λ x, on_module name (set_list x));;
  field v "allow_delete" asBool (λ x, on_module name (set_allow_delete x));;
  field v "overwrite" asBool (λ x, on_module name (set_overwrite x));;
  strings v "exclude" (λ x, on_module name (λ m, set_exclude_patterns (exclude_patterns m ++ [x]) m));;
  strings v "include" (λ x, on_module name (λ m, set_include_patterns (include_patterns m ++ [x]) m)).

Definition parse_json_root (root : JValue) : cfg unit :=
  there ← lift (isMember root "global");
  (if there : bool then g ← lift (json_at root "global"); parseJSONGlobal g else parseJSONGlobal root);;
  member root "network" (λ net,
    field net "bind_address" asString (λ x, on_network (set_bind_address x));;
    field net "bind_port" asUInt (λ n, on_network (set_bind_port (n `mod` 2 ^ 16)));;
    field net "max_connections" asUInt (λ n, on_network (set_max_connections n));;
    field net "backlog" asUInt (λ n, on_network (set_backlog n));;
    field net "worker_threads" asUInt (λ n, on_network (set_worker_threads n)));;
  member root "ssl" (λ s,
    field s "enabled" asBool (λ x, on_ssl (set_ssl_enabled x));;
    field s "certificate_file" asString (λ x, on_ssl (set_certificate_file x));;
    field s "private_key_file" asString (λ x, on_ssl (set_private_key_file x));;
    field s "ca_file" asString (λ x, on_ssl (set_ca_file x)));;
  member root "auth" (λ a,
    field a "enabled" asBool (λ x, on_auth (set_auth_enabled x));;
    field a "method" asString (λ x, on_auth (set_method x));;
    field a "password_file" asString (λ x, on_auth (set_password_file x));;
    field a "public_key_file" asString (λ x, on_auth (set_public_key_file x));;
    field a "realm" asString (λ x, on_auth (set_realm x));;
    field a "anonymous_access" asBool (λ x, on_auth (set_anonymous_access x));;
    strings a "allowed_users" (λ x, on_auth (λ c, set_allowed_users (allowed_users c ++ [x]) c));;
    strings a "denied_users" (λ x, on_auth (λ c, set_denied_users (denied_users c ++ [x]) c)));;
  member root "modules" (λ ms,
    if isObject ms then
      names ← lift (getMemberNames ms);
      each (λ name, m ← lift (json_at ms name); parseJSONModule name m) names
    else mret tt).
End json.

(** ** YAML *)
Section yaml.
Context `{YamlLibrary}.

(** [if (v[key].IsDefined()) k(v[key])] *)
Definition node_member (v : YNode) (key : string) (k : YNode → cfg unit) : cfg unit :=
  x ← lift (yaml_at v key);
  if IsDefined x then k x else mret tt.
Definition node_field {A} (v : YNode) (key : string) (as_ : YNode → exn + A)
    (set : A → Configuration → Configuration) : cfg unit :=
  node_member v key (λ x, a ← lift (as_ x); modify (set a)).
(** The first of two keys that is defined. *)
Definition node_either (v : YNode) (key other : string) (k : YNode → cfg unit) : cfg unit :=
  x ← lift (yaml_at v key);
  if IsDefined x then k x else node_member v other k.
Definition node_strings (add : string → Configuration → Configuration) (x : YNode) : cfg unit :=
  match IsSequence x with
  | Some l => each (λ y, a ← lift (as_string y); modify (add a)) l
  | None => mret tt
  end.

Definition parseYAMLGlobal (global : YNode) : cfg unit :=
  node_either global "bind_address" "address" (λ x,
    a ← lift (as_string x); modify (on_network (set_bind_address a)));;
  node_either global "bind_port" "port" (λ x,
    n ← lift (as_uint x); modify (on_network (set_bind_port (n `mod` 2 ^ 16))));;
  node_field global "max_connections" as_uint (λ n, on_network (set_max_connections n));;
  node_field global "pid_file" as_string set_pid_file;;
  node_field global "user" as_string (λ u c, on_security (set_sec_user u) (set_conf_user u c));;
  node_field global "group" as_string (λ g c, on_security (set_sec_group g) (set_conf_group g c)).

Definition parseYAMLModule (name : string) (v : YNode) : cfg unit :=
  modify (on_module name (set_mod_name name));;
  node_field v "path" as_string (λ x, on_module name (set_mod_path x));;
  node_field v "comment" as_string (λ x, on_module name (set_mod_comment x));;
  node_field v "read_only" as_bool (λ x, on_module name (set_read_only x));;
  node_field v "list" as_bool (λ x, on_module name (set_list x));;
  node_either v "allow_delete" "delete" (λ x,
    b ← lift (as_bool x); modify (on_module name (set_allow_delete b)));;
  node_field v "overwrite" as_bool (λ x, on_module name (set_overwrite x));;
  node_either v "exclude" "exclude_patterns" (node_strings
    (λ x, on_module name (λ m, set_exclude_patterns (exclude_patterns m ++ [x]) m)));;
  node_either v "include" "include_patterns" (node_strings
    (λ x, on_module name (λ m, set_include_patterns (include_patterns m ++ [x]) m)));;
  node_field v "pre_transfer_script" as_string (λ x, on_module name (set_pre_transfer_script x));;
  node_field v "post_transfer_script" as_string (λ x, on_module name (set_post_transfer_script x));;
  node_field v "pre_delete_script" as_string (λ x, on_module name (set_pre_delete_script x));;
  node_field v "post_delete_script" as_string (λ x, on_module name (set_post_delete_script x));;
  node_field v "pre_list_script" as_string (λ x, on_module name (set_pre_list_script x));;
  node_field v "post_list_script" as_string (λ x, on_module name (set_post_list_script x)).

Definition parse_yaml_policy (policy : YNode) : cfg unit :=
  node_field policy "min_length" as_size (λ x, on_auth (on_policy (set_min_length x)));;
  node_field policy "require_uppercase" as_bool (λ x, on_auth (on_policy (set_require_uppercase x)));;
  node_field policy "require_lowercase" as_bool (λ x, on_auth (on_policy (set_require_lowercase x)));;
  node_field policy "require_digits" as_bool (λ x, on_auth (on_policy (set_require_digits x)));;
  node_field policy "require_special" as_bool (λ x, on_auth (on_policy (set_require_special x)));;
  node_field policy "expiration_hours" as_uint (λ x, on_auth (on_policy (set_expiration_hours x))).

Definition parse_yaml_auth (a : YNode) : cfg unit :=
  node_field a "enabled" as_bool (λ x, on_auth (set_auth_enabled x));;
  node_field a "method" as_string (λ x, on_auth (set_method x));;
  node_field a "password_file" as_string (λ x, on_auth (set_password_file x));;
  node_field a "public_key_file" as_string (λ x, on_auth (set_public_key_file x));;
  node_field a "realm" as_string (λ x, on_auth (set_realm x));;
  node_field a "anonymous_access" as_bool (λ x, on_auth (set_anonymous_access x));;
  node_member a "allowed_users" (node_strings (λ x, on_auth (λ c, set_allowed_users (allowed_users c ++ [x]) c)));;
  node_member a "denied_users" (node_strings (λ x, on_auth (λ c, set_denied_users (denied_users c ++ [x]) c)));;
  node_member a "password_policy" parse_yaml_policy;;
  node_member a "session" (λ s, node_field s "timeout" as_uint (λ n, on_auth (set_session_timeout n))).

Definition parse_yaml_log (l : YNode) : cfg unit :=
  node_field l "level" as_string (λ x, on_log (set_level x));;
  node_field l "file" as_string (λ x, on_log (λ l, set_file_output true (set_log_file x l)));;
  node_field l "format" as_string (λ x, on_log (set_format (if String.eqb x "json" then "json" else "text")));;
  node_field l "max_file_size" as_size (λ x, on_log (set_max_file_size x));;
  node_field l "max_files" as_size (λ x, on_log (set_max_files x));;
  node_field l "compress_old_logs" as_bool (λ x, on_log (set_compress_old_logs x)).

Definition parse_yaml_root (root : YNode) : cfg unit :=
  g ← lift (yaml_at root "global");
  parseYAMLGlobal (if IsDefined g then g else root);;
  node_member root "network" (λ net,
    node_field net "bind_address" as_string (λ x, on_network (set_bind_address x));;
    node_field net "bind_port" as_uint (λ n, on_network (set_bind_port (n `mod` 2 ^ 16)));;
    node_field net "max_connections" as_uint (λ n, on_network (set_max_connections n));;
    node_field net "backlog" as_uint (λ n, on_network (set_backlog n));;
    node_field net "worker_threads" as_uint (λ n, on_network (set_worker_threads n)));;
  node_member root "ssl" (λ s,
    node_field s "enabled" as_bool (λ x, on_ssl (set_ssl_enabled x));;
    node_field s "certificate_file" as_string (λ x, on_ssl (set_certificate_file x));;
    node_field s "private_key_file" as_string (λ x, on_ssl (set_private_key_file x));;
    node_field s "ca_file" as_string (λ x, on_ssl (set_ca_file x)));;
  node_member root "auth" parse_yaml_auth;;
  node_member root "log" parse_yaml_log;;
  node_member root "config" (λ n,
    node_field n "auto_reload" as_bool set_auto_reload;;
    node_field n "reload_interval" as_uint set_reload_interval);;
  node_member root "modules" (λ ms,
    match IsMap ms with
    | Some entries => each (λ e, name ← lift (as_string e.1); parseYAMLModule name e.2) entries
    | None => mret tt
    end).
End yaml.
