(* ===== verification/Config.v ===== *)
(** * The configuration object: [config/config.cpp], lines 97-345 and 863-1171

    Loading, validating, saving and watching a configuration.  A loader's result
    is the value the function returns or an exception, and the object as it is
    left. *)
From S2P Require Import Prelude CppString ConfigTypes FileSys State ConfigText ConfigDocuments.
Open Scope Z_scope.

(** ** Validation *)

(** An error is reported when the test fails. *)
Definition complain (ok : bool) (message : string) : cfg bool :=
  if ok then mret true else report message;; mret false.
Definition both (a b : cfg bool) : cfg bool := x ← a; y ← b; mret (x && y).

Definition validateNetwork : cfg bool :=
  n ← gets network;
  both (complain (negb (bind_port n =? 0)) ("Invalid bind_port: " +:+ to_string (bind_port n)))
       (complain (negb (max_connections n =? 0)) "max_connections must be greater than 0").

Definition check_file (file unspecified missing : string) : cfg bool :=
  if is_empty file then complain false unspecified
  else there ← query (exists_ file); complain there (missing +:+ file).

Definition validateSSL : cfg bool :=
  s ← gets ssl;
  both (check_file (certificate_file s) "SSL enabled but certificate_file not specified"
          "SSL certificate file does not exist: ")
       (check_file (private_key_file s) "SSL enabled but private_key_file not specified"
          "SSL private key file does not exist: ").

Definition validateAuth : cfg bool :=
  a ← gets auth;
  if String.eqb (method a) "password"
  then check_file (password_file a) "Password authentication enabled but password_file not specified"
         "Password file does not exist: "
  else mret true.

Definition check_module (name : string) (m : ModuleConfig) : cfg bool :=
  if is_empty (mod_path m) then complain false ("Module '" +:+ name +:+ "' has no path specified")
  else
    there ← query (exists_ (mod_path m));
    if negb there
    then report ("Module '" +:+ name +:+ "' path does not exist: " +:+ mod_path m);; mret true
    else
      directory ← query (is_directory (mod_path m));
      complain directory ("Module '" +:+ name +:+ "' path is not a directory: " +:+ mod_path m).

Fixpoint check_modules (l : list (string * ModuleConfig)) : cfg bool :=
  match l with
  | [] => mret true
  | (name, m) :: l => both (check_module name m) (check_modules l)
  end.

Definition validateModules : cfg bool :=
  ms ← gets modules;
  check_modules (map_entries ms).

Definition validate : cfg bool :=
  modify (set_errors []);;
  s ← gets ssl;
  a ← gets auth;
  both (both (both validateNetwork (if ssl_enabled s then validateSSL else mret true))
             (if auth_enabled a then validateAuth else mret true))
       validateModules.

(** Declared with the others, constant, and called by nobody. *)
Definition validateAccess (c : Configuration) : bool := true.
Definition validateRateLimit (c : Configuration) : bool := true.
Definition validateLog (c : Configuration) : bool := true.
Definition validateSecurity (c : Configuration) : bool := true.
Definition validatePerformance (c : Configuration) : bool := true.
Definition validateMonitoring (c : Configuration) : bool := true.

Definition getErrors (c : Configuration) : list string := errors_ c.

(** ** Loading *)
Section loading.
Context `{JsonLibrary} `{YamlLibrary} (getenv : string → option string).

(** [write_time] is the modification time of a file on the system clock, [None]
    when reading it throws; [now] is the clock. *)
Context (write_time : string → option Z) (now : Z).

Definition updateLastModified : cfg unit :=
  modify (λ c, set_has_changed false (set_last_modified
    (if is_empty (config_file_path c) then now else default now (write_time (config_file_path c))) c)).

Definition checkFileChanged (c : Configuration) : bool :=
  if is_empty (config_file_path c) then false
  else match write_time (config_file_path c) with
       | Some t => last_modified c <? t
       | None => false
       end.

(** After parsing. *)
Definition finish_load : cfg bool :=
  updateLastModified;;
  valid ← validate;
  if negb valid then mret false
  else modify (λ c, set_has_changed false (set_is_valid true c));; mret true.

Definition clear_load : cfg unit := modify (λ c, set_is_valid false (set_errors [] c)).
Definition refuse (message : string) : cfg bool := report message;; mret false.

Definition loadFromJSON (json : string) : cfg bool :=
  clear_load;;
  if is_empty json then refuse "Empty JSON configuration"
  else if negb json_available then refuse "JSON parsing not available - jsoncpp library not found"
  else match json_parse json with
       | inl messages => refuse ("Failed to parse JSON: " +:+ messages)
       | inr root => parse_json_root root;; finish_load
       end.

Definition loadFromYAML (yaml : string) : cfg bool :=
  clear_load;;
  if is_empty yaml then refuse "Empty YAML configuration"
  else if negb yaml_available then refuse "YAML parsing not available - yaml-cpp library not found"
  else
    try_yaml
      (root ← lift (yaml_load yaml);
       if negb (IsDefined root) || IsNull root then refuse "Invalid YAML configuration"
       else parse_yaml_root root;; finish_load)
      (λ what, refuse ("Failed to parse YAML: " +:+ what)).

Definition loadFromFile (name : string) : cfg bool :=
  clear_load;;
  there ← query (exists_ name);
  if negb there then refuse ("Configuration file does not exist: " +:+ name) else
  modify (set_config_file_path name);;
  contents ← query (read_stream name);
  match contents with
  | None => refuse ("Failed to open configuration file: " +:+ name)
  | Some contents =>
      let ext := str_map tolower (extension name) in
      if String.eqb ext ".json" then loadFromJSON contents
      else if String.eqb ext ".yml" || String.eqb ext ".yaml" then loadFromYAML contents
      else load_ini getenv contents;; finish_load
  end.

Definition reload : cfg bool :=
  p ← gets config_file_path;
  if is_empty p then mret false else loadFromFile p.

Definition hasChanged (c : Configuration) : bool := has_changed_ c.
Definition merge (other : Configuration) (over : bool) (c : Configuration) : Configuration := c.
End loading.

(** ** Saving *)
Definition saveToFile (name : string) : io bool :=
  do file <- open_write false name;
  match file with
  | None => ret false
  | Some l => do _ <- append_to l ("# simple-rsyncd Configuration" +:+ nl +:+ "# Generated configuration file" +:+ nl);
              ret true
  end.
Definition saveToJSON : string :=
  "{" +:+ String dquote "version" +:+ String dquote ": " +:+ String dquote "0.3.0" +:+ String dquote "}".

(** ** Validation accepts exactly the valid configurations *)
Definition there (w : world) (p : string) : Prop := fst (exists_ p w) = Some true.

Definition ssl_valid (w : world) (s : SSLConfig) : Prop :=
  certificate_file s ≠ "" ∧ there w (certificate_file s) ∧ private_key_file s ≠ "" ∧ there w (private_key_file s).
Definition auth_valid (w : world) (a : AuthConfig) : Prop :=
  method a = "password" → password_file a ≠ "" ∧ there w (password_file a).
Definition module_valid (w : world) (m : ModuleConfig) : Prop :=
  mod_path m ≠ "" ∧ (there w (mod_path m) → fst (is_directory (mod_path m) w) = Some true).

Record valid_config (w : world) (c : Configuration) : Prop := {
  valid_port : bind_port (network c) ≠ 0;
  valid_connections : max_connections (network c) ≠ 0;
  valid_ssl : ssl_enabled (ssl c) = true → ssl_valid w (ssl c);
  valid_auth : auth_enabled (auth c) = true → auth_valid w (auth c);
  valid_modules : ∀ name m, modules c !! name = Some m → module_valid w m
}.

(** A check decides [P], and touches nothing but the errors. *)
Definition Checks (P : world → Prop) (m : cfg bool) : Prop := ∀ w c r c',
  m w c = (inr r, c') → (r = true ↔ P w) ∧ ∃ es, c' = set_errors es c.

Lemma set_errors_same c : set_errors (errors_ c) c = c.
Proof. by destruct c. Qed.

Lemma checks_iff P Q m : (∀ w, P w ↔ Q w) → Checks P m → Checks Q m.
Proof. intros E Hm w c r c' Hr. destruct (Hm w c r c' Hr) as [H1 H2]. by rewrite <- E. Qed.

Lemma checks_true : Checks (λ _, True) (mret true).
Proof. intros w c r c' [= <- <-]. split; [done|]. exists (errors_ c). by rewrite set_errors_same. Qed.

Lemma checks_complain ok message : Checks (λ _, ok = true) (complain ok message).
Proof.
  intros w c r c'. unfold complain. destruct ok; intros [= <- <-].
  - split; [done|]. exists (errors_ c). by rewrite set_errors_same.
  - split; [done|]. by eexists.
Qed.

Lemma checks_both P Q a b : Checks P a → Checks Q b → Checks (λ w, P w ∧ Q w) (both a b).
Proof.
  intros Ha Hb w c r c' (x & c1 & E1 & (y & c2 & E2 & [= <- <-])%st_bind_inr)%st_bind_inr.
  destruct (Ha _ _ _ _ E1) as [Hx [es1 ->]]. destruct (Hb _ _ _ _ E2) as [Hy [es2 ->]].
  split; [by rewrite andb_true_iff, Hx, Hy|]. by exists es2.
Qed.

Lemma checks_query {P : bool → world → Prop} (q : io bool) (k : bool → cfg bool) :
  (∀ b, Checks (P b) (k b)) → Checks (λ w, ∃ b, fst (q w) = Some b ∧ P b w) (x ← query q; k x).
Proof.
  intros Hk w c r c' (x & c1 & E1 & E2)%st_bind_inr. unfold query in E1.
  destruct (fst (q w)) as [b|] eqn:Eb; [|done]. injection E1 as <- <-.
  destruct (Hk b _ _ _ _ E2) as [Hr Hes]. split; [|done]. rewrite Hr. naive_solver.
Qed.

Lemma checks_file file m1 m2 : Checks (λ w, file ≠ "" ∧ there w file) (check_file file m1 m2).
Proof.
  unfold check_file. destruct (is_empty file) eqn:E.
  - apply is_empty_true in E. eapply checks_iff; [|apply checks_complain]. cbn. naive_solver.
  - apply is_empty_false in E. eapply checks_iff;
      [|apply (checks_query (P:=λ b _, b = true)); intros b; apply checks_complain].
    intros w. cbn. unfold there. naive_solver.
Qed.

Lemma checks_module name m : Checks (λ w, module_valid w m) (check_module name m).
Proof.
  unfold check_module, module_valid. destruct (is_empty (mod_path m)) eqn:E.
  - apply is_empty_true in E. eapply checks_iff; [|apply checks_complain]. cbn. naive_solver.
  - apply is_empty_false in E. intros w c r c' (b & c1 & E1 & E2)%st_bind_inr. unfold query in E1.
    unfold there. destruct (fst (exists_ (mod_path m) w)) as [b'|]; [|done]. injection E1 as <- <-.
    destruct b'; cbn [negb] in E2.
    + apply st_bind_inr in E2 as (d & c2 & E1 & E2). unfold query in E1.
      destruct (fst (is_directory (mod_path m) w)) as [d'|]; [|done]. injection E1 as <- <-.
      destruct (checks_complain _ _ _ _ _ _ E2) as [Hr Hes]. split; [|done]. rewrite Hr. naive_solver.
    + injection E2 as <- <-. split; [naive_solver|]. by eexists.
Qed.

Lemma checks_modules l : Checks (λ w, ∀ name m, (name, m) ∈ l → module_valid w m) (check_modules l).
Proof.
  induction l as [|[name m] l IH]; cbn [check_modules].
  - eapply checks_iff; [|apply checks_true]. intros w. split; [|done]. intros _ n m Hm. by apply elem_of_nil in Hm.
  - eapply checks_iff; [|apply checks_both; [apply checks_module|exact IH]]. intros w. cbn. split.
    + intros [Hm Hl] n m' Hin. apply elem_of_cons in Hin as [[= -> ->]|Hin]; [done|by eapply Hl].
    + intros Hall. split; [apply (Hall name), elem_of_cons; by left|]. intros n m' Hin.
      apply (Hall n), elem_of_cons. by right.
Qed.

(** The same for a check that reads the object. *)
Definition Decides (P : world → Configuration → Prop) (m : cfg bool) : Prop := ∀ w c r c',
  m w c = (inr r, c') → (r = true ↔ P w c) ∧ ∃ es, c' = set_errors es c.

Lemma decides_gets {A} (f : Configuration → A) (k : A → cfg bool) (P : A → world → Prop) :
  (∀ a, Checks (P a) (k a)) → Decides (λ w c, P (f c) w) (x ← gets f; k x).
Proof. intros Hk w c r c' Hr. exact (Hk _ _ _ _ _ Hr). Qed.

Lemma decides_iff P Q m : (∀ w c, P w c ↔ Q w c) → Decides P m → Decides Q m.
Proof. intros E Hm w c r c' Hr. destruct (Hm w c r c' Hr) as [H1 H2]. by rewrite <- E. Qed.

Lemma decides_both P Q a b :
  (∀ w c es, Q w (set_errors es c) ↔ Q w c) →
  Decides P a → Decides Q b → Decides (λ w c, P w c ∧ Q w c) (both a b).
Proof.
  intros HQ Ha Hb w c r c' (x & c1 & E1 & (y & c2 & E2 & [= <- <-])%st_bind_inr)%st_bind_inr.
  destruct (Ha _ _ _ _ E1) as [Hx [es1 ->]]. destruct (Hb _ _ _ _ E2) as [Hy [es2 ->]].
  split; [by rewrite andb_true_iff, Hx, Hy, HQ|]. by exists es2.
Qed.

Lemma decides_if (f : Configuration → bool) P m w c0 c r c' :
  Decides P m → f c = f c0 → (if f c0 then m else mret true) w c = (inr r, c') →
  (r = true ↔ (f c = true → P w c)) ∧ ∃ es, c' = set_errors es c.
Proof.
  intros Hm <- Hr. destruct (f c).
  - destruct (Hm _ _ _ _ Hr) as [H1 H2]. split; [|done]. rewrite H1. naive_solver.
  - injection Hr as <- <-. split; [done|]. exists (errors_ c). by rewrite set_errors_same.
Qed.

Lemma decides_network : Decides (λ _ c, bind_port (network c) ≠ 0 ∧ max_connections (network c) ≠ 0) validateNetwork.
Proof.
  unfold validateNetwork. eapply decides_iff; [|apply decides_gets; intros n; apply checks_both; apply checks_complain].
  intros w c. cbn. by rewrite !negb_true_iff, !Z.eqb_neq.
Qed.

Lemma decides_ssl : Decides (λ w c, ssl_valid w (ssl c)) validateSSL.
Proof.
  unfold validateSSL. eapply decides_iff; [|apply decides_gets; intros s; apply checks_both; apply checks_file].
  intros w c. unfold ssl_valid. cbn. tauto.
Qed.

Lemma decides_auth : Decides (λ w c, auth_valid w (auth c)) validateAuth.
Proof.
  unfold validateAuth. apply (decides_gets auth _ (λ a w, auth_valid w a)). intros a. unfold auth_valid.
  destruct (String.eqb_spec (method a) "password") as [E|E].
  - eapply checks_iff; [|apply checks_file]. intros w. cbn. naive_solver.
  - eapply checks_iff; [|apply checks_true]. intros w. done.
Qed.

Lemma decides_modules : Decides (λ w c, ∀ name m, modules c !! name = Some m → module_valid w m) validateModules.
Proof.
  unfold validateModules. eapply decides_iff; [|apply decides_gets; intros ms; apply checks_modules].
  intros w c. cbn. by setoid_rewrite elem_of_map_entries.
Qed.

Lemma decides_when {A} (f : Configuration → A) (on : A → bool) P m w c0 c r c' :
  Decides P m → f c = f c0 → (if on (f c0) then m else mret true) w c = (inr r, c') →
  (r = true ↔ (on (f c) = true → P w c)) ∧ ∃ es, c' = set_errors es c.
Proof. intros Hm E. exact (decides_if (λ c, on (f c)) P m w c0 c r c' Hm (f_equal on E)). Qed.

Lemma validate_decides w c r c' :
  validate w c = (inr r, c') → (r = true ↔ valid_config w c) ∧ ∃ es, c' = set_errors es c.
Proof.
  unfold validate. intros (u & c0 & [= <- <-] & E)%st_bind_inr.
  apply st_bind_inr in E as (s & c1 & [= <- <-] & E). apply st_bind_inr in E as (a & c1 & [= <- <-] & E).
  apply st_bind_inr in E as (x3 & c3 & E & E4). apply st_bind_inr in E as (x2 & c2 & E & E3).
  apply st_bind_inr in E as (x1 & c1 & E1 & E2).
  apply st_bind_inr in E4 as (y4 & c4 & E4 & [= <- <-]). apply st_bind_inr in E3 as (y3 & c3' & E3 & [= <- <-]).
  apply st_bind_inr in E2 as (y2 & c2' & E2 & [= <- <-]).
  destruct (decides_network _ _ _ _ E1) as [H1 [es1 ->]].
  destruct (decides_when ssl ssl_enabled _ _ _ _ _ _ _ decides_ssl eq_refl E2) as [H2 [es2 ->]].
  destruct (decides_when auth auth_enabled _ _ _ _ _ _ _ decides_auth eq_refl E3) as [H3 [es3 ->]].
  destruct (decides_modules _ _ _ _ E4) as [H4 [es4 ->]].
  split; [|by exists es4]. rewrite !andb_true_iff, H1, H2, H3, H4. cbn. split.
  - intros [[[[? ?] ?] ?] ?]. by constructor.
  - intros [? ? ? ? ?]. done.
Qed.

(** C21: [validate] accepts exactly the configurations that can be served: a port
    and a connection limit that are not zero; with TLS, a certificate and a key
    that are named and exist; with password authentication, a password file that
    is named and exists; and modules whose path is given and, if it exists, is a
    directory.  It changes nothing but the list of errors. *)
Theorem validate_spec w c r c' :
  validate w c = (inr r, c') → (r = true ↔ valid_config w c) ∧ ∃ es, c' = set_errors es c.
Proof. apply validate_decides. Qed.

(** ** Loading changes the object, whatever it answers *)
Section results.
Context `{JsonLibrary} `{YamlLibrary} (getenv : string → option string).

(** Every history of a configuration object. *)
Inductive reachable : Configuration → Prop :=
  | reach_new : reachable new_configuration
  | reach_file write_time now name w c :
      reachable c → reachable (snd (loadFromFile getenv write_time now name w c))
  | reach_json write_time now json w c :
      reachable c → reachable (snd (loadFromJSON write_time now json w c))
  | reach_yaml write_time now yaml w c :
      reachable c → reachable (snd (loadFromYAML write_time now yaml w c))
  | reach_reload write_time now w c :
      reachable c → reachable (snd (reload getenv write_time now w c))
  | reach_validate w c : reachable c → reachable (snd (validate w c))
  | reach_merge other over c : reachable c → reachable (merge other over c).

(** What no loader ever sets. *)
Definition policy (c : Configuration) :=
  (access c, rate_limit c, performance c, monitoring c,
   (chroot_enabled (security c), chroot_directory (security c), drop_privileges (security c),
    restrict_to_module_path (security c), sec_allow_symlinks (security c), sec_allow_hardlinks (security c))).

Definition unchanged (c : Configuration) : Prop := has_changed_ c = false ∧ policy c = policy new_configuration.

Lemma report_unchanged message : Preserves unchanged (report message).
Proof. unfold report. keep. Qed.

Lemma check_modules_unchanged l : Preserves unchanged (check_modules l).
Proof.
  induction l as [|[name m] l IH]; cbn [check_modules]; unfold both, check_module, complain, report; [keep|].
  keep. apply IH.
Qed.

Lemma validate_unchanged : Preserves unchanged validate.
Proof.
  unfold validate, both, validateNetwork, validateSSL, validateAuth, validateModules, both, check_file, complain, report.
  keep; apply check_modules_unchanged.
Qed.

Lemma finish_unchanged write_time now : Preserves unchanged (finish_load write_time now).
Proof. unfold finish_load, updateLastModified. keep. apply validate_unchanged. Qed.

Lemma member_unchanged v key k : (∀ x, Preserves unchanged (k x)) → Preserves unchanged (member v key k).
Proof. intros Hk. unfold member. keep. apply Hk. Qed.

Lemma node_member_unchanged v key k : (∀ x, Preserves unchanged (k x)) → Preserves unchanged (node_member v key k).
Proof. intros Hk. unfold node_member. keep. apply Hk. Qed.

Lemma node_either_unchanged v key other k :
  (∀ x, Preserves unchanged (k x)) → Preserves unchanged (node_either v key other k).
Proof. intros Hk. unfold node_either. keep; [apply Hk|by apply node_member_unchanged]. Qed.

Ltac keep_fields :=
  repeat first [ progress keep | apply member_unchanged; intros ? | apply node_member_unchanged; intros ?
               | apply node_either_unchanged; intros ?
               | progress unfold field, either, strings, node_field, node_strings ].

Lemma json_unchanged root : Preserves unchanged (parse_json_root root).
Proof. unfold parse_json_root, parseJSONGlobal, parseJSONModule. keep_fields. Qed.

Lemma yaml_unchanged root : Preserves unchanged (parse_yaml_root root).
Proof.
  unfold parse_yaml_root, parseYAMLGlobal, parse_yaml_auth, parse_yaml_policy, parse_yaml_log, parseYAMLModule.
  keep_fields.
Qed.

Lemma global_unchanged key value : Preserves unchanged (parseGlobalConfig key value).
Proof. unfold parseGlobalConfig, report. keep. Qed.

Lemma ini_unchanged contents : Preserves unchanged (load_ini getenv contents).
Proof.
  unfold load_ini. generalize (getlines newline contents) 1 ini_start. intros lines.
  induction lines as [|line lines IH]; intros n st; cbn [ini_lines]; [keep|].
  apply preserves_bind; [|intros st'; apply IH].
  unfold ini_line, ini_section, ini_entry, parseModuleConfig, report. keep; apply global_unchanged.
Qed.

Lemma load_json_unchanged write_time now json : Preserves unchanged (loadFromJSON write_time now json).
Proof. unfold loadFromJSON, clear_load, refuse, report. keep; [apply json_unchanged|apply finish_unchanged]. Qed.

Lemma load_yaml_unchanged write_time now yaml : Preserves unchanged (loadFromYAML write_time now yaml).
Proof. unfold loadFromYAML, clear_load, refuse, report. keep; [apply yaml_unchanged|apply finish_unchanged]. Qed.

Lemma load_file_unchanged write_time now name : Preserves unchanged (loadFromFile getenv write_time now name).
Proof.
  unfold loadFromFile, clear_load, refuse, report.
  keep; first [apply load_json_unchanged|apply load_yaml_unchanged|apply ini_unchanged|apply finish_unchanged].
Qed.

Lemma reachable_unchanged c : reachable c → unchanged c.
Proof.
  induction 1; [done|by apply load_file_unchanged|by apply load_json_unchanged|by apply load_yaml_unchanged| |
    by apply validate_unchanged|done].
  unfold reload. unfold mbind, st_bind, gets. case_match; [done|]. by apply load_file_unchanged.
Qed.

(** [hasChanged] never answers yes: no operation of the object ever sets the
    flag, so the monitor that polls it never reloads a configuration. *)
Theorem never_changed c : reachable c → hasChanged c = false.
Proof. intros Hc. apply (proj1 (reachable_unchanged c Hc)). Qed.

(** C22: No file sets the policy of the daemon.  Whatever files, in any of the three
    formats, have been loaded and reloaded, access is restricted to the local host
    and the networks 10.0.0.0/8 and 172.16.0.0/12, at most 60 connections a minute
    and 1000 an hour, there is no chroot, privileges are dropped, and no module may
    follow links: the keys the documentation gives for these are not read. *)
Theorem policy_is_fixed c :
  reachable c →
  access c = MkAccess true ["127.0.0.1"; "::1"] [] ["10.0.0.0/8"; "172.16.0.0/12"] [] false "" "combined" ∧
  (rate_enabled (rate_limit c), max_connections_per_minute (rate_limit c), max_connections_per_hour (rate_limit c)) =
    (true, 60, 1000) ∧
  chroot_enabled (security c) = false ∧ drop_privileges (security c) = true ∧
  sec_allow_symlinks (security c) = false ∧ sec_allow_hardlinks (security c) = false.
Proof.
  intros Hc. destruct (reachable_unchanged c Hc) as [_ Hp]. unfold policy in Hp.
  injection Hp as Ha Hr _ _ Hch _ Hd _ Hs Hh. rewrite Ha, Hr. done.
Qed.

Definition same_settings (c d : Configuration) : Prop :=
  ssl d = ssl c ∧ auth d = auth c ∧ access d = access c ∧ network d = network c ∧ security d = security c ∧
  log d = log c ∧ modules d = modules c ∧ pid_file d = pid_file c.

(** Loading an INI file is not atomic, and validation has the last word on
    the errors.  For a file that is there and can be read, the answer is whether
    the new settings are valid; but whatever the answer, the object holds the new
    settings (also after "keeping existing configuration"), and the messages about
    lines and numbers that could not be read are gone. *)
Theorem load_ini_file write_time now name contents w c c1 r c' :
  fst (exists_ name w) = Some true → fst (read_stream name w) = Some (Some contents) →
  one_of (str_map tolower (extension name)) [".json"; ".yml"; ".yaml"] = false →
  load_ini getenv contents w (set_config_file_path name (set_is_valid false (set_errors [] c))) = (inr tt, c1) →
  loadFromFile getenv write_time now name w c = (inr r, c') →
  (r = true ↔ valid_config w c1) ∧ same_settings c1 c' ∧
  ∃ c2 c3, same_settings c1 c2 ∧ (∀ es, validate w (set_errors es c2) = (inr r, c3)) ∧ errors_ c' = errors_ c3.
Proof.
  intros Hex Hread Hext Hini Hload. unfold loadFromFile in Hload.
  rewrite (st_step clear_load _ _ _ tt (set_is_valid false (set_errors [] c))) in Hload by done.
  rewrite (st_step _ _ _ _ _ _ (query_step _ _ _ _ Hex)) in Hload. cbn [negb] in Hload.
  rewrite (st_step (modify _) _ _ _ tt _ eq_refl), (st_step _ _ _ _ _ _ (query_step _ _ _ _ Hread)) in Hload.
  cbn [one_of existsb] in Hext. rewrite !orb_false_iff in Hext. destruct Hext as (E1 & E2 & E3 & _).
  rewrite E1, E2, E3 in Hload. cbn [orb] in Hload. rewrite (st_step _ _ _ _ _ _ Hini) in Hload.
  unfold finish_load in Hload. rewrite (st_step (updateLastModified _ _) _ _ _ tt _ eq_refl) in Hload.
  set (c2 := set_has_changed false _) in Hload. apply st_bind_inr in Hload as (v & c3 & Ev & Hload).
  destruct (validate_decides _ _ _ _ Ev) as [Hv [es ->]].
  assert (valid_config w c2 ↔ valid_config w c1) as Hvc by (split; intros []; by constructor).
  rewrite Hvc in Hv. assert (same_settings c1 c2) as Hs by done.
  destruct v; cbn [negb] in Hload; injection Hload as <- <-; (split; [exact Hv|]); (split; [done|]);
    exists c2, (set_errors es c2); (split; [exact Hs|]); (split; [|done]); intros es'; exact Ev.
Qed.
End results.

(** ** Witnesses *)
Definition toy_files : world :=
  MkWorld (list_to_map [(["etc"], Dir); (["srv"], Dir); (["srv"; "data"], Dir);
                        (["etc"; "policy.conf"], File ("access_allowed_hosts = 192.168.1.0/24" +:+ nl +:+
                           "security_chroot_enabled = true" +:+ nl +:+ "[security]" +:+ nl +:+ "chroot_enabled = true"));
                        (["etc"; "passwd"], File "alice:secret");
                        (["etc"; "open.conf"], File ("auth_enabled = no" +:+ nl +:+ "port = 65536" +:+ nl +:+ "oops"));
                        (["etc"; "d.conf"], File ("port = 66409" +:+ nl +:+ "[module:data]" +:+ nl +:+
                           "path = /srv/data" +:+ nl +:+ "exclude = *.tmp"))])
    "/" (λ _, true) (λ _, true) (λ _, true).

#[local] Existing Instances no_json no_yaml.
(** Without the libraries no document of theirs is accepted, whatever it says. *)
Lemma documents_need_libraries stoul n text w c :
  (∃ e, (loadFromJSON stoul n text w c).1 = inr false ∧ (loadFromJSON stoul n text w c).2 = set_errors [e] (set_is_valid false c)) ∧
  (∃ e, (loadFromYAML stoul n text w c).1 = inr false ∧ (loadFromYAML stoul n text w c).2 = set_errors [e] (set_is_valid false c)).
Proof. destruct c, text as [|a text]; split; eexists; split; reflexivity. Qed.

Definition toy_load (name : string) (c : Configuration) : (exn + bool) * Configuration :=
  loadFromFile (λ _, None) (λ _, Some 5) 9 name toy_files c.

(** Port 66409 is accepted as 873. *)
Lemma validate_spec_witness :
  bind_port (network (toy_load "/etc/d.conf" new_configuration).2) = 873 ∧
  valid_config toy_files (toy_load "/etc/d.conf" new_configuration).2.
Proof.
  split; [vm_compute; reflexivity|].
  eapply (validate_spec toy_files (toy_load "/etc/d.conf" new_configuration).2); [|reflexivity].
  vm_compute. reflexivity.
Defined.

Lemma never_changed_witness : hasChanged (toy_load "/etc/d.conf" new_configuration).2 = false.
Proof. apply (never_changed (λ _, None)). apply reach_file, reach_new. Defined.

(** The settings of the example file of the documentation, and what they become. *)
Lemma policy_is_fixed_witness :
  allowed_hosts (access (toy_load "/etc/policy.conf" new_configuration).2) = ["127.0.0.1"; "::1"] ∧
  chroot_enabled (security (toy_load "/etc/policy.conf" new_configuration).2) = false.
Proof.
  destruct (policy_is_fixed (λ _, None) (toy_load "/etc/policy.conf" new_configuration).2) as (Ha & _ & Hc & _);
    [apply reach_file, reach_new|]. split; [rewrite Ha; reflexivity|exact Hc].
Defined.

(** A refused file has switched authentication off, and its errors name only
    what [validate] found. *)
Definition locked : Configuration :=
  on_auth (λ a, set_password_file "/etc/passwd" (set_auth_enabled true a)) new_configuration.

Lemma load_ini_file_witness :
  (toy_load "/etc/open.conf" locked).1 = inr false ∧ auth_enabled (auth (toy_load "/etc/open.conf" locked).2) = false ∧
  errors_ (toy_load "/etc/open.conf" locked).2 = ["Invalid bind_port: 0"].
Proof.
  destruct (load_ini_file (λ _, None) (λ _, Some 5) 9 "/etc/open.conf"
    ("auth_enabled = no" +:+ nl +:+ "port = 65536" +:+ nl +:+ "oops") toy_files locked
    (load_ini (λ _, None) ("auth_enabled = no" +:+ nl +:+ "port = 65536" +:+ nl +:+ "oops") toy_files
       (set_config_file_path "/etc/open.conf" (set_is_valid false (set_errors [] locked)))).2 false
    (toy_load "/etc/open.conf" locked).2) as (_ & (_ & Ha & _) & _); [vm_compute; reflexivity..|].
  split; [vm_compute; reflexivity|]. split; [rewrite Ha|]; vm_compute; reflexivity.
Defined.

(** Reloading a file adds its patterns again. *)
Example reload_accumulates :
  let c := (toy_load "/etc/d.conf" (toy_load "/etc/d.conf" new_configuration).2).2 in
  exclude_patterns <$> modules c !! "data" = Some ["*.tmp"; "*.tmp"].
Proof. vm_compute. reflexivity. Qed.
