(* ===== verification/FileSystemModule.v ===== *)
(** * Modules: [core/module.cpp], on the file system of [FileSys]

    Class [Module] with its only implementation [FileSystemModule].  The object
    is its configuration; nothing in the file changes [stats_] after the
    constructor.  Times, hard-link counts and [relative_path] of a [FileInfo]
    are left out: nothing reads them. *)
From S2P Require Import Prelude CppString ConfigTypes FileSys.

(** ** Data *)

(** [static_cast<int>] of the [std::filesystem::file_type] values that occur. *)
Definition type_code (n : option node) : Z :=
  match n with
  | None => -1
  | Some (File _) => 1
  | Some Dir => 2
  | Some (Link _) => 3
  end.

Record FileInfo := MkInfo {
  info_name : string;
  info_path : string;
  info_type : Z;
  info_size : Z;
  info_symlink : bool;
  symlink_target : string
}.

Record DirectoryListing := MkListing {
  listing_path : string;
  files : list FileInfo;
  directories : list FileInfo;
  symlinks : list FileInfo;
  other : list FileInfo;
  total_files : Z;
  total_directories : Z;
  total_symlinks : Z;
  total_other : Z;
  total_size : Z;
  recursive_ : bool
}.

Record TransferResult := MkResult {
  success : bool;
  error_message : string;
  files_transferred : Z;
  failed_transfers : Z;
  transferred_files : list string;
  failed_files : list string
}.
Definition refused (message : string) : TransferResult := MkResult false message 0 0 [] [].

Definition isReadOnly (c : ModuleConfig) : bool := read_only c.
Definition allowsListing (c : ModuleConfig) : bool := list_ c.
Definition allowsDeletion (c : ModuleConfig) : bool := allow_delete c.
Definition allowsOverwriting (c : ModuleConfig) : bool := overwrite c.
Definition getName (c : ModuleConfig) : string := mod_name c.
Definition getPath (c : ModuleConfig) : string := mod_path c.
Definition getComment (c : ModuleConfig) : string := mod_comment c.

(** ** Paths of a module *)

(** The loop that rejects symbolic links; [false] is [return ""]. *)
Fixpoint no_symlinks (walk : string) (parts : list string) : io bool :=
  match parts with
  | [] => ret true
  | part :: parts =>
      if String.eqb part "." || is_empty part then no_symlinks walk parts
      else if String.eqb part ".." then ret false
      else let walk := path_append walk part in
           if! io_and (exists_ walk) (is_symlink walk) then ret false else no_symlinks walk parts
  end.

Definition resolvePath (c : ModuleConfig) (path : string) : io string :=
  if is_empty path then ret (mod_path c) else
  let resolved := lexically_normal (path_append (mod_path c) path) in
  do base_str <- ask (λ w, absolute w (mod_path c));
  do resolved_str <- ask (λ w, absolute w resolved);
  if negb (starts_with base_str resolved_str) then ret ""
  else if contains ".." resolved_str then ret ""
  else
    do inside <- (if negb (allow_symlinks c) then no_symlinks base_str (path_parts path) else ret true);
    if negb inside then ret "" else
    try_catch
      (do canonical <- weakly_canonical resolved_str;
       do base_canonical <- weakly_canonical base_str;
       if negb (starts_with base_canonical canonical) then ret "" else ret canonical)
      (ret resolved_str).

Definition validatePath (c : ModuleConfig) (path : string) : io bool :=
  if is_empty path then ret false else
  do resolved <- resolvePath c path;
  if is_empty resolved then ret false else
  if! exists_ resolved then
    let file := filename path in
    if isExcluded c file then ret false
    else if negb (isIncluded c file) then ret false
    else ret true
  else ret false.

Definition isPathAllowed (c : ModuleConfig) (path : string) : io bool := validatePath c path.
Definition sanitizePath (c : ModuleConfig) (path : string) : io string :=
  do resolved <- resolvePath c path;
  if is_empty resolved then ret "" else ret resolved.
Definition normalizePath (c : ModuleConfig) (path : string) : io string := sanitizePath c path.

Definition isPathTraversal (c : ModuleConfig) (path : string) : io bool :=
  if contains ".." path then ret true
  else if contains "/../" path then ret true
  else if starts_with "../" path then ret true
  else do resolved <- resolvePath c path; ret (is_empty resolved).

Definition isPathSafe (c : ModuleConfig) (path : string) : io bool :=
  if! isPathTraversal c path then ret false
  else do resolved <- resolvePath c path; ret (negb (is_empty resolved)).

(** ** Permission checks *)
Definition checkReadPermission (c : ModuleConfig) (path : string) : io bool :=
  do resolved <- resolvePath c path;
  if is_empty resolved then ret false else
  if! io_not (exists_ resolved) then ret false else
  if! is_directory resolved then ret true else
  if! is_regular_file resolved then (do s <- open_read resolved; ret (bool_decide (is_Some s)))
  else ret false.

Definition checkWritePermission (c : ModuleConfig) (path : string) : io bool :=
  if isReadOnly c then ret false else
  do resolved <- resolvePath c path;
  if is_empty resolved then ret false else
  let parent_dir := parent_path resolved in
  do there <- (if is_empty parent_dir then ret false else exists_ parent_dir);
  let parent_dir := if there : bool then parent_dir else mod_path c in
  let test_path := path_append parent_dir ".rsyncd_write_test" in
  do test <- open_write false test_path;
  match test with
  | Some _ => do _ <- remove test_path; ret true
  | None => ret false
  end.

Definition checkDeletePermission (c : ModuleConfig) (path : string) : io bool :=
  if negb (allowsDeletion c) then ret false
  else if isReadOnly c then ret false
  else
    do resolved <- resolvePath c path;
    if is_empty resolved then ret false else exists_ resolved.

Definition checkFilePermissions (c : ModuleConfig) (path operation : string) : io bool :=
  do resolved <- resolvePath c path;
  if is_empty resolved then ret false else
  if! io_not (exists_ resolved) then ret false else
  if String.eqb operation "read" then checkReadPermission c path
  else if String.eqb operation "write" then checkWritePermission c path
  else if String.eqb operation "delete" then checkDeletePermission c path
  else ret false.

(** ** Operations *)

(** [full_path.empty() || !isPathSafe(path)] *)
Definition unsafe (c : ModuleConfig) (path full_path : string) : io bool :=
  if is_empty full_path then ret true else io_not (isPathSafe c path).

Definition fileExists (c : ModuleConfig) (path : string) : io bool :=
  if is_empty path then ret false else
  do full_path <- resolvePath c path;
  if! unsafe c path full_path then ret false
  else io_and (exists_ full_path) (is_regular_file full_path).

Definition directoryExists (c : ModuleConfig) (path : string) : io bool :=
  if is_empty path then ret false else
  do full_path <- resolvePath c path;
  if! unsafe c path full_path then ret false
  else io_and (exists_ full_path) (is_directory full_path).

Section operations.
(** Uninitialised members of a [FileInfo], by the path it is for; and the text
    of an exception. *)
Context (junk : string → Z) (what : string).

Definition empty_info (path : string) : FileInfo := MkInfo "" "" (junk path) (junk path) false "".

(** The node a path leads to, and its size. *)
Definition stat_ (p : string) : io (option node) := λ w,
  match lookup_path true w p with
  | Failed => (None, w)
  | Found l => (Some (node_at w l), w)
  | _ => (Some None, w)
  end.

Definition size_of (n : option node) : Z :=
  match n with Some (File s) => Z.of_nat (String.length s) | _ => 0 end.

Definition read_symlink (p : string) : io string := λ w,
  match lookup_path false w p with
  | Found l => match node_at w l with Some (Link t) => (Some t, w) | _ => (None, w) end
  | _ => (None, w)
  end.

Definition getFileInfo (c : ModuleConfig) (path : string) : io FileInfo :=
  if! checkReadPermission c path then
    do full_path <- resolvePath c path;
    if! unsafe c path full_path then ret (empty_info path) else
    try_catch
      (if! io_not (exists_ full_path) then ret (empty_info path) else
       do status <- stat_ full_path;
       let info := MkInfo (filename full_path) full_path (type_code status) (size_of status) false "" in
       try_catch
         (if! is_symlink full_path then
            (do target <- read_symlink full_path;
             ret (MkInfo (info_name info) full_path (info_type info) (info_size info) true target))
          else ret info)
         (ret info))
      (ret (empty_info path))
  else ret (empty_info path).

(** The entries an iteration visits, in order, up to the first directory that
    cannot be read.  [todo] are the entries to visit; every entry is visited
    once, so the number of nodes is fuel enough. *)
Fixpoint scan (fuel : nat) (w : world) (recursive : bool) (todo : list location) : list location :=
  match fuel, todo with
  | S fuel, k :: todo =>
      k :: (if recursive && bool_decide (node_at w k = Some Dir)
            then if may_read w k then scan fuel w recursive (children w k ++ todo) else []
            else scan fuel w recursive todo)
  | _, _ => []
  end.

Definition add_size (l : DirectoryListing) (n : Z) : Z := (total_size l + n) `mod` 2 ^ 64.

(** [addFileInfo]: only regular files get a size. *)
Definition addFileInfo (w : world) (full_path : string) (top : location) (listing : DirectoryListing)
    (entry : location) : DirectoryListing :=
  let path := path_append full_path (join (drop (length top) entry)) in
  match fst (stat_ path w) with
  | None => listing
  | Some status =>
      let l := listing in
      let info size := MkInfo (filename path) path (type_code status) size false "" in
      match status with
      | Some (File s) =>
          let i := info (Z.of_nat (String.length s)) in
          MkListing (listing_path l) (files l ++ [i]) (directories l) (symlinks l) (other l)
            (total_files l + 1) (total_directories l) (total_symlinks l) (total_other l)
            (add_size l (info_size i)) (recursive_ l)
      | Some Dir =>
          let i := info (junk path) in
          MkListing (listing_path l) (files l) (directories l ++ [i]) (symlinks l) (other l)
            (total_files l) (total_directories l + 1) (total_symlinks l) (total_other l)
            (add_size l (info_size i)) (recursive_ l)
      | _ =>
          match node_at w entry with
          | Some (Link _) =>
              let i := MkInfo (filename path) path (type_code status) (junk path) true "" in
              MkListing (listing_path l) (files l) (directories l) (symlinks l ++ [i]) (other l)
                (total_files l) (total_directories l) (total_symlinks l + 1) (total_other l)
                (add_size l (info_size i)) (recursive_ l)
          | _ =>
              let i := info (junk path) in
              MkListing (listing_path l) (files l) (directories l) (symlinks l) (other l ++ [i])
                (total_files l) (total_directories l) (total_symlinks l) (total_other l + 1)
                (add_size l (info_size i)) (recursive_ l)
          end
      end
  end.

Definition listDirectory (c : ModuleConfig) (path : string) (recursive : bool) : io DirectoryListing :=
  let listing := MkListing path [] [] [] [] 0 0 0 0 0 recursive in
  if! io_not (checkReadPermission c path) then ret listing else
  do full_path <- resolvePath c path;
  if! unsafe c path full_path then ret listing else
  try_catch
    (if! io_not (io_and (exists_ full_path) (is_directory full_path)) then ret listing else
     ask (λ w,
       match lookup_path true w full_path with
       | Found top =>
           if may_read w top then
             foldl (addFileInfo w full_path top) listing
               (scan (S (size (nodes w))) w recursive (children w top))
           else listing
       | _ => listing
       end))
    (ret listing).

Definition createDirectory (c : ModuleConfig) (path : string) (recursive : bool) : io bool :=
  if isReadOnly c then ret false else
  if! io_not (checkWritePermission c path) then ret false else
  do full_path <- resolvePath c path;
  if! unsafe c path full_path then ret false else
  try_catch (if recursive then create_directories full_path else create_directory full_path) (ret false).

Definition deleteFile (c : ModuleConfig) (path : string) : io bool :=
  if isReadOnly c || negb (allowsDeletion c) then ret false else
  if! io_not (checkDeletePermission c path) then ret false else
  do full_path <- resolvePath c path;
  if! unsafe c path full_path then ret false else
  try_catch (if! is_regular_file full_path then remove full_path else ret false) (ret false).

Definition deleteDirectory (c : ModuleConfig) (path : string) (recursive : bool) : io bool :=
  if isReadOnly c || negb (allowsDeletion c) then ret false else
  if! io_not (checkDeletePermission c path) then ret false else
  do full_path <- resolvePath c path;
  if! unsafe c path full_path then ret false else
  try_catch
    (if recursive then (do n <- remove_all full_path; ret (bool_decide (0 < n)%nat)) else remove full_path)
    (ret false).

(** [if (!parent.empty() && !exists(parent)) create_directories(parent);] *)
Definition ensure_parent (p : string) : io unit :=
  let parent := parent_path p in
  if is_empty parent then ret tt else
  do there <- exists_ parent;
  if there : bool then ret tt else (do _ <- create_directories parent; ret tt).

Definition transferFile (c : ModuleConfig) (local_path remote_path : string) (over : bool)
    : io TransferResult :=
  if isReadOnly c then ret (refused "Module is read-only") else
  if! io_not (checkWritePermission c remote_path) then ret (refused "Write permission denied") else
  do there <- (if negb over then fileExists c remote_path else ret false);
  if there : bool then ret (refused "File already exists and overwrite not allowed") else
  do full_remote_path <- resolvePath c remote_path;
  if! unsafe c remote_path full_remote_path
  then ret (refused "Invalid path or path outside module root") else
  try_catch
    (do _ <- ensure_parent full_remote_path;
     do _ <- copy_file local_path full_remote_path over;
     ret (MkResult true "" 1 0 [remote_path] []))
    (ret (MkResult false what 0 1 [] [remote_path])).

Definition receiveFile (c : ModuleConfig) (remote_path local_path : string) : io TransferResult :=
  if! io_not (checkReadPermission c remote_path) then ret (refused "Read permission denied") else
  do full_remote_path <- resolvePath c remote_path;
  do bad <- unsafe c remote_path full_remote_path;
  do there <- (if bad : bool then ret false else fileExists c remote_path);
  if bad || negb there then ret (refused "File does not exist or invalid path") else
  try_catch
    (do _ <- ensure_parent local_path;
     do _ <- copy_file full_remote_path local_path true;
     ret (MkResult true "" 1 0 [remote_path] []))
    (ret (MkResult false what 0 1 [] [remote_path])).
End operations.

Definition validate (c : ModuleConfig) : io bool :=
  if is_empty (mod_path c) then ret false
  else io_and (exists_ (mod_path c)) (is_directory (mod_path c)).

Definition getErrors (c : ModuleConfig) : io (list string) :=
  if is_empty (mod_path c) then ret ["Module path is empty"] else
  if! io_not (exists_ (mod_path c)) then ret ["Module path does not exist: " +:+ mod_path c] else
  if! io_not (is_directory (mod_path c)) then ret ["Module path is not a directory: " +:+ mod_path c]
  else ret [].

Definition reload (c : ModuleConfig) : io bool := validate c.

(** ** Lemmas: queries leave the file system alone *)
#[export] Typeclasses Opaque no_symlinks resolvePath isPathTraversal isPathSafe unsafe fileExists
  directoryExists checkReadPermission checkDeletePermission stat_ read_symlink getFileInfo
  listDirectory validate.
#[export] Instance no_symlinks_quiet walk parts : Quiet (no_symlinks walk parts).
Proof.
  revert walk; induction parts as [|p parts IH]; intros walk; cbn [no_symlinks]; apply _.
Qed.
#[export] Instance resolvePath_quiet c path : Quiet (resolvePath c path).
Proof. unfold resolvePath. apply _. Qed.
#[export] Instance isPathTraversal_quiet c path : Quiet (isPathTraversal c path).
Proof. unfold isPathTraversal. apply _. Qed.
#[export] Instance isPathSafe_quiet c path : Quiet (isPathSafe c path).
Proof. unfold isPathSafe. apply _. Qed.
#[export] Instance unsafe_quiet c path full : Quiet (unsafe c path full).
Proof. unfold unsafe. apply _. Qed.
#[export] Instance fileExists_quiet c path : Quiet (fileExists c path).
Proof. unfold fileExists. apply _. Qed.
#[export] Instance directoryExists_quiet c path : Quiet (directoryExists c path).
Proof. unfold directoryExists. apply _. Qed.
#[export] Instance checkReadPermission_quiet c path : Quiet (checkReadPermission c path).
Proof. unfold checkReadPermission. apply _. Qed.
#[export] Instance checkDeletePermission_quiet c path : Quiet (checkDeletePermission c path).
Proof. unfold checkDeletePermission. apply _. Qed.
#[export] Instance stat_quiet p : Quiet (stat_ p).
Proof. intros w. unfold stat_. by destruct (lookup_path _ _ _). Qed.
#[export] Instance read_symlink_quiet p : Quiet (read_symlink p).
Proof. intros w. unfold read_symlink. by repeat case_match. Qed.
#[export] Instance getFileInfo_quiet junk c path : Quiet (getFileInfo junk c path).
Proof. unfold getFileInfo. apply _. Qed.
#[export] Instance listDirectory_quiet junk c path r : Quiet (listDirectory junk c path r).
Proof. unfold listDirectory. apply _. Qed.
#[export] Instance validate_quiet c : Quiet (validate c).
Proof. unfold validate. apply _. Qed.

(** ** Lemmas: the directory iteration ends *)

Lemma child_snoc w k c : c ∈ children w k → ∃ x, c = k ++ [x].
Proof.
  unfold children. rewrite list_elem_of_In, filter_In, bool_decide_eq_true. intros (_ & Hp & Hne).
  destruct c as [|x c _] using rev_ind; [done|]. exists x. f_equal.
  rewrite <- Hp. unfold parent. rewrite length_app, Nat.add_1_r. cbn [pred]. by rewrite take_app_length.
Qed.

Lemma below_spec l k : below l k = true ↔ l `prefix_of` k.
Proof. unfold below. apply bool_decide_eq_true. Qed.

Lemma elem_of_descendants w l k : k ∈ descendants w l ↔ k ∈ (map_to_list (nodes w)).*1 ∧ l `prefix_of` k ∧ k ≠ l.
Proof.
  unfold descendants. rewrite !list_elem_of_In, filter_In, andb_true_iff, below_spec, negb_true_iff, bool_decide_eq_false.
  done.
Qed.

Lemma nodup_filter_keys w (P : location → bool) : NoDup (List.filter P (map_to_list (nodes w)).*1).
Proof. apply NoDup_ListNoDup, List.NoDup_filter, NoDup_ListNoDup, NoDup_fst_map_to_list. Qed.

(** A location with everything under it. *)
Definition tree (w : world) (k : location) : list location := k :: descendants w k.
Definition weight (w : world) (todo : list location) : nat := length (todo ≫= tree w).

Lemma tree_prefix w k l : l ∈ tree w k → k `prefix_of` l.
Proof. intros [->|(_ & ? & _)%elem_of_descendants]%elem_of_cons; done. Qed.

Lemma children_tree w k : NoDup (children w k ≫= tree w) ∧ (children w k ≫= tree w) ⊆ descendants w k.
Proof.
  split.
  - assert (∀ c, c ∈ children w k → ∃ x, c = k ++ [x]) as Hc by apply child_snoc.
    pose proof (nodup_filter_keys w (λ c, bool_decide (parent c = k ∧ c ≠ []))) as Hn.
    change (NoDup (children w k)) in Hn. induction Hn as [|c l Hnot Hn IH]; [constructor|].
    rewrite bind_cons. apply NoDup_app. split; [|split].
    + unfold tree. constructor; [by intros (_ & _ & ?)%elem_of_descendants|]. apply nodup_filter_keys.
    + intros x Hx Hx'. apply tree_prefix in Hx. apply list_elem_of_bind in Hx' as (c' & Hx' & Hin).
      apply tree_prefix in Hx'. destruct (Hc c) as [a ->]; [by left|]. destruct (Hc c') as [b ->]; [by right|].
      destruct Hx as [r ->], Hx' as [r' E]. rewrite <- !app_assoc in E. apply app_inv_head in E. cbn in E.
      injection E as -> _. done.
    + apply IH. intros y Hy. apply Hc. by right.
  - intros l (c & Hl & Hin)%list_elem_of_bind. destruct (child_snoc _ _ _ Hin) as [x ->].
    apply elem_of_descendants. apply tree_prefix in Hl as Hp. split; [|split].
    + apply elem_of_cons in Hl as [->|(? & _)%elem_of_descendants]; [|done].
      unfold children in Hin. apply list_elem_of_In, filter_In in Hin as [Hin _]. by apply list_elem_of_In.
    + etrans; [by apply prefix_app_r|done].
    + intros ->. apply prefix_length in Hp. rewrite length_app in Hp. cbn in Hp. lia.
Qed.

Lemma weight_children w k : (weight w (children w k) ≤ length (descendants w k))%nat.
Proof. destruct (children_tree w k) as [Hn Hs]. apply submseteq_length, NoDup_submseteq; done. Qed.

Lemma weight_app w a b : weight w (a ++ b) = (weight w a + weight w b)%nat.
Proof. unfold weight. by rewrite bind_app, length_app. Qed.

Lemma weight_cons w k todo : weight w (k :: todo) = S (length (descendants w k) + weight w todo).
Proof. unfold weight. rewrite bind_cons, length_app. done. Qed.

Lemma scan_enough w recursive fuel1 : ∀ fuel2 todo,
  (weight w todo ≤ fuel1)%nat → (weight w todo ≤ fuel2)%nat →
  scan fuel1 w recursive todo = scan fuel2 w recursive todo.
Proof.
  induction fuel1 as [|fuel1 IH]; intros fuel2 [|k todo] H1 H2.
  - by destruct fuel2.
  - rewrite weight_cons in H1. lia.
  - by destruct fuel2.
  - rewrite weight_cons in H1, H2. destruct fuel2 as [|fuel2]; [lia|]. cbn [scan]. f_equal.
    pose proof (weight_children w k). destruct (recursive && _); [destruct (may_read w k); [|done]|];
      apply IH; rewrite ?weight_app; lia.
Qed.

(** The iteration over a directory ends: the number of nodes is fuel enough, and
    more changes nothing. *)
Theorem scan_ends w recursive top fuel :
  (S (size (nodes w)) ≤ fuel)%nat →
  scan fuel w recursive (children w top) = scan (S (size (nodes w))) w recursive (children w top).
Proof.
  intros Hf. pose proof (weight_children w top) as Hw.
  assert (length (descendants w top) ≤ size (nodes w))%nat as Hd.
  { unfold descendants. etrans; [apply List.filter_length_le|]. by rewrite length_fmap, length_map_to_list. }
  apply scan_enough; lia.
Qed.

(** ** Lemmas: resolution of plain paths *)
Lemma no_symlinks_step walk n parts :
  clean n → no_symlinks walk (n :: parts) =
  (if! io_and (exists_ (path_append walk n)) (is_symlink (path_append walk n))
   then ret false else no_symlinks (path_append walk n) parts).
Proof.
  intros [Hn _ Hd Hdd]. cbn [no_symlinks]. apply is_empty_false in Hn. apply String.eqb_neq in Hd, Hdd.
  by rewrite Hn, Hd, Hdd.
Qed.

(** On a plain location the test for a live link answers no. *)
Lemma live_link_plain w l :
  Forall clean l → plain w l →
  io_and (exists_ (render true l)) (is_symlink (render true l)) w = (Some false, w).
Proof.
  intros Hc Hp. unfold io_and, exists_, is_symlink.
  destruct (test_plain true (λ _, true) w l Hc Hp) as (b & Eb & _). rewrite (bind_some _ _ _ _ _ Eb).
  destruct b; [|done].
  destruct (test_plain false (λ n, match n with Link _ => true | _ => false end) w l Hc Hp) as (b & Eb' & Hb).
  rewrite Eb'. destruct b; [|done]. destruct (Hb eq_refl) as [_ Hl].
  destruct (node_at w l) as [[s| |t]|] eqn:E; try done. by destruct (proj1 Hp l t).
Qed.

Lemma no_symlinks_plain w k ns :
  Forall clean (k ++ ns) → plain w (k ++ ns) → no_symlinks (render true k) ns w = (Some true, w).
Proof.
  revert k. induction ns as [|n ns IH]; intros k Hc Hp; [done|].
  assert (k ++ n :: ns = (k ++ [n]) ++ ns) as E by (by rewrite <- app_assoc). rewrite E in Hc, Hp.
  apply Forall_app in Hc as Hc'. destruct Hc' as [Hkn _].
  apply Forall_app in Hkn as Hkn'. destruct Hkn' as [Hck Hn]. apply Forall_cons in Hn as [Hn _].
  rewrite no_symlinks_step, append_name by done.
  rewrite (bind_some _ _ _ _ _ (live_link_plain w _ Hkn (plain_app _ _ _ Hp))).
  by apply IH.
Qed.

(** The loop over the parts of a relative path, or of an absolute one. *)
Lemma no_symlinks_parts w b root ns :
  Forall clean ((if root : bool then [] else b) ++ ns) → plain w ((if root : bool then [] else b) ++ ns) →
  no_symlinks (render true b) ((if root : bool then ["/"] else []) ++ ns) w = (Some true, w).
Proof.
  destruct root; cbn [app]; [|by apply no_symlinks_plain]. intros Hc Hp. cbn [no_symlinks].
  change (path_append (render true b) "/") with (render true []).
  assert (plain w []) as H0 by (by eapply (plain_prefix w [] ns); [|apply prefix_nil]).
  change (String.eqb "/" "." || is_empty "/") with false. change (String.eqb "/" "..") with false. cbv iota zeta.
  rewrite (bind_some _ _ _ _ _ (live_link_plain w [] ltac:(constructor) H0)). by apply no_symlinks_plain.
Qed.

Lemma absolute_id w l : absolute w (render true l) = render true l.
Proof. done. Qed.

Lemma resolve_plain c w b root ns :
  let l := (if root : bool then [] else b) ++ ns in
  mod_path c = render true b → ns ≠ [] → Forall clean b → Forall clean ns →
  plain w b → plain w l → contains ".." (render true l) = false →
  resolvePath c (render root ns) w =
  (Some (if starts_with (render true b) (render true l) then render true l else ""), w).
Proof.
  intros l Hb Hne Hcb Hcn Hpb Hpl Hdd. unfold resolvePath. rewrite Hb.
  assert (Forall clean l) as Hcl by (apply Forall_app; split; [by destruct root|done]).
  assert (is_empty (render root ns) = false) as ->.
  { apply is_empty_false. unfold render. destruct root; [done|]. by apply join_nonempty. }
  assert (path_append (render true b) (render root ns) = render true l) as ->.
  { destruct root; [|by apply append_render]. unfold path_append. by rewrite absolute_render. }
  cbv zeta. rewrite normal_render by done.
  unfold ask at 1. erewrite bind_some by reflexivity. erewrite bind_some by reflexivity.
  rewrite !absolute_id. destruct (starts_with (render true b) (render true l)) eqn:Es; [|done].
  cbn [negb]. rewrite Hdd, parts_render by done.
  erewrite bind_some; [|destruct (allow_symlinks c); [done|by apply no_symlinks_parts]]. cbn [negb].
  unfold try_catch. rewrite (bind_some _ _ _ _ _ (weakly_canonical_plain w l Hcl Hpl)).
  rewrite (bind_some _ _ _ _ _ (weakly_canonical_plain w b Hcb Hpb)). by rewrite Es.
Qed.

Lemma starts_with_render b ns : Forall clean ns → starts_with (render true b) (render true (b ++ ns)) = true.
Proof.
  intros Hc. unfold render. destruct (decide (b = [])) as [->|Hb]; [apply prefix_app; by eexists|].
  destruct (decide (ns = [])) as [->|Hn].
  - rewrite app_nil_r. apply prefix_app. exists "". by rewrite app_nil_str.
  - rewrite join_app by done. rewrite <- app_assoc_str. apply starts_with_app.
Qed.

(** Resolution without links.  In a module at [/b1/../bn], a relative path
    of plain names leads to exactly those names under the module's directory; an
    absolute path is taken as it is, and accepted when its TEXT begins with the
    text of the module path - also when the name only continues it, as
    [/srv/database] does for [/srv/data] - and refused otherwise. *)
Theorem resolvePath_plain c w b ns :
  mod_path c = render true b → ns ≠ [] → Forall clean b → Forall clean ns → plain w b →
  (plain w (b ++ ns) → contains ".." (render true (b ++ ns)) = false →
   resolvePath c (render false ns) w = (Some (render true (b ++ ns)), w)) ∧
  (plain w ns → contains ".." (render true ns) = false →
   resolvePath c (render true ns) w =
   (Some (if starts_with (render true b) (render true ns) then render true ns else ""), w)).
Proof.
  intros Hb Hne Hcb Hcn Hpb. split; intros Hp Hd.
  - rewrite (resolve_plain c w b false ns) by done. by rewrite starts_with_render.
  - by rewrite (resolve_plain c w b true ns).
Qed.

(** C16: Without [allow_symlinks] a relative path through a live symbolic link
    below the module's directory is refused, wherever the link leads. *)
Theorem resolvePath_refuses_links c w b ns1 n t ns2 :
  mod_path c = render true b → allow_symlinks c = false →
  Forall clean b → Forall clean (ns1 ++ n :: ns2) → plain w (b ++ ns1) →
  node_at w ((b ++ ns1) ++ [n]) = Some (Link t) →
  fst (exists_ (render true ((b ++ ns1) ++ [n])) w) = Some true →
  resolvePath c (render false (ns1 ++ n :: ns2)) w = (Some "", w).
Proof.
  intros Hb Hs Hcb Hc Hp Hl He. unfold resolvePath. rewrite Hb, Hs.
  apply Forall_app in Hc as Hc'. destruct Hc' as [Hc1 Hc2]. apply Forall_cons in Hc2 as [Hcn Hc2].
  assert (is_empty (render false (ns1 ++ n :: ns2)) = false) as ->.
  { apply is_empty_false. unfold render. apply join_nonempty; [by destruct ns1|done]. }
  rewrite append_render; [|done..|by destruct ns1]. cbv zeta.
  rewrite normal_render by (by apply Forall_app). unfold ask at 1. erewrite !bind_some by reflexivity.
  rewrite !absolute_id, starts_with_render by done. cbn [negb].
  destruct (contains ".." _); [done|]. rewrite parts_render by done. cbn [app].
  assert (no_symlinks (render true b) (ns1 ++ n :: ns2) w = (Some false, w)) as Hn; [|by rewrite (bind_some _ _ _ _ _ Hn)].
  clear Hb Hs Hc. revert b Hcb Hp Hl He. induction Hc1 as [|m ns1 Hm Hc1 IH]; intros b Hcb Hp Hl He.
  - cbn [app]. rewrite app_nil_r in *. rewrite no_symlinks_step, append_name by done.
    assert (Forall clean (b ++ [n])) as Hbn by (apply Forall_app; split; [done|by apply Forall_singleton]).
    assert (io_and (exists_ (render true (b ++ [n]))) (is_symlink (render true (b ++ [n]))) w = (Some true, w)) as Hi;
      [|by rewrite (bind_some _ _ _ _ _ Hi)].
    assert (exists_ (render true (b ++ [n])) w = (Some true, w)) as He'.
    { pose proof (quiet (m:=exists_ (render true (b ++ [n]))) w). destruct (exists_ _ w). cbn in *. by subst. }
    unfold io_and. rewrite (bind_some _ _ _ _ _ He').
    unfold is_symlink, test. unfold exists_, test in He. rewrite lookup_render in He |- * by done.
    destruct (walk 40 w true [] (b ++ [n])) eqn:E; try done.
    apply (walk_to_link _ _ [] b n t) in E; [|done..]. cbn [app] in E. by rewrite E, Hl.
  - assert (b ++ m :: ns1 = (b ++ [m]) ++ ns1) as E by (by rewrite <- app_assoc). rewrite E in Hp, Hl, He.
    assert (Forall clean (b ++ [m])) as Hbm by (apply Forall_app; split; [done|by apply Forall_singleton]).
    cbn [app]. rewrite no_symlinks_step, append_name by done.
    rewrite (bind_some _ _ _ _ _ (live_link_plain w _ Hbm (plain_app _ _ _ Hp))).
    by apply IH.
Qed.

(** Whatever the file system holds, a path that resolves at all resolves
    to a text that begins with the text of the module's directory, taken
    literally or with its links resolved. *)
Theorem resolvePath_text_prefix c path w r w' :
  path ≠ "" → resolvePath c path w = (Some r, w') → r ≠ "" →
  starts_with (absolute w (mod_path c)) r = true ∨
  ∃ base, fst (weakly_canonical (absolute w (mod_path c)) w) = Some base ∧ starts_with base r = true.
Proof.
  intros Hp%is_empty_false Hr Hne. unfold resolvePath in Hr. rewrite Hp in Hr.
  apply bind_inv in Hr as (base & w1 & [= <- <-] & Hr). apply bind_inv in Hr as (res & w1 & [= <- <-] & Hr).
  destruct (starts_with _ (absolute w _)) eqn:Es; cbn [negb] in Hr; [|by apply ret_inv in Hr as [-> _]].
  destruct (contains ".." _); [by apply ret_inv in Hr as [-> _]|].
  apply bind_inv in Hr as (inside & w1 & Hi & Hr).
  apply quiet_world in Hi as E; [|apply _]. subst w1.
  destruct inside; cbn [negb] in Hr; [|by apply ret_inv in Hr as [-> _]]. clear Hi.
  unfold try_catch in Hr. destruct (bind _ _ w) as [[r'|] w2] eqn:E.
  - injection Hr as -> ->. right. apply bind_inv in E as (canon & w3 & Ec & E).
    apply quiet_world in Ec as E3; [|apply _]. subst w3.
    apply bind_inv in E as (bc & w4 & Eb & E). exists bc. split; [by rewrite Eb|].
    destruct (starts_with bc canon) eqn:Eq; apply ret_inv in E as [-> _]; done.
  - left. by apply ret_inv in Hr as [-> _].
Qed.

(** ** Lemmas: a path that mentions [..] *)
Section dotdot.
Context (c : ModuleConfig) (path : string) (Hdd : contains ".." path = true).

Lemma isPathSafe_dotdot w : isPathSafe c path w = (Some false, w).
Proof. unfold isPathSafe, isPathTraversal. by rewrite Hdd. Qed.

Lemma unsafe_dotdot full w : unsafe c path full w = (Some true, w).
Proof.
  unfold unsafe. destruct (is_empty full); [done|]. unfold io_not.
  by rewrite (bind_some _ _ _ _ _ (isPathSafe_dotdot w)).
Qed.
End dotdot.

(** Go through an operation, using that the path is unsafe. *)
Ltac yields :=
  repeat first
    [ eapply yields_known; [apply unsafe_dotdot; assumption|]; cbv iota
    | apply yields_ret | apply yields_bind; intros ? | apply yields_try | apply yields_if; intros _ ].

(** C17: A path that mentions [..] anywhere gives nothing: nothing exists there,
    nothing is listed, described, deleted, received or written, and deleting and
    reading leave the file system as it is.  (Names such as [a..b] are refused
    with it.) *)
Theorem dotdot_refused c path :
  contains ".." path = true →
  Yields (λ b, b = false) (fileExists c path) ∧ Yields (λ b, b = false) (directoryExists c path) ∧
  (∀ junk, Yields (λ i, info_path i = "") (getFileInfo junk c path)) ∧
  (∀ junk r, Yields (λ l, files l = [] ∧ directories l = [] ∧ total_size l = 0%Z) (listDirectory junk c path r)) ∧
  Yields (λ b, b = false) (deleteFile c path) ∧ Quiet (deleteFile c path) ∧
  (∀ r, Yields (λ b, b = false) (deleteDirectory c path r) ∧ Quiet (deleteDirectory c path r)) ∧
  (∀ r, Yields (λ b, b = false) (createDirectory c path r)) ∧
  (∀ what local over, Yields (λ r, success r = false) (transferFile what c local path over)) ∧
  (∀ what local, Yields (λ r, success r = false) (receiveFile what c path local) ∧
                 Quiet (receiveFile what c path local)).
Proof.
  intros Hdd. assert (∀ {A} full (k : bool → io A), Quiet (k true) → Quiet (bind (unsafe c path full) k)) as HQ.
  { intros A full k Hk w. rewrite (bind_some _ _ _ _ _ (unsafe_dotdot c path Hdd full w)). apply Hk. }
  repeat match goal with |- _ ∧ _ => split | |- ∀ _, _ => intros ? end.
  - unfold fileExists. yields; done.
  - unfold directoryExists. yields; done.
  - unfold getFileInfo. yields; done.
  - unfold listDirectory. yields; done.
  - unfold deleteFile. yields; done.
  - unfold deleteFile. apply if_quiet, bind_quiet; [apply _..|]. intros [|]; [apply _|].
    apply bind_quiet; [apply _|]. intros full. apply HQ. apply _.
  - unfold deleteDirectory. yields; done.
  - unfold deleteDirectory. apply if_quiet, bind_quiet; [apply _..|]. intros [|]; [apply _|].
    apply bind_quiet; [apply _|]. intros full. apply HQ. apply _.
  - unfold createDirectory. yields; done.
  - unfold transferFile. yields; done.
  - unfold receiveFile. apply yields_bind. intros [|]; [by apply yields_ret|]. apply yields_bind. intros full.
    eapply yields_known; [by apply unsafe_dotdot|]. cbn [orb]. apply yields_bind. intros there. by apply yields_ret.
  - unfold receiveFile. apply bind_quiet; [apply _|]. intros [|]; [apply _|]. apply bind_quiet; [apply _|].
    intros full. apply HQ. apply _.
Qed.

(** [deleteFile] answers [true] only by removing exactly one node, the one
    its resolved path names, a regular file, of a module that is writable and
    allows deletion; with any other outcome, an exception included, the file
    system is unchanged. *)
Theorem deleteFile_exact c path w :
  match deleteFile c path w with
  | (Some true, w') => isReadOnly c = false ∧ allowsDeletion c = true ∧ contains ".." path = false ∧
      ∃ r l, fst (resolvePath c path w) = Some r ∧ r ≠ "" ∧ lookup_path false w r = Found l ∧
             fst (is_regular_file r w) = Some true ∧
             w' = with_nodes (delete l (nodes w)) w
  | (_, w') => w' = w
  end.
Proof.
  unfold deleteFile. destruct (isReadOnly c) eqn:Er; [done|]. destruct (allowsDeletion c) eqn:Ed; [|done].
  cbn [orb negb]. unfold bind at 1.
  destruct (io_not (checkDeletePermission c path) w) as [p w1] eqn:E1.
  apply quiet_world in E1 as Q1; [|apply _]. subst w1.
  destruct p as [[]|]; [done| |done]. unfold bind at 1.
  destruct (resolvePath c path w) as [r w1] eqn:E2.
  apply quiet_world in E2 as Q2; [|apply _]. subst w1.
  destruct r as [r|]; [|done]. unfold bind at 1.
  destruct (unsafe c path r w) as [u w1] eqn:E3.
  apply quiet_world in E3 as Q3; [|apply _]. subst w1.
  destruct u as [[]|]; [done| |done].
  assert (r ≠ "") as Hr by (intros ->; by unfold unsafe in E3).
  assert (contains ".." path = false) as Hd.
  { destruct (contains ".." path) eqn:E; [|done]. rewrite unsafe_dotdot in E3 by done. done. }
  unfold try_catch, bind at 1.
  destruct (is_regular_file r w) as [f w1] eqn:E4.
  apply quiet_world in E4 as Q4; [|apply _]. subst w1.
  destruct f as [[]|]; [|done..]. unfold remove.
  destruct (lookup_path false w r) as [l| | |] eqn:E5; [|done..].
  destruct (_ || _); [done|]. cbn [ret]. repeat (split; [done|]). exists r, l.
  by rewrite E4.
Qed.

(** ** Witnesses *)
Definition toy_module : ModuleConfig :=
  MkModule "data" "/srv/data" "" false true true true [] [] ∅ "" "" "" "" "" "" false false ∅.

Definition toy_world : world :=
  MkWorld
    (list_to_map [(["srv"], Dir); (["srv"; "data"], Dir); (["srv"; "data"; "a.txt"], File "hello");
                  (["srv"; "data"; "link"], Link "/etc"); (["etc"], Dir); (["etc"; "passwd"], File "root");
                  (["srv"; "data"; ".rsyncd_write_test"], File "precious");
                  (["srv"; "database"], Dir); (["srv"; "database"; "secret"], File "key")])
    "/" (λ _, true) (λ _, true) (λ _, true).

Lemma clean_check n :
  negb (is_empty n) && no_char "/" n && negb (String.eqb n ".") && negb (String.eqb n "..") = true → clean n.
Proof.
  rewrite !andb_true_iff, !negb_true_iff, !String.eqb_neq. intros [[[H ?] ?] ?].
  constructor; try done. by apply is_empty_false.
Qed.

(** A location is plain when none of its prefixes is a link. *)
Lemma plain_check w l :
  (∀ k, may_search w k = true) →
  forallb (λ i, match node_at w (take i l) with Some (Link _) => false | _ => true end) (seq 0 (S (length l))) = true →
  plain w l.
Proof.
  intros Hs Hl. rewrite forallb_forall in Hl. split; [|auto]. intros k t [m ->].
  specialize (Hl (length k)). rewrite take_app_length in Hl. intros E. rewrite E in Hl.
  discriminate Hl. apply in_seq. rewrite length_app. lia.
Qed.

(** The text prefix lets a client of [/srv/data] read [/srv/database]. *)
Lemma resolvePath_plain_witness :
  resolvePath toy_module "a.txt" toy_world = (Some "/srv/data/a.txt", toy_world) ∧
  resolvePath toy_module "/srv/database/secret" toy_world = (Some "/srv/database/secret", toy_world) ∧
  fst (fileExists toy_module "/srv/database/secret" toy_world) = Some true.
Proof.
  split; [|split; [|vm_compute; reflexivity]].
  - apply (resolvePath_plain toy_module toy_world ["srv"; "data"] ["a.txt"]); try done;
      try (apply plain_check; done); repeat (apply Forall_cons; split; [by apply clean_check|]); by constructor.
  - apply (resolvePath_plain toy_module toy_world ["srv"; "data"] ["srv"; "database"; "secret"]); try done;
      try (apply plain_check; done); repeat (apply Forall_cons; split; [by apply clean_check|]); by constructor.
Defined.

Lemma resolvePath_refuses_links_witness :
  resolvePath toy_module "link/passwd" toy_world = (Some "", toy_world).
Proof.
  apply (resolvePath_refuses_links toy_module toy_world ["srv"; "data"] [] "link" "/etc" ["passwd"]); try done;
    try (apply plain_check; done); repeat (apply Forall_cons; split; [by apply clean_check|]); by constructor.
Defined.

Lemma resolvePath_text_prefix_witness :
  starts_with "/srv/data" "/srv/database/secret" = true ∨
  ∃ base, fst (weakly_canonical "/srv/data" toy_world) = Some base ∧
          starts_with base "/srv/database/secret" = true.
Proof.
  apply (resolvePath_text_prefix toy_module "/srv/database/secret" toy_world "/srv/database/secret" toy_world);
    [done|vm_compute; reflexivity|done].
Defined.

Lemma dotdot_refused_witness :
  contains ".." "../database/secret" = true ∧
  Yields (λ b, b = false) (fileExists toy_module "../database/secret").
Proof. split; [done|]. by apply (dotdot_refused toy_module "../database/secret"). Defined.

(** The write check opens a file [.rsyncd_write_test] beside the target for
    writing and removes it: a file of that name is lost, although the request
    was about another one. *)
Example write_check_destroys_file :
  node_at toy_world ["srv"; "data"; ".rsyncd_write_test"] = Some (File "precious") ∧
  fst (createDirectory toy_module "new" false toy_world) = Some true ∧
  node_at (snd (createDirectory toy_module "new" false toy_world)) ["srv"; "data"; ".rsyncd_write_test"] = None.
Proof. vm_compute. done. Qed.

(** Deleting through the text prefix: a file outside the module goes. *)
Example delete_outside_module :
  fst (deleteFile toy_module "/srv/database/secret" toy_world) = Some true ∧
  node_at (snd (deleteFile toy_module "/srv/database/secret" toy_world)) ["srv"; "database"; "secret"] = None.
Proof. vm_compute. done. Qed.
