(* ===== verification/Protocol.v ===== *)
(** * The protocol: [core/protocol.cpp]

    [ProtocolParser] turns a request into a message; [ProtocolHandler] answers it
    from the modules it was given.  A module is anything with the interface
    [ModuleOps], the virtual methods of class [Module] the handler calls. *)
From S2P Require Import Prelude CppString ConfigTypes FileSys FileSystemModule.
From S2P Require SshKey.

Inductive ProtocolVersion := VERSION_30 | VERSION_29 | VERSION_27.

Inductive ProtocolCommand := LIST | GET | PUT | DELETE | STAT | AUTH | UNKNOWN.
#[export] Instance ProtocolCommand_eq : EqDecision ProtocolCommand.
Proof. solve_decision. Defined.

Record ProtocolMessage := MkMessage {
  command : ProtocolCommand;
  module_ : string;
  path : string;
  arguments : gmap string string;
  valid : bool;
  message_error : string
}.
Definition empty_message : ProtocolMessage := MkMessage UNKNOWN "" "" ∅ false "".

(** ** ProtocolParser *)
Definition parseCommand (line : string) : ProtocolCommand :=
  let cmd := str_map toupper (word_at 0 line) in
  if String.eqb cmd "LIST" || String.eqb cmd "LS" then LIST
  else if String.eqb cmd "GET" || String.eqb cmd "DOWNLOAD" then GET
  else if String.eqb cmd "PUT" || String.eqb cmd "UPLOAD" || String.eqb cmd "SEND" then PUT
  else if String.eqb cmd "DELETE" || String.eqb cmd "DEL" || String.eqb cmd "RM" then DELETE
  else if String.eqb cmd "STAT" || String.eqb cmd "STATUS" || String.eqb cmd "INFO" then STAT
  else if String.eqb cmd "AUTH" || String.eqb cmd "LOGIN" then AUTH
  else UNKNOWN.

Definition parseModule (line : string) : string := word_at 1 line.
Definition parsePath (line : string) : string := word_at 2 line.

Definition add_argument (args : gmap string string) (token : string) : gmap string string :=
  match find_char "=" token with
  | Some eq_pos => <[substr 0 eq_pos token := substr_from (S eq_pos) token]> args
  | None => args
  end.

Definition parseArguments (line : string) : gmap string string :=
  foldl add_argument ∅ (drop 3 (words line)).

(** The version a header line asks for, if it is one the parser knows. *)
Definition header_version (line : string) (v : ProtocolVersion) : ProtocolVersion :=
  match find_char ":" line with
  | None => v
  | Some version_pos =>
      match stoi (trim (substr_from (S version_pos) line)) with
      | Some 30%Z => VERSION_30
      | Some 29%Z => VERSION_29
      | Some 27%Z => VERSION_27
      | _ => v
      end
  end.

Definition command_line (line : string) (valid : bool) : ProtocolMessage :=
  MkMessage (parseCommand line) (parseModule line) (parsePath line) (parseArguments line) valid "".

Definition parse (data : string) (v : ProtocolVersion) : ProtocolMessage * ProtocolVersion :=
  match getline newline data with
  | None => (MkMessage UNKNOWN "" "" ∅ false "Empty data", v)
  | Some (line, rest) =>
      if starts_with "@RSYNCD:" line then
        let v := header_version line v in
        match getline newline rest with
        | None => (empty_message, v)
        | Some (line, _) => (command_line line (negb (bool_decide (parseCommand line = UNKNOWN))), v)
        end
      else
        (if bool_decide (parseCommand line = UNKNOWN) then empty_message
         else command_line line (negb (is_empty (parseModule line))), v)
  end.

(** The overload for a buffer; [None] is a null pointer. *)
Definition parse_buffer (buffer : option string) (v : ProtocolVersion) : ProtocolMessage * ProtocolVersion :=
  match buffer with
  | None | Some "" => (MkMessage UNKNOWN "" "" ∅ false "Empty buffer", v)
  | Some data => parse data v
  end.

Definition formatSuccess (message : string) : string := "@RSYNCD: OK" +:+ nl +:+ message +:+ nl.
Definition formatError (code : Z) (message : string) : string :=
  "@RSYNCD: ERROR " +:+ to_string code +:+ nl +:+ message +:+ nl.
Definition buildResponse (success : bool) (message : string) : string :=
  if success then formatSuccess message else formatError (-1) message.
Definition buildErrorResponse (code : Z) (message : string) : string := formatError code message.

(** ** The interface of a module *)
Class ModuleOps (M : Type) := {
  isReadOnly : M → bool;
  allowsListing : M → bool;
  allowsDeletion : M → bool;
  getPath : M → string;
  listDirectory : M → string → bool → io DirectoryListing;
  getFileInfo : M → string → io FileInfo;
  fileExists : M → string → io bool;
  directoryExists : M → string → io bool;
  deleteFile : M → string → io bool;
  deleteDirectory : M → string → bool → io bool
}.

(** What the handler may rely on: queries change nothing, and a module that is
    read-only or forbids deletion deletes nothing. *)
Class ModuleLaws (M : Type) `{ModuleOps M} := {
  listDirectory_law (m : M) p r :: Quiet (listDirectory m p r);
  getFileInfo_law (m : M) p :: Quiet (getFileInfo m p);
  fileExists_law (m : M) p :: Quiet (fileExists m p);
  directoryExists_law (m : M) p :: Quiet (directoryExists m p);
  deleteFile_law (m : M) p :
    isReadOnly m || negb (allowsDeletion m) = true → deleteFile m p = ret false;
  deleteDirectory_law (m : M) p r :
    isReadOnly m || negb (allowsDeletion m) = true → deleteDirectory m p r = ret false
}.

(** ** ProtocolHandler *)
Section handler.
(** [what] is the text of a caught exception. *)
Context {M : Type} `{ModuleOps M} (what : string).

Record ProtocolHandler := MkHandler {
  handler_modules : gmap string M;
  current_module_ : string
}.

Definition new_handler (modules : gmap string M) : ProtocolHandler := MkHandler modules "".
Definition setModule (name : string) (h : ProtocolHandler) : ProtocolHandler :=
  MkHandler (handler_modules h) name.
Definition getCurrentModule (h : ProtocolHandler) : string := current_module_ h.
Definition getModule (name : string) (h : ProtocolHandler) : option M := handler_modules h !! name.

(** [message.module.empty() ? current_module_ : message.module] *)
Definition module_name (message : ProtocolMessage) (h : ProtocolHandler) : string :=
  if is_empty (module_ message) then current_module_ h else module_ message.

Definition not_found (name : string) : string := buildErrorResponse 1 ("Module not found: " +:+ name).
Definition is_recursive (message : ProtocolMessage) : bool :=
  bool_decide (is_Some (arguments message !! "recursive")).

Definition format_listing (listing : DirectoryListing) : string :=
  "@RSYNCD: OK" +:+ nl +:+ "Path: " +:+ listing_path listing +:+ nl +:+
  "Files: " +:+ to_string (total_files listing) +:+ nl +:+
  "Directories: " +:+ to_string (total_directories listing) +:+ nl +:+
  "Total size: " +:+ to_string (total_size listing) +:+ nl +:+
  foldr (λ f s, "F " +:+ info_name f +:+ " " +:+ to_string (info_size f) +:+ nl +:+ s) "" (files listing) +:+
  foldr (λ d s, "D " +:+ info_name d +:+ nl +:+ s) "" (directories listing).

Definition handleList (message : ProtocolMessage) (h : ProtocolHandler) : io string :=
  let name := module_name message h in
  match getModule name h with
  | None => ret (not_found name)
  | Some m =>
      if negb (allowsListing m)
      then ret (buildErrorResponse 2 ("Listing not allowed for module: " +:+ name))
      else try_catch
             (do listing <- listDirectory m (path message) (is_recursive message);
              ret (format_listing listing))
             (ret (buildErrorResponse 3 ("Error listing directory: " +:+ what)))
  end.

Definition handleGet (message : ProtocolMessage) (h : ProtocolHandler) : io string :=
  let name := module_name message h in
  match getModule name h with
  | None => ret (not_found name)
  | Some m =>
      if! io_not (fileExists m (path message))
      then ret (buildErrorResponse 4 ("File not found: " +:+ path message))
      else try_catch
             (do info <- getFileInfo m (path message);
              ret ("@RSYNCD: OK" +:+ nl +:+ "File: " +:+ info_name info +:+ nl +:+
                   "Size: " +:+ to_string (info_size info) +:+ nl +:+
                   "Path: " +:+ info_path info +:+ nl +:+ "Ready for transfer" +:+ nl))
             (ret (buildErrorResponse 3 ("Error getting file: " +:+ what)))
  end.

Definition handlePut (message : ProtocolMessage) (h : ProtocolHandler) : io string :=
  let name := module_name message h in
  match getModule name h with
  | None => ret (not_found name)
  | Some m =>
      if isReadOnly m then ret (buildErrorResponse 5 ("Module is read-only: " +:+ name))
      else ret ("@RSYNCD: OK" +:+ nl +:+ "Ready to receive file: " +:+ path message +:+ nl +:+
                "Send file data" +:+ nl)
  end.

Definition handleDelete (message : ProtocolMessage) (h : ProtocolHandler) : io string :=
  let name := module_name message h in
  match getModule name h with
  | None => ret (not_found name)
  | Some m =>
      if isReadOnly m || negb (allowsDeletion m)
      then ret (buildErrorResponse 5 ("Deletion not allowed for module: " +:+ name))
      else
        let answer (deleted : bool) :=
          if deleted then buildResponse true ("Deleted: " +:+ path message)
          else buildErrorResponse 6 ("Failed to delete: " +:+ path message) in
        try_catch
          (if! fileExists m (path message)
           then (do deleted <- deleteFile m (path message); ret (answer deleted))
           else if! directoryExists m (path message)
           then (do deleted <- deleteDirectory m (path message) (is_recursive message); ret (answer deleted))
           else ret (buildErrorResponse 4 ("Path not found: " +:+ path message)))
          (ret (buildErrorResponse 3 ("Error deleting: " +:+ what)))
  end.

Definition handleStat (message : ProtocolMessage) (h : ProtocolHandler) : io string :=
  let name := module_name message h in
  match getModule name h with
  | None => ret (not_found name)
  | Some m =>
      try_catch
        (do info <- getFileInfo m (path message);
         if is_empty (info_path info)
         then ret (buildErrorResponse 4 ("File not found: " +:+ path message))
         else ret ("@RSYNCD: OK" +:+ nl +:+ "Name: " +:+ info_name info +:+ nl +:+
                   "Path: " +:+ info_path info +:+ nl +:+
                   "Size: " +:+ to_string (info_size info) +:+ nl +:+
                   "Type: " +:+ to_string (info_type info) +:+ nl +:+
                   "Is symlink: " +:+ (if info_symlink info then "yes" else "no") +:+ nl))
        (ret (buildErrorResponse 3 ("Error getting file stats: " +:+ what)))
  end.

Definition handle (message : ProtocolMessage) (h : ProtocolHandler) : io string :=
  if negb (valid message) then ret (buildErrorResponse (-1) "Invalid protocol message") else
  match command message with
  | LIST => handleList message h
  | GET => handleGet message h
  | PUT => handlePut message h
  | DELETE => handleDelete message h
  | STAT => handleStat message h
  | AUTH | UNKNOWN => ret (buildErrorResponse (-1) "Unknown command")
  end.
End handler.

(** The modules of [module.cpp] have this interface. *)
#[export] Instance filesystem_module (junk : string → Z) : ModuleOps ModuleConfig := {|
  isReadOnly := FileSystemModule.isReadOnly;
  allowsListing := FileSystemModule.allowsListing;
  allowsDeletion := FileSystemModule.allowsDeletion;
  getPath := FileSystemModule.getPath;
  listDirectory := FileSystemModule.listDirectory junk;
  getFileInfo := FileSystemModule.getFileInfo junk;
  fileExists := FileSystemModule.fileExists;
  directoryExists := FileSystemModule.directoryExists;
  deleteFile := FileSystemModule.deleteFile;
  deleteDirectory := FileSystemModule.deleteDirectory
|}.

#[export] Instance filesystem_module_laws junk : @ModuleLaws ModuleConfig (filesystem_module junk).
Proof.
  split; cbn; try apply _.
  - intros m p E. unfold FileSystemModule.deleteFile. by rewrite E.
  - intros m p r E. unfold FileSystemModule.deleteDirectory. by rewrite E.
Qed.

(** ** Lemmas: fields of a message *)
Definition args_ok (args : gmap string string) : Prop :=
  ∀ k x, args !! k = Some x → no_space k = true ∧ no_space x = true ∧ no_char "=" k = true.

Lemma add_argument_ok args token :
  no_space token = true → args_ok args → args_ok (add_argument args token).
Proof.
  intros Ht Ha k x. unfold add_argument. destruct (find_char "=" token) as [p|] eqn:E; [|apply Ha].
  destruct (find_char_Some _ _ _ E) as (a & b & -> & Hn & ->). unfold substr, substr_from.
  rewrite drop_0, take_app_str, drop_S_app_str. unfold no_space in Ht. rewrite forallb_app_str in Ht.
  bool_hyps. cbn [str_forallb] in *. bool_hyps.
  intros [[<- <-]|[_ Hk]]%lookup_insert_Some; [done|by apply Ha].
Qed.

Lemma parseArguments_ok line : args_ok (parseArguments line).
Proof.
  unfold parseArguments. assert (Forall (λ w, no_space w = true) (drop 3 (words line))) as Hw.
  { apply Forall_drop, Forall_forall. intros w Hw%words_word. by apply andb_true_iff in Hw as [_ ?]. }
  assert (args_ok ∅) as H0 by (by intros k x ?%lookup_empty_Some).
  revert H0. generalize (∅ : gmap string string). induction Hw as [|w l Hw _ IH]; intros args Ha; [done|].
  cbn [foldl]. apply IH. by apply add_argument_ok.
Qed.

Definition fields_ok (m : ProtocolMessage) : Prop :=
  no_space (module_ m) = true ∧ no_space (path m) = true ∧ args_ok (arguments m).

Lemma command_line_fields line b : fields_ok (command_line line b).
Proof. split; [apply word_at_no_space|]. split; [apply word_at_no_space|apply parseArguments_ok]. Qed.

Lemma empty_fields e : fields_ok (MkMessage UNKNOWN "" "" ∅ false e).
Proof. split; [done|]. split; [done|]. intros k x E. cbn in E. by rewrite lookup_empty in E. Qed.

(** Whatever bytes arrive, no field of a parsed message holds white space:
    not the module, not the path, no argument; and argument names hold no [=]. *)
Lemma parse_fields data v : fields_ok (fst (parse data v)).
Proof.
  unfold parse. destruct (getline newline data) as [[line rest]|]; [|apply empty_fields].
  destruct (starts_with _ line).
  - destruct (getline newline rest) as [[l r]|]; [apply command_line_fields|apply empty_fields].
  - destruct (bool_decide _); [apply empty_fields|apply command_line_fields].
Qed.

(** A message as the parser makes it. *)
Record well_formed (m : ProtocolMessage) : Prop := {
  wf_fields : fields_ok m;
  wf_valid : valid m = true → command m ≠ UNKNOWN;
  wf_error : message_error m ≠ "" → m = MkMessage UNKNOWN "" "" ∅ false (message_error m)
}.

(** C37: Whatever bytes arrive, the parser gives a well-formed message:
    no white space in the module, the path or an argument, and no [=] in the
    name of one; a message that is valid has a command the handler knows; and
    one with an error text has nothing else. *)
Theorem parse_well_formed data v : well_formed (fst (parse data v)).
Proof.
  constructor; [apply parse_fields| |];
    unfold parse; (destruct (getline newline data) as [[line rest]|]; [|done]);
    (destruct (starts_with _ line); [destruct (getline newline rest) as [[l r]|]; [|done]|]);
    cbn [fst]; by case_bool_decide.
Qed.

(** ** The text of a request *)
Definition argument_text (a : string * string) : string := " " +:+ a.1 +:+ "=" +:+ a.2.
Definition request_line (cmd m p : string) (args : list (string * string)) : string :=
  cmd +:+ " " +:+ m +:+ " " +:+ p +:+ foldr (λ a s, argument_text a +:+ s) "" args.

Definition argument_ok (a : string * string) : Prop :=
  no_space a.1 = true ∧ no_char "=" a.1 = true ∧ no_space a.2 = true.

Lemma words_first w s : is_word w = true → words (w +:+ String " " s) = w :: words s.
Proof. intros. by apply words_app. Qed.

Lemma words_arguments w args :
  is_word w = true → Forall argument_ok args →
  words (w +:+ foldr (λ a s, argument_text a +:+ s) "" args) = w :: map (λ a, a.1 +:+ "=" +:+ a.2) args.
Proof.
  intros Hw H. revert w Hw. induction H as [|[k x] args (Hk & _ & Hx) _ IH]; intros w Hw; cbn [foldr map].
  - rewrite app_nil_str. by apply words_last.
  - unfold argument_text at 1. cbn [fst snd] in *. rewrite !app_assoc_str, app_cons_str, app_nil_l_str.
    rewrite words_first by done. f_equal. rewrite <- !app_assoc_str. apply IH.
    unfold is_word, no_space in *. rewrite !forallb_app_str, Hk, Hx. by destruct k.
Qed.

Lemma words_request cmd m p args :
  is_word cmd = true → is_word m = true → is_word p = true → Forall argument_ok args →
  words (request_line cmd m p args) = cmd :: m :: p :: map (λ a, a.1 +:+ "=" +:+ a.2) args.
Proof.
  intros. unfold request_line. rewrite !app_cons_str, !app_nil_l_str, !words_first by done.
  by rewrite words_arguments.
Qed.

Lemma add_argument_text args a : argument_ok a → add_argument args (a.1 +:+ "=" +:+ a.2) = <[a.1 := a.2]> args.
Proof.
  intros (_ & He & _). unfold add_argument. rewrite app_cons_str, app_nil_l_str, find_char_app by done.
  unfold substr, substr_from. by rewrite drop_0, take_app_str, drop_S_app_str.
Qed.

Lemma add_arguments_text args g :
  Forall argument_ok args →
  foldl add_argument g (map (λ a, a.1 +:+ "=" +:+ a.2) args) = foldl (λ g a, <[a.1 := a.2]> g) g args.
Proof.
  intros H. revert g. induction H as [|a args Ha _ IH]; intros g; [done|].
  change (foldl add_argument (add_argument g (a.1 +:+ "=" +:+ a.2)) (map (λ a, a.1 +:+ "=" +:+ a.2) args) =
          foldl (λ g a, <[a.1 := a.2]> g) (<[a.1 := a.2]> g) args).
  by rewrite add_argument_text, IH.
Qed.

Lemma request_no_newline cmd m p args :
  is_word cmd = true → is_word m = true → is_word p = true → Forall argument_ok args →
  no_char newline (request_line cmd m p args) = true.
Proof.
  assert (∀ w, no_space w = true → no_char newline w = true) as Hs.
  { intros w. apply forallb_impl_str. intros c H. apply negb_true_iff, bool_decide_eq_false. by intros ->. }
  assert (∀ w, is_word w = true → no_char newline w = true) as Hw.
  { intros w [_ ?]%andb_true_iff. auto. }
  intros Hc Hm Hp Ha. unfold request_line. repeat (apply no_char_app; split; auto).
  induction Ha as [|a args (? & _ & ?) _ IH]; [done|]. cbn [foldr]. unfold argument_text.
  repeat (apply no_char_app; split; auto).
Qed.

(** C36: Round trip: a request written from a known command word, a module, a
    path and arguments (words, in any case of the command) is parsed back to
    exactly those, with or without a header line in front; of an argument given
    twice the last counts. *)
Theorem parse_request header cmd m p args v :
  parseCommand cmd ≠ UNKNOWN → is_word cmd = true → is_word m = true → is_word p = true →
  Forall argument_ok args → no_char newline header = true →
  let message := MkMessage (parseCommand cmd) m p (foldl (λ g a, <[a.1 := a.2]> g) ∅ args) true "" in
  fst (parse (request_line cmd m p args) v) = message ∧
  fst (parse ("@RSYNCD:" +:+ header +:+ nl +:+ request_line cmd m p args +:+ nl) v) = message.
Proof.
  intros Hk Hc Hm Hp Ha Hn message. set (line := request_line cmd m p args).
  assert (no_char newline line = true) as Hl by (by apply request_no_newline).
  assert (words line = cmd :: m :: p :: map (λ a, a.1 +:+ "=" +:+ a.2) args) as Hw by (by apply words_request).
  assert (parseCommand line = parseCommand cmd) as Ec.
  { unfold parseCommand, word_at. by rewrite Hw, words_last. }
  assert (∀ b, command_line line b = MkMessage (parseCommand cmd) m p (foldl (λ g a, <[a.1 := a.2]> g) ∅ args) b "") as E.
  { intros b. unfold command_line, parseModule, parsePath, parseArguments, word_at. rewrite Ec, Hw. cbn [lookup list_lookup default drop].
    by rewrite <- add_arguments_text. }
  assert (starts_with "@RSYNCD:" line = false) as Hs.
  { destruct cmd as [|c t]; [done|]. unfold line, request_line. rewrite app_cons_str. cbn [starts_with].
    case_bool_decide as Hat; [|done]. destruct Hk. unfold parseCommand, word_at.
    rewrite words_last by done. by subst c. }
  assert (line ≠ "") as Hne by (by destruct cmd).
  split.
  - unfold parse. rewrite getline_all by done. rewrite Hs, Ec.
    rewrite bool_decide_eq_false_2 by done. cbn [fst]. rewrite E.
    unfold parseModule, word_at. rewrite Hw. cbn. by destruct m.
  - rewrite <- (app_assoc_str "@RSYNCD:" header). set (h := "@RSYNCD:" +:+ header).
    assert (no_char newline h = true) as Hh by (by apply no_char_app).
    assert (starts_with "@RSYNCD:" h = true) as Hst by apply starts_with_app. clearbody h.
    unfold parse. change (nl +:+ line +:+ nl) with (String newline (line +:+ String newline "")).
    rewrite getline_first by done. rewrite Hst, getline_first by done. cbn [fst]. rewrite E, Ec.
    by rewrite bool_decide_eq_false_2.
Qed.

(** An armored signature can never arrive: the value of a parsed argument
    holds no space, so it is never the PEM text [normalizeSignatureInput] would
    unpack, whose marker lines contain spaces. *)
Theorem armor_never_parsed data v signature :
  arguments (fst (parse data v)) !! "signature" = Some signature →
  SshKey.normalizeSignatureInput signature = signature.
Proof.
  intros E. destruct (parse_fields data v) as (_ & _ & Ha). destruct (Ha _ _ E) as (_ & Hs & _).
  unfold SshKey.normalizeSignatureInput. destruct (find_str _ signature) as [p|] eqn:Ef; [|done].
  apply find_str_Some in Ef as (a & b & -> & _). unfold no_space in Hs. rewrite !forallb_app_str in Hs.
  bool_hyps. done.
Qed.

(** ** Lemmas: answers *)
Section answers.
Context {M : Type} `{ModuleLaws M} (what : string).

(** An answer is the OK line with text after it, or an error line with one of
    the codes of the handler. *)
Definition answer_ok (s : string) : Prop :=
  (∃ t, s = "@RSYNCD: OK" +:+ nl +:+ t) ∨
  ∃ code t, s = "@RSYNCD: ERROR " +:+ to_string code +:+ nl +:+ t ∧ code ∈ [-1; 1; 2; 3; 4; 5; 6]%Z.

Lemma error_answer code t : code ∈ [-1; 1; 2; 3; 4; 5; 6]%Z → answer_ok (buildErrorResponse code t).
Proof. intros Hc. right. exists code, (t +:+ nl). done. Qed.

Lemma ok_answer t : answer_ok ("@RSYNCD: OK" +:+ nl +:+ t).
Proof. left. by exists t. Qed.

Ltac answers := repeat first
  [ apply yields_ret; first [apply error_answer; set_solver | apply ok_answer]
  | apply yields_bind; intros ? | apply yields_try | apply yields_if; intros _ ].

(** Every answer of the handler is well formed: the OK line and text, or
    an error line with a code in -1, 1..6; and a message that is not valid, or
    names a module that does not exist, is answered without touching the file
    system. *)
Theorem handle_answers message (h : ProtocolHandler (M:=M)) :
  Yields answer_ok (handle what message h) ∧
  (valid message = false ∨ getModule (module_name message h) h = None →
   ∃ answer, ∀ w, handle what message h w = (Some answer, w)).
Proof.
  split.
  - unfold handle. apply yields_if; intros Hv; [by answers|]. destruct (command message).
    + unfold handleList. destruct (getModule _ h); answers.
    + unfold handleGet. destruct (getModule _ h); answers.
    + unfold handlePut. destruct (getModule _ h); answers.
    + unfold handleDelete. destruct (getModule _ h); answers.
      all: unfold buildResponse; case_match; answers.
    + unfold handleStat. destruct (getModule _ h); answers.
    + answers.
    + answers.
  - unfold handle. intros Hc. destruct (valid message) eqn:Ev; cbn [negb]; [|by eexists].
    destruct Hc as [?|Hm]; [done|].
    unfold handleList, handleGet, handlePut, handleDelete, handleStat. rewrite Hm.
    destruct (command message); by eexists.
Qed.

Lemma handle_quiet message (h : ProtocolHandler (M:=M)) :
  (∀ name m, getModule name h = Some m → isReadOnly m || negb (allowsDeletion m) = true) →
  Quiet (handle what message h).
Proof.
  intros Hp. unfold handle. apply if_quiet; [apply _|]. destruct (command message); try apply _.
  - unfold handleList. destruct (getModule _ h); apply _.
  - unfold handleGet. destruct (getModule _ h); apply _.
  - unfold handlePut. destruct (getModule _ h); apply _.
  - unfold handleDelete. destruct (getModule _ h) as [m|] eqn:E; [|apply _].
    rewrite (Hp _ _ E). apply _.
  - unfold handleStat. destruct (getModule _ h); apply _.
Qed.

End answers.

(** ** Witnesses *)
Lemma parse_request_witness :
  fst (parse "get data a.txt k=v" VERSION_30) = MkMessage GET "data" "a.txt" {["k" := "v"]} true "" ∧
  fst (parse ("@RSYNCD: 29" +:+ nl +:+ "get data a.txt k=v" +:+ nl) VERSION_30) =
  MkMessage GET "data" "a.txt" {["k" := "v"]} true "".
Proof.
  apply (parse_request " 29" "get" "data" "a.txt" [("k", "v")] VERSION_30); try done.
  repeat constructor.
Defined.

Lemma armor_never_parsed_witness :
  arguments (fst (parse "AUTH alice nonce signature=U1NI" VERSION_30)) !! "signature" = Some "U1NI" ∧
  SshKey.normalizeSignatureInput "U1NI" = "U1NI".
Proof.
  split; [vm_compute; reflexivity|].
  apply (armor_never_parsed "AUTH alice nonce signature=U1NI" VERSION_30). vm_compute. reflexivity.
Defined.

Definition toy_handler : ProtocolHandler :=
  new_handler {["data" := MkModule "data" "/srv/data" "" true true true true [] [] ∅ "" "" "" "" "" "" false false ∅]}.


Lemma handle_answers_witness :
  let m := fst (parse "STAT nowhere a.txt" VERSION_30) in
  valid m = true ∧
  ∃ answer, ∀ w, @handle ModuleConfig (filesystem_module (λ _, 0%Z)) "error" m toy_handler w = (Some answer, w).
Proof.
  intros m. split; [vm_compute; reflexivity|].
  apply (@handle_answers ModuleConfig (filesystem_module (λ _, 0%Z)) (filesystem_module_laws _) "error" m toy_handler).
  right. vm_compute. reflexivity.
Defined.
