(* ===== verification/Ssl.v ===== *)
(** * TLS: [security/ssl_context.cpp]

    State of a server context and of its connections.  The OpenSSL calls are the
    interface [TlsLibrary] (whether each call succeeds on its arguments); what a
    [SSL_read] or [SSL_write] gives is an argument of the operation. *)
From S2P Require Import Prelude CppString.
Open Scope Z_scope.

(** ** SSLConnection *)

(** [fd] is -1 when closed; [has_ssl] is [ssl_ != nullptr]. *)
Record SSLConnection := MkConnection { has_ssl : bool; fd : Z; open_ : bool }.

Definition new_connection (ssl : bool) (fd : Z) : SSLConnection := MkConnection ssl fd (ssl && (fd >=? 0)).
Definition isOpen (c : SSLConnection) : bool := open_ c.

(** What [SSL_read] gives: data, an orderly shutdown by the peer, or an error. *)
Inductive read_result := Data (bytes : string) | ZeroReturn | ReadError.

(** The result is the bytes read, [None] for -1; an empty text is 0. *)
Definition read (r : read_result) (c : SSLConnection) : option string * SSLConnection :=
  if negb (open_ c) || negb (has_ssl c) then (None, c) else
  match r with
  | Data bytes => (Some bytes, c)
  | ZeroReturn => (Some "", MkConnection (has_ssl c) (fd c) false)
  | ReadError => (None, c)
  end.

(** [result] is what [SSL_write] returned. *)
Definition write (result : Z) (c : SSLConnection) : Z :=
  if negb (open_ c) || negb (has_ssl c) then -1 else if result <=? 0 then -1 else result.

(** The closed connection, and whether a descriptor was closed. *)
Definition close (c : SSLConnection) : SSLConnection * bool :=
  (MkConnection false (-1) false, fd c >=? 0).

(** [shutdown] only sends the closing alert. *)
Definition shutdown (c : SSLConnection) : SSLConnection := c.

(** The move constructor: the new connection, and the one moved from. *)
Definition moved_from : SSLConnection := MkConnection false (-1) false.
Definition move_new (other : SSLConnection) : SSLConnection * SSLConnection := (other, moved_from).

(** Move assignment between two objects: the target, the source, and whether a
    descriptor was closed. *)
Definition move_assign (c other : SSLConnection) : SSLConnection * SSLConnection * bool :=
  let '(_, closed) := close c in (other, moved_from, closed).

(** A descriptor that is moved is closed by its new owner and by nobody else. *)
Lemma moved_once c other :
  (close (fst (move_new other))).2 = (close other).2 ∧ (close (snd (move_new other))).2 = false ∧
  let '(target, source, closed) := move_assign c other in
  closed = (close c).2 ∧ (close target).2 = (close other).2 ∧ (close source).2 = false.
Proof. done. Qed.

(** ** SSLContext *)

(** The calls of OpenSSL on a context.  The text of an error is [ssl_error]. *)
Class TlsLibrary := {
  ctx_new : bool;
  set_min_proto_version : string → bool;
  set_cipher_list : string → bool;
  use_certificate_chain_file : string → bool;
  use_private_key_file : string → bool;
  check_private_key : string → string → bool;
  load_verify_locations : string → bool;
  ssl_error : string
}.

Record SSLContext := MkContext {
  initialized_ : bool;
  ctx_ : option string; (* the cipher list of the live context *)
  last_error_ : string
}.
Definition new_context : SSLContext := MkContext false None "".
Definition cleanup (c : SSLContext) : SSLContext := MkContext false None (last_error_ c).

Section context.
Context `{TlsLibrary}.

(** Other versions than 1.2 and 1.3 only disable the old protocols. *)
Definition configureMinTlsVersion (min_tls_version : string) : bool :=
  if String.eqb min_tls_version "1.3" then set_min_proto_version "1.3"
  else if String.eqb min_tls_version "1.2" then set_min_proto_version "1.2"
  else true.

(** [None] is success, otherwise the error text. *)
Definition loadCertificateChain (cert_file key_file : string) : option string :=
  if negb (use_certificate_chain_file cert_file) then Some ("failed to load certificate: " +:+ ssl_error)
  else if negb (use_private_key_file key_file) then Some ("failed to load private key: " +:+ ssl_error)
  else if negb (check_private_key cert_file key_file) then Some "private key does not match certificate"
  else None.

Definition loadCaFile (ca_file : string) : option string :=
  if is_empty ca_file then None
  else if negb (load_verify_locations ca_file) then Some ("failed to load CA file: " +:+ ssl_error)
  else None.

Definition fail (message : string) : bool * SSLContext := (false, MkContext false None message).

Definition initialize (cert_file key_file ca_file min_tls_version cipher_suite : string)
    (c : SSLContext) : bool * SSLContext :=
  if negb ctx_new then fail ("SSL_CTX_new failed: " +:+ ssl_error)
  else if negb (configureMinTlsVersion min_tls_version)
  then fail ("unsupported TLS version: " +:+ min_tls_version)
  else
    let ciphers := if negb (is_empty cipher_suite) then cipher_suite else "HIGH:!aNULL:!MD5:!RC4" in
    if negb (set_cipher_list ciphers)
    then fail (if negb (is_empty cipher_suite) then "invalid cipher suite: " +:+ cipher_suite
               else "failed to set default cipher list")
    else match loadCertificateChain cert_file key_file with
         | Some e => fail e
         | None =>
             match loadCaFile ca_file with
             | Some e => fail e
             | None => (true, MkContext true (Some ciphers) "")
             end
         end.

Definition isInitialized (c : SSLContext) : bool := initialized_ c.

(** [ssl_new], [set_fd] and [accept] are whether those calls succeed. *)
Definition acceptConnection (ssl_new set_fd accept : bool) (client_fd : Z) (c : SSLContext)
    : option SSLConnection * SSLContext :=
  let fails message := (None, MkContext (initialized_ c) (ctx_ c) message) in
  if negb (initialized_ c) || bool_decide (ctx_ c = None) || (client_fd <? 0)
  then fails "SSL context not initialized"
  else if negb ssl_new then fails ("SSL_new failed: " +:+ ssl_error)
  else if negb set_fd then fails ("SSL_set_fd failed: " +:+ ssl_error)
  else if negb accept then fails ("TLS handshake failed: " +:+ ssl_error)
  else (Some (new_connection true client_fd), c).

(** ** Invariant: a context is initialized exactly when it is live *)
Inductive reachable : SSLContext → Prop :=
  | reach_new : reachable new_context
  | reach_initialize cert key ca version suite c : reachable c →
      reachable (snd (initialize cert key ca version suite c))
  | reach_accept a b d client_fd c : reachable c →
      reachable (snd (acceptConnection a b d client_fd c))
  | reach_cleanup c : reachable c → reachable (cleanup c).

Lemma initialize_ok cert key ca version suite c :
  let '(ok, c') := initialize cert key ca version suite c in
  isInitialized c' = ok ∧ (ok = true → use_certificate_chain_file cert = true ∧
    check_private_key cert key = true ∧ loadCaFile ca = None).
Proof.
  unfold initialize, fail. destruct ctx_new; [|done].
  destruct (configureMinTlsVersion version); [|done]. destruct (set_cipher_list _); [|done]. cbn [negb].
  destruct (loadCertificateChain cert key) eqn:Ec; [done|]. destruct (loadCaFile ca) eqn:Ea; [done|].
  split; [done|]. intros _. unfold loadCertificateChain in Ec.
  by destruct (use_certificate_chain_file cert), (use_private_key_file key), (check_private_key cert key).
Qed.

Lemma accept_open a b d client_fd c conn c' :
  acceptConnection a b d client_fd c = (Some conn, c') → isOpen conn = true ∧ fd conn = client_fd.
Proof.
  unfold acceptConnection. destruct (initialized_ c) eqn:E; [|done]. destruct (bool_decide _); [done|]. cbn [negb orb].
  destruct (client_fd <? 0) eqn:El; [done|]. destruct a, b, d; try done. intros [= <- <-].
  unfold isOpen, new_connection. cbn. split; [|done]. rewrite Z.geb_leb. apply Z.leb_le. by apply Z.ltb_ge in El.
Qed.

(** In every history, [isInitialized] says that a context is live; a
    connection is only accepted then, and is open on the client's descriptor;
    [initialize] reports success exactly when it leaves a live context, with
    the certificate, its key and the CA file loaded. *)
Theorem context_invariant c :
  reachable c →
  (isInitialized c = true ↔ ctx_ c ≠ None) ∧
  (∀ a b d client_fd conn c', acceptConnection a b d client_fd c = (Some conn, c') →
     isInitialized c = true ∧ isOpen conn = true ∧ fd conn = client_fd) ∧
  (∀ cert key ca version suite,
     let '(ok, c') := initialize cert key ca version suite c in
     isInitialized c' = ok ∧
     (ok = true → use_certificate_chain_file cert = true ∧ check_private_key cert key = true ∧
                  loadCaFile ca = None)).
Proof.
  intros Hr. pose proof initialize_ok as Hi.
  split; [|split; [|intros; apply Hi]].
  - clear Hi. induction Hr as [|cert key ca version suite c _ _|a b d client_fd c _ IH|c _ _]; try done.
    + unfold initialize, fail. by repeat (case_match; try done).
    + unfold acceptConnection. by repeat (case_match; try done).
  - intros a b d client_fd conn c'. unfold acceptConnection.
    destruct (initialized_ c) eqn:E; [|done]. destruct (bool_decide _); [done|]. cbn [negb orb].
    destruct (client_fd <? 0) eqn:El; [done|]. destruct a, b, d; try done. intros [= <- <-].
    bool_hyps. unfold isInitialized, isOpen, new_connection. cbn. split; [done|]. split; [|done].
    rewrite Z.geb_leb. by apply Z.leb_le.
Qed.
End context.

(** ** Witness *)
#[local] Instance toy_tls : TlsLibrary := {|
  ctx_new := true;
  set_min_proto_version v := String.eqb v "1.2" || String.eqb v "1.3";
  set_cipher_list c := negb (String.eqb c "bad");
  use_certificate_chain_file f := String.eqb f "cert.pem";
  use_private_key_file f := String.eqb f "key.pem";
  check_private_key c k := true;
  load_verify_locations f := String.eqb f "ca.pem";
  ssl_error := "error"
|}.

Lemma context_invariant_witness :
  let c := snd (initialize "cert.pem" "key.pem" "" "1.3" "" new_context) in
  isInitialized c = true ∧ ctx_ c ≠ None ∧
  isInitialized (snd (initialize "other.pem" "key.pem" "" "1.3" "" c)) = false.
Proof.
  intros c. destruct (context_invariant c) as (H1 & _ & H2); [apply reach_initialize, reach_new|].
  split; [reflexivity|]. split; [by apply H1|].
  specialize (H2 "other.pem" "key.pem" "" "1.3" ""). by destruct H2.
Defined.
