(* ===== verification/Session.v ===== *)
(** * Client sessions: [core/session.cpp]

    A session is explicit state: its socket, its optional TLS connection, the
    protocol handler, who is authenticated and the transfer in progress.  One
    step gets an [event]: what a read would give on each channel, how many bytes
    of a write are taken, and the randomness authentication draws.  The text the
    client has been sent is recorded per channel.

    The authentication manager is anything with the interface [Authenticator];
    it is shared between sessions, and the field holds its state as this session
    finds and leaves it.  An exception ends a step ([io]); the caller then closes
    the session, so the fields the failed step had set are not observed. *)
From S2P Require Import Prelude CppString ConfigTypes FileSys Protocol.
From S2P Require FileSystemModule Ssl AuthManager Passwords SshKey.
Open Scope Z_scope.

(** ** Interfaces *)
Class Authenticator (A E : Type) := {
  authenticateUser : E → string → string → A → bool * A;
  authenticateUserWithKey : E → string → string → string → A → bool * A
}.

#[export] Instance manager_authenticator `{Passwords.Sha256} `{SshKey.OpenSSL} :
    Authenticator AuthManager.AuthenticationManager AuthManager.draws := {|
  authenticateUser := AuthManager.authenticateUser;
  authenticateUserWithKey := AuthManager.authenticateUserWithKey
|}.

Inductive TransferState := IDLE | RECEIVING_FILE | SENDING_FILE.
#[export] Instance TransferState_eq : EqDecision TransferState.
Proof. solve_decision. Defined.

Section session.
Context {M A Draws : Type} `{ModuleOps M} `{Authenticator A Draws} (what : string).

Record RSyncSession := MkSession {
  client_socket_ : Z;
  ssl_connection_ : option Ssl.SSLConnection;
  descriptor_open : bool;
  client_address_ : string;
  config_ : option Configuration;
  auth_manager_ : option A;
  active_ : bool;
  parser_ : ProtocolVersion;
  handler_ : ProtocolHandler (M:=M);
  authenticated_user_ : string;
  transfer_state_ : TransferState;
  transfer_module_ : string;
  transfer_path_ : string;
  upload_file_ : option (location * nat);
  download_file_ : option (location * nat);
  transfer_bytes_remaining_ : Z;
  transfer_bytes_sent_ : Z;
  sent_plain : string;
  sent_tls : string
}.

Record event := MkEvent {
  entropy : Draws;
  plain_in : option string;
  tls_in : Ssl.read_result;
  accepts : string → Z
}.

(** [descriptor_open] is the state of the descriptor in the operating system. *)
Definition new_session (socket : Z) (address : string) (config : option Configuration)
    (modules : gmap string M) (auth : option A) (ssl : option Ssl.SSLConnection) : RSyncSession :=
  MkSession socket ssl true address config auth true VERSION_30 (new_handler modules) ""
    IDLE "" "" None None 0 0 "" "".

(** ** Field updates *)
Definition with_socket (socket : Z) (ssl : option Ssl.SSLConnection) (open active : bool) (s : RSyncSession) :=
  MkSession socket ssl open (client_address_ s) (config_ s) (auth_manager_ s) active (parser_ s)
    (handler_ s) (authenticated_user_ s) (transfer_state_ s) (transfer_module_ s) (transfer_path_ s)
    (upload_file_ s) (download_file_ s) (transfer_bytes_remaining_ s) (transfer_bytes_sent_ s)
    (sent_plain s) (sent_tls s).
Definition with_sent (plain tls : string) (s : RSyncSession) :=
  MkSession (client_socket_ s) (ssl_connection_ s) (descriptor_open s) (client_address_ s) (config_ s)
    (auth_manager_ s) (active_ s) (parser_ s) (handler_ s) (authenticated_user_ s) (transfer_state_ s)
    (transfer_module_ s) (transfer_path_ s) (upload_file_ s) (download_file_ s)
    (transfer_bytes_remaining_ s) (transfer_bytes_sent_ s) plain tls.
Definition with_protocol (v : ProtocolVersion) (h : ProtocolHandler (M:=M)) (s : RSyncSession) :=
  MkSession (client_socket_ s) (ssl_connection_ s) (descriptor_open s) (client_address_ s) (config_ s)
    (auth_manager_ s) (active_ s) v h (authenticated_user_ s) (transfer_state_ s) (transfer_module_ s)
    (transfer_path_ s) (upload_file_ s) (download_file_ s) (transfer_bytes_remaining_ s)
    (transfer_bytes_sent_ s) (sent_plain s) (sent_tls s).
Definition with_auth (a : option A) (user : string) (s : RSyncSession) :=
  MkSession (client_socket_ s) (ssl_connection_ s) (descriptor_open s) (client_address_ s) (config_ s)
    a (active_ s) (parser_ s) (handler_ s) user (transfer_state_ s) (transfer_module_ s)
    (transfer_path_ s) (upload_file_ s) (download_file_ s) (transfer_bytes_remaining_ s)
    (transfer_bytes_sent_ s) (sent_plain s) (sent_tls s).
Definition with_config (c : option Configuration) (s : RSyncSession) :=
  MkSession (client_socket_ s) (ssl_connection_ s) (descriptor_open s) (client_address_ s) c
    (auth_manager_ s) (active_ s) (parser_ s) (handler_ s) (authenticated_user_ s) (transfer_state_ s)
    (transfer_module_ s) (transfer_path_ s) (upload_file_ s) (download_file_ s) (transfer_bytes_remaining_ s)
    (transfer_bytes_sent_ s) (sent_plain s) (sent_tls s).
Definition with_transfer (st : TransferState) (m p : string) (up : option (location * nat))
    (down : option (location * nat)) (left sent : Z) (s : RSyncSession) :=
  MkSession (client_socket_ s) (ssl_connection_ s) (descriptor_open s) (client_address_ s) (config_ s)
    (auth_manager_ s) (active_ s) (parser_ s) (handler_ s) (authenticated_user_ s) st m p up down left sent
    (sent_plain s) (sent_tls s).

(** ** The socket *)
Definition close (s : RSyncSession) : RSyncSession :=
  match ssl_connection_ s with
  | Some c =>
      let '(c, closed) := Ssl.close c in
      with_socket (-1) (Some c) (descriptor_open s && negb closed) false s
  | None =>
      if active_ s && (client_socket_ s >=? 0) then with_socket (-1) None false false s else s
  end.

Definition getClientAddress (s : RSyncSession) : string := client_address_ s.
Definition getClientSocket (s : RSyncSession) : Z := client_socket_ s.
Definition isActive (s : RSyncSession) : bool := active_ s.

(** The bytes of a read of at most [length]; [None] is -1. *)
Definition readSocket (e : event) (length : nat) (s : RSyncSession) : option string * RSyncSession :=
  let plain :=
    if client_socket_ s <? 0 then (None, s) else (str_take length <$> plain_in e, s) in
  match ssl_connection_ s with
  | Some c =>
      if Ssl.isOpen c then
        let '(r, c) := Ssl.read (match tls_in e with
                                 | Ssl.Data bytes => Ssl.Data (str_take length bytes)
                                 | r => r
                                 end) c in
        (r, with_socket (client_socket_ s) (Some c) (descriptor_open s) (active_ s) s)
      else plain
  | None => plain
  end.

(** The number of bytes taken, negative on error. *)
Definition writeSocket (e : event) (data : string) (s : RSyncSession) : Z * RSyncSession :=
  let plain :=
    if client_socket_ s <? 0 then (-1, s)
    else (accepts e data, with_sent (sent_plain s +:+ str_take (Z.to_nat (accepts e data)) data) (sent_tls s) s) in
  match ssl_connection_ s with
  | Some c =>
      if Ssl.isOpen c then
        let n := Ssl.write (accepts e data) c in
        (n, with_sent (sent_plain s) (sent_tls s +:+ str_take (Z.to_nat n) data) s)
      else plain
  | None => plain
  end.

Definition writeResponse (e : event) (response : string) (s : RSyncSession) : bool * RSyncSession :=
  if (client_socket_ s <? 0) || negb (active_ s) then (false, s)
  else let '(bytes_sent, s) := writeSocket e response s in (bytes_sent >? 0, s).

(** ** Authentication and authorization *)
Definition authenticate (s : RSyncSession) : bool * RSyncSession :=
  match config_ s with
  | Some c =>
      if negb (auth_enabled (auth c)) then (true, with_auth (auth_manager_ s) "anonymous" s)
      else if anonymous_access (auth c) then (true, with_auth (auth_manager_ s) "anonymous" s)
      else (false, s)
  | None => (true, with_auth (auth_manager_ s) "anonymous" s)
  end.

Definition authorize (module_name operation : string) (s : RSyncSession) : bool := true.

Definition handleAuthMessage (e : event) (message : ProtocolMessage) (s : RSyncSession)
    : string * RSyncSession :=
  match config_ s with
  | None => (buildResponse true "Authentication disabled", with_auth (auth_manager_ s) "anonymous" s)
  | Some c =>
      if negb (auth_enabled (auth c)) then
        (buildResponse true "Authentication disabled", with_auth (auth_manager_ s) "anonymous" s)
      else if String.eqb (method (auth c)) "public_key" then
        match auth_manager_ s with
        | None => (buildErrorResponse 500 "Authentication manager unavailable", s)
        | Some a =>
            match arguments message !! "signature" with
            | Some signature =>
                if is_empty (module_ message) || is_empty (path message)
                then (buildErrorResponse 400 "AUTH requires: AUTH <user> <challenge> signature=<base64_ssh_sig>", s)
                else
                  let '(ok, a) := authenticateUserWithKey (entropy e) (module_ message) (path message) signature a in
                  if ok : bool
                  then (buildResponse true ("Authenticated: " +:+ module_ message),
                        with_auth (Some a) (module_ message) s)
                  else (buildErrorResponse 403 "Public key authentication failed",
                        with_auth (Some a) (authenticated_user_ s) s)
            | None => (buildErrorResponse 400 "AUTH requires: AUTH <user> <challenge> signature=<base64_ssh_sig>", s)
            end
        end
      else if String.eqb (method (auth c)) "password" then
        match arguments message !! "password" with
        | Some password =>
            if is_empty (module_ message)
            then (buildErrorResponse 400 "AUTH requires: AUTH <user> _ password=<secret>", s)
            else
              match auth_manager_ s with
              | Some a =>
                  let '(ok, a) := authenticateUser (entropy e) (module_ message) password a in
                  if ok : bool
                  then (buildResponse true ("Authenticated: " +:+ module_ message),
                        with_auth (Some a) (module_ message) s)
                  else (buildErrorResponse 403 "Password authentication failed",
                        with_auth (Some a) (authenticated_user_ s) s)
              | None => (buildErrorResponse 403 "Password authentication failed", s)
              end
        | None => (buildErrorResponse 400 "AUTH requires: AUTH <user> _ password=<secret>", s)
        end
      else (buildErrorResponse 501 "Unsupported authentication method", s)
  end.

(** Public-key authentication is required and has not happened. *)
Definition gated (s : RSyncSession) : bool :=
  match config_ s with
  | Some c => auth_enabled (auth c) && String.eqb (method (auth c)) "public_key" &&
              is_empty (authenticated_user_ s)
  | None => false
  end.

Definition handleProtocolMessage (e : event) (message : ProtocolMessage) (s : RSyncSession)
    : io (string * RSyncSession) :=
  let s := if negb (is_empty (module_ message))
           then with_protocol (parser_ s) (setModule (module_ message) (handler_ s)) s else s in
  if gated s && negb (bool_decide (command message = AUTH))
  then ret (buildErrorResponse 401 "Authentication required: send AUTH command", s)
  else if bool_decide (command message = AUTH) then ret (handleAuthMessage e message s)
  else do answer <- handle what message (handler_ s); ret (answer, s).

(** ** File transfers *)
Definition endFileTransfer (s : RSyncSession) : RSyncSession := with_transfer IDLE "" "" None None 0 0 s.

(** The destructor. *)
Definition destroy (s : RSyncSession) : RSyncSession := close (endFileTransfer s).

(** [module_name.empty() ? handler_->getCurrentModule() : module_name] *)
Definition transfer_module (name : string) (s : RSyncSession) : option M :=
  getModule (if is_empty name then current_module_ (handler_ s) else name) (handler_ s).

(** The text of the upload target: not [resolvePath]. *)
Definition upload_path (w : world) (m : M) (p : string) : string :=
  absolute w (lexically_normal (path_append (getPath m) (p +:+ ".tmp"))).

Definition startFileUpload (name p : string) (s : RSyncSession) : io (bool * RSyncSession) :=
  let s := with_transfer (transfer_state_ s) name p (upload_file_ s) (download_file_ s)
             (transfer_bytes_remaining_ s) (transfer_bytes_sent_ s) s in
  match transfer_module name s with
  | None => ret (false, s)
  | Some m =>
      do full_path <- ask (λ w, upload_path w m p);
      if is_empty full_path then ret (false, s) else
      do _ <- FileSystemModule.ensure_parent full_path;
      do file <- open_write false full_path;
      match file with
      | None => ret (false, s)
      | Some l =>
          ret (true, with_transfer RECEIVING_FILE name p (Some (l, 0%nat)) (download_file_ s) 0 (transfer_bytes_sent_ s) s)
      end
  end.

(** The location of a file that opens for reading. *)
Definition open_location (p : string) : io (option location) := λ w,
  match fst (open_read p w), lookup_path true w p with
  | Some (Some _), Found l => (Some (Some l), w)
  | _, _ => (Some None, w)
  end.

Definition startFileDownload (name p : string) (s : RSyncSession) : io (bool * RSyncSession) :=
  let s := with_transfer (transfer_state_ s) name p (upload_file_ s) (download_file_ s)
             (transfer_bytes_remaining_ s) (transfer_bytes_sent_ s) s in
  match transfer_module name s with
  | None => ret (false, s)
  | Some m =>
      do info <- getFileInfo m p;
      do there <- (if is_empty (FileSystemModule.info_path info) then ret false else fileExists m p);
      if negb there then ret (false, s) else
      do file <- open_location (FileSystemModule.info_path info);
      match file with
      | None => ret (false, s)
      | Some l =>
          ret (true, with_transfer SENDING_FILE name p (upload_file_ s) (Some (l, 0%nat))
                       (FileSystemModule.info_size info) 0 s)
      end
  end.

(** [download_file_.read]: the bytes at the stream's position. *)
Definition read_chunk (w : world) (f : option (location * nat)) (n : nat) : string :=
  match f with
  | Some (l, pos) => match nodes w !! l with Some (File c) => substr pos n c | _ => "" end
  | None => ""
  end.

Definition complete_download : string := "@RSYNCD: OK" +:+ nl +:+ "Transfer complete" +:+ nl.
Definition complete_upload : string := "@RSYNCD: OK" +:+ nl +:+ "File uploaded successfully" +:+ nl.

Definition send_chunk (e : event) (s : RSyncSession) : io (bool * RSyncSession) := λ w,
  let chunk_size := Z.to_nat (Z.min 8192 (transfer_bytes_remaining_ s)) in
  let chunk := read_chunk w (download_file_ s) chunk_size in
  let bytes_read := String.length chunk in
  (* a short read fails the stream, which gives nothing from then on *)
  let moved := match download_file_ s with
               | Some (l, pos) => if bool_decide (bytes_read < chunk_size)%nat then None else Some (l, (pos + bytes_read)%nat)
               | None => None
               end in
  if bool_decide (0 < bytes_read)%nat then
    let '(bytes_sent, s) := writeSocket e chunk s in
    if bytes_sent <? 0 then (Some (false, endFileTransfer s), w) else
    let left := (transfer_bytes_remaining_ s - bytes_sent) `mod` 2 ^ 64 in
    let s := with_transfer (transfer_state_ s) (transfer_module_ s) (transfer_path_ s) (upload_file_ s)
               moved left ((transfer_bytes_sent_ s + bytes_sent) `mod` 2 ^ 64) s in
    if left =? 0 then
      let s := endFileTransfer s in
      let '(_, s) := writeResponse e complete_download s in (Some (true, s), w)
    else (Some (true, s), w)
  else (Some (false, endFileTransfer s), w).

(** The move of the uploaded file, as written after [endFileTransfer]. *)
Definition move_upload (s : RSyncSession) : io unit :=
  if negb (is_empty (transfer_module_ s)) && negb (is_empty (transfer_path_ s)) then
    match getModule (transfer_module_ s) (handler_ s) with
    | None => ret tt
    | Some m =>
        do full_temp <- ask (λ w, absolute w (path_append (getPath m) (transfer_path_ s +:+ ".tmp")));
        do full_final <- ask (λ w, absolute w (path_append (getPath m) (transfer_path_ s)));
        do there <- exists_ full_temp;
        if there : bool then rename full_temp full_final else ret tt
    end
  else ret tt.

Definition receive_chunk (e : event) (s : RSyncSession) : io (bool * RSyncSession) :=
  let '(received, s) := readSocket e (Z.to_nat 8192) s in
  match received with
  | None => ret (false, endFileTransfer s)
  | Some "" =>
      let s := endFileTransfer s in
      do _ <- move_upload s;
      let '(_, s) := writeResponse e complete_upload s in ret (true, s)
  | Some data =>
      do _ <- (match upload_file_ s with Some (l, pos) => write_at l pos data | None => ret tt end);
      let moved := prod_map id (λ pos, (pos + String.length data)%nat) <$> upload_file_ s in
      ret (true, with_transfer (transfer_state_ s) (transfer_module_ s) (transfer_path_ s) moved (download_file_ s)
                   (transfer_bytes_remaining_ s)
                   ((transfer_bytes_sent_ s + Z.of_nat (String.length data)) `mod` 2 ^ 64) s)
  end.

Definition continueFileTransfer (e : event) (s : RSyncSession) : io (bool * RSyncSession) :=
  match transfer_state_ s with
  | SENDING_FILE => send_chunk e s
  | RECEIVING_FILE => receive_chunk e s
  | IDLE => ret (false, s)
  end.

(** ** One request *)
(** Two steps that [processRequest] has taken over. *)
Definition readRequest (s : RSyncSession) : bool := true.
Definition parseRequest (request : string) : bool := negb (is_empty request).

Definition respond (e : event) (response : string) (s : RSyncSession) : io (bool * RSyncSession) :=
  ret (writeResponse e response s).

Definition processRequest (e : event) (s : RSyncSession) : io (bool * RSyncSession) :=
  if negb (active_ s) then ret (false, s)
  else if negb (bool_decide (transfer_state_ s = IDLE)) then continueFileTransfer e s
  else
    let '(received, s) := readSocket e 4095 s in
    match received with
    | None | Some "" =>
        ret (false, with_socket (client_socket_ s) (ssl_connection_ s) (descriptor_open s) false s)
    | Some request =>
        let '(message, v) := parse request (parser_ s) in
        let s := with_protocol v (handler_ s) s in
        if negb (valid message)
        then respond e (buildErrorResponse (-1) ("Invalid protocol message: " +:+ message_error message)) s
        else
          do r <- handleProtocolMessage e message s;
          let response := r.1 in let s := r.2 in
          if contains "Ready for transfer" response && bool_decide (command message = GET) then
            do started <- startFileDownload (module_ message) (path message) s;
            if started.1 then continueFileTransfer e started.2 else respond e response started.2
          else if contains "Ready to receive file" response && bool_decide (command message = PUT) then
            do started <- startFileUpload (module_ message) (path message) s;
            let s := started.2 in
            if started.1 then
              let '(ok, s) := writeResponse e response s in
              if ok : bool
              then ret (true, with_transfer RECEIVING_FILE (transfer_module_ s) (transfer_path_ s) (upload_file_ s)
                                (download_file_ s) (transfer_bytes_remaining_ s) (transfer_bytes_sent_ s) s)
              else respond e response s
            else respond e response s
          else respond e response s
    end.

(** What a worker thread does with a session: a refused or failed request
    closes it. *)
Definition work (e : event) (s : RSyncSession) (w : world) : RSyncSession * world :=
  if active_ s then
    match processRequest e s w with
    | (Some (true, s), w) => (s, w)
    | (Some (false, s), w) => (close s, w)
    | (None, w) => (close s, w)
    end
  else (s, w).

(** ** Histories of a session

    The world may change between two steps. *)
Inductive history (config : option Configuration) : RSyncSession → Prop :=
  | history_new socket address modules auth ssl :
      history config (new_session socket address config modules auth ssl)
  | history_work e s w : history config s → history config (fst (work e s w)).

Definition requires_key (config : option Configuration) : Prop :=
  ∃ c, config = Some c ∧ auth_enabled (auth c) = true ∧ method (auth c) = "public_key".

(** Nothing is being transferred. *)
Definition at_rest (s : RSyncSession) : Prop :=
  transfer_state_ s = IDLE ∧ upload_file_ s = None ∧ download_file_ s = None.

(** ** Lemmas: what the socket operations keep *)
Definition same_work (s s' : RSyncSession) : Prop :=
  config_ s' = config_ s ∧ authenticated_user_ s' = authenticated_user_ s ∧
  auth_manager_ s' = auth_manager_ s ∧ transfer_state_ s' = transfer_state_ s ∧
  upload_file_ s' = upload_file_ s ∧ download_file_ s' = download_file_ s ∧
  transfer_module_ s' = transfer_module_ s ∧ transfer_path_ s' = transfer_path_ s ∧
  handler_ s' = handler_ s.

Lemma readSocket_keeps e n s : same_work s (snd (readSocket e n s)).
Proof.
  unfold readSocket. destruct (ssl_connection_ s) as [c|]; [|by destruct (client_socket_ s <? 0)].
  destruct (Ssl.isOpen c); [|by destruct (client_socket_ s <? 0)]. by destruct (Ssl.read _ c).
Qed.

Lemma writeSocket_keeps e d s : same_work s (snd (writeSocket e d s)).
Proof.
  unfold writeSocket. destruct (ssl_connection_ s) as [c|]; [|by destruct (client_socket_ s <? 0)].
  destruct (Ssl.isOpen c); [done|by destruct (client_socket_ s <? 0)].
Qed.

Lemma writeResponse_keeps e d s : same_work s (snd (writeResponse e d s)).
Proof.
  unfold writeResponse. destruct (_ || _); [done|]. pose proof (writeSocket_keeps e d s) as Hk.
  by destruct (writeSocket e d s).
Qed.

Lemma close_keeps s : same_work s (close s).
Proof. unfold close. destruct (ssl_connection_ s) as [c|]; [done|]. by destruct (_ && _). Qed.

Lemma same_work_trans s1 s2 s3 : same_work s1 s2 → same_work s2 s3 → same_work s1 s3.
Proof. unfold same_work. intros (?&?&?&?&?&?&?&?&?) (?&?&?&?&?&?&?&?&?). repeat split; congruence. Qed.

(** [authenticateUserWithKey] accepted [user] in this step. *)
Definition key_accepted (e : event) (a : option A) (user : string) : Prop :=
  ∃ m challenge signature, a = Some m ∧ fst (authenticateUserWithKey (entropy e) user challenge signature m) = true.

(** The outcome of one step of a session that waits for its key: at rest as
    before; and if somebody is authenticated now, the manager accepted them. *)
Definition step_ok (e : event) (s s' : RSyncSession) : Prop :=
  config_ s' = config_ s ∧ at_rest s' ∧
  (authenticated_user_ s' = "" ∨ key_accepted e (auth_manager_ s) (authenticated_user_ s')).

Lemma same_work_step e s s' : at_rest s → authenticated_user_ s = "" → same_work s s' → step_ok e s s'.
Proof.
  intros (?&?&?) Hu (Hc&Hu'&?&Ht&Hup&Hd&_). split; [done|]. split; [|left; congruence].
  unfold at_rest. rewrite Ht, Hup, Hd. done.
Qed.

Lemma step_then_keeps e s s1 s2 : step_ok e s s1 → same_work s1 s2 → step_ok e s s2.
Proof.
  intros (Hc&(?&?&?)&Hu) (Hc'&Hu'&?&Ht&Hup&Hd&_). unfold step_ok, at_rest.
  rewrite Hc', Hu', Ht, Hup, Hd. done.
Qed.

Lemma handleAuth_step e message s :
  requires_key (config_ s) → at_rest s → authenticated_user_ s = "" →
  step_ok e s (snd (handleAuthMessage e message s)).
Proof.
  intros (c & Ec & Hen & Hm) Hr Hu. unfold handleAuthMessage. rewrite Ec, Hen, Hm. cbn [negb].
  rewrite String.eqb_refl. assert (step_ok e s s) as Hs by (by apply same_work_step).
  destruct (auth_manager_ s) as [a|] eqn:Ea; [|done]. destruct (arguments message !! "signature") as [sg|]; [|done].
  destruct (_ || _); [done|]. destruct (authenticateUserWithKey _ _ _ _ a) as [ok a'] eqn:Eok. destruct ok.
  - split; [done|]. split; [done|]. right. exists a, (path message), sg. split; [done|]. cbn. by rewrite Eok.
  - split; [done|]. split; [done|]. by left.
Qed.

(** A message while the session waits for its key. *)
Lemma gated_message e message s w :
  requires_key (config_ s) → at_rest s → authenticated_user_ s = "" →
  ∃ response s', handleProtocolMessage e message s w = (Some (response, s'), w) ∧ step_ok e s s' ∧
    (command message ≠ AUTH → response = buildErrorResponse 401 "Authentication required: send AUTH command").
Proof.
  intros Hc Hr Hu. unfold handleProtocolMessage. set (s1 := if negb _ then _ else s).
  assert (config_ s1 = config_ s ∧ authenticated_user_ s1 = "" ∧ at_rest s1 ∧ auth_manager_ s1 = auth_manager_ s)
    as (Hc1 & Hu1 & Hr1 & Ha1) by (unfold s1; by destruct (negb _)).
  clearbody s1. unfold gated. rewrite Hc1. destruct Hc as (c & Ec & Hen & Hm). rewrite Ec, Hen, Hm, Hu1.
  rewrite String.eqb_refl. cbn [andb is_empty negb].
  destruct (decide (command message = AUTH)) as [Hcmd|Hcmd].
  - rewrite bool_decide_eq_true_2 by done. cbn [negb]. eexists _, _.
    split; [unfold ret; by rewrite (surjective_pairing (handleAuthMessage e message s1))|]. split; [|done].
    pose proof (handleAuth_step e message s1) as Hh. unfold step_ok in *. rewrite Ha1, Hc1 in Hh.
    apply Hh; [by exists c|done..].
  - rewrite bool_decide_eq_false_2 by done. cbn [negb]. eexists _, _. split; [reflexivity|].
    split; [|done]. split; [done|]. split; [done|]. by left.
Qed.

(** An answer that is not a go-ahead starts no transfer. *)
Lemma gated_answer command' response (wanted : ProtocolCommand) text :
  (command' ≠ AUTH → response = buildErrorResponse 401 "Authentication required: send AUTH command") →
  wanted ≠ AUTH → contains text (buildErrorResponse 401 "Authentication required: send AUTH command") = false →
  contains text response && bool_decide (command' = wanted) = false.
Proof.
  intros Hresp Hw Ht. apply andb_false_iff. destruct (decide (command' = wanted)) as [E|];
    [left; rewrite Hresp by congruence; exact Ht|right; by apply bool_decide_eq_false_2].
Qed.

Lemma gated_request e s w :
  requires_key (config_ s) → at_rest s → authenticated_user_ s = "" → active_ s = true →
  ∃ ok s', processRequest e s w = (Some (ok, s'), w) ∧ step_ok e s s'.
Proof.
  intros Hc Hr Hu Ha. unfold processRequest. rewrite Ha, (proj1 Hr). cbn [negb].
  rewrite bool_decide_eq_true_2 by done. cbn [negb].
  pose proof (readSocket_keeps e 4095 s) as Hk. destruct (readSocket e 4095 s) as [r s1]. cbn [snd] in Hk.
  destruct r as [[|ch rq]|]; [eexists _, _; split; [reflexivity|]; by apply same_work_step| |
    eexists _, _; split; [reflexivity|]; by apply same_work_step].
  destruct (parse _ _) as [message v]. set (s2 := with_protocol v (handler_ s1) s1).
  assert (same_work s s2) as Hk2 by done. destruct (same_work_step e s s2 Hr Hu Hk2) as (Hcf2 & Hr2 & _).
  assert (requires_key (config_ s2)) as Hc2 by by rewrite Hcf2.
  destruct Hk2 as (_ & Hu2 & Ha2 & _). rewrite Hu in Hu2.
  assert (∀ s3, step_ok e s2 s3 → step_ok e s s3) as Hback by (intros s3; unfold step_ok; by rewrite Hcf2, Ha2).
  clearbody s2. destruct (negb (valid message)).
  { unfold respond, ret. pose proof (writeResponse_keeps e (buildErrorResponse (-1)
      ("Invalid protocol message: " +:+ message_error message)) s2) as Hw.
    destruct (writeResponse e _ s2) as [ok s3]. eexists _, _. split; [reflexivity|]. by apply Hback, same_work_step. }
  destruct (gated_message e message s2 w Hc2 Hr2 Hu2) as (response & s3 & E3 & Hs3 & Hresp).
  rewrite (bind_some _ _ _ _ _ E3). cbn [fst snd]. rewrite !(gated_answer _ _ _ _ Hresp) by done.
  unfold respond, ret. pose proof (writeResponse_keeps e response s3) as Hw.
  destruct (writeResponse e response s3) as [ok s4]. eexists _, _. split; [reflexivity|].
  apply Hback. by eapply step_then_keeps.
Qed.

(** The gate of one step. *)
Lemma gated_step e s w :
  requires_key (config_ s) → at_rest s → authenticated_user_ s = "" →
  step_ok e s (fst (work e s w)) ∧ snd (work e s w) = w.
Proof.
  intros Hc Hr Hu. unfold work. destruct (active_ s) eqn:Ha; [|split; [by apply same_work_step|done]].
  destruct (gated_request e s w Hc Hr Hu Ha) as (ok & s' & -> & Hs).
  destruct ok; (split; [|done]); [done|]. eapply step_then_keeps; [exact Hs|apply close_keeps].
Qed.

Lemma open_location_quiet p : Quiet (open_location p).
Proof. intros w. unfold open_location. by repeat case_match. Qed.

(** ** Lemmas: what every step keeps *)

(** A relation between a session and what an operation makes of it, kept by every
    update of a field that the program makes. *)
Class Frame (R : relation RSyncSession) : Prop := {
  #[global] frame_preorder :: PreOrder R;
  frame_socket s k c o a : k = client_socket_ s ∨ k = -1 → R s (with_socket k c o a s);
  frame_sent s p t : R s (with_sent p t s);
  frame_protocol s v h : R s (with_protocol v h s);
  frame_transfer s st m p u d l n : R s (with_transfer st m p u d l n s);
  frame_auth e message s : R s (snd (handleAuthMessage e message s))
}.

Section frame.
Context (R : relation RSyncSession) `{!Frame R}.

Lemma read_frame e n s : R s (snd (readSocket e n s)).
Proof.
  unfold readSocket. destruct (ssl_connection_ s) as [c|]; [|by destruct (client_socket_ s <? 0)].
  destruct (Ssl.isOpen c); [|by destruct (client_socket_ s <? 0)]. destruct (Ssl.read _ c). apply frame_socket. by left.
Qed.

Lemma write_frame e d s : R s (snd (writeSocket e d s)).
Proof.
  unfold writeSocket. destruct (ssl_connection_ s) as [c|];
    [destruct (Ssl.isOpen c); [apply frame_sent|]|]; (destruct (client_socket_ s <? 0); [done|apply frame_sent]).
Qed.

Lemma close_frame s : R s (close s).
Proof.
  unfold close. destruct (ssl_connection_ s) as [c|]; [destruct (Ssl.close c); apply frame_socket; by right|].
  destruct (_ && _); [apply frame_socket; by right|done].
Qed.

Lemma end_frame s : R s (endFileTransfer s).
Proof. apply frame_transfer. Qed.

Ltac framed := cbn [fst snd];
  repeat first [ done | assumption
               | etrans; [|first [ apply frame_transfer | apply frame_socket; by left | apply frame_protocol
                                 | apply frame_sent | apply frame_auth ]] ].

Lemma upload_frame name p s : Yields (λ r, R s r.2) (startFileUpload name p s).
Proof.
  unfold startFileUpload. destruct (transfer_module _ _); [|apply yields_ret; framed].
  apply yields_bind; intros full. apply yields_if; intros _; [apply yields_ret; framed|].
  apply yields_bind; intros []. apply yields_bind; intros [l|]; apply yields_ret; framed.
Qed.

Lemma download_frame name p s : Yields (λ r, R s r.2) (startFileDownload name p s).
Proof.
  unfold startFileDownload. destruct (transfer_module _ _); [|apply yields_ret; framed].
  apply yields_bind; intros info. apply yields_bind; intros there. apply yields_if; intros _; [apply yields_ret; framed|].
  apply yields_bind; intros [l|]; apply yields_ret; framed.
Qed.

Lemma response_frame e d s s0 : R s0 s → R s0 (snd (writeResponse e d s)).
Proof.
  intros Hs. unfold writeResponse. destruct (_ || _); [done|]. pose proof (write_frame e d s) as Hw.
  destruct (writeSocket e d s). cbn in *. by etrans.
Qed.

Lemma chunk_frame e s : Yields (λ r, R s r.2) (continueFileTransfer e s).
Proof.
  unfold continueFileTransfer. destruct (transfer_state_ s); [apply yields_ret; framed| |].
  - unfold receive_chunk. pose proof (read_frame e (Z.to_nat 8192) s) as Hk.
    destruct (readSocket e (Z.to_nat 8192) s) as [r s1]. cbn [snd] in Hk.
    destruct r as [[|ch data]|]; [| |apply yields_ret; framed].
    + apply yields_bind; intros []. pose proof (response_frame e complete_upload (endFileTransfer s1) s ltac:(framed)) as Hw.
      destruct (writeResponse e complete_upload (endFileTransfer s1)). apply yields_ret; framed.
    + apply yields_bind; intros []. apply yields_ret; framed.
  - unfold send_chunk. intros w a w'. cbv zeta. set (chunk := read_chunk _ _ _).
    destruct (bool_decide _); [|intros [= <- _]; framed]. pose proof (write_frame e chunk s) as Hk.
    destruct (writeSocket e chunk s) as [n s1]. cbn [snd] in Hk.
    destruct (n <? 0); [intros [= <- _]; framed|]. destruct (_ =? 0); [|intros [= <- _]; framed].
    match goal with |- context [writeResponse e complete_download ?s2] =>
      pose proof (response_frame e complete_download s2 s ltac:(framed)) as Hw;
      destruct (writeResponse e complete_download s2) end.
    intros [= <- _]; framed.
Qed.

Lemma message_frame e message s : Yields (λ r, R s r.2) (handleProtocolMessage e message s).
Proof.
  unfold handleProtocolMessage. set (s1 := if negb (is_empty (module_ message)) then _ else s).
  assert (R s s1) as Hs by (unfold s1; destruct (negb _); framed). clearbody s1.
  apply yields_if; intros _; [apply yields_ret; framed|]. apply yields_if; intros _.
  - apply yields_ret. framed.
  - apply yields_bind; intros answer. apply yields_ret; framed.
Qed.

Lemma respond_frame e d s s0 : R s0 s → Yields (λ r, R s0 r.2) (respond e d s).
Proof. intros Hs. by apply yields_ret, response_frame. Qed.

(** A bind whose first part ends in a session related to the current one. *)
Lemma yields_then {B} s0 s (m : io (B * RSyncSession)) k :
  R s0 s → Yields (λ r, R s r.2) m →
  (∀ r, R s0 r.2 → Yields (λ r', R s0 r'.2) (k r)) →
  Yields (λ r : bool * RSyncSession, R s0 r.2) (bind m k).
Proof.
  intros Hs Hm Hk w r w' (r1 & w1 & E1 & E)%bind_inv. eapply Hk; [|exact E]. etrans; [exact Hs|]. by eapply Hm.
Qed.

Lemma request_frame e s : Yields (λ r, R s r.2) (processRequest e s).
Proof.
  unfold processRequest. apply yields_if; intros _; [apply yields_ret; framed|].
  apply yields_if; intros _; [apply chunk_frame|].
  pose proof (read_frame e 4095 s) as Hk. destruct (readSocket e 4095 s) as [r s1].
  cbn [snd] in Hk.
  destruct r as [[|ch rq]|]; [apply yields_ret; framed| |apply yields_ret; framed].
  destruct (parse _ _) as [message v]. set (s2 := with_protocol v (handler_ s1) s1).
  assert (R s s2) as Hk2 by framed. clearbody s2. apply yields_if; intros _; [by apply respond_frame|].
  eapply yields_then; [exact Hk2|apply message_frame|]. intros [response s3] Hs3. cbn [fst snd] in *.
  apply yields_if; intros _; [|apply yields_if; intros _; [|by apply respond_frame]].
  - eapply yields_then; [exact Hs3|apply download_frame|]. intros [ok s4] Hs4. cbn [fst snd] in *.
    apply yields_if; intros _; [|by apply respond_frame].
    intros w b w' Hw. etrans; [exact Hs4|]. by eapply chunk_frame.
  - eapply yields_then; [exact Hs3|apply upload_frame|]. intros [ok s4] Hs4. cbn [fst snd] in *.
    apply yields_if; intros _; [|by apply respond_frame].
    pose proof (response_frame e response s4 s Hs4) as Hw. destruct (writeResponse e response s4) as [ok' s5].
    apply yields_if; intros _; [apply yields_ret; framed|by apply respond_frame].
Qed.

Lemma work_frame e s w : R s (fst (work e s w)).
Proof.
  unfold work. destruct (active_ s); [|done].
  destruct (processRequest e s w) as [[[[] s']|] w'] eqn:E; cbn [fst].
  - by apply (request_frame e s _ _ _ E).
  - etrans; [by apply (request_frame e s _ _ _ E)|]. apply close_frame.
  - apply close_frame.
Qed.
End frame.

(** ** Lemmas: managers and users *)
Section keeping.
(** A property of managers that authenticating by key keeps, and a property of
    the users it accepts. *)
Context (good : A → Prop) (trusted : string → Prop).
Context (Hkey : ∀ e user challenge signature m, good m →
  good (snd (authenticateUserWithKey e user challenge signature m)) ∧
  (fst (authenticateUserWithKey e user challenge signature m) = true → trusted user)).

Definition sound (s : RSyncSession) : Prop :=
  (∀ m, auth_manager_ s = Some m → good m) ∧ (authenticated_user_ s = "" ∨ trusted (authenticated_user_ s)).

Definition advances (s s' : RSyncSession) : Prop :=
  config_ s' = config_ s ∧ (authenticated_user_ s' = "" → authenticated_user_ s = "") ∧
  (requires_key (config_ s) → sound s → sound s').

#[local] Instance advances_preorder : PreOrder advances.
Proof.
  split; unfold advances; [done|]. intros s1 s2 s3 (E1 & H1 & S1) (E2 & H2 & S2). split; [congruence|].
  rewrite E1 in S2. auto.
Qed.

Lemma same_advances s s' : same_work s s' → advances s s'.
Proof.
  intros (Ec & Eu & Em & _). split; [done|]. split; [congruence|]. intros _. unfold sound. by rewrite Em, Eu.
Qed.

Lemma auth_advances e message s : advances s (snd (handleAuthMessage e message s)).
Proof.
  unfold handleAuthMessage. destruct (config_ s) as [c|] eqn:Ec.
  2:{ split; [done|]. split; [done|]. rewrite Ec. by intros (c & [=] & _). }
  destruct (negb (auth_enabled (auth c))) eqn:Een.
  { split; [done|]. split; [done|]. rewrite Ec. intros (c' & [= <-] & Hen & _). by rewrite Hen in Een. }
  destruct (String.eqb_spec (method (auth c)) "public_key") as [_|Hm].
  - destruct (auth_manager_ s) as [a|] eqn:Ea; [|done]. destruct (arguments message !! "signature"); [|done].
    destruct (is_empty (module_ message)) eqn:Em; [done|]. destruct (is_empty (path message)); [done|]. cbn [orb].
    apply is_empty_false in Em. pose proof (Hkey (entropy e) (module_ message) (path message) s0 a) as Hk.
    destruct (authenticateUserWithKey _ _ _ _ a) as [[] a']; cbn [fst snd] in *;
      (split; [done|]; split; [done|]; intros _ [Hg Hu]; destruct (Hk (Hg _ Ea)) as [Hg' Ht];
       split; [by intros m [= <-]|]); [right; by apply Ht|exact Hu].
  - destruct (String.eqb _ _); [|done]. destruct (arguments message !! "password"); [|done].
    destruct (is_empty (module_ message)) eqn:Em; [done|]. destruct (auth_manager_ s) as [a|]; [|done].
    apply is_empty_false in Em.
    assert (requires_key (config_ s) → False) as Hno by (rewrite Ec; by intros (c' & [= <-] & _ & ?)).
    destruct (authenticateUser _ _ _ a) as [[] a']; (split; [done|]; split; [done|]; intros Hr; by destruct (Hno Hr)).
Qed.

#[export] Instance advances_frame : Frame advances.
Proof. constructor; [apply _|done..|exact auth_advances]. Qed.

Lemma work_advances e s w : advances s (fst (work e s w)).
Proof. apply (work_frame advances). Qed.
End keeping.

(** The client of a session stays the same. *)
Definition same_client (s s' : RSyncSession) : Prop := client_address_ s' = client_address_ s.
#[export] Instance same_client_frame : Frame same_client.
Proof.
  constructor; try done; [split; [done|by intros s1 s2 s3; unfold same_client; intros -> ->]|].
  intros e message s. unfold same_client, handleAuthMessage. by repeat case_match.
Qed.

(** Its socket stays the same until it is closed. *)
Definition same_socket (s s' : RSyncSession) : Prop :=
  client_socket_ s' = client_socket_ s ∨ client_socket_ s' = -1.
#[export] Instance same_socket_frame : Frame same_socket.
Proof.
  constructor; try (by intros; left).
  - split; [by left|]. unfold same_socket. intros s1 s2 s3 [->| ->] [->| ->]; auto.
  - intros s k c o a. unfold same_socket. cbn. tauto.
  - intros e message s. unfold same_socket, handleAuthMessage. left. by repeat case_match.
Qed.

Lemma history_rest config s :
  history config s → requires_key config → config_ s = config ∧ (authenticated_user_ s = "" → at_rest s).
Proof.
  intros Hh Hc. induction Hh as [|e s w Hh [Ec IH]]; [done|].
  destruct (work_advances (λ _, True) (λ _, True) (λ _ _ _ _ _ _, conj I (λ _, I)) e s w) as (Ec' & Hu & _). split; [congruence|]. intros E. specialize (Hu E).
  assert (requires_key (config_ s)) as Hc' by congruence.
  by destruct (gated_step e s w Hc' (IH Hu) Hu) as ((_ & Hr & _) & _).
Qed.

(** C2: The gate of public-key authentication.  In every history of a session
    of a daemon that requires keys, as long as nobody is authenticated, whatever
    the client sends changes no file and starts no transfer; and somebody is
    authenticated afterwards only if the manager accepted a signature of that
    user in this very step. *)
Theorem session_gate config s e w :
  history config s → requires_key config → authenticated_user_ s = "" →
  snd (work e s w) = w ∧ transfer_state_ (fst (work e s w)) = IDLE ∧
  (authenticated_user_ (fst (work e s w)) = "" ∨
   key_accepted e (auth_manager_ s) (authenticated_user_ (fst (work e s w)))).
Proof.
  intros Hh Hc Hu. destruct (history_rest _ _ Hh Hc) as [Ec Hr].
  assert (requires_key (config_ s)) as Hc' by congruence.
  by destruct (gated_step e s w Hc' (Hr Hu) Hu) as ((_ & (? & _) & ?) & ?).
Qed.

(** Password authentication gates nothing: unless the method is
    [public_key], every other message gets the answer of the handler, whether
    or not anybody is authenticated. *)
Theorem password_gates_nothing e message s w :
  (∀ c, config_ s = Some c → method (auth c) ≠ "public_key") → command message ≠ AUTH →
  let h := if is_empty (module_ message) then handler_ s else setModule (module_ message) (handler_ s) in
  fst <$> fst (handleProtocolMessage e message s w) = fst (handle what message h w) ∧
  snd (handleProtocolMessage e message s w) = snd (handle what message h w).
Proof.
  intros Hc Hm h. unfold handleProtocolMessage. set (s1 := if negb (is_empty (module_ message)) then _ else s).
  assert (config_ s1 = config_ s ∧ handler_ s1 = h) as [Ec Eh] by (unfold s1, h; by destruct (is_empty _)).
  assert (gated s1 = false) as ->.
  { unfold gated. rewrite Ec. destruct (config_ s) as [c|]; [|done].
    specialize (Hc c eq_refl). apply String.eqb_neq in Hc. rewrite Hc. by destruct (auth_enabled _). }
  cbn [andb]. rewrite bool_decide_eq_false_2 by done. rewrite Eh. unfold bind, ret.
  by destruct (handle what message h w) as [[answer|] w1].
Qed.

(** ** Transfers *)
Definition tls_open (s : RSyncSession) : bool :=
  match ssl_connection_ s with Some c => Ssl.isOpen c && Ssl.has_ssl c | None => false end.
Definition plain_open (s : RSyncSession) : bool :=
  match ssl_connection_ s with Some c => negb (Ssl.isOpen c) | None => true end && (client_socket_ s >=? 0).

(** What the client has been sent on the channel in use. *)
Definition sent (s : RSyncSession) : string := if tls_open s then sent_tls s else sent_plain s.

(** The session is up on one of its channels. *)
Definition connected (s : RSyncSession) : bool :=
  active_ s && (client_socket_ s >=? 0) && (tls_open s || plain_open s).

(** The channel takes every byte. *)
Definition takes_all (e : event) : Prop := ∀ d, accepts e d = Z.of_nat (String.length d).

Definition same_channel (s s' : RSyncSession) : Prop :=
  active_ s' = active_ s ∧ client_socket_ s' = client_socket_ s ∧ ssl_connection_ s' = ssl_connection_ s.

Lemma same_channel_up s s' :
  same_channel s s' → connected s' = connected s ∧ tls_open s' = tls_open s.
Proof. unfold connected, tls_open, plain_open. by intros (-> & -> & ->). Qed.

Lemma writeSocket_all e d s :
  connected s = true → takes_all e → d ≠ "" →
  ∃ s', writeSocket e d s = (Z.of_nat (String.length d), s') ∧ same_channel s s' ∧ same_work s s' ∧
        transfer_bytes_remaining_ s' = transfer_bytes_remaining_ s ∧ sent s' = sent s +:+ d.
Proof.
  intros Hc Ht Hd. assert (String.length d ≠ 0)%nat as Hlen by (by destruct d).
  assert (str_take (Z.to_nat (Z.of_nat (String.length d))) d = d) as Etake.
  { rewrite Nat2Z.id. by apply take_all_str. }
  unfold connected, tls_open, plain_open in Hc. unfold writeSocket. rewrite Ht, Etake.
  apply andb_true_iff in Hc as [Hc1 Hup]. apply andb_true_iff in Hc1 as [Ha Hsock].
  assert ((client_socket_ s <? 0) = false) as Hs by (apply Z.ltb_ge; rewrite Z.geb_leb in Hsock; by apply Z.leb_le).
  unfold sent, tls_open. destruct (ssl_connection_ s) as [c|] eqn:Ec.
  - destruct (Ssl.isOpen c) eqn:Eo; cbn [andb negb orb] in *.
    + rewrite orb_false_r in Hup. unfold Ssl.write. unfold Ssl.isOpen in Eo. rewrite Eo, Hup. cbn [negb orb].
      destruct (Z.leb_spec (Z.of_nat (String.length d)) 0) as [?|_]; [lia|]. rewrite Etake.
      eexists; split; [reflexivity|]. cbn. rewrite Ec. unfold Ssl.isOpen. by rewrite Eo, Hup.
    + rewrite Hs. eexists; split; [reflexivity|]. cbn. rewrite Ec. unfold Ssl.isOpen in *. by rewrite Eo.
  - rewrite Hs. eexists; split; [reflexivity|]. cbn. by rewrite Ec.
Qed.

Lemma writeResponse_all e d s :
  connected s = true → takes_all e → d ≠ "" →
  ∃ s', writeResponse e d s = (true, s') ∧ same_channel s s' ∧ same_work s s' ∧ sent s' = sent s +:+ d.
Proof.
  intros Hc Ht Hd. destruct (writeSocket_all e d s Hc Ht Hd) as (s' & E & Hch & Hw & _ & Hs).
  exists s'. split; [|done]. unfold writeResponse. rewrite E.
  assert ((client_socket_ s <? 0) = false ∧ active_ s = true) as [-> ->].
  { unfold connected in Hc. bool_hyps. split; [|done]. apply Z.ltb_ge. lia. }
  cbn [orb negb]. f_equal. destruct d; [done|]. cbn [String.length]. rewrite Z.gtb_ltb. by apply Z.ltb_lt.
Qed.

Lemma writeResponse_plain e d s :
  tls_open s = false → sent_tls (snd (writeResponse e d s)) = sent_tls s.
Proof.
  unfold writeResponse, writeSocket, tls_open, Ssl.isOpen, Ssl.write. intros Ht. destruct (_ || _); [done|].
  destruct (ssl_connection_ s) as [c|]; [|by destruct (client_socket_ s <? 0)].
  destruct (Ssl.open_ c); [|by destruct (client_socket_ s <? 0)]. cbn in Ht. rewrite Ht. cbn. apply app_nil_str.
Qed.

(** The steps a worker makes, one event each. *)
Definition works (es : list event) (s : RSyncSession) (w : world) : RSyncSession * world :=
  foldl (λ sw e, work e sw.1 sw.2) (s, w) es.

(** A download in progress: [left] is what the file holds from here. *)
Definition sending (w : world) (l : location) (left : string) (s : RSyncSession) : Prop :=
  connected s = true ∧ transfer_state_ s = SENDING_FILE ∧
  transfer_bytes_remaining_ s = Z.of_nat (String.length left) ∧
  ∃ pos c, download_file_ s = Some (l, pos) ∧ nodes w !! l = Some (File c) ∧ str_drop pos c = left.

Lemma send_step e s w l left :
  sending w l left s → takes_all e → left ≠ "" → Z.of_nat (String.length left) < 2 ^ 64 →
  let rest := str_drop (Z.to_nat 8192) left in
  ∃ s', work e s w = (s', w) ∧ same_channel s s' ∧
    if is_empty rest
    then connected s' = true ∧ at_rest s' ∧ sent s' = sent s +:+ left +:+ complete_download
    else sending w l rest s' ∧ sent s' = sent s +:+ str_take (Z.to_nat 8192) left.
Proof.
  intros (Hc & Hst & Hrem & pos & c & Hf & Hn & Hd) Ht Hne Hlen rest. unfold work, processRequest.
  assert (active_ s = true) as Ha by (unfold connected in Hc; by bool_hyps). rewrite Ha, Hst. cbn [negb].
  rewrite bool_decide_eq_false_2 by done. cbn [negb]. unfold continueFileTransfer. rewrite Hst.
  unfold send_chunk. rewrite Hf, Hrem. unfold read_chunk. rewrite Hn.
  set (k := Z.to_nat (Z.min 8192 (Z.of_nat (String.length left)))).
  assert (k = (Z.to_nat 8192 `min` String.length left)%nat) as Hk by lia.
  assert (∀ i, substr pos i c = str_take i left) as Hsub by (intros i; unfold substr; by rewrite Hd). rewrite Hsub.
  assert (String.length left ≠ 0)%nat as Hl by (by destruct left).
  assert (String.length (str_take k left) = k) as Ek by (rewrite length_take_str; lia).
  cbv zeta. fold k. rewrite Ek. rewrite bool_decide_eq_true_2 by lia. rewrite (bool_decide_eq_false_2 (k < k)%nat) by lia.
  assert (str_take k left ≠ "") as Hchunk by (intros E; rewrite E in Ek; cbn in Ek; lia).
  destruct (writeSocket_all e _ s Hc Ht Hchunk) as (s1 & -> & Hch & Hw & Hr & Hsent). rewrite Ek.
  destruct (Z.ltb_spec (Z.of_nat k) 0); [lia|]. cbv zeta. rewrite Hr, Hrem.
  assert (String.length rest = (String.length left - Z.to_nat 8192)%nat) as Erest by (apply length_drop_str).
  rewrite Z.mod_small by lia.
  destruct (same_channel_up _ _ Hch) as [Hup Htls].
  destruct (is_empty rest) eqn:Er.
  - apply is_empty_true in Er. rewrite Er in Erest. cbn [String.length] in Erest.
    rewrite (proj2 (Z.eqb_eq _ _)) by lia.
    match goal with |- context [writeResponse e complete_download ?s2] =>
      destruct (writeResponse_all e complete_download s2) as (s3 & -> & Hch3 & (_ & _ & _ & K1 & K2 & K3 & _) & Hs3) end;
      [by rewrite <- Hc, <- Hup|done|done|].
    exists s3. split; [done|]. split.
    { destruct Hch as (?&?&?), Hch3 as (?&?&?). unfold same_channel. by repeat split; etrans. }
    destruct (same_channel_up _ _ Hch3) as [Hup3 _].
    split; [by rewrite Hup3, <- Hc, <- Hup|]. split; [by unfold at_rest; rewrite K1, K2, K3|].
    assert (str_take k left = left) as Eall by (replace k with (String.length left) by lia; apply take_all_str).
    rewrite Eall in Hsent. rewrite Hs3, <- app_assoc_str. f_equal. exact Hsent.
  - apply is_empty_false in Er. assert (String.length rest ≠ 0)%nat as Hrl by (by destruct rest).
    rewrite (proj2 (Z.eqb_neq _ _)) by lia. eexists. split; [reflexivity|]. split; [exact Hch|].
    replace (str_take (Z.to_nat 8192) left) with (str_take k left) by (f_equal; lia).
    split; [|exact Hsent]. unfold sending. split; [by rewrite <- Hc, <- Hup|].
    destruct Hw as (_ & _ & _ & Hst1 & _). split; [cbn; congruence|]. split; [cbn; lia|].
    exists (pos + k)%nat, c. split; [done|]. split; [done|]. unfold rest. rewrite <- Hd, drop_drop_str. f_equal. lia.
Qed.

(** C28: A download is delivered whole.  While the client's channel takes what
    it is given, one step per 8192 bytes sends exactly the file's bytes from
    the stream's position, in order, once each, then the line that says the
    transfer is complete, and leaves the session connected and at rest. *)
Theorem download_delivers es s w l left :
  sending w l left s → Forall takes_all es → left ≠ "" → Z.of_nat (String.length left) < 2 ^ 64 →
  Z.of_nat (length es) = (Z.of_nat (String.length left) + 8191) `div` 8192 →
  snd (works es s w) = w ∧ connected (fst (works es s w)) = true ∧ at_rest (fst (works es s w)) ∧
  sent (fst (works es s w)) = sent s +:+ left +:+ complete_download.
Proof.
  intros Hs Hes. revert s left Hs. induction Hes as [|e es He _ IH]; intros s left Hs Hne Hlen Hn.
  { exfalso. assert (String.length left ≠ 0)%nat by (by destruct left). cbn [length] in Hn.
    Z.to_euclidean_division_equations. lia. }
  destruct (send_step e s w l left Hs He Hne Hlen) as (s1 & E & _ & K1). unfold works. cbn [foldl fst snd]. rewrite E.
  change (foldl _ (s1, w) es) with (works es s1 w).
  set (rest := str_drop (Z.to_nat 8192) left) in *.
  assert (String.length rest = (String.length left - Z.to_nat 8192)%nat) as Erest by (apply length_drop_str).
  cbn [length] in Hn. rewrite Nat2Z.inj_succ in Hn.
  destruct (is_empty rest) eqn:Er.
  - apply is_empty_true in Er. rewrite Er in Erest. cbn [String.length] in Erest.
    destruct es as [|e' es]; [done|]. exfalso. cbn [length] in Hn. rewrite Nat2Z.inj_succ in Hn.
    Z.to_euclidean_division_equations. lia.
  - apply is_empty_false in Er. destruct K1 as [K1 Hsent].
    assert (String.length rest ≠ 0)%nat as Hrl by (by destruct rest).
    destruct (IH s1 rest K1 Er) as (? & ? & ? & Hend); [lia| |].
    { replace (Z.of_nat (String.length left) + 8191) with (Z.of_nat (String.length rest) + 8191 + 1 * 8192) in Hn by lia.
      rewrite Z.div_add in Hn by lia. lia. }
    repeat (split; [done|]). rewrite Hend, Hsent, app_assoc_str. f_equal. rewrite <- app_assoc_str. f_equal. apply take_drop_str.
Qed.

(** Where an upload is written has nothing to do with the module.  For a
    path from the root, whatever the module's path, permissions and patterns,
    [startFileUpload] creates the file of that name with [.tmp] appended in the
    directory the client names, and writes the upload there. *)
Theorem upload_anywhere name m dir n s w :
  name ≠ "" → getModule name (handler_ s) = Some m →
  Forall clean (dir ++ [n]) → plain w (dir ++ [n +:+ ".tmp"]) →
  lookup_path true w (render true dir) = Found dir → node_at w dir = Some Dir → may_write w dir = true →
  node_at w (dir ++ [n +:+ ".tmp"]) = None →
  ∃ s', startFileUpload name (render true (dir ++ [n])) s w =
          (Some (true, s'), with_nodes (<[dir ++ [n +:+ ".tmp"] := File ""]> (nodes w)) w) ∧
        transfer_state_ s' = RECEIVING_FILE ∧ upload_file_ s' = Some (dir ++ [n +:+ ".tmp"], 0%nat).
Proof.
  intros Hname Hm Hc Hp Hf Hdir Hw Hnew. apply Forall_app in Hc as [Hcd Hcn]. apply Forall_cons in Hcn as [Hcn _].
  assert (clean (n +:+ ".tmp")) as Hct by (apply clean_suffix; [done|done|cbn; lia]).
  assert (Forall clean (dir ++ [n +:+ ".tmp"])) as Hall by (apply Forall_app; split; [done|by apply Forall_singleton]).
  unfold startFileUpload. set (s1 := with_transfer _ _ _ _ _ _ _ s).
  assert (transfer_module name s1 = Some m) as ->.
  { unfold transfer_module. apply is_empty_false in Hname. by rewrite Hname. }
  assert (upload_path w m (render true (dir ++ [n])) = render true (dir ++ [n +:+ ".tmp"])) as Eup.
  { unfold upload_path. rewrite render_suffix. unfold path_append. rewrite absolute_render.
    rewrite normal_render by done. unfold absolute. by rewrite absolute_render. }
  unfold ask at 1. erewrite bind_some; [|reflexivity]. rewrite Eup.
  change (is_empty (render true (dir ++ [n +:+ ".tmp"]))) with false. cbv iota.
  assert (FileSystemModule.ensure_parent (render true (dir ++ [n +:+ ".tmp"])) w = (Some tt, w)) as Een.
  { unfold FileSystemModule.ensure_parent. rewrite parent_render by done.
    change (is_empty (render true dir)) with false. cbv iota. erewrite bind_some; [|unfold exists_, test; by rewrite Hf].
    by rewrite Hdir. }
  rewrite (bind_some _ _ _ _ _ Een). erewrite bind_some; [|by apply open_write_new]. by eexists.
Qed.

(** [e] brings the bytes [d] on the channel in use. *)
Definition brings (tls : bool) (e : event) (d : string) : Prop :=
  if tls then tls_in e = match d with "" => Ssl.ZeroReturn | _ => Ssl.Data d end else plain_in e = Some d.

(** An upload into the open file [l], at [pos]. *)
Definition receiving (l : location) (pos : nat) (s : RSyncSession) : Prop :=
  connected s = true ∧ transfer_state_ s = RECEIVING_FILE ∧ upload_file_ s = Some (l, pos).

Lemma work_receiving e s w l pos :
  receiving l pos s → work e s w =
    match receive_chunk e s w with
    | (Some (true, s), w) => (s, w)
    | (Some (false, s), w) => (close s, w)
    | (None, w) => (close s, w)
    end.
Proof.
  intros (Hc & Hst & _). assert (active_ s = true) as Ha by (unfold connected in Hc; by bool_hyps).
  unfold work, processRequest, continueFileTransfer. rewrite Ha, Hst. cbn [negb].
  rewrite bool_decide_eq_false_2 by done. cbn [negb]. by destruct (receive_chunk e s w) as [[[[] ?]|] ?].
Qed.

Lemma readSocket_data e n d s :
  connected s = true → brings (tls_open s) e d → d ≠ "" → (String.length d ≤ n)%nat →
  ∃ s', readSocket e n s = (Some d, s') ∧ same_channel s s' ∧ same_work s s' ∧ parser_ s' = parser_ s ∧ sent s' = sent s.
Proof.
  intros Hc Hb Hd Hlen. pose proof (take_ge_str n d Hlen) as Et.
  unfold connected, tls_open, plain_open, brings, sent, tls_open in *. unfold readSocket.
  apply andb_true_iff in Hc as [Hc1 Hup]. apply andb_true_iff in Hc1 as [Ha Hsock].
  assert ((client_socket_ s <? 0) = false) as Hs by (apply Z.ltb_ge; rewrite Z.geb_leb in Hsock; by apply Z.leb_le).
  destruct (ssl_connection_ s) as [c|] eqn:Ec.
  - destruct (Ssl.isOpen c) eqn:Eo; cbn [andb negb orb] in *.
    + rewrite orb_false_r in Hup. rewrite Hup in Hb. destruct d as [|ch d]; [done|]. rewrite Hb, Et.
      unfold Ssl.read. unfold Ssl.isOpen in Eo. rewrite Eo, Hup. eexists; split; [reflexivity|].
      cbn. unfold same_channel, Ssl.isOpen. cbn. by rewrite Ec, Eo, Hup.
    + rewrite Hs, Hb. cbn [fmap option_fmap option_map]. rewrite Et. eexists; split; [reflexivity|].
      do 3 (split; [done|]). by rewrite Ec, Eo.
  - rewrite Hs, Hb. cbn [fmap option_fmap option_map]. rewrite Et. eexists; split; [reflexivity|].
    do 3 (split; [done|]). by rewrite Ec.
Qed.

Lemma overwrite_end d c : overwrite_at (String.length c) d c = c +:+ d.
Proof.
  unfold overwrite_at. rewrite take_all_str, Nat.sub_diag, <- drop_drop_str, drop_all_str. cbn [zeros].
  assert (str_drop (String.length d) "" = "") as -> by (by destruct d). by rewrite app_nil_l_str, app_nil_str.
Qed.

(** What arrives is written where the stream is, whatever has happened to the
    file meanwhile. *)
Lemma receive_step e d s w l pos c :
  receiving l pos s → nodes w !! l = Some (File c) →
  brings (tls_open s) e d → d ≠ "" → Z.of_nat (String.length d) ≤ 8192 →
  ∃ s', work e s w = (s', with_nodes (<[l := File (overwrite_at pos d c)]> (nodes w)) w) ∧
    receiving l (pos + String.length d) s' ∧ tls_open s' = tls_open s ∧ sent s' = sent s.
Proof.
  intros Hr Hn Hb Hd Hlen. rewrite (work_receiving e s w l pos Hr). destruct Hr as (Hc & Hst & Hup).
  destruct (readSocket_data e (Z.to_nat 8192) d s Hc Hb Hd ltac:(lia)) as (s1 & E & Hch & Hw & _ & Hsent). unfold receive_chunk.
  rewrite E. destruct d as [|ch d]; [done|]. destruct Hw as (_ & _ & _ & E2 & E1 & _). rewrite Hup in E1. rewrite Hst in E2.
  destruct (same_channel_up _ _ Hch) as [Hcon Htls].
  assert (write_at l pos (String ch d) w = (Some tt, with_nodes (<[l := File (overwrite_at pos (String ch d) c)]> (nodes w)) w))
    as Ewr by (unfold write_at; by rewrite Hn).
  rewrite E1, (bind_some _ _ _ _ _ Ewr). cbv zeta. unfold ret. eexists. split; [reflexivity|].
  split; [|split; [exact Htls|exact Hsent]]. split; [exact (eq_trans Hcon Hc)|]. by split.
Qed.

(** An upload is stored as it arrives: after any number of steps that each
    bring some bytes, the open file holds what it held followed by those bytes,
    in order, no other file has changed, and the session is still receiving on the
    same channel. *)
Theorem upload_stores es ds s w l c :
  receiving l (String.length c) s → nodes w !! l = Some (File c) →
  Forall2 (λ e d, brings (tls_open s) e d ∧ d ≠ "" ∧ Z.of_nat (String.length d) ≤ 8192) es ds →
  let c' := c +:+ String.concat "" ds in
  snd (works es s w) = with_nodes (<[l := File c']> (nodes w)) w ∧
  receiving l (String.length c') (fst (works es s w)) ∧ tls_open (fst (works es s w)) = tls_open s.
Proof.
  intros Hr Hn Hf. revert ds s w c Hr Hn Hf. induction es as [|e es IH]; intros ds s w c Hr Hn Hf.
  { apply Forall2_nil_inv_l in Hf as ->. unfold works. cbn [foldl fst snd String.concat].
    rewrite app_nil_str, insert_id by done. by destruct w. }
  apply Forall2_cons_inv_l in Hf as (d & ds' & (Hb & Hd & Hlen) & Hf & ->).
  destruct (receive_step e d s w l _ c Hr Hn Hb Hd Hlen) as (s1 & E & Hr1 & Htls & _). rewrite overwrite_end in E.
  rewrite <- length_app_str in Hr1. unfold works. cbn [foldl fst snd]. rewrite E.
  match goal with |- context [foldl _ (s1, ?w2) es] => change (foldl _ (s1, w2) es) with (works es s1 w2);
    destruct (IH ds' s1 w2 (c +:+ d)) as (Hend & Hrec & Hopen) end; [done|by apply lookup_insert_eq|by rewrite Htls|].
  assert (c +:+ String.concat "" (d :: ds') = (c +:+ d) +:+ String.concat "" ds') as ->.
  { rewrite app_assoc_str. f_equal. by destruct ds'; cbn; rewrite ?app_nil_str. }
  split; [|split; [exact Hrec|by rewrite Hopen]]. rewrite Hend. cbn [nodes with_nodes]. unfold with_nodes. cbn.
  by rewrite insert_insert_eq.
Qed.

(** Two sessions that upload the same name share one temporary file: the second
    empties it, and what each receives is written at its own position, over the
    other's bytes or after a gap of zero bytes. *)
Theorem uploads_mix e1 e2 d1 d2 s1 s2 w l pos :
  receiving l pos s1 → receiving l 0 s2 → nodes w !! l = Some (File "") →
  brings (tls_open s1) e1 d1 → d1 ≠ "" → Z.of_nat (String.length d1) ≤ 8192 →
  brings (tls_open s2) e2 d2 → d2 ≠ "" → Z.of_nat (String.length d2) ≤ 8192 →
  nodes (work e1 s1 (work e2 s2 w).2).2 !! l =
    Some (File (str_take pos d2 +:+ zeros (pos - String.length d2) +:+ d1 +:+ str_drop (pos + String.length d1) d2)).
Proof.
  intros H1 H2 Hn B1 N1 L1 B2 N2 L2. destruct (receive_step e2 d2 s2 w l 0 "" H2 Hn B2 N2 L2) as (s2' & -> & _).
  assert (overwrite_at 0 d2 "" = d2) as -> by apply (overwrite_end d2 ""). cbn [snd].
  edestruct (receive_step e1 d1 s1) as (s1' & -> & _); [exact H1|by apply lookup_insert_eq|done..|].
  by apply lookup_insert_eq.
Qed.


(** What the end of an upload does.  When the client ends its stream, the
    session goes back to rest and announces success in the clear, even on a TLS
    connection (the read has just closed it, and writes fall back to the bare
    socket); but the file system stays as it is: the data is never moved from
    the temporary file to the path the client named. *)
Theorem upload_end e s w l pos :
  receiving l pos s → takes_all e → brings (tls_open s) e "" →
  snd (work e s w) = w ∧ at_rest (fst (work e s w)) ∧ connected (fst (work e s w)) = true ∧
  tls_open (fst (work e s w)) = false ∧
  sent_plain (fst (work e s w)) = sent_plain s +:+ complete_upload ∧
  sent_tls (fst (work e s w)) = sent_tls s.
Proof.
  intros Hr Ht Hb. rewrite (work_receiving e s w l pos Hr). destruct Hr as (Hc & Hst & Hup).
  assert (∃ s1, readSocket e (Z.to_nat 8192) s = (Some "", s1) ∧ plain_open s1 = true ∧ tls_open s1 = false ∧
    active_ s1 = true ∧ sent_plain s1 = sent_plain s ∧ sent_tls s1 = sent_tls s) as (s1 & E & Hp1 & Ht1 & Ha1 & Es1 & Et1).
  { unfold connected, tls_open, plain_open, brings in *. unfold readSocket.
    apply andb_true_iff in Hc as [Hc1 Hup']. apply andb_true_iff in Hc1 as [Ha Hsock].
    assert ((client_socket_ s <? 0) = false) as Hs by (apply Z.ltb_ge; rewrite Z.geb_leb in Hsock; by apply Z.leb_le).
    destruct (ssl_connection_ s) as [c|] eqn:Ec.
    - destruct (Ssl.isOpen c) eqn:Eo; cbn [andb negb orb] in *.
      + rewrite orb_false_r in Hup'. rewrite Hup' in Hb. rewrite Hb. unfold Ssl.read. unfold Ssl.isOpen in Eo.
        rewrite Eo, Hup'. eexists; split; [reflexivity|]. cbn. by rewrite Hsock.
      + rewrite Hs, Hb. eexists; split; [reflexivity|]. rewrite Ec, Eo, Hsock. done.
    - rewrite Hs, Hb. eexists; split; [reflexivity|]. rewrite Ec, Hsock. done. }
  unfold receive_chunk. rewrite E. unfold move_upload at 1.
  change (negb (is_empty (transfer_module_ (endFileTransfer s1)))) with false. cbn [andb].
  change (ret ()) with (ret tt). rewrite (bind_some _ _ _ _ _ (eq_refl : ret tt w = (Some tt, w))).
  assert (connected (endFileTransfer s1) = true) as Hcon.
  { change (connected (endFileTransfer s1)) with (connected s1). unfold connected. rewrite Hp1, Ha1, orb_true_r.
    unfold plain_open in Hp1. apply andb_true_iff in Hp1 as [_ ->]. done. }
  destruct (writeResponse_all e complete_upload (endFileTransfer s1) Hcon Ht) as (s2 & E2 & Hch & Hw & Hs2); [done|].
  destruct (same_channel_up _ _ Hch) as [Hcon2 Htls]. change (tls_open (endFileTransfer s1)) with (tls_open s1) in Htls.
  pose proof (writeResponse_plain e complete_upload (endFileTransfer s1) Ht1) as Hpl. rewrite E2 in Hpl |- *. cbn.
  unfold sent in Hs2. change (tls_open (endFileTransfer s1)) with (tls_open s1) in Hs2.
  rewrite Htls, Ht1 in Hs2. split; [done|]. destruct Hw as (_ & _ & _ & K1 & K2 & K3 & _).
  split; [unfold at_rest; by rewrite K1, K2, K3|]. split; [by rewrite Hcon2|]. split; [by rewrite Htls|].
  cbn in Hs2, Hpl. by rewrite Hs2, Hpl, Es1, Et1.
Qed.

(** A client that ends a plain connection costs the daemon a descriptor:
    the session marks itself inactive before anything closes the socket, and
    [close], also as the destructor calls it, then leaves the descriptor open,
    whatever happens to the session afterwards. *)
Theorem peer_close_leaks e s w :
  ssl_connection_ s = None → active_ s = true → transfer_state_ s = IDLE → client_socket_ s >= 0 →
  plain_in e = None ∨ plain_in e = Some "" →
  let s' := fst (work e s w) in
  active_ s' = false ∧ descriptor_open s' = descriptor_open s ∧
  destroy s' = endFileTransfer s' ∧
  ∀ es w', works es s' w' = (s', w').
Proof.
  intros Hssl Ha Hst Hsock Hin. cbv zeta.
  assert (work e s w = (with_socket (client_socket_ s) None (descriptor_open s) false s, w)) as ->.
  { unfold work, processRequest. rewrite Ha, Hst. cbn [negb]. rewrite bool_decide_eq_true_2 by done. cbn [negb].
    unfold readSocket. rewrite Hssl. assert ((client_socket_ s <? 0) = false) as -> by (apply Z.ltb_ge; lia).
    assert (∃ r, str_take 4095 <$> plain_in e = r ∧ (r = None ∨ r = Some "")) as (r & -> & Hr).
    { destruct Hin as [-> | ->]; eexists; split; [reflexivity|by left|reflexivity|by right]. }
    unfold ret. destruct Hr as [-> | ->]; unfold close; cbn; by rewrite Hssl. }
  cbn [fst]. split; [done|]. split; [done|]. split; [done|]. intros es w'. unfold works.
  induction es as [|e' es IH]; [done|]. cbn [foldl fst snd]. unfold work at 2. cbn [active_ with_socket]. apply IH.
Qed.
End session.

(** ** Witnesses *)
#[local] Existing Instances SshKey.toy_openssl Passwords.toy_sha256.
#[local] Instance toy_modules : ModuleOps ModuleConfig := filesystem_module (λ _, 5).
Abbreviation toy_run := (works (M:=ModuleConfig) (A:=AuthManager.AuthenticationManager) "error").

Definition toy_session (config : AuthConfig) : RSyncSession :=
  new_session 7 "10.0.0.1" (Some (set_auth config new_configuration)) {["data" := FileSystemModule.toy_module]}
    (Some (AuthManager.new_manager config AuthManager.toy_disk)) None.
Definition toy_event (input : string) : event :=
  MkEvent AuthManager.toy_draws (Some input) Ssl.ReadError (λ d, Z.of_nat (String.length d)).
Abbreviation toy_w := FileSystemModule.toy_world.

Lemma toy_takes r : takes_all (toy_event r).
Proof. by intros d. Qed.

(** Deleting a file before any authentication: refused with keys, done with
    passwords. *)
Definition delete_a : event := toy_event "DELETE data a.txt".

Lemma session_gate_witness :
  snd (work "error" delete_a (toy_session AuthManager.toy_key_config) toy_w) = toy_w ∧
  transfer_state_ (fst (work "error" delete_a (toy_session AuthManager.toy_key_config) toy_w)) = IDLE ∧
  sent (fst (work "error" delete_a (toy_session AuthManager.toy_key_config) toy_w)) =
    buildErrorResponse 401 "Authentication required: send AUTH command".
Proof.
  destruct (session_gate "error" (Some (set_auth AuthManager.toy_key_config new_configuration))
    (toy_session AuthManager.toy_key_config) delete_a toy_w) as (H1 & H2 & _).
  - apply history_new.
  - eexists. split; [reflexivity|]. split; reflexivity.
  - reflexivity.
  - split; [exact H1|]. split; [exact H2|]. vm_compute. reflexivity.
Defined.

Lemma password_gates_nothing_witness :
  let s := toy_session AuthManager.toy_config in
  let message := fst (parse "DELETE data a.txt" VERSION_30) in
  authenticated_user_ s = "" ∧
  snd (handleProtocolMessage "error" delete_a message s toy_w) =
  snd (handle "error" message (setModule "data" (handler_ s)) toy_w) ∧
  nodes (snd (handle "error" message (setModule "data" (handler_ s)) toy_w)) !! ["srv"; "data"; "a.txt"] = None.
Proof.
  intros s message. split; [reflexivity|]. split; [|vm_compute; reflexivity].
  apply (password_gates_nothing "error" delete_a message s toy_w).
  - intros c [= <-]. vm_compute. discriminate.
  - vm_compute. discriminate.
Defined.

(** The session after "GET" has been accepted and the file opened. *)
Definition toy_sending : RSyncSession :=
  match startFileDownload "data" "a.txt" (toy_session AuthManager.toy_config) toy_w with
  | (Some (_, s), _) => s
  | (None, _) => toy_session AuthManager.toy_config
  end.

Lemma download_delivers_witness :
  snd (toy_run [toy_event ""] toy_sending toy_w) = toy_w ∧
  sent (fst (toy_run [toy_event ""] toy_sending toy_w)) = sent toy_sending +:+ "hello" +:+ complete_download.
Proof.
  destruct (download_delivers "error" [toy_event ""] toy_sending toy_w ["srv"; "data"; "a.txt"] "hello")
    as (H1 & _ & _ & H4); [| |done|done|done|by split].
  - split; [vm_compute; reflexivity|]. split; [vm_compute; reflexivity|]. split; [vm_compute; reflexivity|].
    exists 0%nat, "hello". split; [vm_compute; reflexivity|]. split; vm_compute; reflexivity.
  - apply Forall_singleton, toy_takes.
Defined.

(** The client of [/srv/data] writes into [/srv/database]. *)
Lemma upload_anywhere_witness :
  ∃ s', startFileUpload "data" "/srv/database/new" (toy_session AuthManager.toy_config) toy_w =
    (Some (true, s'), with_nodes (<[["srv"; "database"; "new.tmp"] := File ""]> (nodes toy_w)) toy_w) ∧
  transfer_state_ s' = RECEIVING_FILE ∧ upload_file_ s' = Some (["srv"; "database"; "new.tmp"], 0%nat).
Proof.
  apply (upload_anywhere "data" FileSystemModule.toy_module ["srv"; "database"] "new"
    (toy_session AuthManager.toy_config) toy_w); try done;
    try (apply FileSystemModule.plain_check; done); try (vm_compute; reflexivity).
  repeat (apply Forall_cons; split; [by apply FileSystemModule.clean_check|]). by constructor.
Defined.

(** The same through a whole request, with a relative path. *)
Example upload_escapes :
  let '(s, w) := toy_run [toy_event "PUT data ../database/new"; toy_event "data"] (toy_session AuthManager.toy_config) toy_w in
  nodes w !! ["srv"; "database"; "new.tmp"] = Some (File "data").
Proof. vm_compute. reflexivity. Qed.

Definition toy_receiving : RSyncSession :=
  fst (toy_run [toy_event "PUT data up"] (toy_session AuthManager.toy_config) toy_w).
Definition toy_receiving_w : world :=
  snd (toy_run [toy_event "PUT data up"] (toy_session AuthManager.toy_config) toy_w).

Lemma toy_receiving_ok : receiving ["srv"; "data"; "up.tmp"] 0 toy_receiving.
Proof. split; [vm_compute; reflexivity|]. split; vm_compute; reflexivity. Qed.

Lemma upload_stores_witness :
  snd (toy_run [toy_event "ab"; toy_event "c"] toy_receiving toy_receiving_w) =
  with_nodes (<[["srv"; "data"; "up.tmp"] := File "abc"]> (nodes toy_receiving_w)) toy_receiving_w.
Proof.
  apply (upload_stores "error" [toy_event "ab"; toy_event "c"] ["ab"; "c"] toy_receiving toy_receiving_w
    ["srv"; "data"; "up.tmp"] ""); [exact toy_receiving_ok|vm_compute; reflexivity|].
  repeat (constructor; [split; [vm_compute; reflexivity|split; [discriminate|vm_compute; discriminate]]|]). constructor.
Defined.

(** Two clients send "up" at the same time: the first has sent six bytes when the
    second begins, and sends one more after it. *)
Example uploads_share_a_file :
  let put := toy_event "PUT data up" in
  let '(a, w) := toy_run [put; toy_event "abcdef"] (toy_session AuthManager.toy_config) toy_w in
  let '(b, w) := toy_run [put; toy_event "xy"] (toy_session AuthManager.toy_config) w in
  let '(_, w) := toy_run [toy_event "Z"] a w in
  nodes w !! ["srv"; "data"; "up.tmp"] = Some (File ("xy" +:+ zeros 4 +:+ "Z")).
Proof. vm_compute. reflexivity. Qed.

Lemma upload_end_witness :
  snd (work "error" (toy_event "") toy_receiving toy_receiving_w) = toy_receiving_w ∧
  nodes toy_receiving_w !! ["srv"; "data"; "up"] = None ∧
  sent_plain (fst (work "error" (toy_event "") toy_receiving toy_receiving_w)) =
    sent_plain toy_receiving +:+ complete_upload.
Proof.
  destruct (upload_end "error" (toy_event "") toy_receiving toy_receiving_w ["srv"; "data"; "up.tmp"] 0)
    as (H1 & _ & _ & _ & H2 & _); [exact toy_receiving_ok|apply toy_takes|vm_compute; reflexivity|].
  split; [exact H1|]. split; [vm_compute; reflexivity|exact H2].
Defined.

Lemma peer_close_leaks_witness :
  let s := fst (work "error" (toy_event "") (toy_session AuthManager.toy_config) toy_w) in
  descriptor_open s = true ∧ active_ s = false ∧ destroy s = endFileTransfer s.
Proof.
  destruct (peer_close_leaks "error" (toy_event "") (toy_session AuthManager.toy_config) toy_w)
    as (H1 & H2 & H3 & _); [done..|cbn; lia|by right|].
  split; [exact H2|]. split; [exact H1|exact H3].
Defined.

(** Downloading an empty file closes the session without an answer; a short
    write leaves bytes out and closes it before the end. *)
Example empty_download :
  let w := with_nodes (<[["srv"; "data"; "empty"] := File ""]> (nodes toy_w)) toy_w in
  let '(s, _) := toy_run [toy_event "GET data empty"] (toy_session AuthManager.toy_config) w in
  active_ s = false ∧ sent s = "".
Proof. vm_compute. done. Qed.

Example short_write_loses :
  let first := MkEvent AuthManager.toy_draws (Some "GET data a.txt") Ssl.ReadError (λ d, 2) in
  let '(s, _) := toy_run [first; toy_event ""; toy_event ""] (toy_session AuthManager.toy_config) toy_w in
  active_ s = false ∧ sent s = "he".
Proof. vm_compute. done. Qed.
