(* ===== verification/Privileges.v ===== *)
(** * Dropping privileges: [security/privileges.cpp]

    The process's identity is explicit state; the accounts database and the
    system calls that may fail are the interface [Accounts]. *)
From S2P Require Import Prelude CppString.
Open Scope Z_scope.

Record credentials := MkCredentials {
  uid : Z;
  gid : Z;
  groups : list Z;
  root_directory : string; (* "" before any chroot *)
  working : string
}.

(** [getpwnam] and [getgrnam] read the files below the root directory. *)
Class Accounts := {
  getgrnam : string → string → option Z;
  getpwnam : string → string → option Z;
  setgid_works : Z → bool;
  setgroups_works : bool;
  setuid_works : Z → bool;
  chroot_works : string → bool;
  chdir_works : string → bool
}.

Section privileges.
Context `{Accounts}.

Definition dropProcessPrivileges (user group : string) (p : credentials) : bool * credentials :=
  if is_empty user && is_empty group then (true, p)
  else if negb (uid p =? 0) then (true, p)
  else
    let '(ok, p) :=
      if is_empty group then (true, p) else
      match getgrnam (root_directory p) (c_str group) with
      | None => (false, p)
      | Some g =>
          if setgid_works g then (true, MkCredentials (uid p) g (groups p) (root_directory p) (working p))
          else (false, p)
      end in
    if negb ok then (false, p)
    else if is_empty user then (true, p)
    else
      match getpwnam (root_directory p) (c_str user) with
      | None => (false, p)
      | Some u =>
          if negb setgroups_works then (false, p) else
          let p := MkCredentials (uid p) (gid p) [] (root_directory p) (working p) in
          if setuid_works u then (true, MkCredentials u (gid p) (groups p) (root_directory p) (working p))
          else (false, p)
      end.

Definition enterChroot (path : string) (p : credentials) : bool * credentials :=
  if is_empty path then (true, p)
  else if negb (uid p =? 0) then (false, p)
  else if negb (chroot_works path) then (false, p)
  else
    let p := MkCredentials (uid p) (gid p) (groups p) path (working p) in
    if chdir_works "/" then (true, MkCredentials (uid p) (gid p) (groups p) (root_directory p) "/") else (false, p).

(** A drop that succeeds. *)
Lemma drop_result user group p p' :
  uid p = 0 → user ≠ "" → dropProcessPrivileges user group p = (true, p') →
  getpwnam (root_directory p) (c_str user) = Some (uid p') ∧ groups p' = [] ∧
  (group ≠ "" → getgrnam (root_directory p) (c_str group) = Some (gid p')) ∧ (group = "" → gid p' = gid p).
Proof.
  intros Hroot Hu. unfold dropProcessPrivileges. rewrite Hroot. apply is_empty_false in Hu as ->. cbn [andb negb Z.eqb].
  destruct (is_empty group) eqn:Eg.
  - apply is_empty_true in Eg. cbn [negb]. destruct (getpwnam _ _) as [u|]; [|done].
    destruct setgroups_works; [|done]. destruct (setuid_works u); [|done]. cbn. intros [= <-]. naive_solver.
  - apply is_empty_false in Eg. destruct (getgrnam _ _) as [g|]; [|done]. destruct (setgid_works g); [|done].
    cbn [negb root_directory]. destruct (getpwnam _ _) as [u|]; [|done].
    destruct setgroups_works; [|done]. destruct (setuid_works u); [|done]. cbn. intros [= <-]. naive_solver.
Qed.

(** A process of root that has dropped its privileges for a user has that
    user's identity and no supplementary group; it has the group's identity if a
    group is configured, and otherwise keeps root's.  Nothing is reported as done
    when an account does not exist or a call fails. *)
Theorem drop_spec user group p p' :
  uid p = 0 → user ≠ "" → dropProcessPrivileges user group p = (true, p') →
  getpwnam (root_directory p) (c_str user) = Some (uid p') ∧ groups p' = [] ∧
  (group ≠ "" → getgrnam (root_directory p) (c_str group) = Some (gid p')) ∧ (group = "" → gid p' = gid p).
Proof. apply drop_result. Qed.
End privileges.

(** ** Witness *)
#[local] Instance toy_accounts : Accounts := {|
  getgrnam root name := if String.eqb name "rsync" then Some 873 else None;
  getpwnam root name := if String.eqb name "rsync" then Some 999 else None;
  setgid_works _ := true; setgroups_works := true; setuid_works _ := true;
  chroot_works _ := true; chdir_works _ := true
|}.

(** A user without a group: the group stays root's. *)
Lemma drop_spec_witness :
  let p := (dropProcessPrivileges "rsync" "" (MkCredentials 0 0 [0; 4] "" "/")).2 in
  uid p = 999 ∧ groups p = [] ∧ gid p = 0.
Proof.
  intros p. destruct (drop_spec "rsync" "" (MkCredentials 0 0 [0; 4] "" "/") p) as (H1 & H2 & _ & H3);
    [reflexivity|discriminate|reflexivity|].
  split; [reflexivity|]. split; [exact H2|]. by apply H3.
Defined.
