(* ===== verification/Daemon.v ===== *)
(** * The daemon: [core/daemon.cpp]

    [RSyncDaemon] is the object with what the operating system holds for it: the
    state of the listening socket and the process's credentials.  Operations are
    [st] over it.  Of the accept loop and the workers there is one iteration each;
    [Threads] cuts them into steps and interleaves them.  Log messages are left
    out. *)
From S2P Require Import Prelude CppString ConfigTypes FileSys State Protocol Session.
From S2P Require Config ConfigDocuments FileSystemModule Ssl AuthManager NetworkAccess RateLimiter.
From S2P Require Privileges Passwords SshKey UserDatabase.
Open Scope Z_scope.

Abbreviation session := (@RSyncSession ModuleConfig AuthManager.AuthenticationManager).

Record RSyncDaemon := MkDaemon {
  d_config : option Configuration;
  ssl_context_ : option Ssl.SSLContext;
  d_auth_manager : option AuthManager.AuthenticationManager;
  listen_socket_ : Z;
  listening : bool; (* the socket is open and bound *)
  bind_address_ : string;
  bind_port_ : Z;
  running_ : bool;
  shutdown_requested_ : bool;
  active_sessions_ : list session;
  total_connections_ : Z;
  modules_ : gmap string ModuleConfig;
  rate_limiter_ : option RateLimiter.ConnectionRateLimiter;
  authentication_failures : Z;
  access_denied : Z;
  process : Privileges.credentials
}.

(** ** Field updates *)
Definition with_configuration (x0 : option Configuration) (d : RSyncDaemon) : RSyncDaemon :=
  MkDaemon x0 (ssl_context_ d) (d_auth_manager d) (listen_socket_ d) (listening d) (bind_address_ d)
    (bind_port_ d) (running_ d) (shutdown_requested_ d) (active_sessions_ d) (total_connections_ d)
    (modules_ d) (rate_limiter_ d) (authentication_failures d) (access_denied d) (process d).
Definition with_ssl (x0 : option Ssl.SSLContext) (d : RSyncDaemon) : RSyncDaemon :=
  MkDaemon (d_config d) x0 (d_auth_manager d) (listen_socket_ d) (listening d) (bind_address_ d) (bind_port_
    d) (running_ d) (shutdown_requested_ d) (active_sessions_ d) (total_connections_ d) (modules_ d)
    (rate_limiter_ d) (authentication_failures d) (access_denied d) (process d).
Definition with_manager (x0 : option AuthManager.AuthenticationManager) (d : RSyncDaemon) : RSyncDaemon :=
  MkDaemon (d_config d) (ssl_context_ d) x0 (listen_socket_ d) (listening d) (bind_address_ d) (bind_port_
    d) (running_ d) (shutdown_requested_ d) (active_sessions_ d) (total_connections_ d) (modules_ d)
    (rate_limiter_ d) (authentication_failures d) (access_denied d) (process d).
Definition with_listen (x0 : Z) (x1 : bool) (d : RSyncDaemon) : RSyncDaemon :=
  MkDaemon (d_config d) (ssl_context_ d) (d_auth_manager d) x0 x1 (bind_address_ d) (bind_port_ d) (running_
    d) (shutdown_requested_ d) (active_sessions_ d) (total_connections_ d) (modules_ d) (rate_limiter_ d)
    (authentication_failures d) (access_denied d) (process d).
Definition with_bind (x0 : string) (x1 : Z) (d : RSyncDaemon) : RSyncDaemon :=
  MkDaemon (d_config d) (ssl_context_ d) (d_auth_manager d) (listen_socket_ d) (listening d) x0 x1 (running_
    d) (shutdown_requested_ d) (active_sessions_ d) (total_connections_ d) (modules_ d) (rate_limiter_ d)
    (authentication_failures d) (access_denied d) (process d).
Definition with_running (x0 : bool) (x1 : bool) (d : RSyncDaemon) : RSyncDaemon :=
  MkDaemon (d_config d) (ssl_context_ d) (d_auth_manager d) (listen_socket_ d) (listening d) (bind_address_
    d) (bind_port_ d) x0 x1 (active_sessions_ d) (total_connections_ d) (modules_ d) (rate_limiter_ d)
    (authentication_failures d) (access_denied d) (process d).
Definition with_sessions (x0 : list session) (x1 : Z) (d : RSyncDaemon) : RSyncDaemon :=
  MkDaemon (d_config d) (ssl_context_ d) (d_auth_manager d) (listen_socket_ d) (listening d) (bind_address_
    d) (bind_port_ d) (running_ d) (shutdown_requested_ d) x0 x1 (modules_ d) (rate_limiter_ d)
    (authentication_failures d) (access_denied d) (process d).
Definition with_modules (x0 : gmap string ModuleConfig) (d : RSyncDaemon) : RSyncDaemon :=
  MkDaemon (d_config d) (ssl_context_ d) (d_auth_manager d) (listen_socket_ d) (listening d) (bind_address_
    d) (bind_port_ d) (running_ d) (shutdown_requested_ d) (active_sessions_ d) (total_connections_ d) x0
    (rate_limiter_ d) (authentication_failures d) (access_denied d) (process d).
Definition with_limiter (x0 : option RateLimiter.ConnectionRateLimiter) (d : RSyncDaemon) : RSyncDaemon :=
  MkDaemon (d_config d) (ssl_context_ d) (d_auth_manager d) (listen_socket_ d) (listening d) (bind_address_
    d) (bind_port_ d) (running_ d) (shutdown_requested_ d) (active_sessions_ d) (total_connections_ d)
    (modules_ d) x0 (authentication_failures d) (access_denied d) (process d).
Definition with_stats (x0 : Z) (x1 : Z) (d : RSyncDaemon) : RSyncDaemon :=
  MkDaemon (d_config d) (ssl_context_ d) (d_auth_manager d) (listen_socket_ d) (listening d) (bind_address_
    d) (bind_port_ d) (running_ d) (shutdown_requested_ d) (active_sessions_ d) (total_connections_ d)
    (modules_ d) (rate_limiter_ d) x0 x1 (process d).
Definition with_process (x0 : Privileges.credentials) (d : RSyncDaemon) : RSyncDaemon :=
  MkDaemon (d_config d) (ssl_context_ d) (d_auth_manager d) (listen_socket_ d) (listening d) (bind_address_
    d) (bind_port_ d) (running_ d) (shutdown_requested_ d) (active_sessions_ d) (total_connections_ d)
    (modules_ d) (rate_limiter_ d) (authentication_failures d) (access_denied d) x0.

(** ** What the system gives to one call of [initializeNetwork] *)
Record network_results := MkNetworkResults {
  new_socket : Z;
  setsockopt_works : bool;
  nonblocking_works : bool;
  inet_aton_works : string → bool;
  bind_works : bool;
  listen_works : bool
}.

(** A connection as [accept] returns it, the readings of the clock when the rate
    limiter is asked and told (minute, then hour), and how the TLS handshake goes. *)
Record arrival := MkArrival {
  client_socket : Z;
  client_ip : string;
  asked : Z;
  recorded : Z;
  recorded_hour : Z;
  ssl_new_works : bool;
  set_fd_works : bool;
  handshake_works : bool
}.

Section daemon.
Context `{Config_json : ConfigDocuments.JsonLibrary} `{Config_yaml : ConfigDocuments.YamlLibrary}.
Context `{Ssl.TlsLibrary} `{Privileges.Accounts} `{NetworkAccess.InetPton} `{Passwords.Sha256} `{SshKey.OpenSSL}.
Context `{ModuleOps ModuleConfig}.

(** ** Construction *)
Definition new_daemon (config : option Configuration) (d : UserDatabase.disk) (p : Privileges.credentials)
    : RSyncDaemon :=
  match config with
  | Some c =>
      MkDaemon config None
        (if auth_enabled (auth c) then Some (AuthManager.new_manager (auth c) d) else None)
        (-1) false (bind_address (network c)) (bind_port (network c)) false false [] 0 ∅ None 0 0 p
  | None => MkDaemon None None None (-1) false "0.0.0.0" 873 false false [] 0 ∅ None 0 0 p
  end.

(** ** Configuration and modules *)
(** A call on [config_]; [null] is the answer when there is none. *)
Definition on_config {A} (null : A) (m : st Configuration A) : st RSyncDaemon A := λ w d,
  match d_config d with
  | None => (inr null, d)
  | Some c => let '(r, c) := m w c in (r, with_configuration (Some c) d)
  end.

Definition validateConfiguration : st RSyncDaemon bool := on_config false Config.validate.

Definition secure (s : SecurityConfig) (m : ModuleConfig) : ModuleConfig :=
  set_allow_links (sec_allow_symlinks s) (sec_allow_hardlinks s) m.

(** A module whose validation throws is skipped like one that is not valid. *)
Definition load_module (s : SecurityConfig) (w : world) (ms : gmap string ModuleConfig)
    (entry : string * ModuleConfig) : gmap string ModuleConfig :=
  let m := secure s entry.2 in
  match fst (FileSystemModule.validate m w) with
  | Some true => <[entry.1 := m]> ms
  | _ => ms
  end.

Definition loadModules : st RSyncDaemon bool := λ w d,
  match d_config d with
  | None => (inr false, d)
  | Some c =>
      let ms := foldl (load_module (security c) w) ∅ (map_entries (modules c)) in
      (inr (negb (bool_decide (ms = ∅))), with_modules ms d)
  end.

Definition unloadModules (d : RSyncDaemon) : RSyncDaemon := with_modules ∅ d.
Definition reloadModules : st RSyncDaemon bool := loadModules.

Section reload.
Context (getenv : string → option string) (write_time : string → option Z) (now : Z).

Definition reloadConfig : st RSyncDaemon bool :=
  c ← gets d_config;
  if bool_decide (c = None) then mret false else
  loaded ← on_config false (Config.reload getenv write_time now);
  if negb loaded then mret false else
  valid ← validateConfiguration;
  if negb valid then mret false else
  modules ← reloadModules;
  mret modules.
End reload.

(** ** Starting *)
Definition initializeSSL : st RSyncDaemon bool := λ w d,
  match d_config d with
  | Some c =>
      if ssl_enabled (ssl c) then
        let s := ssl c in
        let '(ok, ctx) := Ssl.initialize (certificate_file s) (private_key_file s) (ca_file s) (tls_version s)
                            (cipher_suite s) Ssl.new_context in
        (inr ok, with_ssl (Some ctx) d)
      else (inr true, d)
  | None => (inr true, d)
  end.

(** The listening socket is closed on every failure after its creation. *)
Definition close_listen : RSyncDaemon → RSyncDaemon := with_listen (-1) false.

Definition initializeNetwork (n : network_results) : st RSyncDaemon bool := λ w d,
  match d_config d with
  | None => (inr false, d)
  | Some c =>
      let d := with_bind (bind_address (network c)) (bind_port (network c)) d in
      if new_socket n <? 0 then (inr false, with_listen (new_socket n) false d) else
      if negb (setsockopt_works n) then (inr false, close_listen d) else
      if negb (nonblocking_works n) then (inr false, close_listen d) else
      let any := String.eqb (bind_address_ d) "0.0.0.0" || is_empty (bind_address_ d) in
      if negb any && negb (inet_aton_works n (c_str (bind_address_ d))) then (inr false, close_listen d) else
      if negb (bind_works n) then (inr false, close_listen d) else
      if negb (listen_works n) then (inr false, close_listen d) else
      (inr true, with_listen (new_socket n) true d)
  end.

(** The chroot, then the privileges. *)
Definition enter_chroot : st RSyncDaemon bool := λ w d,
  match d_config d with
  | Some c =>
      let s := security c in
      if chroot_enabled s && negb (is_empty (chroot_directory s)) then
        let '(ok, p) := Privileges.enterChroot (chroot_directory s) (process d) in (inr ok, with_process p d)
      else (inr true, d)
  | None => (inr true, d)
  end.
Definition drop_to_user : st RSyncDaemon bool := λ w d,
  match d_config d with
  | Some c =>
      let s := security c in
      if drop_privileges s then
        let '(ok, p) := Privileges.dropProcessPrivileges (sec_user s) (sec_group s) (process d) in
        (inr ok, with_process p d)
      else (inr true, d)
  | None => (inr true, d)
  end.

Definition make_limiter (d : RSyncDaemon) : RSyncDaemon :=
  match d_config d with
  | Some c =>
      let r := rate_limit c in
      if rate_enabled r
      then with_limiter (Some (RateLimiter.new_limiter (max_connections_per_minute r) (max_connections_per_hour r))) d
      else d
  | None => d
  end.

(** The first step that fails ends the sequence. *)
Definition and_then (a b : st RSyncDaemon bool) : st RSyncDaemon bool :=
  ok ← a; if ok : bool then b else mret false.

Definition start (n : network_results) : st RSyncDaemon bool :=
  running ← gets running_;
  if running : bool then mret true else
  and_then validateConfiguration (and_then loadModules (and_then initializeSSL (and_then (initializeNetwork n)
    (and_then enter_chroot (and_then drop_to_user
      (modify make_limiter;;
       modify (λ d, with_running true (shutdown_requested_ d) d);;
       mret true)))))).

(** What the loops of the threads run on. *)
Definition serving (d : RSyncDaemon) : bool := running_ d && negb (shutdown_requested_ d).

(** ** Stopping *)
Definition closeSessions (d : RSyncDaemon) : RSyncDaemon :=
  with_sessions (close <$> active_sessions_ d) (total_connections_ d) d.
Definition cleanupSessions (d : RSyncDaemon) : RSyncDaemon := with_sessions [] (total_connections_ d) d.
(** What [stop] does before it waits for the threads, and after they have ended. *)
Definition request_stop (d : RSyncDaemon) : RSyncDaemon :=
  let d := with_running false true d in if listen_socket_ d >=? 0 then close_listen d else d.
Definition finish_stop (d : RSyncDaemon) : RSyncDaemon := unloadModules (cleanupSessions (closeSessions d)).
Definition stop (d : RSyncDaemon) : RSyncDaemon :=
  if negb (running_ d) then d else finish_stop (request_stop d).

Definition isRunning (d : RSyncDaemon) : bool := running_ d.
Definition getActiveConnections (d : RSyncDaemon) : nat := length (active_sessions_ d).
Definition getTotalConnections (d : RSyncDaemon) : Z := total_connections_ d.
Definition hasConfigChanged (d : RSyncDaemon) : bool := false.
Definition checkHealth (d : RSyncDaemon) : bool := true.
Definition getVersion : string := "0.4.0".

(** Seconds since the object was made; both readings of the clock are in
    nanoseconds. *)
Definition getUptime (started now : Z) : Z := Z.quot (now - started) 1000000000.
Definition getStatus (started now : Z) (d : RSyncDaemon) : string :=
  "Simple RSync Daemon Status" +:+ nl +:+ "==========================" +:+ nl +:+
  "Running: " +:+ (if running_ d then "Yes" else "No") +:+ nl +:+
  "Bind Address: " +:+ bind_address_ d +:+ ":" +:+ to_string (bind_port_ d) +:+ nl +:+
  "Active Connections: " +:+ to_string (Z.of_nat (getActiveConnections d)) +:+ nl +:+
  "Total Connections: " +:+ to_string (getTotalConnections d) +:+ nl +:+
  "Uptime: " +:+ to_string (getUptime started now) +:+ " seconds" +:+ nl +:+
  "Version: " +:+ getVersion +:+ nl +:+
  nl +:+ "Modules:" +:+ nl +:+
  foldr (λ m t, "  " +:+ m.1 +:+ ": Active" +:+ nl +:+ t) "" (map_entries (modules_ d)).

(** The line [logAccess] writes. *)
Definition access_line (client_address module : string) (allowed : bool) : string :=
  "access " +:+ (if allowed then "allowed" else "denied") +:+ " client=" +:+ client_address +:+
  (if is_empty module then "" else " module=" +:+ module).

(** ** The monitors: one iteration each *)
Section monitors.
Context (getenv : string → option string) (write_time : string → option Z) (now : Z).

(** [configMonitorLoop], after its sleep; [start] starts it with [auto_reload]. *)
Definition monitor_one : st RSyncDaemon unit :=
  c ← gets d_config;
  match c with
  | Some c =>
      if Config.hasChanged c then (_ ← reloadConfig getenv write_time now; mret tt) else mret tt
  | None => mret tt
  end.

(** [configWatcherLoop], which nothing starts. *)
Definition watch_one : st RSyncDaemon unit :=
  changed ← gets hasConfigChanged;
  if changed : bool then (_ ← reloadConfig getenv write_time now; mret tt) else mret tt.
End monitors.

(** ** Checks of a client *)
Definition checkAccess (client_address : string) (d : RSyncDaemon) : bool * RSyncDaemon :=
  match d_config d with
  | Some c =>
      let a := access c in
      if negb (access_enabled a) then (true, d)
      else if NetworkAccess.isAllowed client_address (denied_hosts a) (denied_networks a) (allowed_hosts a)
                (allowed_networks a)
      then (true, d)
      else (false, with_stats (authentication_failures d) ((access_denied d + 1) `mod` 2 ^ 64) d)
  | None => (true, d)
  end.

Definition limited (d : RSyncDaemon) : option RateLimiter.ConnectionRateLimiter :=
  match d_config d with
  | Some c => if rate_enabled (rate_limit c) then rate_limiter_ d else None
  | None => None
  end.
Definition checkRateLimit (now : Z) (client_address : string) (d : RSyncDaemon) : bool * RSyncDaemon :=
  match limited d with
  | Some l => let '(ok, l) := RateLimiter.allowConnection now client_address l in (ok, with_limiter (Some l) d)
  | None => (true, d)
  end.
Definition updateRateLimit (now now_hour : Z) (client_address : string) (d : RSyncDaemon) : RSyncDaemon :=
  match limited d with
  | Some l => with_limiter (Some (RateLimiter.recordConnection now now_hour client_address l)) d
  | None => d
  end.
Definition validateClient (now : Z) (client_address : string) (d : RSyncDaemon) : bool * RSyncDaemon :=
  let '(ok, d) := checkAccess client_address d in
  if ok then checkRateLimit now client_address d else (false, d).

Definition checkAuthentication (e : AuthManager.draws) (username password : string) (d : RSyncDaemon)
    : bool * RSyncDaemon :=
  match d_config d with
  | None => (false, d)
  | Some c =>
      if negb (auth_enabled (auth c)) then (anonymous_access (auth c), d) else
      match d_auth_manager d with
      | None => (false, d)
      | Some a =>
          let '(ok, a) := AuthManager.authenticateUser e username password a in
          let d := with_manager (Some a) d in
          if ok : bool then (true, d)
          else (false, with_stats ((authentication_failures d + 1) `mod` 2 ^ 64) (access_denied d) d)
      end
  end.

Definition checkPermissions (module_name operation : string) (d : RSyncDaemon) : bool :=
  match modules_ d !! module_name with
  | None => false
  | Some m =>
      if String.eqb operation "read" || String.eqb operation "list" then FileSystemModule.allowsListing m
      else if String.eqb operation "write" || String.eqb operation "upload"
      then negb (FileSystemModule.isReadOnly m) && FileSystemModule.allowsOverwriting m
      else if String.eqb operation "delete"
      then negb (FileSystemModule.isReadOnly m) && FileSystemModule.allowsDeletion m
      else false
  end.

(** ** One iteration of [acceptLoop] *)
Definition add_session (a : arrival) (ms : gmap string ModuleConfig) (ssl : option Ssl.SSLConnection)
    (d : RSyncDaemon) : RSyncDaemon :=
  with_sessions
    (active_sessions_ d ++ [new_session (client_socket a) (client_ip a) (d_config d) ms (d_auth_manager d) ssl])
    ((total_connections_ d + 1) `mod` 2 ^ 64) d.

(** The connection limit, compared with the sessions in the list. *)
Definition full (d : RSyncDaemon) : bool :=
  match d_config d with
  | Some c => max_connections (network c) <=? Z.of_nat (length (active_sessions_ d))
  | None => false
  end.

Definition live_context (d : RSyncDaemon) : option Ssl.SSLContext :=
  match d_config d, ssl_context_ d with
  | Some c, Some ctx => if ssl_enabled (ssl c) && Ssl.isInitialized ctx then Some ctx else None
  | _, _ => None
  end.

(** The checks of a client, and its count. *)
Definition check_client (a : arrival) (d : RSyncDaemon) : bool * RSyncDaemon :=
  let '(ok, d) := checkAccess (client_ip a) d in
  if negb ok then (false, d) else
  let '(ok, d) := checkRateLimit (asked a) (client_ip a) d in
  if negb ok then (false, d) else
  if full d then (false, d) else
  (true, updateRateLimit (recorded a) (recorded_hour a) (client_ip a) d).

(** The TLS handshake; [ms] is the copy of the modules made before it. *)
Definition handshake (a : arrival) (ms : gmap string ModuleConfig) (d : RSyncDaemon) : bool * RSyncDaemon :=
  match ssl_context_ d with
  | Some ctx =>
      let '(conn, ctx) := Ssl.acceptConnection (ssl_new_works a) (set_fd_works a) (handshake_works a)
                            (client_socket a) ctx in
      let d := with_ssl (Some ctx) d in
      match conn with
      | None => (false, d)
      | Some conn => (true, add_session a ms (Some conn) d)
      end
  | None => (false, d)
  end.

(** An iteration with nothing in between.  The answer is whether the connection
    became a session; otherwise its socket is closed. *)
Definition accept_one (a : arrival) (d : RSyncDaemon) : bool * RSyncDaemon :=
  let '(ok, d) := check_client a d in
  if negb ok then (false, d) else
  match live_context d with
  | Some _ => handshake a (modules_ d) d
  | None => (true, add_session a (modules_ d) None d)
  end.

(** ** One turn of a session *)
(** Configuration and authentication manager are shared by all sessions. *)
Definition lend (d : RSyncDaemon) (s : session) : session :=
  with_config (d_config d) (with_auth (d_auth_manager d) (authenticated_user_ s) s).

(** The next session of a worker. *)
Definition work_one (what : string) (e : event (Draws:=AuthManager.draws)) (d : RSyncDaemon) (s : session) (w : world)
    : RSyncDaemon * session * world :=
  if active_ s then
    let '(s, w) := work what e (lend d s) w in
    (with_manager (auth_manager_ s) d, s, w)
  else (d, s, w).

(** [startWorkerThreads] *)
Definition worker_count (d : RSyncDaemon) : nat :=
  match d_config d with Some c => Z.to_nat (worker_threads (network c)) | None => 4 end.

(** What the checks of a connection keep. *)
Definition same_front (d d' : RSyncDaemon) : Prop :=
  d_config d' = d_config d ∧ d_auth_manager d' = d_auth_manager d ∧ modules_ d' = modules_ d ∧
  active_sessions_ d' = active_sessions_ d ∧ total_connections_ d' = total_connections_ d ∧
  running_ d' = running_ d ∧ shutdown_requested_ d' = shutdown_requested_ d.

#[export] Instance same_front_preorder : PreOrder same_front.
Proof.
  split; [done|]. intros d1 d2 d3 (?&?&?&?&?&?&?) (?&?&?&?&?&?&?). unfold same_front. repeat split; congruence.
Qed.

Lemma access_front ip d : same_front d (snd (checkAccess ip d)).
Proof. unfold checkAccess. by repeat case_match. Qed.
Lemma rate_front t ip d : same_front d (snd (checkRateLimit t ip d)).
Proof. unfold checkRateLimit. destruct (limited d); [|done]. by destruct (RateLimiter.allowConnection _ _ _). Qed.
Lemma update_front t t' ip d : same_front d (updateRateLimit t t' ip d).
Proof. unfold updateRateLimit. by destruct (limited d). Qed.

Lemma admit_front a d : same_front d (snd (check_client a d)).
Proof.
  unfold check_client. pose proof (access_front (client_ip a) d) as Hf1.
  destruct (checkAccess (client_ip a) d) as [[] d1]; cbn [negb snd] in *; [|done].
  pose proof (rate_front (asked a) (client_ip a) d1) as Hf2.
  destruct (checkRateLimit (asked a) (client_ip a) d1) as [[] d2]; cbn [negb snd] in *; [|by etrans].
  destruct (full d2); [by etrans|]. cbn [snd]. etrans; [exact Hf1|]. etrans; [exact Hf2|apply update_front].
Qed.

(** A connection is one new session and one on the count, or nothing. *)
Definition joins (a : arrival) (d d' : RSyncDaemon) : Prop :=
  d_config d' = d_config d ∧ d_auth_manager d' = d_auth_manager d ∧
  running_ d' = running_ d ∧ shutdown_requested_ d' = shutdown_requested_ d ∧
  total_connections_ d' = (total_connections_ d + 1) `mod` 2 ^ 64 ∧
  ∃ ms ssl, active_sessions_ d' = active_sessions_ d ++
    [new_session (client_socket a) (client_ip a) (d_config d) ms (d_auth_manager d) ssl].
Definition settled (a : arrival) (d : RSyncDaemon) (r : bool * RSyncDaemon) : Prop :=
  if r.1 then joins a d r.2 else same_front d r.2.

Lemma add_joins a ms ssl d d' : same_front d d' → joins a d (add_session a ms ssl d').
Proof.
  intros (E1 & E2 & E3 & E4 & E5 & E6 & E7). unfold joins. cbn. rewrite E1, E2, E4, E5. repeat split; [done..|].
  by exists ms, ssl.
Qed.

Lemma handshake_settled a ms d d' : same_front d d' → settled a d (handshake a ms d').
Proof.
  intros Hd. unfold handshake. destruct (ssl_context_ d') as [ctx|]; [|done].
  destruct (Ssl.acceptConnection _ _ _ _ ctx) as [[conn|] ctx']; [|done]. by apply (add_joins a ms (Some conn)).
Qed.

(** ** Modules *)
Definition serves (s : SecurityConfig) (w : world) (m m' : ModuleConfig) : Prop :=
  m' = secure s m ∧ fst (FileSystemModule.validate m' w) = Some true.

Lemma load_fold s w l : ∀ ms name,
  NoDup l.*1 →
  foldl (load_module s w) ms l !! name =
  match (list_to_map l : gmap string ModuleConfig) !! name with
  | Some m => match fst (FileSystemModule.validate (secure s m) w) with
              | Some true => Some (secure s m)
              | _ => ms !! name
              end
  | None => ms !! name
  end.
Proof.
  induction l as [|[n m] l IH]; intros ms name Hnd; [done|].
  apply NoDup_cons in Hnd as [Hn Hnd]. cbn [foldl list_to_map foldr uncurry]. rewrite IH by done.
  change (list_to_map ((n, m) :: l)) with (<[n := m]> (list_to_map l : gmap string ModuleConfig)).
  unfold load_module. cbn [fst snd]. destruct (decide (n = name)) as [->|Hne].
  - rewrite lookup_insert_eq. assert ((list_to_map l : gmap string ModuleConfig) !! name = None) as ->
      by (by apply not_elem_of_list_to_map_1).
    destruct (fst (FileSystemModule.validate (secure s m) w)) as [[]|]; [|done..]. by rewrite lookup_insert_eq.
  - rewrite lookup_insert_ne by done.
    assert (∀ ms', (if decide (n = name) then ms' else ms) = ms) as _ by (intros ms'; by rewrite decide_False).
    destruct (fst (FileSystemModule.validate (secure s m) w)) as [[]|]; [|done..].
    by rewrite lookup_insert_ne.
Qed.

Lemma load_spec d c w :
  d_config d = Some c →
  ∃ d', loadModules w d = (inr (negb (bool_decide (modules_ d' = ∅))), d') ∧ d' = with_modules (modules_ d') d ∧
    ∀ name m, modules_ d' !! name = Some m ↔ ∃ m0, modules c !! name = Some m0 ∧ serves (security c) w m0 m.
Proof.
  intros Ec. unfold loadModules. rewrite Ec.
  exists (with_modules (foldl (load_module (security c) w) ∅ (map_entries (modules c))) d).
  split; [reflexivity|]. split; [reflexivity|]. intros name m. cbn [modules_ with_modules].
  rewrite load_fold by apply map_entries_NoDup. rewrite list_to_map_entries, lookup_empty. unfold serves.
  destruct (modules c !! name) as [m0|]; [|naive_solver].
  destruct (fst (FileSystemModule.validate (secure (security c) m0) w)) as [[]|] eqn:E; naive_solver.
Qed.

(** The modules that are served are exactly those of the configuration whose
    path is a directory that is there, each with the links the security section
    allows instead of its own; loading succeeds if there is at least one. *)
Theorem loadModules_spec d c w :
  d_config d = Some c →
  ∃ d', loadModules w d = (inr (negb (bool_decide (modules_ d' = ∅))), d') ∧
    ∀ name m, modules_ d' !! name = Some m ↔ ∃ m0, modules c !! name = Some m0 ∧ serves (security c) w m0 m.
Proof.
  intros Ec. destruct (load_spec d c w Ec) as (d' & E & _ & Hm). by exists d'.
Qed.

(** ** Reloading *)
Section reload_results.
Context (getenv : string → option string) (write_time : string → option Z) (now : Z).

Lemma on_config_inr {A} null (m : st Configuration A) w d c r d' :
  d_config d = Some c → on_config null m w d = (inr r, d') →
  ∃ c', m w c = (inr r, c') ∧ d' = with_configuration (Some c') d.
Proof.
  unfold on_config. intros ->. destruct (m w c) as [r' c'] eqn:E. intros [= -> <-]. by exists c'.
Qed.

Lemma valid_errors w es c : Config.valid_config w (set_errors es c) ↔ Config.valid_config w c.
Proof. by split; intros []; constructor. Qed.

(** C23: What a reload does, by what becomes of it.  If the file is refused, the
    daemon has what was read of it as its configuration, and its modules are the
    old ones; so they are if the file is read and is not valid.  If it is read and
    valid, the modules served are exactly those of the new configuration that can
    be served, and the answer is [true] if there is at least one; if there is none
    the old ones are gone all the same.  In every case nothing else changes: not
    the limiter, not the TLS context, not the sessions. *)
Theorem reloadConfig_spec w d c r d' :
  d_config d = Some c → reloadConfig getenv write_time now w d = (inr r, d') →
  ∃ read c1 c2, Config.reload getenv write_time now w c = (inr read, c1) ∧
    (c2 = c1 ∨ read = true ∧ ∃ es, c2 = set_errors es c1) ∧
    d' = with_modules (modules_ d') (with_configuration (Some c2) d) ∧
    (read = false ∨ ¬ Config.valid_config w c2 → r = false ∧ modules_ d' = modules_ d) ∧
    (read = true → Config.valid_config w c2 →
       (∀ name m, modules_ d' !! name = Some m ↔ ∃ m0, modules c2 !! name = Some m0 ∧ serves (security c2) w m0 m) ∧
       (r = true ↔ modules_ d' ≠ ∅)).
Proof.
  intros Ec Hr. unfold reloadConfig in Hr. apply st_bind_inr in Hr as (o & d0 & [= <- <-] & Hr).
  rewrite Ec in Hr. cbn [bool_decide] in Hr. rewrite bool_decide_eq_false_2 in Hr by done.
  apply st_bind_inr in Hr as (b & d1 & E1 & Hr). destruct (on_config_inr _ _ _ _ _ _ _ Ec E1) as (c1 & Hc1 & ->).
  exists b, c1. destruct b; cbn [negb] in Hr;
    [|injection Hr as <- <-; exists c1; split; [done|]; split; [by left|]; split; [done|]; split; [by cbn|done]].
  apply st_bind_inr in Hr as (v & d2 & E2 & Hr).
  destruct (on_config_inr _ _ w (with_configuration (Some c1) d) c1 v d2 eq_refl E2) as (c2 & Hc2 & ->).
  destruct (Config.validate_decides _ _ _ _ Hc2) as [Hv [es ->]]. exists (set_errors es c1). split; [done|].
  split; [right; split; [done|by exists es]|]. rewrite valid_errors.
  destruct v; cbn [negb] in Hr.
  2:{ injection Hr as <- <-. split; [done|]. split; [done|]. intros _ H'. by apply Hv in H'. }
  destruct (load_spec (with_configuration (Some (set_errors es c1)) (with_configuration (Some c1) d)) _ w eq_refl) as (d3 & E3 & Hf & Hm).
  unfold reloadModules in Hr. apply st_bind_inr in Hr as (q & d4 & E4 & [= -> ->]). rewrite E3 in E4.
  injection E4 as <- <-. split; [by rewrite Hf|]. split; [intros [?|Hn]; [done|destruct Hn; by apply Hv]|].
  intros _ _. split; [exact Hm|]. by destruct (bool_decide_reflect (modules_ d3 = ∅)).
Qed.

(** Hot reload never happens: neither loop that polls the configuration ever
    finds a change, so neither ever reloads it. *)
Theorem monitors_idle w d :
  (∀ c, d_config d = Some c → Config.reachable getenv c) →
  monitor_one getenv write_time now w d = (inr tt, d) ∧ watch_one getenv write_time now w d = (inr tt, d).
Proof.
  intros Hc. split; [|done]. unfold monitor_one, mbind, st_bind, gets. destruct (d_config d) as [c|] eqn:E; [|done].
  by rewrite (Config.never_changed getenv c) by by apply Hc.
Qed.
End reload_results.

(** ** Starting and stopping *)
Lemma and_then_true a b w d d' :
  and_then a b w d = (inr true, d') → ∃ d1, a w d = (inr true, d1) ∧ b w d1 = (inr true, d').
Proof. intros ([] & d1 & E1 & E2)%st_bind_inr; [eauto|done]. Qed.

Lemma and_then_preserves P a b : Preserves P a → Preserves P b → Preserves P (and_then a b).
Proof. intros Ha Hb. unfold and_then. keep; done. Qed.

(** Nothing before the last step of [start] touches the two flags. *)
Lemma steps_flags (P : bool → bool → Prop) (n : network_results) :
  let Q d := P (running_ d) (shutdown_requested_ d) in
  Preserves Q validateConfiguration ∧ Preserves Q loadModules ∧ Preserves Q initializeSSL ∧
  Preserves Q (initializeNetwork n) ∧ Preserves Q enter_chroot ∧ Preserves Q drop_to_user ∧
  Preserves Q (modify make_limiter).
Proof.
  cbv zeta. repeat split; intros w d Hd.
  - unfold validateConfiguration, on_config. destruct (d_config d); [|done]. by destruct (Config.validate w c).
  - unfold loadModules. by destruct (d_config d).
  - unfold initializeSSL. destruct (d_config d); [|done]. case_match; [|done]. by case_match.
  - unfold initializeNetwork. destruct (d_config d); [|done]. by repeat case_match.
  - unfold enter_chroot. destruct (d_config d); [|done]. case_match; [|done]. by case_match.
  - unfold drop_to_user. destruct (d_config d); [|done]. case_match; [|done]. by case_match.
  - unfold modify, make_limiter. destruct (d_config d); [|done]. by case_match.
Qed.

Lemma start_flags (P : bool → bool → Prop) n :
  (∀ b, P false b → P true b) → Preserves (λ d, P (running_ d) (shutdown_requested_ d)) (start n) .
Proof.
  intros HP. destruct (steps_flags P n) as (H1' & H2' & H3' & H4' & H5' & H6' & H7').
  unfold start. apply preserves_bind; [keep|intros running]. apply preserves_if; [keep|].
  repeat (apply and_then_preserves; [assumption|]).
  apply preserves_bind; [assumption|intros []]. apply preserves_bind; [|intros []; keep].
  intros w d Hd. cbn. destruct (running_ d); [done|by apply HP].
Qed.

Lemma validated w d d' :
  validateConfiguration w d = (inr true, d') → ∃ c, d_config d' = Some c ∧ Config.valid_config w c.
Proof.
  unfold validateConfiguration, on_config. destruct (d_config d) as [c|]; [|done].
  destruct (Config.validate w c) as [r c'] eqn:E. intros [= -> <-]. exists c'. split; [done|].
  destruct (Config.validate_decides _ _ _ _ E) as [Hv [es ->]]. destruct Hv as [Hv _]. specialize (Hv eq_refl).
  destruct Hv. by constructor.
Qed.

Lemma modules_loaded w d d' :
  loadModules w d = (inr true, d') → d_config d' = d_config d ∧ modules_ d' ≠ ∅.
Proof.
  unfold loadModules. destruct (d_config d) as [c|] eqn:Ec; [|done]. set (ms := foldl _ _ _). intros [= Hb <-].
  split; [done|]. apply negb_true_iff, bool_decide_eq_false in Hb. done.
Qed.

Lemma ssl_initialized w d d' c :
  initializeSSL w d = (inr true, d') → d_config d = Some c →
  d_config d' = Some c ∧ modules_ d' = modules_ d ∧ (ssl_enabled (ssl c) = true → live_context d' ≠ None).
Proof.
  unfold initializeSSL. intros E Ec. rewrite Ec in E. destruct (ssl_enabled (ssl c)) eqn:En; [|by injection E as <-].
  pose proof (Ssl.initialize_ok (certificate_file (ssl c)) (private_key_file (ssl c)) (ca_file (ssl c))
    (tls_version (ssl c)) (cipher_suite (ssl c)) Ssl.new_context) as Hi.
  destruct (Ssl.initialize _ _ _ _ _ _) as [ok ctx]. injection E as -> <-. destruct Hi as [Hi _].
  split; [done|]. split; [done|]. intros _. unfold live_context. cbn. by rewrite Ec, En, Hi.
Qed.

Lemma network_initialized n w d d' :
  initializeNetwork n w d = (inr true, d') →
  d_config d' = d_config d ∧ modules_ d' = modules_ d ∧ ssl_context_ d' = ssl_context_ d ∧ listening d' = true.
Proof.
  unfold initializeNetwork. destruct (d_config d) as [c|] eqn:Ec; [|done]. cbv zeta.
  repeat (case_match; [done|]). intros [= <-]. done.
Qed.

Lemma network_binds n w d d' : initializeNetwork n w d = (inr true, d') → bind_works n = true.
Proof.
  unfold initializeNetwork. destruct (d_config d) as [c|]; [|done]. cbv zeta. repeat (case_match; [done|]).
  by destruct (bind_works n).
Qed.

(** A start that succeeds has bound the socket. *)
Lemma start_binds n w d d' : running_ d = false → start n w d = (inr true, d') → bind_works n = true.
Proof.
  intros Hr Hs. unfold start in Hs. apply st_bind_inr in Hs as (b & d0 & [= <- <-] & Hs). rewrite Hr in Hs.
  apply and_then_true in Hs as (d1 & _ & Hs). apply and_then_true in Hs as (d2 & _ & Hs).
  apply and_then_true in Hs as (d3 & _ & Hs). apply and_then_true in Hs as (d4 & E & _).
  by apply network_binds in E.
Qed.

Lemma chroot_keeps w d d' r :
  enter_chroot w d = (r, d') → d_config d' = d_config d ∧ modules_ d' = modules_ d ∧
  ssl_context_ d' = ssl_context_ d ∧ listening d' = listening d.
Proof.
  unfold enter_chroot. destruct (d_config d) as [c|] eqn:Ec; [|by intros [= _ <-]].
  case_match; [|by intros [= _ <-]]. destruct (Privileges.enterChroot _ _). by intros [= _ <-].
Qed.

Lemma drop_keeps w d d' r :
  drop_to_user w d = (r, d') → d_config d' = d_config d ∧ modules_ d' = modules_ d ∧
  ssl_context_ d' = ssl_context_ d ∧ listening d' = listening d.
Proof.
  unfold drop_to_user. destruct (d_config d) as [c|] eqn:Ec; [|by intros [= _ <-]].
  case_match; [|by intros [= _ <-]]. destruct (Privileges.dropProcessPrivileges _ _ _). by intros [= _ <-].
Qed.

Lemma limiter_keeps d :
  d_config (make_limiter d) = d_config d ∧ modules_ (make_limiter d) = modules_ d ∧
  ssl_context_ (make_limiter d) = ssl_context_ d ∧ listening (make_limiter d) = listening d.
Proof.
  unfold make_limiter. destruct (d_config d) as [c|] eqn:Ec; [case_match|]; cbn; rewrite ?Ec; done.
Qed.

(** Failing leaves the daemon not running. *)
Definition fails_idle (m : st RSyncDaemon bool) : Prop := ∀ w d d',
  running_ d = false → m w d = (inr false, d') → running_ d' = false.

Lemma fails_and_then a b :
  Preserves (λ d, running_ d = false) a → fails_idle b → fails_idle (and_then a b).
Proof.
  intros Ha Hb w d d' Hr (ok & d1 & E1 & E2)%st_bind_inr. specialize (Ha w d Hr). rewrite E1 in Ha. cbn [snd] in Ha.
  destruct ok; [exact (Hb w d1 d' Ha E2)|]. injection E2 as <-. exact Ha.
Qed.

Lemma start_false n : fails_idle (start n).
Proof.
  destruct (steps_flags (λ r _, r = false) n) as (H1' & H2' & H3' & H4' & H5' & H6' & _).
  intros w d d' Hr Hs. unfold start in Hs. apply st_bind_inr in Hs as (b & d0 & [= <- <-] & Hs). rewrite Hr in Hs.
  revert w d d' Hr Hs.
  do 6 (apply fails_and_then; [assumption|]). done.
Qed.

(** C10: What a start that succeeds has done: the configuration is valid, some
    module is served, TLS (if enabled) has a live context, the listening socket is
    bound, and the daemon runs.  A start that fails leaves the daemon not running,
    and then [stop] does nothing: it does not close a socket that was bound. *)
Theorem start_spec n w d r d' :
  running_ d = false → start n w d = (inr r, d') →
  (r = true → running_ d' = true ∧ listening d' = true ∧ modules_ d' ≠ ∅ ∧
     ∃ c, d_config d' = Some c ∧ Config.valid_config w c ∧
          (ssl_enabled (ssl c) = true → live_context d' ≠ None)) ∧
  (r = false → running_ d' = false ∧ stop d' = d').
Proof.
  intros Hr Hs. split; intros ->.
  - unfold start in Hs. apply st_bind_inr in Hs as (b & d0 & [= <- <-] & Hs). rewrite Hr in Hs.
    apply and_then_true in Hs as (d1 & E1 & Hs). apply and_then_true in Hs as (d2 & E2 & Hs).
    apply and_then_true in Hs as (d3 & E3 & Hs). apply and_then_true in Hs as (d4 & E4 & Hs).
    apply and_then_true in Hs as (d5 & E5 & Hs). apply and_then_true in Hs as (d6 & E6 & Hs).
    destruct (validated _ _ _ E1) as (c & Ec1 & Hvalid).
    destruct (modules_loaded _ _ _ E2) as (Ec2 & Hms). rewrite Ec1 in Ec2.
    destruct (ssl_initialized _ _ _ c E3 Ec2) as (Ec3 & Em3 & Hctx).
    destruct (network_initialized _ _ _ _ E4) as (Ec4 & Em4 & Es4 & Hlisten).
    destruct (chroot_keeps _ _ _ _ E5) as (Ec5 & Em5 & Es5 & El5).
    destruct (drop_keeps _ _ _ _ E6) as (Ec6 & Em6 & Es6 & El6).
    injection Hs as <-. cbn [running_ with_running].
    destruct (limiter_keeps d6) as (Ec7 & Em7 & Es7 & El7).
    split; [done|]. cbn [listening modules_ d_config with_running]. split; [congruence|]. split; [congruence|].
    exists c. split; [congruence|]. split; [done|]. intros Hssl. specialize (Hctx Hssl).
    unfold live_context in *. cbn [d_config ssl_context_ with_running].
    by rewrite Ec7, Es7, Ec6, Es6, Ec5, Es5, Ec4, Es4.
  - assert (running_ d' = false) as Hrun; [|split; [done|]; unfold stop; by rewrite Hrun].
    exact (start_false n w d d' Hr Hs).
Qed.

(** A daemon that has been stopped does not serve again: after [stop] of a
    running daemon, whatever is started later, the loops of all threads end at
    once, although [start] answers [true] and [isRunning] agrees. *)
Theorem stopped_for_good n w d :
  running_ d = true →
  let d1 := stop d in let d2 := snd (start n w d1) in
  serving d1 = false ∧ serving d2 = false ∧ shutdown_requested_ d2 = true.
Proof.
  intros Hr d1 d2. assert (running_ d1 = false ∧ shutdown_requested_ d1 = true) as [Hr1 Hs1].
  { unfold d1, stop, request_stop. rewrite Hr. cbn [negb]. by destruct (_ >=? 0). }
  assert (shutdown_requested_ d2 = true) as Hs2.
  { unfold d2. by apply (start_flags (λ _ b, b = true) n (λ b Hb, Hb) w d1). }
  assert (∀ e, shutdown_requested_ e = true → serving e = false) as Hserv
    by (intros e He; unfold serving; rewrite He; apply andb_false_r).
  split; [by apply Hserv|]. split; [by apply Hserv|done].
Qed.

(** ** Accepting *)
(** Each check by what it keeps and what its [true] means. *)
Definition same_but_limiter (d d' : RSyncDaemon) : Prop :=
  d_config d' = d_config d ∧ active_sessions_ d' = active_sessions_ d ∧
  total_connections_ d' = total_connections_ d ∧ ssl_context_ d' = ssl_context_ d.

Lemma access_step ip d c ok d1 :
  d_config d = Some c → checkAccess ip d = (ok, d1) →
  same_but_limiter d d1 ∧ limited d1 = limited d ∧
  (ok = true → access_enabled (access c) = true →
     NetworkAccess.isAllowed ip (denied_hosts (access c)) (denied_networks (access c))
       (allowed_hosts (access c)) (allowed_networks (access c)) = true).
Proof.
  unfold checkAccess. intros Ec. rewrite Ec. case_match eqn:Een; [|case_match]; intros [= <- <-];
    repeat (split; [done|]); [|done|done]. intros _ Hen. by rewrite Hen in Een.
Qed.

Lemma rate_step t ip d ok d1 :
  checkRateLimit t ip d = (ok, d1) →
  same_but_limiter d d1 ∧
  (∀ l, limited d = Some l →
     ∃ l', limited d1 = Some l' ∧ RateLimiter.allowConnection t ip l = (ok, l')).
Proof.
  unfold checkRateLimit. destruct (limited d) as [l|] eqn:El; [|by intros [= _ <-]].
  destruct (RateLimiter.allowConnection t ip l) as [ok' l'] eqn:Ea. intros [= <- <-]. split; [done|].
  intros l0 [= <-]. exists l'. split; [|done]. unfold limited in *. cbn.
  destruct (d_config d) as [c|]; [|done]. by destruct (rate_enabled _).
Qed.

Lemma update_step t t' ip d :
  same_but_limiter d (updateRateLimit t t' ip d) ∧
  (∀ l, limited d = Some l →
     rate_limiter_ (updateRateLimit t t' ip d) = Some (RateLimiter.recordConnection t t' ip l)).
Proof.
  unfold updateRateLimit. destruct (limited d) as [l|]; [|done]. split; [done|]. by intros l0 [= <-].
Qed.

(** Who becomes a session.  A connection that is accepted comes from an
    address the access lists allow, found room in the list, and has been counted
    by the rate limiter exactly as [try_connect] counts an admitted attempt; its
    session starts with nobody authenticated, over TLS on its own socket whenever
    the daemon has a live context.  A connection that is refused adds no session
    and is not counted. *)
Theorem accept_spec a d c :
  d_config d = Some c →
  let '(ok, d') := accept_one a d in
  if ok then
    (access_enabled (access c) = true →
       NetworkAccess.isAllowed (client_ip a) (denied_hosts (access c)) (denied_networks (access c))
         (allowed_hosts (access c)) (allowed_networks (access c)) = true) ∧
    Z.of_nat (length (active_sessions_ d)) < max_connections (network c) ∧
    (∀ l, limited d = Some l →
       RateLimiter.try_connect (RateLimiter.Attempt (client_ip a) (asked a) (recorded a) (recorded_hour a)) l =
       (true, default l (rate_limiter_ d'))) ∧
    ∃ s, active_sessions_ d' = active_sessions_ d ++ [s] ∧ authenticated_user_ s = "" ∧ at_rest s ∧
         client_socket_ s = client_socket a ∧
         (live_context d ≠ None → ∃ conn, ssl_connection_ s = Some conn ∧ Ssl.isOpen conn = true ∧ Ssl.fd conn = client_socket a)
  else active_sessions_ d' = active_sessions_ d ∧ total_connections_ d' = total_connections_ d.
Proof.
  intros Ec. unfold accept_one, check_client.
  destruct (checkAccess (client_ip a) d) as [ok1 d1] eqn:E1.
  destruct (access_step _ _ _ _ _ Ec E1) as ((Ec1 & Es1 & Et1 & Ex1) & Elim1 & Hacc).
  destruct ok1; cbn [negb]; [|done]. specialize (Hacc eq_refl).
  destruct (checkRateLimit (asked a) (client_ip a) d1) as [ok2 d2] eqn:E2.
  destruct (rate_step _ _ _ _ _ E2) as ((Ec2 & Es2 & Et2 & Ex2) & Hlim). rewrite Elim1 in Hlim.
  destruct ok2; cbn [negb]; [|cbn; by rewrite Es2, Et2].
  destruct (full d2) eqn:Efull; [cbn; by rewrite Es2, Et2|].
  cbn [negb].
  unfold full in Efull. rewrite Ec2, Ec1, Ec, Es2, Es1 in Efull. apply Z.leb_gt in Efull.
  destruct (update_step (recorded a) (recorded_hour a) (client_ip a) d2) as ((Ec3 & Es3 & Et3 & Ex3) & Hrec).
  set (d3 := updateRateLimit (recorded a) (recorded_hour a) (client_ip a) d2) in *. clearbody d3.
  assert (∀ l, limited d = Some l →
    RateLimiter.try_connect (RateLimiter.Attempt (client_ip a) (asked a) (recorded a) (recorded_hour a)) l =
    (true, default l (rate_limiter_ d3))) as Htry.
  { intros l Hl. destruct (Hlim l Hl) as (l' & Hl' & Ha). unfold RateLimiter.try_connect. cbn.
    by rewrite Ha, (Hrec l' Hl'). }
  assert (live_context d3 = live_context d) as -> by (unfold live_context; by rewrite Ec3, Ec2, Ec1, Ex3, Ex2, Ex1).
  assert (active_sessions_ d3 = active_sessions_ d) as Es by congruence.
  destruct (live_context d) as [ctx|] eqn:Ectx.
  - unfold handshake. assert (ssl_context_ d3 = Some ctx) as ->.
    { rewrite Ex3, Ex2, Ex1. revert Ectx. unfold live_context. rewrite Ec. destruct (ssl_context_ d); [|done].
      destruct (_ && _); [congruence|done]. }
    destruct (Ssl.acceptConnection _ _ _ _ ctx) as [[conn|] ctx'] eqn:Ea; [|split; cbn; congruence].
    split; [exact Hacc|]. split; [exact Efull|]. split; [exact Htry|]. eexists. cbn. rewrite Es.
    do 4 (split; [done|]). intros _. exists conn. split; [done|]. by apply (Ssl.accept_open _ _ _ _ _ _ _ Ea).
  - split; [exact Hacc|]. split; [exact Efull|]. split; [exact Htry|]. eexists. cbn. rewrite Es.
    do 4 (split; [done|]). done.
Qed.
End daemon.

(** ** Witnesses *)
#[local] Existing Instances ConfigDocuments.no_json ConfigDocuments.no_yaml Ssl.toy_tls Privileges.toy_accounts
  NetworkAccess.dotted_quad_InetPton Passwords.toy_sha256 SshKey.toy_openssl.
#[local] Instance toy_modules : ModuleOps ModuleConfig := filesystem_module (λ _, 5).
Abbreviation toy_w := FileSystemModule.toy_world.

Definition toy_configuration : Configuration :=
  let c := new_configuration in
  set_modules {["data" := FileSystemModule.toy_module; "lost" := set_mod_path "/nowhere" default_module]}
    (set_access default_access (set_network (set_max_connections 1 (network c)) c)).
Definition root_process : Privileges.credentials := Privileges.MkCredentials 0 0 [0] "" "/".
Definition toy_daemon (c : Configuration) : RSyncDaemon := new_daemon (Some c) ∅ root_process.
Definition network_up : network_results := MkNetworkResults 3 true true (λ _, true) true true.
Definition started (c : Configuration) : RSyncDaemon := snd (start network_up toy_w (toy_daemon c)).

Lemma start_spec_witness :
  fst (start network_up toy_w (toy_daemon toy_configuration)) = inr true ∧
  running_ (started toy_configuration) = true ∧ listening (started toy_configuration) = true.
Proof.
  destruct (start_spec network_up toy_w (toy_daemon toy_configuration) true (started toy_configuration))
    as [H1 _]; [reflexivity|vm_compute; reflexivity|].
  destruct (H1 eq_refl) as (Hr & Hl & _). split; [vm_compute; reflexivity|]. by split.
Defined.

(** A start that fails after binding leaves the port bound. *)
Example failed_start_listens :
  let c := set_security (set_sec_user "nobody-here" (security toy_configuration)) toy_configuration in
  fst (start network_up toy_w (toy_daemon c)) = inr false ∧ listening (started c) = true ∧
  listening (stop (started c)) = true.
Proof. vm_compute. done. Qed.

Lemma stopped_for_good_witness :
  running_ (started toy_configuration) = true ∧
  fst (start network_up toy_w (stop (started toy_configuration))) = inr true ∧
  serving (snd (start network_up toy_w (stop (started toy_configuration)))) = false.
Proof.
  split; [vm_compute; reflexivity|]. split; [vm_compute; reflexivity|].
  destruct (stopped_for_good network_up toy_w (started toy_configuration)) as (_ & H2 & _);
    [vm_compute; reflexivity|exact H2].
Defined.

Lemma loadModules_spec_witness :
  ∃ d', loadModules toy_w (toy_daemon toy_configuration) = (inr (negb (bool_decide (modules_ d' = ∅))), d') ∧
  modules_ d' !! "lost" = None.
Proof.
  destruct (loadModules_spec (toy_daemon toy_configuration) toy_configuration toy_w) as (d' & E & Hm); [reflexivity|].
  exists d'. split; [exact E|]. destruct (modules_ d' !! "lost") as [m|] eqn:El; [|reflexivity].
  apply Hm in El as (m0 & E0 & -> & Hv). vm_compute in E0. injection E0 as <-. vm_compute in Hv. discriminate.
Defined.

Definition visit (socket now : Z) : arrival := MkArrival socket "10.0.0.7" now now now true true true.

Lemma accept_spec_witness :
  fst (accept_one (visit 8 1000) (started toy_configuration)) = true ∧
  Z.of_nat (length (active_sessions_ (started toy_configuration))) < 1.
Proof.
  split; [vm_compute; reflexivity|].
  pose proof (accept_spec (visit 8 1000) (started toy_configuration)
    (default toy_configuration (d_config (started toy_configuration)))) as Ha.
  destruct (accept_one (visit 8 1000) (started toy_configuration)) as [ok d'] eqn:E.
  assert (ok = true) as -> by (vm_compute in E; injection E as <- _; reflexivity).
  destruct Ha as (_ & Hlt & _); [vm_compute; reflexivity|]. exact Hlt.
Defined.

Abbreviation reload_toy := (reloadConfig (λ _, None) (λ _, Some 5) 9 Config.toy_files).
Definition from_file : Configuration := (Config.toy_load "/etc/d.conf" new_configuration).2.

Lemma reloadConfig_spec_witness :
  fst (reload_toy (toy_daemon from_file)) = inr true ∧
  ∃ c2, d_config (snd (reload_toy (toy_daemon from_file))) = Some c2 ∧ ¬ ¬ Config.valid_config Config.toy_files c2.
Proof.
  split; [vm_compute; reflexivity|].
  destruct (reloadConfig_spec (λ _, None) (λ _, Some 5) 9 Config.toy_files (toy_daemon from_file) from_file true
    (snd (reload_toy (toy_daemon from_file)))) as (b & c1 & c2 & _ & _ & Hd & Hbad & _);
    [reflexivity|vm_compute; reflexivity|]. exists c2. split; [by rewrite Hd|].
  intros Hn. discriminate (proj1 (Hbad (or_intror Hn))).
Defined.

(** A reload that is refused has changed the port and kept the modules. *)
Example refused_reload_changes :
  let d := snd (reload_toy (toy_daemon from_file)) in
  let c := set_config_file_path "/etc/open.conf" from_file in
  let d' := snd (reload_toy (with_configuration (Some c) d)) in
  fst (reload_toy (with_configuration (Some c) d)) = inr false ∧
  (bind_port ∘ network <$> d_config d') = Some 0 ∧ (bind_port ∘ network <$> d_config d) = Some 873 ∧
  modules_ d' = modules_ d.
Proof. vm_compute. done. Qed.
