(* ===== verification/Threads.v ===== *)
(** * The threads of a daemon: [core/daemon.cpp]

    The accept loop, the workers, the configuration monitor and the thread that
    calls [stop], as actions on one [system].  A mutex makes the code it guards
    one step.  The loops test the flags before they do anything and not again: a
    thread that is past its test goes on with its round although [stop] has set
    the flags since.  Two calls can block, because client sockets are blocking and
    have no timeout: the TLS handshake, which the accept loop makes itself, and
    the turn of a session.  What the clients do is the class [Peers]; an action
    that needs a client who does nothing is not possible. *)
From S2P Require Import Prelude CppString ConfigTypes FileSys State Protocol Session Daemon.
From S2P Require Config ConfigDocuments FileSystemModule Ssl AuthManager NetworkAccess.
From S2P Require Privileges Passwords SshKey.
Open Scope Z_scope.

(** ** Clients *)

(** By socket: the client sends nothing and does not hang up; the buffers to the
    client are full, and it takes nothing and does not hang up. *)
Class Peers := { silent : Z → bool; congested : Z → bool }.

(** ** State *)
Inductive worker :=
  | Resting                                (* at the head of its loop *)
  | Ready                                  (* past the test of the loop *)
  | Busy (todo_ finished_ : list session)  (* in a round *)
  | Ended.
Definition todo (k : worker) : list session := match k with Busy xs _ => xs | _ => [] end.
Definition finished (k : worker) : list session := match k with Busy _ xs => xs | _ => [] end.

Inductive acceptor_state :=
  | Polling                                (* at the head of the loop *)
  | Accepting                              (* past the test of the loop *)
  | Handshaking (a : arrival) (snapshot : gmap string ModuleConfig)
  | Over.

(** The thread that calls [stop]: which thread it waits for. *)
Inductive stage := Running | JoinAcceptor | JoinMonitor | JoinWorkers (i : nat) | Stopped.
#[export] Instance stage_eq : EqDecision stage.
Proof. solve_decision. Defined.

(** [gone]: sessions a worker has destroyed; [discarded]: those [stop] has. *)
Record system := MkSystem {
  daemon : RSyncDaemon;
  workers : list worker;
  acceptor : acceptor_state;
  monitoring : bool;
  caller : stage;
  gone : list session;
  discarded : list session
}.

Definition with_daemon (d : RSyncDaemon) (s : system) : system :=
  MkSystem d (workers s) (acceptor s) (monitoring s) (caller s) (gone s) (discarded s).
Definition with_worker (i : nat) (k : worker) (s : system) : system :=
  MkSystem (daemon s) (<[i := k]> (workers s)) (acceptor s) (monitoring s) (caller s) (gone s) (discarded s).
Definition with_acceptor (a : acceptor_state) (s : system) : system :=
  MkSystem (daemon s) (workers s) a (monitoring s) (caller s) (gone s) (discarded s).
Definition with_monitoring (b : bool) (s : system) : system :=
  MkSystem (daemon s) (workers s) (acceptor s) b (caller s) (gone s) (discarded s).
Definition with_caller (c : stage) (s : system) : system :=
  MkSystem (daemon s) (workers s) (acceptor s) (monitoring s) c (gone s) (discarded s).
Definition with_over (xs ys : list session) (s : system) : system :=
  MkSystem (daemon s) (workers s) (acceptor s) (monitoring s) (caller s) (gone s ++ xs) (discarded s ++ ys).

(** After [start]: [n] workers, the accept thread, and the monitor if there is
    to be one. *)
Definition initial (n : nat) (d : RSyncDaemon) : system :=
  MkSystem d (replicate n Resting) Polling
    (match d_config d with Some c => auto_reload c | None => false end) Running [] [].
Definition boot (d : RSyncDaemon) : system := initial (worker_count d) d.

(** A turn of the session makes a call that does not return: it waits for a
    request, for the bytes of an upload, or for room to send. *)
Definition stalls {clients : Peers} (x : session) : bool :=
  let k := client_socket_ x in
  active_ x && (k >=? 0) &&
  match transfer_state_ x with
  | IDLE => silent k || congested k
  | RECEIVING_FILE => silent k
  | SENDING_FILE => congested k
  end.

(** ** Actions *)
Inductive action :=
  | Poll
  | Accept (a : arrival)
  | AcceptFails (transient : bool) (* [EAGAIN] or [EINTR], or any other error *)
  | Handshake
  | AcceptorEnds
  | Enter (i : nat)
  | Take (i : nat)
  | Work (i : nat) (what : string) (e : event (Draws:=AuthManager.draws))
  | Return (i : nat)
  | WorkerEnds (i : nat)
  | MonitorEnds
  | Stop
  | Joins.

Section threads.
Context `{Config_json : ConfigDocuments.JsonLibrary} `{Config_yaml : ConfigDocuments.YamlLibrary}.
Context `{Ssl.TlsLibrary} `{Privileges.Accounts} `{NetworkAccess.InetPton} `{Passwords.Sha256} `{SshKey.OpenSSL}.
Context `{ModuleOps ModuleConfig} {clients : Peers}.

(** [acceptLoop] with a connection, up to the handshake if there is to be one. *)
Definition arrive (a : arrival) (s : system) : system :=
  let '(ok, d) := check_client a (daemon s) in
  if negb ok then with_daemon d s else
  match live_context d with
  | Some _ => with_acceptor (Handshaking a (modules_ d)) (with_daemon d s)
  | None => with_daemon (add_session a (modules_ d) None d) s
  end.

(** The test of the loop; what [accept] gives, with no other test (a call that
    began before [stop] closed the socket may still give a connection); the
    handshake; the end of the loop. *)
Definition acceptor_act (x : action) (s : system) : option system :=
  match x, acceptor s with
  | Poll, Polling => if serving (daemon s) then Some (with_acceptor Accepting s) else None
  | Accept a, Accepting => Some (arrive a (with_acceptor Polling s))
  | AcceptFails transient, Accepting => Some (with_acceptor (if transient then Polling else Over) s)
  | Handshake, Handshaking a ms =>
      if silent (client_socket a) then None
      else Some (with_acceptor Polling (with_daemon (snd (handshake a ms (daemon s))) s))
  | AcceptorEnds, Polling => if serving (daemon s) then None else Some (with_acceptor Over s)
  | _, _ => None
  end.

(** [workerLoop]: the test of the loop; taking the active sessions, one turn of
    one of them, giving back those still active, with no other test; and the end
    of the loop. *)
Definition worker_act (x : action) (s : system) (w : world) : option (system * world) :=
  let d := daemon s in
  match x with
  | Enter i =>
      match workers s !! i with
      | Some Resting => if serving d then Some (with_worker i Ready s, w) else None
      | _ => None
      end
  | Take i =>
      match workers s !! i with
      | Some Ready =>
          Some (with_worker i (Busy (filter (λ s, active_ s = true) (active_sessions_ d)) [])
                 (with_daemon (with_sessions (filter (λ s, active_ s = false) (active_sessions_ d)) (total_connections_ d) d) s),
                w)
      | _ => None
      end
  | Work i what e =>
      match workers s !! i with
      | Some (Busy (x :: rest) fin) =>
          if stalls x then None else
          let '(d, x, w) := work_one what e d x w in
          Some (with_worker i (Busy rest (fin ++ [x])) (with_daemon d s), w)
      | _ => None
      end
  | Return i =>
      match workers s !! i with
      | Some (Busy [] fin) =>
          Some (with_over (filter (λ s, active_ s = false) fin) []
                 (with_worker i Resting
                   (with_daemon (with_sessions (active_sessions_ d ++ filter (λ s, active_ s = true) fin) (total_connections_ d) d) s)),
                w)
      | _ => None
      end
  | WorkerEnds i =>
      match workers s !! i with
      | Some Resting => if serving d then None else Some (with_worker i Ended s, w)
      | _ => None
      end
  | _ => None
  end.

(** [configMonitorLoop] at its end.  An iteration before changes nothing
    ([Daemon.monitors_idle]). *)
Definition monitor_act (x : action) (s : system) : option system :=
  match x with
  | MonitorEnds => if monitoring s && negb (serving (daemon s)) then Some (with_monitoring false s) else None
  | _ => None
  end.

(** The last part of [stop]: what is still in the list is closed and destroyed. *)
Definition finish (s : system) : system :=
  let d := closeSessions (daemon s) in
  with_caller Stopped (with_over [] (destroy <$> active_sessions_ d) (with_daemon (finish_stop (daemon s)) s)).

(** [stop] and [joinThreads]: the flags are set and the socket closed, and then the
    threads are awaited one after another. *)
Definition caller_act (x : action) (s : system) : option system :=
  match x, caller s with
  | Stop, Running =>
      if running_ (daemon s) then Some (with_caller JoinAcceptor (with_daemon (request_stop (daemon s)) s)) else None
  | Joins, JoinAcceptor => match acceptor s with Over => Some (with_caller JoinMonitor s) | _ => None end
  | Joins, JoinMonitor => if monitoring s then None else Some (with_caller (JoinWorkers 0) s)
  | Joins, JoinWorkers i =>
      match workers s !! i with
      | Some Ended => Some (with_caller (JoinWorkers (S i)) s)
      | Some _ => None
      | None => Some (finish s)
      end
  | _, _ => None
  end.

(** [None]: the action is not possible now. *)
Definition act (x : action) (y : system * world) : option (system * world) :=
  let '(s, w) := y in
  match x with
  | Poll | Accept _ | AcceptFails _ | Handshake | AcceptorEnds => s ← acceptor_act x s; Some (s, w)
  | Enter _ | Take _ | Work _ _ _ | Return _ | WorkerEnds _ => worker_act x s w
  | MonitorEnds => s ← monitor_act x s; Some (s, w)
  | Stop | Joins => s ← caller_act x s; Some (s, w)
  end.

Fixpoint acts (l : list action) (y : system * world) : option (system * world) :=
  match l with
  | [] => Some y
  | x :: l => y ← act x y; acts l y
  end.

(** Without other actions in between, a connection is [accept_one]. *)
Lemma accept_in_turn a s :
  acceptor s = Polling → serving (daemon s) = true → silent (client_socket a) = false →
  ∃ l, (l = [Poll; Accept a] ∨ l = [Poll; Accept a; Handshake]) ∧
    ∀ w, acts l (s, w) = Some (with_daemon (snd (accept_one a (daemon s))) s, w).
Proof.
  intros Ha Hs Hq. unfold accept_one.
  assert (with_acceptor Polling s = s) as Hid by (destruct s; cbn in Ha; by subst).
  assert (∀ l w, acts (Poll :: Accept a :: l) (s, w) = acts l (arrive a s, w)) as E
    by (intros l w; cbn; rewrite Ha, Hs; cbn; by rewrite <- Hid at 2).
  destruct (check_client a (daemon s)) as [[] d] eqn:Ead; cbn [negb].
  - destruct (live_context d) as [ctx|] eqn:El.
    + exists [Poll; Accept a; Handshake]. split; [by right|]. intros w. rewrite E.
      unfold arrive. rewrite Ead, El. cbn. rewrite Hq. cbn. by rewrite <- Ha.
    + exists [Poll; Accept a]. split; [by left|]. intros w. rewrite E. unfold arrive. by rewrite Ead, El.
  - exists [Poll; Accept a]. split; [by left|]. intros w. rewrite E. unfold arrive. by rewrite Ead.
Qed.

(** ** Counting sessions *)
Definition held (k : worker) : nat := length (todo k) + length (finished k).
Definition in_flight (s : system) : nat := list_sum (held <$> workers s).
Definition known (s : system) : nat :=
  length (active_sessions_ (daemon s)) + in_flight s + length (gone s) + length (discarded s).

#[local] Arguments list_sum : simpl never.
Lemma list_sum_cons n l : list_sum (n :: l) = (n + list_sum l)%nat.
Proof. done. Qed.

Lemma filter_split {A} (P Q : A → Prop) `{∀ x, Decision (P x)} `{∀ x, Decision (Q x)} (l : list A) :
  (∀ x, P x ↔ ¬ Q x) → (length (filter P l) + length (filter Q l) = length l)%nat.
Proof.
  intros E. induction l as [|x l IH]; [done|]. rewrite !filter_cons. specialize (E x).
  destruct (decide (P x)), (decide (Q x)); cbn; try tauto; lia.
Qed.

(** The sum of a measure over the workers when one of them is replaced. *)
Lemma sum_insert (f : worker → nat) (l : list worker) i k k' :
  l !! i = Some k → (list_sum (f <$> <[i := k']> l) + f k = list_sum (f <$> l) + f k')%nat.
Proof.
  revert i; induction l as [|x l IH]; intros [|i] Hi; try done.
  - injection Hi as ->. change (<[0%nat := k']> (k :: l)) with (k' :: l).
    rewrite !fmap_cons, !list_sum_cons. lia.
  - specialize (IH i Hi). change (<[S i := k']> (x :: l)) with (x :: <[i := k']> l).
    rewrite !fmap_cons, !list_sum_cons. lia.
Qed.

Lemma active_split (l : list session) :
  (length (filter (λ x, active_ x = false) l) + length (filter (λ x, active_ x = true) l) = length l)%nat.
Proof. apply filter_split. intros x. by rewrite not_true_iff_false. Qed.

(** Every connection counted is in the list, with a worker, or over; sessions in
    the list are active, those a worker has destroyed are not, and those [stop]
    has destroyed have been through the destructor. *)
Record system_ok (s : system) : Prop := {
  ok_count : total_connections_ (daemon s) = Z.of_nat (known s) `mod` 2 ^ 64;
  ok_listed : Forall (λ x, active_ x = true) (active_sessions_ (daemon s));
  ok_gone : Forall (λ x, active_ x = false) (gone s);
  ok_discarded : Forall (λ x, ∃ y, x = destroy y) (discarded s)
}.

Lemma settled_ok a s r :
  system_ok s → settled a (daemon s) r → system_ok (with_daemon r.2 s).
Proof.
  intros [Hc Hl Hg Hd]. unfold settled. destruct r as [[] d']; cbn [fst snd].
  - intros (_ & _ & _ & _ & Et & ms & ssl & Es). constructor; cbn; [|rewrite Es; apply Forall_app; split; [done|by apply Forall_singleton]|done..].
    unfold known, in_flight in *. cbn. rewrite Et, Es, Hc, Zplus_mod_idemp_l, length_app. cbn. f_equal. lia.
  - intros (_ & _ & _ & Es & Et & _). constructor; cbn; [|by rewrite Es|done..].
    unfold known, in_flight in *. cbn. by rewrite Et, Es.
Qed.

Lemma front_ok s d : system_ok s → same_front (daemon s) d → system_ok (with_daemon d s).
Proof. intros Hs Hd. by apply (settled_ok (MkArrival 0 "" 0 0 0 true true true) s (false, d)). Qed.

Lemma request_front d :
  active_sessions_ (request_stop d) = active_sessions_ d ∧ total_connections_ (request_stop d) = total_connections_ d.
Proof. unfold request_stop. by destruct (_ >=? 0). Qed.

Lemma arrive_ok a s : system_ok s → system_ok (arrive a s).
Proof.
  intros Hs. unfold arrive. pose proof (admit_front a (daemon s)) as Hf.
  destruct (check_client a (daemon s)) as [[] d]; cbn [negb snd] in *; [|by apply front_ok].
  destruct (live_context d); [by destruct (front_ok s d Hs Hf)|].
  apply (settled_ok a s (true, _) Hs). by apply add_joins.
Qed.

Lemma acceptor_ok x s s' : system_ok s → acceptor_act x s = Some s' → system_ok s'.
Proof.
  intros Hs. unfold acceptor_act. destruct x; try done; destruct (acceptor s) as [| |a' ms|]; try done.
  - destruct (serving _); [|done]. intros [= <-]. by destruct Hs.
  - intros [= <-]. apply arrive_ok. by destruct Hs.
  - intros [= <-]. by destruct Hs.
  - destruct (silent _); [done|]. intros [= <-].
    by destruct (settled_ok a' s (handshake a' ms (daemon s)) Hs (handshake_settled a' ms _ _ (reflexivity _))).
  - destruct (serving _); [done|]. intros [= <-]. by destruct Hs.
Qed.

Lemma work_one_keeps what e d x w :
  let d' := (work_one what e d x w).1.1 in
  total_connections_ d' = total_connections_ d ∧ active_sessions_ d' = active_sessions_ d ∧
  running_ d' = running_ d ∧ shutdown_requested_ d' = shutdown_requested_ d.
Proof. unfold work_one. destruct (active_ x); [|done]. by destruct (work _ _ _ _). Qed.

Lemma held_insert_sum s i k k' :
  workers s !! i = Some k →
  (list_sum (held <$> <[i := k']> (workers s)) + (length (todo k) + length (finished k)) =
   in_flight s + (length (todo k') + length (finished k')))%nat.
Proof. apply (sum_insert held). Qed.

Lemma worker_ok x s w s' w' : system_ok s → worker_act x s w = Some (s', w') → system_ok s'.
Proof.
  intros [Hc Hl Hg Hd]. unfold worker_act. destruct x as [| | | | |i|i|i what e|i|i| | |]; try done.
  - destruct (workers s !! i) as [[| | |]|] eqn:Ei; try done. destruct (serving (daemon s)); [|done]. intros [= <- <-].
    constructor; cbn; [|done..]. rewrite Hc. unfold known. cbn. unfold in_flight at 2. cbn [workers with_worker with_daemon with_over].
    pose proof (held_insert_sum s i _ Ready Ei) as E. cbn [todo finished length] in E. do 2 f_equal. lia.
  - destruct (workers s !! i) as [[| | |]|] eqn:Ei; try done. intros [= <- <-].
    constructor; cbn; [|apply Forall_forall; intros x [_ Hx]%list_elem_of_filter; by eapply Forall_forall in Hl|done..].
    rewrite Hc. unfold known. cbn. unfold in_flight at 2. cbn [workers with_worker with_daemon with_over].
    pose proof (held_insert_sum s i _ (Busy (filter (λ s, active_ s = true) (active_sessions_ (daemon s))) []) Ei) as E.
    cbn [todo finished length] in E. pose proof (active_split (active_sessions_ (daemon s))). do 2 f_equal. lia.
  - destruct (workers s !! i) as [[| |[|x rest] fin|]|] eqn:Ei; try done. destruct (stalls x); [done|].
    pose proof (work_one_keeps what e (daemon s) x w) as (Et & Es & _).
    destruct (work_one what e (daemon s) x w) as [[d x'] w1]. intros [= <- <-]. cbn in Et, Es.
    constructor; cbn; [|by rewrite Es|done..]. rewrite Et, Hc. unfold known. cbn. rewrite Es. unfold in_flight at 2. cbn [workers with_worker with_daemon with_over].
    pose proof (held_insert_sum s i _ (Busy rest (fin ++ [x'])) Ei) as E. cbn [todo finished length] in E.
    rewrite length_app in E. cbn [length] in E. do 2 f_equal. lia.
  - destruct (workers s !! i) as [[| |[|? ?] fin|]|] eqn:Ei; try done. intros [= <- <-]. constructor; cbn.
    + rewrite Hc. unfold known. cbn. rewrite app_nil_r, !length_app. unfold in_flight at 2. cbn [workers with_worker with_daemon with_over].
      pose proof (held_insert_sum s i _ Resting Ei) as E. cbn [todo finished length] in E.
      pose proof (active_split fin). do 2 f_equal. lia.
    + apply Forall_app. split; [done|]. apply Forall_forall. intros x [? _]%list_elem_of_filter. done.
    + apply Forall_app. split; [done|]. apply Forall_forall. intros x [? _]%list_elem_of_filter. done.
    + by rewrite app_nil_r.
  - destruct (workers s !! i) as [[| | |]|] eqn:Ei; try done. destruct (serving (daemon s)); [done|]. intros [= <- <-].
    constructor; cbn; [|done..]. rewrite Hc. unfold known. cbn. unfold in_flight at 2. cbn [workers with_worker with_daemon with_over].
    pose proof (held_insert_sum s i _ Ended Ei) as E. cbn [todo finished length] in E. do 2 f_equal. lia.
Qed.

Lemma caller_ok x s s' : system_ok s → caller_act x s = Some s' → system_ok s'.
Proof.
  intros [Hc Hl Hg Hd]. unfold caller_act. destruct x; try done; destruct (caller s) as [| | |i|]; try done.
  - destruct (running_ _); [|done]. intros [= <-]. destruct (request_front (daemon s)) as [Es Et].
    constructor; cbn; rewrite ?Es, ?Et; [|done..]. rewrite Hc. unfold known, in_flight. cbn. by rewrite Es.
  - destruct (acceptor s); try done. by intros [= <-].
  - destruct (monitoring s); [done|]. by intros [= <-].
  - destruct (workers s !! i) as [[| | |]|]; try done; [by intros [= <-]|]. intros [= <-]. constructor; cbn.
    + rewrite Hc. unfold known, in_flight. cbn. rewrite app_nil_r, !length_app, !length_fmap. do 2 f_equal. lia.
    + done.
    + by rewrite app_nil_r.
    + apply Forall_app. split; [done|]. apply Forall_forall. intros x (y & -> & _)%list_elem_of_fmap. by exists y.
Qed.

Lemma act_ok x s w s' w' : system_ok s → act x (s, w) = Some (s', w') → system_ok s'.
Proof.
  intros Hs. destruct x; cbn [act];
    try (match goal with |- (?m ≫= _) = _ → _ => destruct m as [s1|] eqn:E; [|done] end; cbn; intros [= <- <-]);
    try by eapply acceptor_ok. 1-5: by apply worker_ok. 2-3: by eapply caller_ok.
  unfold monitor_act in E. destruct (_ && _); [|done]. injection E as <-. by destruct Hs.
Qed.

(** An invariant of every action is one of every schedule. *)
Lemma acts_invariant (P : system → world → Prop) l s w s' w' :
  (∀ x s w s' w', P s w → act x (s, w) = Some (s', w') → P s' w') →
  P s w → acts l (s, w) = Some (s', w') → P s' w'.
Proof.
  intros Hstep. revert s w. induction l as [|x l IH]; intros s w Hs; cbn [acts]; [by intros [= <- <-]|].
  destruct (act x (s, w)) as [[s1 w1]|] eqn:E; cbn; [|done]. apply IH. by eapply Hstep.
Qed.

Lemma initial_ok n d : active_sessions_ d = [] → total_connections_ d = 0 → system_ok (initial n d).
Proof.
  intros Ha Ht. constructor; cbn; [|by rewrite Ha|done..]. unfold known, in_flight. cbn. rewrite Ha, Ht.
  assert (list_sum (held <$> replicate n Resting) = 0%nat) as ->; [|done].
  induction n as [|n IH]; [done|]. cbn [replicate]. rewrite fmap_cons, list_sum_cons. exact IH.
Qed.

(** ** Each connection *)

(** The sessions that are served: in the list or with a worker; and all there
    have ever been. *)
Definition carried (k : worker) : list session := todo k ++ finished k.
Definition living (s : system) : list session := active_sessions_ (daemon s) ++ concat (carried <$> workers s).
Definition everyone (s : system) : list session := living s ++ gone s ++ discarded s.

(** The session an action of the accept loop begins, and those of a schedule, in
    order. *)
Definition visitor (a : arrival) (ms : gmap string ModuleConfig) (ssl : option Ssl.SSLConnection) (d : RSyncDaemon) : session :=
  new_session (client_socket a) (client_ip a) (d_config d) ms (d_auth_manager d) ssl.
Definition born (x : action) (s : system) : list session :=
  match x, acceptor s with
  | Accept a, Accepting =>
      let '(ok, d) := check_client a (daemon s) in
      if negb ok then [] else
      match live_context d with Some _ => [] | None => [visitor a (modules_ d) None d] end
  | Handshake, Handshaking a ms =>
      match ssl_context_ (daemon s) with
      | Some ctx =>
          match fst (Ssl.acceptConnection (ssl_new_works a) (set_fd_works a) (handshake_works a) (client_socket a) ctx) with
          | Some conn => [visitor a ms (Some conn) (daemon s)]
          | None => []
          end
      | None => []
      end
  | _, _ => []
  end.
Fixpoint births (l : list action) (y : system * world) : list session :=
  match l with
  | [] => []
  | x :: l => match act x y with Some y' => born x y.1 ++ births l y' | None => [] end
  end.

(** What becomes of a session: turns with a worker, and its end. *)
Inductive descends : session → session → Prop :=
  | as_it_was x : descends x x
  | worked x y what e d w : descends x y → descends x (work_one what e d y w).1.2
  | closed x y : descends x y → descends x (close y)
  | destroyed x y : descends x y → descends x (destroy y).

Lemma descends_trans x y z : descends x y → descends y z → descends x z.
Proof. intros Hx Hy. induction Hy; [done|apply worked; auto|apply closed; auto|apply destroyed; auto]. Qed.

(** Each of the first is one of the second by now, and the other way round. *)
Definition becomes (xs ys : list session) : Prop := ∃ zs, Forall2 descends xs zs ∧ zs ≡ₚ ys.

Lemma forall2_perm {A} (R : A → A → Prop) xs ys zs :
  xs ≡ₚ ys → Forall2 R ys zs → ∃ zs', Forall2 R xs zs' ∧ zs' ≡ₚ zs.
Proof.
  intros Hp. revert zs. induction Hp as [|x xs ys Hp IH|x y xs|xs ys us Hp1 IH1 Hp2 IH2]; intros zs Hf.
  - exists zs. by split.
  - apply Forall2_cons_inv_l in Hf as (z & zs0 & Hz & Hf & ->). destruct (IH _ Hf) as (zs' & ? & ?).
    exists (z :: zs'). split; [by constructor|by constructor].
  - apply Forall2_cons_inv_l in Hf as (z & zs0 & Hz & Hf & ->).
    apply Forall2_cons_inv_l in Hf as (z' & zs1 & Hz' & Hf & ->).
    exists (z' :: z :: zs1). split; [by repeat constructor|by constructor].
  - destruct (IH2 _ Hf) as (us' & Hu & Eu). destruct (IH1 _ Hu) as (ys' & Hy & Ey). exists ys'. split; [done|by etrans].
Qed.

Lemma becomes_perm xs ys : xs ≡ₚ ys → becomes xs ys.
Proof. intros Hp. exists xs. split; [|done]. apply Forall_Forall2_diag, Forall_true. intros x. constructor. Qed.
Lemma becomes_trans xs ys zs : becomes xs ys → becomes ys zs → becomes xs zs.
Proof.
  intros (us & Hu & Eu) (vs & Hv & Ev). destruct (forall2_perm _ _ _ _ Eu Hv) as (vs' & Hv' & Ev').
  exists vs'. split; [|by etrans]. clear -Hu Hv'. revert vs' Hv'. induction Hu as [|x y xs us Hd _ IH]; intros vs' Hv'; [done|].
  apply Forall2_cons_inv_l in Hv' as (v & vs & Hdv & Hv & ->). constructor; [by eapply descends_trans|by apply IH].
Qed.
#[local] Instance becomes_proper : Proper (Permutation ==> Permutation ==> iff) becomes.
Proof.
  intros xs xs' Hx ys ys' Hy. split; intros Hb.
  - eapply becomes_trans; [by apply becomes_perm; symmetry|]. eapply becomes_trans; [exact Hb|by apply becomes_perm].
  - eapply becomes_trans; [by apply becomes_perm|]. eapply becomes_trans; [exact Hb|by apply becomes_perm; symmetry].
Qed.
Lemma becomes_app xs xs' ys ys' : becomes xs ys → becomes xs' ys' → becomes (xs ++ xs') (ys ++ ys').
Proof.
  intros (us & Hu & Eu) (vs & Hv & Ev). exists (us ++ vs). split; [by apply Forall2_app|by apply Permutation_app].
Qed.
Lemma becomes_one x y : descends x y → becomes [x] [y].
Proof. intros Hd. exists [y]. split; [by constructor|done]. Qed.
Lemma becomes_fmap (f : session → session) xs : (∀ x, descends x (f x)) → becomes xs (f <$> xs).
Proof. intros Hf. exists (f <$> xs). split; [|done]. induction xs; by constructor. Qed.
Lemma becomes_length xs ys : becomes xs ys → length xs = length ys.
Proof. intros (zs & Hf & Hp). by rewrite (Forall2_length _ _ _ Hf), Hp. Qed.
Lemma becomes_elem xs ys y : becomes xs ys → y ∈ ys → ∃ x, x ∈ xs ∧ descends x y.
Proof.
  intros (zs & Hf & Hp) Hy. rewrite <- Hp in Hy. apply list_elem_of_lookup in Hy as (i & Hi).
  destruct (Forall2_lookup_r _ _ _ _ _ Hf Hi) as (x & Hx & Hd). exists x. split; [by eapply list_elem_of_lookup_2|done].
Qed.

(** The sessions after an action are those before it, with the one it begins;
    those that leave the living are destroyed. *)
Definition accounted (x : action) (s s' : system) : Prop := ∃ over,
  becomes (living s ++ born x s) (living s' ++ over) ∧ gone s' ++ discarded s' ≡ₚ gone s ++ discarded s ++ over.

Lemma accounted_same x s s' :
  born x s = [] → living s' ≡ₚ living s → gone s' = gone s → discarded s' = discarded s → accounted x s s'.
Proof.
  intros Eb El Eg Ed. exists []. rewrite Eb, Eg, Ed, !app_nil_r. split; [by apply becomes_perm|done].
Qed.

Lemma arrive_born a s :
  acceptor s = Accepting →
  let s' := arrive a (with_acceptor Polling s) in
  active_sessions_ (daemon s') = active_sessions_ (daemon s) ++ born (Accept a) s ∧
  workers s' = workers s ∧ gone s' = gone s ∧ discarded s' = discarded s.
Proof.
  intros Ea. unfold arrive, born. rewrite Ea. cbn [daemon with_acceptor]. pose proof (admit_front a (daemon s)) as Hf.
  destruct (check_client a (daemon s)) as [ok d]. cbn [snd] in Hf. destruct Hf as (_ & _ & _ & El & _).
  destruct ok; cbn [negb]; [destruct (live_context d)|]; cbn; by rewrite ?El, ?app_nil_r.
Qed.

Lemma acceptor_born x s s' :
  acceptor_act x s = Some s' →
  active_sessions_ (daemon s') = active_sessions_ (daemon s) ++ born x s ∧
  workers s' = workers s ∧ gone s' = gone s ∧ discarded s' = discarded s.
Proof.
  unfold acceptor_act. destruct x; try done; destruct (acceptor s) as [| |a' ms|] eqn:Ea; try done.
  - destruct (serving _); [|done]. intros [= <-]. by rewrite app_nil_r.
  - intros [= <-]. by apply arrive_born.
  - intros [= <-]. by rewrite app_nil_r.
  - destruct (silent _); [done|]. intros [= <-]. cbn. rewrite Ea. unfold handshake.
    destruct (ssl_context_ (daemon s)) as [ctx|]; cbn; [|by rewrite app_nil_r].
    destruct (Ssl.acceptConnection _ _ _ _ ctx) as [[conn|] ctx']; cbn; by rewrite ?app_nil_r.
  - destruct (serving _); [done|]. intros [= <-]. by rewrite app_nil_r.
Qed.

Lemma acceptor_accounted x s s' : acceptor_act x s = Some s' → accounted x s s'.
Proof.
  intros (Ea & Ew & Eg & Ed)%acceptor_born. exists []. rewrite Eg, Ed, !app_nil_r. split; [|done].
  apply becomes_perm. unfold living. rewrite Ea, Ew, <- !app_assoc. apply Permutation_app_head, Permutation_app_comm.
Qed.

(** The sessions with the workers when one of them is replaced. *)
Lemma carried_split (ws : list worker) i k :
  ws !! i = Some k → ∃ others, concat (carried <$> ws) ≡ₚ carried k ++ others ∧
    ∀ k', concat (carried <$> <[i := k']> ws) ≡ₚ carried k' ++ others.
Proof.
  revert i; induction ws as [|y ws IH]; intros [|i] Hi; try done.
  - injection Hi as ->. by exists (concat (carried <$> ws)).
  - destruct (IH i Hi) as (others & E & E'). exists (carried y ++ others). split.
    + rewrite fmap_cons. cbn. rewrite E, !app_assoc. apply Permutation_app_tail, Permutation_app_comm.
    + intros k'. change (<[S i := k']> (y :: ws)) with (y :: <[i := k']> ws). rewrite fmap_cons. cbn.
      rewrite E', !app_assoc. apply Permutation_app_tail, Permutation_app_comm.
Qed.

Lemma active_perm (l : list session) :
  filter (λ x, active_ x = true) l ++ filter (λ x, active_ x = false) l ≡ₚ l.
Proof.
  rewrite <- (filter_app_complement (λ x, active_ x = true) l) at 3. apply Permutation_app_head.
  rewrite (list_filter_iff _ (λ x, ¬ active_ x = true)); [done|]. intros x. by rewrite not_true_iff_false.
Qed.

Lemma worker_accounted x s w s' w' : worker_act x s w = Some (s', w') → accounted x s s'.
Proof.
  unfold worker_act. destruct x as [| | | | |i|i|i what e|i|i| | |]; try done.
  - destruct (workers s !! i) as [[| | |]|] eqn:Ei; try done. destruct (serving _); [|done]. intros [= <- _].
    apply accounted_same; [done| |done..]. destruct (carried_split _ _ _ Ei) as (others & E & E').
    unfold living. cbn. by rewrite E, E'.
  - destruct (workers s !! i) as [[| | |]|] eqn:Ei; try done. intros [= <- _].
    apply accounted_same; [done| |done..]. destruct (carried_split _ _ _ Ei) as (others & E & E').
    unfold living. cbn. rewrite E, E'. cbn. rewrite app_nil_r.
    rewrite app_assoc. apply Permutation_app_tail. rewrite <- (active_perm (active_sessions_ (daemon s))) at 3.
    apply Permutation_app_comm.
  - destruct (workers s !! i) as [[| |[|x rest] fin|]|] eqn:Ei; try done. destruct (stalls x); [done|].
    pose proof (work_one_keeps what e (daemon s) x w) as (_ & Es & _).
    destruct (work_one what e (daemon s) x w) as [[d y] w1] eqn:Ew. intros [= <- _]. cbn in Es.
    exists []. cbn. rewrite !app_nil_r. split; [|done]. destruct (carried_split _ _ _ Ei) as (others & E & E').
    unfold living. cbn. rewrite Es.
    rewrite E, E'. apply becomes_app; [by apply becomes_perm|]. apply becomes_app; [|by apply becomes_perm].
    unfold carried. cbn. rewrite app_assoc, <- Permutation_cons_append.
    apply (becomes_app [x] _ [y]); [|by apply becomes_perm]. apply becomes_one.
    replace y with (work_one what e (daemon s) x w).1.2 by by rewrite Ew. constructor. constructor.
  - destruct (workers s !! i) as [[| |[|? ?] fin|]|] eqn:Ei; try done. intros [= <- _].
    exists (filter (λ s, active_ s = false) fin). cbn. rewrite !app_nil_r. split.
    + apply becomes_perm. destruct (carried_split _ _ _ Ei) as (others & E & E').
      unfold living. cbn. rewrite E, E'. cbn. rewrite <- (active_perm fin) at 1.
      rewrite <- !app_assoc. apply Permutation_app_head. apply Permutation_app_head. apply Permutation_app_comm.
    + rewrite <- !app_assoc. apply Permutation_app_head, Permutation_app_comm.
  - destruct (workers s !! i) as [[| | |]|] eqn:Ei; try done. destruct (serving _); [done|]. intros [= <- _].
    apply accounted_same; [done| |done..]. destruct (carried_split _ _ _ Ei) as (others & E & E').
    unfold living. cbn. by rewrite E, E'.
Qed.

Lemma caller_accounted x s s' : caller_act x s = Some s' → accounted x s s'.
Proof.
  assert (∀ d, active_sessions_ d = active_sessions_ (daemon s) →
    living (with_daemon d s) = living s) as Hsame by (intros d Ed; unfold living; cbn; by rewrite Ed).
  unfold caller_act. destruct x; try done; destruct (caller s) as [| | |i|]; try done.
  - destruct (running_ _); [|done]. intros [= <-]. apply accounted_same; [done| |done..].
    destruct (request_front (daemon s)) as [Es _]. change (living (with_daemon (request_stop (daemon s)) s) ≡ₚ living s).
    by rewrite Hsame.
  - destruct (acceptor s); try done. intros [= <-]. by apply accounted_same.
  - destruct (monitoring s); [done|]. intros [= <-]. by apply accounted_same.
  - destruct (workers s !! i) as [[| | |]|]; try done; intros [= <-]; [by apply accounted_same|].
    exists (destroy <$> (close <$> active_sessions_ (daemon s))). unfold living. cbn. rewrite !app_nil_r.
    split; [|done]. eapply becomes_trans; [|apply becomes_perm, Permutation_app_comm].
    apply becomes_app; [|by apply becomes_perm]. rewrite <- list_fmap_compose. apply becomes_fmap.
    intros x. apply destroyed, closed, as_it_was.
Qed.

Lemma act_accounted x s w s' w' : act x (s, w) = Some (s', w') → accounted x s s'.
Proof.
  destruct x; cbn [act];
    try (match goal with |- (?m ≫= _) = _ → _ => destruct m as [s1|] eqn:E; [|done] end; cbn; intros [= <- <-]);
    try by apply acceptor_accounted. 1-5: by apply worker_accounted. 2-3: by apply caller_accounted.
  unfold monitor_act in E. destruct (_ && _); [|done]. injection E as <-. by apply accounted_same.
Qed.

Lemma acts_become l s w s' w' :
  acts l (s, w) = Some (s', w') → becomes (everyone s ++ births l (s, w)) (everyone s').
Proof.
  revert s w. induction l as [|x l IH]; intros s w; cbn [acts births].
  - intros [= <- <-]. rewrite app_nil_r. by apply becomes_perm.
  - destruct (act x (s, w)) as [[s1 w1]|] eqn:E; cbn; [|done]. intros Es. eapply becomes_trans; [|by apply (IH s1 w1)].
    rewrite app_assoc. apply becomes_app; [|by apply becomes_perm].
    destruct (act_accounted x s w s1 w1 E) as (over & Hl & Hg). unfold everyone.
    eapply becomes_trans; [apply becomes_perm; rewrite <- app_assoc; apply Permutation_app_head, Permutation_app_comm|].
    rewrite Hg, app_assoc. eapply becomes_trans; [apply becomes_app; [exact Hl|by apply becomes_perm]|].
    apply becomes_perm. rewrite <- !app_assoc. apply Permutation_app_head. rewrite (app_assoc (gone s)). apply Permutation_app_comm.
Qed.

(** C12: No connection is lost, and none is doubled.  Under every interleaving of
    the accept loop, any number of workers and [stop]: the connections accepted so
    far, each as its session is by now (after its turns, and its end), are, each
    once, the sessions in the list, with the workers, destroyed by a worker or
    destroyed by [stop]; their number is the counter's; every listed session is
    active; only inactive sessions are dropped by a worker, and [stop] closes and
    destroys those it drops. *)
Theorem connections_conserved n d l w s w' :
  active_sessions_ d = [] → total_connections_ d = 0 →
  acts l (initial n d, w) = Some (s, w') →
  (∃ now, Forall2 descends (births l (initial n d, w)) now ∧
     now ≡ₚ active_sessions_ (daemon s) ++ concat (carried <$> workers s) ++ gone s ++ discarded s) ∧
  total_connections_ (daemon s) = Z.of_nat (length (births l (initial n d, w))) `mod` 2 ^ 64 ∧
  system_ok s.
Proof.
  intros Ha Ht E.
  assert (becomes (births l (initial n d, w)) (everyone s)) as Hb.
  { pose proof (acts_become _ _ _ _ _ E) as Hb. assert (everyone (initial n d) = []) as Hn; [|by rewrite Hn in Hb].
    unfold everyone, living. cbn. rewrite Ha, app_nil_r. clear. cbn. induction n as [|n IH]; [done|]. cbn [replicate]. rewrite fmap_cons. exact IH. }
  assert (system_ok s) as Hs.
  { apply (acts_invariant (λ s _, system_ok s) l (initial n d) w s w'); [|by apply initial_ok|done].
    intros x s0 w0 s1 w1. apply act_ok. }
  split; [|split; [|done]].
  - unfold everyone, living in Hb. by rewrite <- app_assoc in Hb.
  - rewrite (ok_count _ Hs), (becomes_length _ _ Hb). unfold everyone, living, known, in_flight. do 2 f_equal.
    rewrite !length_app. assert (∀ ks, length (concat (carried <$> ks)) = list_sum (held <$> ks)) as ->; [|lia].
    intros ks. induction ks as [|k ks IH]; [done|]. rewrite !fmap_cons, list_sum_cons. cbn. rewrite length_app, IH.
    unfold carried. by rewrite length_app.
Qed.

(** ** What each thread leaves to the others *)
Definition same_flags (s s' : system) : Prop :=
  running_ (daemon s') = running_ (daemon s) ∧ shutdown_requested_ (daemon s') = shutdown_requested_ (daemon s).

Lemma flags_serving s s' : same_flags s s' → serving (daemon s') = serving (daemon s).
Proof. unfold same_flags, serving. by intros [-> ->]. Qed.

Lemma settled_flags a s r : settled a (daemon s) r → same_flags s (with_daemon r.2 s).
Proof. unfold settled. destruct r as [[] d]; [by intros (_&_&?&?&_)|by intros (_&_&_&_&_&?&?)]. Qed.

Lemma arrive_flags a s :
  same_flags s (arrive a s) ∧ workers (arrive a s) = workers s ∧ monitoring (arrive a s) = monitoring s ∧
  caller (arrive a s) = caller s.
Proof.
  unfold arrive. pose proof (admit_front a (daemon s)) as Hf.
  destruct (check_client a (daemon s)) as [[] d]; cbn [negb snd] in *; [|by destruct Hf as (_&_&_&_&_&?&?)].
  by destruct (live_context d); destruct Hf as (_&_&_&_&_&?&?).
Qed.

Lemma acceptor_local x s s' :
  acceptor_act x s = Some s' →
  acceptor s ≠ Over ∧ same_flags s s' ∧ workers s' = workers s ∧ monitoring s' = monitoring s ∧ caller s' = caller s.
Proof.
  unfold acceptor_act. destruct x; try done; destruct (acceptor s) as [| |a' ms|] eqn:Ea; try done.
  - destruct (serving _); [|done]. by intros [= <-].
  - intros [= <-]. split; [done|]. apply (arrive_flags a (with_acceptor Polling s)).
  - by intros [= <-].
  - destruct (silent _); [done|]. intros [= <-]. split; [done|]. split; [|done].
    apply (settled_flags a' s (handshake a' ms (daemon s))), (handshake_settled a' ms _ _ (reflexivity _)).
  - destruct (serving _); [done|]. by intros [= <-].
Qed.

Lemma worker_local x s w s' w' :
  worker_act x s w = Some (s', w') →
  same_flags s s' ∧ acceptor s' = acceptor s ∧ monitoring s' = monitoring s ∧ caller s' = caller s ∧
  total_connections_ (daemon s') = total_connections_ (daemon s) ∧
  ∃ i k k', workers s !! i = Some k ∧ k ≠ Ended ∧ workers s' = <[i := k']> (workers s).
Proof.
  unfold worker_act. destruct x as [| | | | |i|i|i what e|i|i| | |]; try done.
  - destruct (workers s !! i) as [[| | |]|] eqn:Ei; try done. destruct (serving (daemon s)); [|done]. intros [= <- <-].
    do 5 (split; [done|]). by eexists i, _, _.
  - destruct (workers s !! i) as [[| | |]|] eqn:Ei; try done. intros [= <- <-].
    do 5 (split; [done|]). by eexists i, _, _.
  - destruct (workers s !! i) as [[| |[|x rest] fin|]|] eqn:Ei; try done. destruct (stalls x); [done|].
    pose proof (work_one_keeps what e (daemon s) x w) as (Et & _ & Er & Es).
    destruct (work_one what e (daemon s) x w) as [[d x'] w1]. intros [= <- <-].
    do 5 (split; [done|]). by eexists i, _, _.
  - destruct (workers s !! i) as [[| |[|? ?] fin|]|] eqn:Ei; try done. intros [= <- <-].
    do 5 (split; [done|]). by eexists i, _, _.
  - destruct (workers s !! i) as [[| | |]|] eqn:Ei; try done. destruct (serving (daemon s)); [done|]. intros [= <- <-].
    do 5 (split; [done|]). by eexists i, _, _.
Qed.

(** ** The threads [stop] has waited for *)
Definition past_acceptor (c : stage) : bool := match c with Running | JoinAcceptor => false | _ => true end.
Definition past_monitor (c : stage) : bool := match c with JoinWorkers _ | Stopped => true | _ => false end.
Definition past_worker (c : stage) (j : nat) : bool :=
  match c with JoinWorkers i => (j <? i)%nat | Stopped => true | _ => false end.

Record joined (s : system) : Prop := {
  joined_flag : caller s ≠ Running → serving (daemon s) = false;
  joined_acceptor : past_acceptor (caller s) = true → acceptor s = Over;
  joined_monitor : past_monitor (caller s) = true → monitoring s = false;
  joined_worker j k : past_worker (caller s) j = true → workers s !! j = Some k → k = Ended
}.

Lemma request_serving d : serving (request_stop d) = false.
Proof. unfold request_stop. by destruct (_ >=? 0). Qed.

Lemma joined_caller x s s' : joined s → caller_act x s = Some s' → joined s'.
Proof.
  intros [Jf Ja Jm Jw]. unfold caller_act. destruct x; try done; destruct (caller s) as [| | |i|] eqn:Ec; try done.
  - destruct (running_ _); [|done]. intros [= <-]. constructor; cbn; [|done..]. intros _. apply request_serving.
  - destruct (acceptor s) eqn:Ea; try done. intros [= <-]. constructor; cbn; [|done..]. intros _. by apply Jf.
  - destruct (monitoring s) eqn:Em; [done|]. intros [= <-].
    constructor; cbn; [intros _; by apply Jf|intros _; by apply Ja|done|done].
  - destruct (workers s !! i) as [k|] eqn:Ei.
    + destruct k; try done. intros [= <-].
      constructor; cbn; [intros _; by apply Jf|intros _; by apply Ja|intros _; by apply Jm|].
      intros j k Hj Hk. apply Nat.leb_le in Hj. destruct (decide (j = i)) as [->|]; [congruence|].
      apply (Jw j k); [apply Nat.ltb_lt; lia|done].
    + intros [= <-]. constructor; cbn; [intros _|intros _; by apply Ja|intros _; by apply Jm|].
      * specialize (Jf ltac:(done)). unfold serving in *. by cbn.
      * intros j k _ Hk. apply (Jw j k); [|done]. apply Nat.ltb_lt. apply lookup_ge_None in Ei.
        apply lookup_lt_Some in Hk. lia.
Qed.

Lemma joined_act x s w s' w' : joined s → act x (s, w) = Some (s', w') → joined s'.
Proof.
  intros J. destruct x; cbn [act];
    try (match goal with |- (?m ≫= _) = _ → _ => destruct m as [s1|] eqn:E; [|done] end; cbn; intros [= <- <-]);
    try (by eapply joined_caller).
  1-5: apply acceptor_local in E as (Hne & Hf & Ew & Em & Ec); destruct J as [Jf Ja Jm Jw];
    constructor; rewrite ?Ec, ?Em, ?Ew, ?(flags_serving _ _ Hf); [done|by intros ?%Ja|done..].
  1-5: intros (Hf & Ea & Em & Ec & _ & i0 & k & k' & Ei & Hk & Ew)%worker_local; destruct J as [Jf Ja Jm Jw];
    constructor; rewrite ?Ec, ?Em, ?Ea, ?Ew, ?(flags_serving _ _ Hf); [done..|];
    intros j y Hj; destruct (decide (j = i0)) as [->|Hne];
    [by destruct Hk; apply (Jw i0 k)|rewrite list_lookup_insert_ne by done; by apply Jw].
  unfold monitor_act in E. destruct (_ && _); [|done]. injection E as <-. destruct J as [Jf Ja Jm Jw]. by constructor.
Qed.

Lemma joined_initial n d : joined (initial n d).
Proof. by constructor. Qed.

Lemma reached_joined n d l w s w' : acts l (initial n d, w) = Some (s, w') → joined s.
Proof.
  apply (acts_invariant (λ s _, joined s)); [|apply joined_initial]. intros x s0 w0 s1 w1. apply joined_act.
Qed.

(** ** A client that does nothing *)
Definition waiting_on (i : nat) (x : session) (rest fin : list session) (s : system) : Prop :=
  workers s !! i = Some (Busy (x :: rest) fin).

Lemma waiting_act i x rest fin a s w s' w' :
  stalls x = true → waiting_on i x rest fin s → act a (s, w) = Some (s', w') → waiting_on i x rest fin s'.
Proof.
  unfold waiting_on. intros Hx Hi. destruct a as [|a|t| | |j|j|j what e|j|j| | |]; cbn [act];
    try (match goal with |- (?m ≫= _) = _ → _ => destruct m as [s1|] eqn:E; [|done] end; cbn; intros [= <- <-]).
  1-5: apply acceptor_local in E as (_ & _ & -> & _); done.
  1-5: unfold worker_act; destruct (workers s !! j) as [[| |[|y ys] fs|]|] eqn:Ej; try done;
    (destruct (decide (i = j)) as [<-|Hne]; [rewrite Hi in Ej; try done|]).
  - destruct (serving _); [|done]. intros [= <- <-]. cbn. by rewrite list_lookup_insert_ne.
  - intros [= <- <-]. cbn. by rewrite list_lookup_insert_ne.
  - injection Ej as <- <- <-. by rewrite Hx.
  - destruct (stalls y); [done|]. destruct (work_one _ _ _ _ _) as [[d y'] w1]. intros [= <- <-]. cbn.
    by rewrite list_lookup_insert_ne.
  - intros [= <- <-]. cbn. by rewrite list_lookup_insert_ne.
  - destruct (serving _); [done|]. intros [= <- <-]. cbn. by rewrite list_lookup_insert_ne.
  - unfold monitor_act in E. destruct (_ && _); [|done]. by injection E as <-.
  - unfold caller_act in E. destruct (caller s); try done. destruct (running_ _); [|done]. by injection E as <-.
  - unfold caller_act in E. destruct (caller s); try done; repeat case_match; try done; by injection E as <-.
Qed.

Lemma handshaking_act a ms x s w s' w' :
  silent (client_socket a) = true → acceptor s = Handshaking a ms → act x (s, w) = Some (s', w') →
  joined s → acceptor s' = Handshaking a ms ∧ total_connections_ (daemon s') = total_connections_ (daemon s).
Proof.
  intros Ha Es. destruct x; cbn [act];
    try (match goal with |- (?m ≫= _) = _ → _ => destruct m as [s1|] eqn:E; [|done] end; cbn; intros [= <- <-] J).
  1-5: unfold acceptor_act in E; rewrite Es, ?Ha in E; done.
  1-5: intros (_ & -> & _ & _ & -> & _)%worker_local; done.
  - unfold monitor_act in E. destruct (_ && _); [|done]. by injection E as <-.
  - unfold caller_act in E. destruct (caller s); try done. destruct (running_ _); [|done]. injection E as <-.
    split; [done|]. apply request_front.
  - unfold caller_act in E. destruct (caller s) as [| | |j|] eqn:Ec; try done.
    + by rewrite Es in E.
    + destruct (monitoring s); [done|]. by injection E as <-.
    + destruct (workers s !! j) as [[]|]; try done; by injection E as <-.
Qed.

(** C13: One silent client stops the daemon.  A worker that waits for a client
    which neither sends nor hangs up waits for ever, whatever the others do: the
    sessions it has taken with that one (all that were active) are never served,
    and [stop] never returns.  While the accept loop waits for the handshake of
    such a client, no connection becomes a session any more, and [stop] does not
    return either. *)
Theorem silent_client_stalls n d l0 w0 s w :
  acts l0 (initial n d, w0) = Some (s, w) →
  (∀ i x rest fin, workers s !! i = Some (Busy (x :: rest) fin) → stalls x = true →
     ∀ l s' w', acts l (s, w) = Some (s', w') →
       workers s' !! i = Some (Busy (x :: rest) fin) ∧ caller s' ≠ Stopped) ∧
  (∀ a ms, acceptor s = Handshaking a ms → silent (client_socket a) = true →
     ∀ l s' w', acts l (s, w) = Some (s', w') →
       acceptor s' = Handshaking a ms ∧ total_connections_ (daemon s') = total_connections_ (daemon s) ∧
       caller s' ≠ Stopped).
Proof.
  intros J%reached_joined. split.
  - intros i x rest fin Hi Hx l s' w' E.
    destruct (acts_invariant (λ s _, joined s ∧ waiting_on i x rest fin s) l s w s' w') as [J' Hi']; [|done..|].
    { intros a s1 w1 s2 w2 [J1 H1'] Ea. split; [by eapply joined_act|by eapply waiting_act]. }
    split; [exact Hi'|]. intros Ec. by pose proof (joined_worker _ J' i _ ltac:(by rewrite Ec) Hi').
  - intros a ms Ha Hq l s' w' E.
    destruct (acts_invariant (λ s1 _, joined s1 ∧ acceptor s1 = Handshaking a ms ∧
      total_connections_ (daemon s1) = total_connections_ (daemon s)) l s w s' w') as (J' & Ha' & Et); [|done..|].
    { intros x s1 w1 s2 w2 (J1 & A1 & T1) Ex. split; [by eapply joined_act|].
      destruct (handshaking_act a ms x s1 w1 s2 w2 Hq A1 Ex J1) as [-> ->]. done. }
    split; [done|]. split; [done|]. intros Ec.
    pose proof (joined_acceptor _ J' ltac:(by rewrite Ec)) as Ho. congruence.
Qed.

(** ** Stopping *)

(** A client who does not keep a thread waiting. *)
Definition answers (k : Z) : Prop := silent k = false ∧ congested k = false.

(** No client of a session that is served, nor the one in the handshake, keeps a
    thread waiting.  (The threads past their tests still take sessions.) *)
Definition responsive (s : system) : Prop :=
  (∀ x, x ∈ living s → 0 ≤ client_socket_ x → answers (client_socket_ x)) ∧
  (∀ a ms, acceptor s = Handshaking a ms → answers (client_socket a)).

(** What is left to do for each thread once the flags are set, when there are at
    most [n] sessions to take. *)
Definition worker_left (n : nat) (k : worker) : nat :=
  match k with Resting => 1 | Ready => n + 3 | Busy xs _ => 2 + length xs | Ended => 0 end.
Definition acceptor_left (a : acceptor_state) : nat :=
  match a with Polling => 1 | Handshaking _ _ => 2 | Accepting => 3 | Over => 0 end.
Definition caller_left (n : nat) (c : stage) : nat :=
  match c with
  | Running => n + 4 | JoinAcceptor => n + 3 | JoinMonitor => n + 2 | JoinWorkers i => S (n - i) | Stopped => 0
  end.

(** The sessions that are served, with the one that may still come. *)
Definition pending (a : acceptor_state) : nat := match a with Accepting | Handshaking _ _ => 1 | _ => 0 end.
Definition supply (s : system) : nat := length (living s) + pending (acceptor s).

Definition left_to_do (s : system) : nat :=
  list_sum (worker_left (supply s) <$> workers s) + acceptor_left (acceptor s) + (if monitoring s then 1 else 0) +
  caller_left (length (workers s)) (caller s).

Lemma workers_left_mono n n' (ks : list worker) :
  (n' ≤ n)%nat → (list_sum (worker_left n' <$> ks) ≤ list_sum (worker_left n <$> ks))%nat.
Proof.
  intros Hn. induction ks as [|k ks IH]; [done|]. rewrite !fmap_cons, !list_sum_cons. destruct k; cbn [worker_left]; lia.
Qed.

(** *** The sessions that are served *)
Lemma descends_socket x y : descends x y → client_socket_ y = client_socket_ x ∨ client_socket_ y = -1.
Proof.
  induction 1 as [x|x y what e d w _ IH|x y _ IH|x y _ IH]; [by left|..].
  - assert (same_socket y (work_one what e d y w).1.2) as Hw.
    { unfold work_one. destruct (active_ y); [|by left].
      pose proof (work_frame (A:=AuthManager.AuthenticationManager) what same_socket e (lend d y) w) as Hf.
      unfold same_socket in Hf |- *. by destruct (work what e (lend d y) w). }
    destruct Hw as [->| ->]; auto.
  - destruct (close_frame same_socket y) as [->| ->]; auto.
  - destruct (close_frame same_socket (endFileTransfer y)) as [Ey|Ey]; unfold destroy; rewrite Ey; auto.
Qed.

Lemma living_act x s w s' w' :
  act x (s, w) = Some (s', w') →
  (length (living s') ≤ length (living s) + length (born x s))%nat ∧
  ∀ y, y ∈ living s' → 0 ≤ client_socket_ y →
    ∃ z, (z ∈ living s ∨ z ∈ born x s) ∧ client_socket_ y = client_socket_ z.
Proof.
  intros (over & Hb & _)%act_accounted. split.
  - apply becomes_length in Hb. rewrite !length_app in Hb. lia.
  - intros y Hy Hk. destruct (becomes_elem _ _ y Hb) as (z & Hz & Hd); [apply elem_of_app; by left|].
    exists z. split; [by apply elem_of_app|]. destruct (descends_socket _ _ Hd); [done|lia].
Qed.

(** The session that begins is the pending one. *)
Lemma born_pending x s : (length (born x s) ≤ pending (acceptor s))%nat.
Proof. unfold born. destruct x; cbn; try lia; repeat case_match; cbn; lia. Qed.
Lemma born_socket x s z :
  z ∈ born x s → (∃ a, x = Accept a ∧ client_socket_ z = client_socket a) ∨
    (∃ a ms, acceptor s = Handshaking a ms ∧ client_socket_ z = client_socket a).
Proof.
  unfold born. destruct x; try by intros ?%elem_of_nil.
  - repeat case_match; try by intros ?%elem_of_nil. intros ->%list_elem_of_singleton. left. by eexists.
  - repeat case_match; try by intros ?%elem_of_nil. intros ->%list_elem_of_singleton. right. by do 2 eexists.
Qed.

(** *** Steps that bring the end nearer *)

(** Fewer sessions to come, and every thread no further from its end; [x] is
    what happened. *)
Definition nearer (x : action) (s s' : system) : Prop :=
  caller s' ≠ Running ∧ (length (born x s) + pending (acceptor s') ≤ pending (acceptor s))%nat ∧
  ((∀ a, x ≠ Accept a) → ∀ a ms, acceptor s' = Handshaking a ms → acceptor s = Handshaking a ms) ∧
  ∀ n, (length (active_sessions_ (daemon s)) ≤ n)%nat →
    (list_sum (worker_left n <$> workers s') + acceptor_left (acceptor s') + (if monitoring s' then 1 else 0) +
     caller_left (length (workers s')) (caller s') <
     list_sum (worker_left n <$> workers s) + acceptor_left (acceptor s) + (if monitoring s then 1 else 0) +
     caller_left (length (workers s)) (caller s))%nat.

Lemma arrive_acceptor a s :
  acceptor s = Polling → acceptor (arrive a s) = Polling ∨
    acceptor (arrive a s) = Handshaking a (modules_ (snd (check_client a (daemon s)))) ∧ born (Accept a) (with_acceptor Accepting s) = [].
Proof.
  intros Ea. unfold arrive, born. cbn. destruct (check_client a (daemon s)) as [[] d]; cbn; [|by left].
  destruct (live_context d); [by right|by left].
Qed.

Lemma acceptor_nearer x s s' :
  caller s ≠ Running → serving (daemon s) = false → acceptor_act x s = Some s' → nearer x s s'.
Proof.
  intros Hc Hs E. pose proof (acceptor_local _ _ _ E) as (_ & _ & Ew & Em & Ec).
  unfold nearer. rewrite Ew, Em, Ec. split; [done|]. pose proof (born_pending x s) as Hb.
  unfold acceptor_act in E. destruct x; try done; destruct (acceptor s) as [| |a' ms|] eqn:Ea; try done; rewrite ?Hs in E; try done.
  - injection E as <-. destruct (arrive_acceptor a (with_acceptor Polling s)) as [->|[-> E]]; [done|cbn in *|].
    + split; [lia|]. split; [|intros; lia]. intros Hx. by destruct (Hx a).
    + assert (born (Accept a) s = []) as -> by (unfold born in *; by rewrite Ea).
      split; [cbn; lia|]. split; [|intros; cbn; lia]. intros Hx. by destruct (Hx a).
  - injection E as <-. unfold born. cbn. destruct transient; cbn; (split; [lia|]); (split; [done|intros; lia]).
  - destruct (silent (client_socket a')); [done|]. injection E as <-. cbn in *. split; [lia|]. split; [done|intros; lia].
  - injection E as <-. cbn. split; [lia|]. split; [done|intros; lia].
Qed.

Lemma worker_less x s w s' w' n :
  serving (daemon s) = false → worker_act x s w = Some (s', w') → (length (active_sessions_ (daemon s)) ≤ n)%nat →
  ∃ i k k', workers s !! i = Some k ∧ workers s' = <[i := k']> (workers s) ∧ (worker_left n k' < worker_left n k)%nat.
Proof.
  intros Hs E Hn. revert E. unfold worker_act. destruct x as [| | | | |i|i|i what e|i|i| | |]; try done;
    destruct (workers s !! i) as [[| |[|x rest] fin|]|] eqn:Ei; try done; rewrite ?Hs; try done.
  - intros [= <- <-]. eexists i, _, _. split; [exact Ei|]. split; [done|]. cbn [worker_left].
    pose proof (length_filter (λ s, active_ s = true) (active_sessions_ (daemon s))). lia.
  - destruct (stalls x); [done|]. destruct (work_one what e (daemon s) x w) as [[d x'] w1]. intros [= <- <-].
    eexists i, _, _. split; [exact Ei|]. split; [done|]. cbn. lia.
  - intros [= <- <-]. eexists i, _, _. split; [exact Ei|]. split; [done|]. cbn. lia.
  - intros [= <- <-]. eexists i, _, _. split; [exact Ei|]. split; [done|]. cbn. lia.
Qed.

Lemma worker_nearer x s w s' w' :
  caller s ≠ Running → serving (daemon s) = false → worker_act x s w = Some (s', w') → nearer x s s'.
Proof.
  intros Hc Hs E. pose proof (worker_local _ _ _ _ _ E) as (_ & Ea & Em & Ec & _).
  unfold nearer. rewrite Ea, Em, Ec. split; [done|]. split.
  { assert (born x s = []) as -> by (by destruct x). done. }
  split; [done|]. intros n Hn. destruct (worker_less _ _ _ _ _ n Hs E Hn) as (i & k & k' & Ei & -> & Hlt).
  rewrite length_insert. pose proof (sum_insert (worker_left n) (workers s) i k k' Ei). lia.
Qed.

Lemma caller_nearer x s s' : caller s ≠ Running → caller_act x s = Some s' → nearer x s s'.
Proof.
  intros Hc E. unfold caller_act in E. unfold nearer.
  destruct x; try done; destruct (caller s) as [| | |i|]; try done.
  - destruct (acceptor s) eqn:Ea; try done. injection E as <-. cbn. rewrite Ea. split; [done|]. split; [done|]. split; [done|].
    intros; cbn; lia.
  - destruct (monitoring s) eqn:Em; [done|]. injection E as <-. cbn. rewrite Em. split; [done|]. split; [done|]. split; [done|].
    intros; lia.
  - destruct (workers s !! i) as [[]|] eqn:Ei; try done; injection E as <-; cbn; (split; [done|]); (split; [done|]);
      (split; [done|]); intros; [apply lookup_lt_Some in Ei|]; lia.
Qed.

Lemma act_nearer x s w s' w' :
  caller s ≠ Running → joined s → act x (s, w) = Some (s', w') → nearer x s s'.
Proof.
  intros Hc J. pose proof (joined_flag _ J Hc) as Hs. destruct x; cbn [act];
    try (match goal with |- (?m ≫= _) = _ → _ => destruct m as [s1|] eqn:E; [|done] end; cbn; intros [= <- <-]);
    try (by eapply acceptor_nearer); try (by eapply caller_nearer); try (by apply worker_nearer).
  unfold monitor_act in E. destruct (monitoring s) eqn:Em; [|done]. rewrite Hs in E. injection E as <-.
  unfold nearer. cbn. rewrite Em. do 3 (split; [done|]). intros; lia.
Qed.

(** With the sessions that are served as the bound, which only fall. *)
Lemma act_less x s w s' w' :
  caller s ≠ Running → joined s → act x (s, w) = Some (s', w') →
  caller s' ≠ Running ∧ (left_to_do s' < left_to_do s)%nat.
Proof.
  intros Hc J E. destruct (act_nearer x s w s' w' Hc J E) as (Hc' & Hp & _ & Hn). split; [done|].
  destruct (living_act x s w s' w' E) as [Hl _]. specialize (Hn (supply s)).
  assert (supply s' ≤ supply s)%nat as Hs by (unfold supply; lia).
  pose proof (workers_left_mono _ _ (workers s') Hs). unfold left_to_do.
  assert (length (active_sessions_ (daemon s)) ≤ supply s)%nat by (unfold supply, living; rewrite length_app; lia). lia.
Qed.

Lemma act_responsive x s w s' w' :
  caller s ≠ Running → joined s → act x (s, w) = Some (s', w') → (∀ a, x = Accept a → answers (client_socket a)) →
  responsive s → responsive s'.
Proof.
  intros Hc J E Hx [Rl Ra]. destruct (act_nearer x s w s' w' Hc J E) as (_ & _ & Hh & _). split.
  - intros y Hy Hk. destruct (living_act x s w s' w' E) as [_ Hl].
    destruct (Hl y Hy Hk) as (z & [Hz|Hz] & Ez); rewrite Ez in *; [by apply Rl|].
    apply born_socket in Hz as [(a & -> & ->)|(a & ms & Ea & ->)]; [by apply Hx|by eapply Ra].
  - intros a ms Ea. destruct x as [|b| | | | | | | | | | |]; try by eapply Ra, Hh.
    cbn in E. destruct (acceptor s) as [| | |] eqn:Es; try done. injection E as <- _.
    destruct (arrive_acceptor b (with_acceptor Polling s) eq_refl) as [E|[E _]]; rewrite E in Ea; [done|].
    injection Ea as <- _. by apply Hx.
Qed.

Lemma responsive_stalls s i k x :
  responsive s → workers s !! i = Some k → x ∈ todo k → stalls x = false.
Proof.
  intros [Rl _] Hi Hx. unfold stalls. destruct (active_ x); [|done]. destruct (Z.geb_spec (client_socket_ x) 0) as [Hk|]; [|done].
  destruct (Rl x) as [-> ->]; [|lia|by destruct (transfer_state_ x)].
  apply elem_of_app. right. apply list_elem_of_In, in_concat. exists (carried k).
  split; apply list_elem_of_In; [apply list_elem_of_fmap_2; by eapply list_elem_of_lookup_2|apply elem_of_app; by left].
Qed.

(** Until [stop] has returned, some thread can go on. *)
Lemma stopping_goes_on s w (e : event (Draws:=AuthManager.draws)) :
  caller s ≠ Running → joined s → responsive s → caller s ≠ Stopped → ∃ x y, act x (s, w) = Some y.
Proof.
  intros Hc J R Hn. pose proof (joined_flag _ J Hc) as Hs. destruct (caller s) as [| | |i|] eqn:Ec; try done.
  - destruct (acceptor s) as [| |a ms|] eqn:Ea.
    + exists AcceptorEnds. eexists. cbn. by rewrite Ea, Hs.
    + exists (AcceptFails true). eexists. cbn. by rewrite Ea.
    + exists Handshake. eexists. cbn. by rewrite Ea, (proj1 (proj2 R a ms Ea)).
    + exists Joins. eexists. cbn. by rewrite Ec, Ea.
  - destruct (monitoring s) eqn:Em.
    + exists MonitorEnds. eexists. cbn. by rewrite Em, Hs.
    + exists Joins. eexists. cbn. by rewrite Ec, Em.
  - destruct (workers s !! i) as [[| |[|x rest] fin|]|] eqn:Ei.
    + exists (WorkerEnds i). eexists. cbn. by rewrite Ei, Hs.
    + exists (Take i). eexists. cbn. by rewrite Ei.
    + exists (Return i). eexists. cbn. by rewrite Ei.
    + exists (Work i "" e). cbn. rewrite Ei, (responsive_stalls s i _ x R Ei) by by left.
      destruct (work_one "" e (daemon s) x w) as [[d x'] w1]. by eexists.
    + exists Joins. eexists. cbn. by rewrite Ec, Ei.
    + exists Joins. eexists. cbn. by rewrite Ec, Ei.
Qed.

(** Every thread has ended and nothing is served or kept. *)
Record at_an_end (s : system) : Prop := {
  end_workers k : k ∈ workers s → k = Ended;
  end_acceptor : acceptor s = Over;
  end_monitor : monitoring s = false;
  end_serving : serving (daemon s) = false;
  end_sessions : active_sessions_ (daemon s) = [];
  end_modules : modules_ (daemon s) = ∅
}.
Definition emptied (s : system) : Prop :=
  caller s = Stopped → active_sessions_ (daemon s) = [] ∧ modules_ (daemon s) = ∅.

Lemma emptied_act x s w s' w' : joined s → emptied s → act x (s, w) = Some (s', w') → emptied s'.
Proof.
  intros J Hs E Ec. destruct (decide (caller s = Stopped)) as [Es|Es].
  - exfalso. destruct x; cbn [act] in E;
      try (match type of E with (?m ≫= _) = _ => destruct m as [s1|] eqn:E1; [|done] end).
    1-5: by apply acceptor_local in E1 as (? & _); destruct (joined_acceptor _ J ltac:(by rewrite Es)).
    1-5: apply worker_local in E as (_ & _ & _ & _ & _ & j & k & _ & Ej & Hk & _);
      by destruct (joined_worker _ J j k ltac:(by rewrite Es) Ej).
    + unfold monitor_act in E1. by rewrite (joined_monitor _ J ltac:(by rewrite Es)) in E1.
    + unfold caller_act in E1. by rewrite Es in E1.
    + unfold caller_act in E1. by rewrite Es in E1.
  - destruct x; cbn [act] in E;
      try (match type of E with (?m ≫= _) = _ => destruct m as [s1|] eqn:E1; [|done] end; cbn in E; injection E as <- <-).
    1-5: by apply acceptor_local in E1 as (_ & _ & _ & _ & E1); rewrite E1 in Ec.
    1-5: by apply worker_local in E as (_ & _ & _ & E & _); rewrite E in Ec.
    + unfold monitor_act in E1. destruct (_ && _); [|done]. by injection E1 as <-.
    + unfold caller_act in E1. destruct (caller s); try done. destruct (running_ _); [|done]. by injection E1 as <-.
    + unfold caller_act in E1. destruct (caller s) as [| | |j|]; try done.
      * destruct (acceptor s); try done. by injection E1 as <-.
      * destruct (monitoring s); [done|]. by injection E1 as <-.
      * destruct (workers s !! j) as [[]|]; try done; by injection E1 as <-.
Qed.

(** C11: A stop completes, whatever the schedule.  Once [stop] has been called, and
    as long as no client that a thread depends on, or may still come to depend on,
    does nothing, every sequence of actions is finite, at most as long as what was
    left to do, although threads that were past the tests of their loops still
    take sessions and accept a connection; when nothing more can happen, [stop]
    has returned; and then every thread has ended, no session and no module is
    left, and every connection ever counted has been destroyed by a worker or by
    [stop]. *)
Theorem stop_completes n d l0 w0 s w (e : event (Draws:=AuthManager.draws)) :
  active_sessions_ d = [] → total_connections_ d = 0 →
  acts l0 (initial n d, w0) = Some (s, w) → caller s ≠ Running → responsive s →
  ∀ l s' w', acts l (s, w) = Some (s', w') → (∀ a, Accept a ∈ l → answers (client_socket a)) →
    (length l + left_to_do s' ≤ left_to_do s)%nat ∧
    (caller s' = Stopped ∨ ∃ x y, act x (s', w') = Some y) ∧
    (caller s' = Stopped → at_an_end s' ∧
       total_connections_ (daemon s') = Z.of_nat (length (gone s') + length (discarded s')) `mod` 2 ^ 64).
Proof.
  intros Ha Ht E0 Hc Hr l s' w' E Hl.
  assert (joined s ∧ emptied s ∧ system_ok s) as (J & Hem & Hok).
  { apply (acts_invariant (λ s _, joined s ∧ emptied s ∧ system_ok s) l0 (initial n d) w0 s w); [|split; [apply joined_initial|split; [done|by apply initial_ok]]|done].
    intros x s1 w1 s2 w2 (J1 & M1 & O1) Ex. split; [by eapply joined_act|]. split; [by eapply emptied_act|by eapply act_ok]. }
  clear E0 Ha Ht. revert s w J Hem Hok Hc Hr E. induction l as [|x l IH]; intros s w J Hem Hok Hc Hr E; cbn [acts] in E.
  - injection E as <- <-. split; [cbn; lia|]. split.
    + destruct (decide (caller s = Stopped)) as [|Hn]; [by left|]. right. by apply stopping_goes_on.
    + intros Es. destruct (Hem Es) as [E1 E2]. assert (∀ k, k ∈ workers s → k = Ended) as Hw.
      { intros k (j & Hj)%list_elem_of_lookup. apply (joined_worker _ J j); [by rewrite Es|done]. }
      split; [constructor; [done|by apply J; rewrite Es|by apply J; rewrite Es|by apply J; rewrite Es|done|done]|].
      rewrite (ok_count _ Hok). unfold known. rewrite E1. assert (in_flight s = 0%nat) as ->; [|done].
      unfold in_flight. clear -Hw. induction (workers s) as [|k ks IH]; [done|]. rewrite fmap_cons, list_sum_cons, IH.
      { by rewrite (Hw k) by by left. } intros k' Hk'. apply Hw. by right.
  - destruct (act x (s, w)) as [[s1 w1]|] eqn:Ex; cbn in E; [|done].
    destruct (act_less x s w s1 w1 Hc J Ex) as [Hc1 Hlt].
    destruct (IH ltac:(intros a Hin; apply Hl; by right) s1 w1) as (H1' & H2' & H3');
      [by eapply joined_act|by eapply emptied_act|by eapply act_ok|done| |done|].
    { eapply act_responsive; [exact Hc|exact J|exact Ex| |exact Hr]. intros a ->. apply Hl. by left. }
    split; [cbn; lia|]. split; [exact H2'|exact H3'].
Qed.

(** ** The end of the accept loop, and starting again *)
Lemma act_flags x s w s' w' : x ≠ Stop → act x (s, w) = Some (s', w') → same_flags s s'.
Proof.
  intros Hx. destruct x; cbn [act]; try done;
    try (match goal with |- (?m ≫= _) = _ → _ => destruct m as [s1|] eqn:E; [|done] end; cbn; intros [= <- <-]).
  1-5: by apply acceptor_local in E as (_ & Hf & _).
  1-5: by intros (Hf & _)%worker_local.
  - unfold monitor_act in E. destruct (_ && _); [|done]. by injection E as <-.
  - unfold caller_act in E. destruct (caller s) as [| | |j|]; try done.
    + destruct (acceptor s); try done. by injection E as <-.
    + destruct (monitoring s); [done|]. by injection E as <-.
    + destruct (workers s !! j) as [[]|]; try done; by injection E as <-.
Qed.

(** Without the accept loop no connection is added to the count. *)
Lemma act_count x s w s' w' :
  acceptor s = Over → act x (s, w) = Some (s', w') →
  acceptor s' = Over ∧ total_connections_ (daemon s') = total_connections_ (daemon s).
Proof.
  intros Ha. destruct x; cbn [act];
    try (match goal with |- (?m ≫= _) = _ → _ => destruct m as [s1|] eqn:E; [|done] end; cbn; intros [= <- <-]).
  1-5: by apply acceptor_local in E as (? & _).
  1-5: by intros (_ & -> & _ & _ & -> & _)%worker_local.
  - unfold monitor_act in E. destruct (_ && _); [|done]. by injection E as <-.
  - unfold caller_act in E. destruct (caller s); try done. destruct (running_ _); [|done]. injection E as <-.
    split; [done|]. apply request_front.
  - unfold caller_act in E. destruct (caller s) as [| | |j|]; try done.
    + rewrite Ha in E. by injection E as <-.
    + destruct (monitoring s); [done|]. by injection E as <-.
    + destruct (workers s !! j) as [[]|]; try done; by injection E as <-.
Qed.

(** The accept loop ends with the first error that is not transient, such as a
    connection that was aborted in the queue: until [stop] is called the daemon
    goes on running, and no client is ever accepted again. *)
Theorem acceptor_dies s w :
  serving (daemon s) = true → acceptor s = Accepting →
  ∃ s1, act (AcceptFails false) (s, w) = Some (s1, w) ∧
    ∀ l s2 w2, acts l (s1, w) = Some (s2, w2) →
      acceptor s2 = Over ∧ total_connections_ (daemon s2) = total_connections_ (daemon s) ∧
      (Stop ∉ l → serving (daemon s2) = true).
Proof.
  intros Hs Ha. cbn. rewrite Ha. eexists. split; [reflexivity|]. intros l s2 w2 E.
  destruct (acts_invariant (λ s1 _, acceptor s1 = Over ∧
    total_connections_ (daemon s1) = total_connections_ (daemon s)) l (with_acceptor Over s) w s2 w2)
    as (H1' & H2'); [|done|done|].
  { intros x s3 w3 s4 w4 [A1 A2] Ex. destruct (act_count x s3 w3 s4 w4 A1 Ex) as [A3 A4]. split; [done|congruence]. }
  split; [done|]. split; [done|]. clear H1' H2'. change (daemon s) with (daemon (with_acceptor Over s)) in Hs.
  revert Hs E. generalize (with_acceptor Over s), w. induction l as [|x l IH]; intros s1 w1 Hs; cbn [acts].
  - by intros [= <- _].
  - destruct (act x (s1, w1)) as [[s3 w3]|] eqn:Ex; cbn; [|done]. intros E Hl.
    apply not_elem_of_cons in Hl as [Hx Hl]. apply (IH s3 w3); [|done|done].
    by rewrite (flags_serving _ _ (act_flags x s1 w1 s3 w3 (not_eq_sym Hx) Ex)).
Qed.

(** A daemon that was stopped is never of use again: another start succeeds, and
    then every thread ends at once; no client is accepted and no file changes. *)
Theorem restart_is_deaf n w d k l s w' :
  running_ d = true →
  acts l (initial k (snd (start n w (stop d))), w) = Some (s, w') →
  w' = w ∧ total_connections_ (daemon s) = total_connections_ (snd (start n w (stop d))).
Proof.
  intros Hr E. destruct (stopped_for_good n w d Hr) as (_ & Hs & _). set (d2 := snd _) in *. clearbody d2.
  destruct (acts_invariant (λ s w1, w1 = w ∧ serving (daemon s) = false ∧
    total_connections_ (daemon s) = total_connections_ d2 ∧ (acceptor s = Polling ∨ acceptor s = Over) ∧
    ∀ i k, workers s !! i = Some k → k = Resting ∨ k = Ended) l (initial k d2) w s w')
    as (-> & _ & Ht & _); [| |done|done].
  2:{ split; [done|]. split; [done|]. split; [done|]. split; [by left|].
      intros i y [-> _]%lookup_replicate. by left. }
  clear s w' l E Hr Hs. intros x s w0 s' w' (-> & Hs & Ht & Ha & Hw) Ex.
  assert (x ≠ Stop → serving (daemon s') = false) as Hs'
    by (intros Hx; by rewrite (flags_serving _ _ (act_flags x _ _ _ _ Hx Ex))).
  destruct x; cbn [act] in Ex;
    try (match type of Ex with (?m ≫= _) = _ => destruct m as [s1|] eqn:E; [|done] end; cbn in Ex; injection Ex as <- <-).
  1-5: unfold acceptor_act in E; destruct Ha as [Ha|Ha]; rewrite Ha, ?Hs in E; try done.
  - specialize (Hs' ltac:(done)). injection E as <-. do 3 (split; [done|]). split; [by right|done].
  - cbn in Ex. rewrite Hs in Ex. destruct (workers s !! i) as [[]|]; done.
  - cbn in Ex. destruct (workers s !! i) as [y|] eqn:Ei; [|done]. by destruct (Hw i y Ei) as [-> | ->].
  - cbn in Ex. destruct (workers s !! i) as [y|] eqn:Ei; [|done]. by destruct (Hw i y Ei) as [-> | ->].
  - cbn in Ex. destruct (workers s !! i) as [y|] eqn:Ei; [|done]. by destruct (Hw i y Ei) as [-> | ->].
  - cbn in Ex. destruct (workers s !! i) as [y|] eqn:Ei; [|done]. destruct (Hw i y Ei) as [-> | ->]; [|done].
    rewrite Hs in Ex. injection Ex as <- <-. do 4 (split; [done|]). cbn. intros j z Hj.
    destruct (decide (j = i)) as [->|Hne].
    + rewrite list_lookup_insert_eq in Hj by by eapply lookup_lt_Some. injection Hj as <-. by right.
    + rewrite list_lookup_insert_ne in Hj by done. by apply (Hw j).
  - unfold monitor_act in E. destruct (_ && _); [|done]. by injection E as <-.
  - unfold caller_act in E. destruct (caller s); try done. unfold serving in Hs. destruct (running_ _) eqn:Er; [|done].
    injection E as <-. split; [done|]. split; [apply request_serving|]. split; [|done]. cbn. rewrite <- Ht. apply request_front.
  - specialize (Hs' ltac:(done)). unfold caller_act in E. destruct (caller s) as [| | |j|]; try done.
    + destruct Ha as [Ha|Ha]; rewrite Ha in E; [done|]. injection E as <-. do 3 (split; [done|]). split; [by right|done].
    + destruct (monitoring s); [done|]. by injection E as <-.
    + destruct (workers s !! j) as [[]|]; try done; by injection E as <-.
Qed.
End threads.

(** ** Witnesses *)
#[local] Existing Instances ConfigDocuments.no_json ConfigDocuments.no_yaml Ssl.toy_tls Privileges.toy_accounts
  NetworkAccess.dotted_quad_InetPton Passwords.toy_sha256 SshKey.toy_openssl Daemon.toy_modules.

Definition everybody_speaks : Peers := {| silent _ := false; congested _ := false |}.
(** The client of socket 8 connects and does nothing. *)
Definition eight_is_silent : Peers := {| silent k := k =? 8; congested _ := false |}.

Abbreviation toy_system n := (initial n (with_sessions [] 0 (started toy_configuration))).

(** Three clients at once, with a limit of one: sessions that a worker holds are
    not in the list. *)
Definition crowd : list action :=
  [Poll; Accept (visit 8 1000); Enter 0; Take 0; Poll; Accept (visit 9 1000); Enter 1; Take 1;
   Poll; Accept (visit 10 1000);
   Work 0 "error" (toy_event "hello"); Work 1 "error" (toy_event "hello"); Return 0; Return 1].
Abbreviation crowded := (acts (clients:=everybody_speaks) crowd (toy_system 2, toy_w)).

Lemma connections_conserved_witness :
  ∃ s w now, crowded = Some (s, w) ∧
    client_socket_ <$> births (clients:=everybody_speaks) crowd (toy_system 2, toy_w) = [8; 9; 10] ∧
    client_socket_ <$> active_sessions_ (daemon s) = [10; 8; 9] ∧
    Forall2 descends (births (clients:=everybody_speaks) crowd (toy_system 2, toy_w)) now ∧
    now ≡ₚ active_sessions_ (daemon s) ++ concat (carried <$> workers s) ++ gone s ++ discarded s ∧
    total_connections_ (daemon s) = 3 ∧ (max_connections ∘ network) <$> d_config (daemon s) = Some 1.
Proof.
  assert (match crowded with
          | Some (s, _) => client_socket_ <$> active_sessions_ (daemon s) = [10; 8; 9] ∧
                           total_connections_ (daemon s) = 3 ∧
                           (max_connections ∘ network) <$> d_config (daemon s) = Some 1
          | None => False
          end) as Hend by (vm_compute; done).
  destruct crowded as [[s w]|] eqn:E; [|destruct Hend]. destruct Hend as [Hl Hend].
  destruct (connections_conserved (clients:=everybody_speaks) 2 (with_sessions [] 0 (started toy_configuration)) crowd
    toy_w s w) as [(now & Hd & Hp) _]; [done|done|exact E|].
  exists s, w, now. split; [reflexivity|]. split; [vm_compute; reflexivity|]. split; [exact Hl|].
  split; [exact Hd|]. split; [exact Hp|exact Hend].
Defined.

(** A worker takes the silent client 8 together with client 9, who has asked for
    something and will not be answered. *)
Definition two_clients : list action :=
  [Poll; Accept (visit 9 1000); Enter 0; Take 0; Poll; Accept (visit 8 1000); Work 0 "error" (toy_event "hello");
   Return 0; Enter 0; Take 0].

Lemma silent_client_stalls_witness :
  ∃ s w, acts (clients:=eight_is_silent) two_clients (toy_system 1, toy_w) = Some (s, w) ∧
    option_map (λ k, client_socket_ <$> todo k) (workers s !! 0%nat) = Some [8; 9] ∧
    ∀ l s' w', acts (clients:=eight_is_silent) l (s, w) = Some (s', w') → caller s' ≠ Stopped.
Proof.
  assert (match acts (clients:=eight_is_silent) two_clients (toy_system 1, toy_w) with
          | Some (s, _) => match workers s !! 0%nat with
                           | Some (Busy (x :: rest) []) => stalls (clients:=eight_is_silent) x = true ∧
                               client_socket_ <$> (x :: rest) = [8; 9]
                           | _ => False
                           end
          | None => False
          end) as Hend by (vm_compute; done).
  destruct (acts (clients:=eight_is_silent) two_clients (toy_system 1, toy_w)) as [[s w]|] eqn:E; [|destruct Hend].
  exists s, w. split; [reflexivity|].
  destruct (workers s !! 0%nat) as [[| |[|x rest] [|]|]|] eqn:Ew;
    [destruct Hend|destruct Hend|destruct Hend|destruct Hend| |destruct Hend|destruct Hend|destruct Hend].
  destruct Hend as [Hx Hxs].
  split; [exact (f_equal Some Hxs)|]. intros l s' w' El.
  exact (proj2 (proj1 (silent_client_stalls (clients:=eight_is_silent) 1 _ _ _ _ _ E) 0%nat x rest [] Ew Hx l s' w' El)).
Defined.

(** With clients who speak, the system of [crowd] can be stopped, at a moment when
    worker 0 has the three sessions, worker 1 and the accept loop are past their
    tests: a fourth client is accepted, and served, after [stop] has set the
    flags. *)
Definition before_stop : list action := crowd ++ [Enter 0; Take 0; Poll; Enter 1; Stop].
Definition after_stop : list action :=
  [Accept (visit 11 1000); AcceptorEnds; Joins; Joins; Take 1; Work 1 "error" (toy_event "hello"); Return 1;
   WorkerEnds 1; Work 0 "error" (toy_event "hello"); Work 0 "error" (toy_event "hello");
   Work 0 "error" (toy_event "hello"); Return 0; WorkerEnds 0; Joins; Joins; Joins].

Lemma stop_completes_witness :
  ∃ s w s' w', acts (clients:=everybody_speaks) before_stop (toy_system 2, toy_w) = Some (s, w) ∧
    acts (clients:=everybody_speaks) after_stop (s, w) = Some (s', w') ∧
    caller s' = Stopped ∧ at_an_end s' ∧ length (discarded s') = 4%nat ∧
    (length after_stop + left_to_do s' ≤ left_to_do s)%nat.
Proof.
  assert (match acts (clients:=everybody_speaks) before_stop (toy_system 2, toy_w) with
          | Some (s, w) => bool_decide (caller s = Running) = false ∧
              match acts (clients:=everybody_speaks) after_stop (s, w) with
              | Some (s', _) => caller s' = Stopped ∧ length (discarded s') = 4%nat
              | None => False
              end
          | None => False
          end) as Hend by (vm_compute; done).
  destruct (acts (clients:=everybody_speaks) before_stop (toy_system 2, toy_w)) as [[s w]|] eqn:E; [|destruct Hend].
  destruct Hend as (Hr & Hend). apply bool_decide_eq_false in Hr.
  destruct (acts (clients:=everybody_speaks) after_stop (s, w)) as [[s' w']|] eqn:E'; [|destruct Hend].
  destruct Hend as [Hs Hd]. exists s, w, s', w'. split; [reflexivity|]. split; [exact E'|]. split; [exact Hs|].
  assert (responsive (clients:=everybody_speaks) s) as Hresp by (split; intros; split; reflexivity).
  destruct (stop_completes (clients:=everybody_speaks) 2 (with_sessions [] 0 (started toy_configuration)) _ _ _ _
    (toy_event "") eq_refl eq_refl E Hr Hresp after_stop s' w' E') as (H1 & _ & H3); [intros; split; reflexivity|].
  split; [apply H3, Hs|]. split; [exact Hd|exact H1].
Defined.
