(* ===== verification/Main.v ===== *)
(** * The command line: [main.cpp]

    One run of the program, from its arguments to its exit code, with what it
    prints.  The life of a started daemon until a signal stops it is an argument:
    any change of the daemon and of the file system; so is the text of the
    exceptions of the file system. *)
From S2P Require Import Prelude CppString ConfigTypes FileSys State Protocol Session Daemon.
From S2P Require Config ConfigDocuments FileSystemModule Ssl AuthManager NetworkAccess.
From S2P Require Privileges Passwords SshKey UserDatabase.
Open Scope Z_scope.

(** ** Arguments *)
Record options := MkOptions {
  config_file : string;
  command : string;
  daemon_mode : bool;
  verbose : bool;
  pid_file : string;
  user : string;
  group : string
}.
Definition no_options : options := MkOptions "" "" false false "" "" "".

(** Why [parseArguments] answers [false]. *)
Inductive refusal := Help | Version | MissingValue (option : string) | UnknownOption (arg : string).

Fixpoint parse_args (args : list string) (o : options) : refusal + options :=
  match args with
  | [] => inr o
  | arg :: rest =>
      let valued (set : string → options) : refusal + options :=
        match rest with
        | value :: rest => parse_args rest (set value)
        | [] => inl (MissingValue arg)
        end in
      if String.eqb arg "--help" || String.eqb arg "-h" then inl Help
      else if String.eqb arg "--version" || String.eqb arg "-v" then inl Version
      else if String.eqb arg "--config" || String.eqb arg "-c" then
        valued (λ v, MkOptions v (command o) (daemon_mode o) (verbose o) (pid_file o) (user o) (group o))
      else if String.eqb arg "--verbose" || String.eqb arg "-V" then
        parse_args rest (MkOptions (config_file o) (command o) (daemon_mode o) true (pid_file o) (user o) (group o))
      else if String.eqb arg "--daemon" || String.eqb arg "-d" then
        parse_args rest (MkOptions (config_file o) (command o) true (verbose o) (pid_file o) (user o) (group o))
      else if String.eqb arg "--foreground" || String.eqb arg "-f" then
        parse_args rest (MkOptions (config_file o) (command o) false (verbose o) (pid_file o) (user o) (group o))
      else if String.eqb arg "--pid-file" then
        valued (λ v, MkOptions (config_file o) (command o) (daemon_mode o) (verbose o) v (user o) (group o))
      else if String.eqb arg "--user" then
        valued (λ v, MkOptions (config_file o) (command o) (daemon_mode o) (verbose o) (pid_file o) v (group o))
      else if String.eqb arg "--group" then
        valued (λ v, MkOptions (config_file o) (command o) (daemon_mode o) (verbose o) (pid_file o) (user o) v)
      else if negb (starts_with "-" arg) then
        parse_args rest (MkOptions (config_file o) arg (daemon_mode o) (verbose o) (pid_file o) (user o) (group o))
      else inl (UnknownOption arg)
  end.
Definition parseArguments (args : list string) : refusal + options := parse_args args no_options.

(** ** Printed lines *)
Inductive line := Out (text : string) | Err (text : string).

Definition printUsage : list line := Out <$> [
  nl +:+ "Usage: simple-rsyncd [OPTIONS] [COMMAND] [ARGS...]";
  nl +:+ "Options:";
  "  --help, -h           Show this help message";
  "  --version, -v        Show version information";
  "  --config, -c FILE    Use specified configuration file";
  "  --verbose, -V        Enable verbose logging";
  "  --daemon, -d         Run as daemon";
  "  --foreground, -f     Run in foreground (default)";
  "  --pid-file FILE      Write PID to specified file";
  "  --user USER          Run as specified user";
  "  --group GROUP        Run as specified group";
  nl +:+ "Commands:";
  "  start                Start the rsync daemon";
  "  stop                 Stop the rsync daemon";
  "  restart              Restart the rsync daemon";
  "  status               Show daemon status";
  "  reload               Reload configuration";
  "  test                 Test configuration";
  "  modules              List available modules";
  "  logs                 Show recent logs";
  "  metrics              Show metrics";
  nl +:+ "Examples:";
  "  simple-rsyncd start --config /etc/simple-rsyncd/rsyncd.conf";
  "  simple-rsyncd start --daemon --config /etc/simple-rsyncd/rsyncd.conf";
  "  simple-rsyncd status";
  "  simple-rsyncd reload";
  "  simple-rsyncd test --config /etc/simple-rsyncd/rsyncd.conf";
  "  simple-rsyncd modules";
  "  simple-rsyncd logs --tail 100";
  "  simple-rsyncd metrics --format json"].

Definition printVersion : list line := Out <$> [
  "simple-rsyncd v0.4.0";
  "Simple RSync Daemon - A lightweight and secure rsync server";
  "Copyright (c) 2024 simple-rsyncd contributors";
  "License: Apache 2.0"].

(** What [parseArguments] prints when it refuses. *)
Definition missing_value (option : string) : string :=
  if String.eqb option "--pid-file" then "Error: --pid-file requires a file path"
  else if String.eqb option "--user" then "Error: --user requires a username"
  else if String.eqb option "--group" then "Error: --group requires a group name"
  else "Error: --config requires a file path".
Definition print_refusal (r : refusal) : list line :=
  match r with
  | Help => printUsage
  | Version => printVersion
  | MissingValue option => [Err (missing_value option)]
  | UnknownOption arg => Err ("Error: Unknown option: " +:+ arg) :: printUsage
  end.

(** ** Files *)
Definition default_config : string := "/etc/simple-rsyncd/rsyncd.conf".
Definition config_paths : list string :=
  [default_config; "/usr/local/etc/simple-rsyncd/rsyncd.conf"; "/opt/simple-rsyncd/etc/rsyncd.conf";
   "./rsyncd.conf"; "./config/rsyncd.conf"].
Fixpoint first_existing (paths : list string) : io string :=
  match paths with
  | [] => ret default_config
  | path :: paths => if! exists_ path then ret path else first_existing paths
  end.
Definition getDefaultConfigFile (config_file : string) : io string :=
  if is_empty config_file then first_existing config_paths else ret config_file.

(** The exceptions of both functions; [what] is their text. *)
Definition writePidFile (what : string) (pid : Z) (pid_file : string) : io (bool * list line) :=
  if is_empty pid_file then ret (true, []) else
  try_catch
    (do out <- open_write false pid_file;
     match out with
     | Some l => do _ <- append_to l (to_string pid +:+ nl); ret (true, [])
     | None => ret (false, [])
     end)
    (ret (false, [Err ("Error writing PID file: " +:+ what)])).

(** Whether the file exists is asked outside the [try]. *)
Definition removePidFile (what : string) (pid_file : string) : io (list line) :=
  if is_empty pid_file then ret [] else
  if! exists_ pid_file then
    try_catch (do _ <- remove pid_file; ret [])
      (ret [Err ("Warning: Could not remove PID file: " +:+ what)])
  else ret [].

(** ** Commands *)
(** How the program ends; [Terminated]: by an exception that nothing catches. *)
Inductive ending := Exit (code : Z) | Terminated.

(** A command: the ending, the lines printed, and the file system it leaves. *)
Definition run : Type := world → ending * list line * world.
Definition exit (code : Z) : run := λ w, (Exit code, [], w).
Definition terminate : run := λ w, (Terminated, [], w).
Definition say (l : list line) (r : run) : run := λ w, let '(e, out, w) := r w in (e, l ++ out, w).
(** [m], with [h] for its exceptions. *)
Definition after_or {A} (m : io A) (h : run) (k : A → run) : run := λ w,
  match m w with
  | (Some a, w) => k a w
  | (None, w) => h w
  end.
Definition after {A} (m : io A) (k : A → run) : run := after_or m terminate k.

(** The commands that are not implemented say what they would do. *)
Definition would (doing what_ : string) : run := say [Out doing; Out what_] (exit 0).
Definition handleStop : run := would "Stopping simple-rsyncd..." "Would stop the daemon".
Definition handleStatus : run := would "Checking simple-rsyncd status..." "Would check daemon status".
Definition handleReload : run := would "Reloading simple-rsyncd configuration..." "Would reload configuration".
Definition handleModules : run := would "Listing simple-rsyncd modules..." "Would list available modules".
Definition handleLogs : run := would "Showing simple-rsyncd logs..." "Would show recent logs".
Definition handleMetrics : run := would "Showing simple-rsyncd metrics..." "Would show metrics".

(** An error, and the errors of the configuration. *)
Definition report (error : string) (c : Configuration) : list line :=
  Err ("Error: " +:+ error) :: Err "Configuration errors:" :: ((λ e, Err ("  " +:+ e)) <$> Config.getErrors c).

Section main.
Context `{Config_json : ConfigDocuments.JsonLibrary} `{Config_yaml : ConfigDocuments.YamlLibrary}.
Context `{Ssl.TlsLibrary} `{Privileges.Accounts} `{NetworkAccess.InetPton} `{Passwords.Sha256} `{SshKey.OpenSSL}.
Context `{ModuleOps ModuleConfig}.
Context (getenv : string → option string) (write_time : string → option Z) (now pid : Z) (what : string).
Context (network : Privileges.credentials → network_results) (users : UserDatabase.disk).
Context (life : RSyncDaemon → world → RSyncDaemon * world).

(** Load the file into a new configuration and validate it, or report why not. *)
Definition load_config (config_file : string) (w : world) : option (list line + Configuration) :=
  match Config.loadFromFile getenv write_time now config_file w new_configuration with
  | (inl _, _) => None
  | (inr false, c) => Some (inl (report ("Failed to load configuration from " +:+ config_file) c))
  | (inr true, c) =>
      match Config.validate w c with
      | (inl _, _) => None
      | (inr false, c) => Some (inl (report "Configuration validation failed" c))
      | (inr true, c) => Some (inr c)
      end
  end.
Definition with_config (config_file : string) (k : Configuration → run) : run := λ w,
  match load_config config_file w with
  | None => terminate w
  | Some (inl errors) => say errors (exit 1) w
  | Some (inr c) => k c w
  end.

(** [SIGINT], [SIGTERM] and [SIGHUP] alike. *)
Definition signalHandler (signal : Z) (d : option RSyncDaemon) : list line * option RSyncDaemon :=
  ([Out (nl +:+ "Received signal " +:+ to_string signal +:+ ", shutting down gracefully...")], stop <$> d).

(** [daemonize] only says that it would. *)
Definition dropPrivileges (user group : string) (p : Privileges.credentials) : bool * Privileges.credentials :=
  Privileges.dropProcessPrivileges user group p.
Definition daemonize : bool * list line := (true, [Out "Would daemonize the process"]).

(** The part in the [try], and what catches its exceptions. *)
Definition caught (pid_file error : string) : run :=
  say [Err ("Error: " +:+ error)] (after (removePidFile what pid_file) (λ l, say l (exit 1))).
Definition serve (o : options) (c : Configuration) (p : Privileges.credentials) : run := λ w,
  match start (network p) w (new_daemon (Some c) users p) with
  | (inr true, d) =>
      let '(d, w) := life d w in
      let d := stop d in
      say [Out "Daemon started successfully"; Out "Shutting down daemon..."]
        (after (removePidFile what (pid_file o)) (λ l, say (l ++ [Out "Daemon stopped"]) (exit 0))) w
  | (inr false, _) =>
      say [Err "Error: Failed to start daemon"]
        (after_or (removePidFile what (pid_file o)) (caught (pid_file o) what) (λ l, say l (exit 1))) w
  | (inl e, _) => caught (pid_file o) (exn_what e) w
  end.

Definition handleStart (o : options) (p : Privileges.credentials) : run :=
  say [Out "Starting simple-rsyncd..."] (with_config (config_file o) (λ c,
    say [Out "Configuration loaded successfully"] (
      let '(dropped, p) := dropPrivileges (user o) (group o) p in
      if negb dropped then say [Err "Error: Failed to drop privileges"] (exit 1) else
      let '(ok, l) := if daemon_mode o then daemonize else (true, []) in
      say l (
        if negb ok then say [Err "Error: Failed to daemonize"] (exit 1) else
        after (writePidFile what pid (pid_file o)) (λ '(ok, l),
          say l (say (if ok : bool then [] else [Err "Warning: Failed to write PID file"])
            (serve o c p))))))).

Definition handleRestart (o : options) (p : Privileges.credentials) : run := λ w,
  let '(result, l, w) := handleStop w in
  say (Out "Restarting simple-rsyncd..." :: l ++
       match result with
       | Exit 0 => []
       | _ => [Err "Warning: Failed to stop daemon, continuing with restart"]
       end)
    (handleStart o p) w.

Definition yes_no (b : bool) : string := if b then "yes" else "no".
Definition module_lines (name : string) (m : ModuleConfig) : list line := Out <$> [
  "  Module: " +:+ name;
  "    Path: " +:+ mod_path m;
  "    Comment: " +:+ mod_comment m;
  "    Read-only: " +:+ yes_no (read_only m);
  "    List: " +:+ yes_no (list_ m);
  "    Delete: " +:+ yes_no (allow_delete m);
  "    Overwrite: " +:+ yes_no (overwrite m)].
Fixpoint test_modules (l : list (string * ModuleConfig)) (k : run) : run :=
  match l with
  | [] => k
  | (name, m) :: l =>
      say (module_lines name m) (after (exists_ (mod_path m)) (λ there,
        if there : bool then
          say [Out "    Path exists: yes"] (after (is_directory (mod_path m)) (λ directory,
            say [Out ("    Path type: " +:+ if directory : bool then "directory" else "file"); Out ""]
              (test_modules l k)))
        else say [Out "    Path exists: no"; Out ""] (test_modules l k)))
  end.
Definition handleTest (config_file : string) : run :=
  say [Out "Testing simple-rsyncd configuration..."] (with_config config_file (λ c,
    say [Out "Configuration is valid"; Out "Testing modules..."]
      (test_modules (map_entries (modules c))
        (say [Out "Configuration test completed successfully"] (exit 0))))).

Definition main (args : list string) (p : Privileges.credentials) : run :=
  match parseArguments args with
  | inl r => say (print_refusal r) (exit 0)
  | inr o =>
      after (getDefaultConfigFile (config_file o)) (λ file,
        let o := MkOptions file (command o) (daemon_mode o) (verbose o) (pid_file o) (user o) (group o) in
        if String.eqb (command o) "start" then handleStart o p
        else if String.eqb (command o) "stop" then handleStop
        else if String.eqb (command o) "restart" then handleRestart o p
        else if String.eqb (command o) "status" then handleStatus
        else if String.eqb (command o) "reload" then handleReload
        else if String.eqb (command o) "test" then handleTest file
        else if String.eqb (command o) "modules" then handleModules
        else if String.eqb (command o) "logs" then handleLogs
        else if String.eqb (command o) "metrics" then handleMetrics
        else if is_empty (command o) then say (Err "Error: No command specified" :: printUsage) (exit 1)
        else say (Err ("Error: Unknown command: " +:+ command o) :: printUsage) (exit 1))
  end.
End main.

(** ** Arguments as a sequence of settings *)
Inductive setting :=
  | ConfigFile (short : bool) (v : string)
  | DaemonMode (short on : bool)
  | Verbose (short : bool)
  | PidFile (v : string)
  | User (v : string)
  | Group (v : string)
  | Command (v : string).

Definition setting_text (s : setting) : list string :=
  match s with
  | ConfigFile short v => [if short then "-c" else "--config"; v]
  | DaemonMode short true => [if short then "-d" else "--daemon"]
  | DaemonMode short false => [if short then "-f" else "--foreground"]
  | Verbose short => [if short then "-V" else "--verbose"]
  | PidFile v => ["--pid-file"; v]
  | User v => ["--user"; v]
  | Group v => ["--group"; v]
  | Command v => [v]
  end.
Definition apply_setting (o : options) (s : setting) : options :=
  match s with
  | ConfigFile _ v => MkOptions v (command o) (daemon_mode o) (verbose o) (pid_file o) (user o) (group o)
  | DaemonMode _ on => MkOptions (config_file o) (command o) on (verbose o) (pid_file o) (user o) (group o)
  | Verbose _ => MkOptions (config_file o) (command o) (daemon_mode o) true (pid_file o) (user o) (group o)
  | PidFile v => MkOptions (config_file o) (command o) (daemon_mode o) (verbose o) v (user o) (group o)
  | User v => MkOptions (config_file o) (command o) (daemon_mode o) (verbose o) (pid_file o) v (group o)
  | Group v => MkOptions (config_file o) (command o) (daemon_mode o) (verbose o) (pid_file o) (user o) v
  | Command v => MkOptions (config_file o) v (daemon_mode o) (verbose o) (pid_file o) (user o) (group o)
  end.
(** A command does not look like an option; values may. *)
Definition setting_ok (s : setting) : Prop :=
  match s with Command v => starts_with "-" v = false | _ => True end.

Lemma dash_differs v t : starts_with "-" v = false → String.eqb v (String "-" t) = false.
Proof. intros Hv. apply String.eqb_neq. intros ->. done. Qed.

Lemma parse_command v args o :
  starts_with "-" v = false → parse_args (v :: args) o = parse_args args (apply_setting o (Command v)).
Proof. intros Hv. cbn [parse_args]. rewrite !dash_differs, Hv by done. done. Qed.

Lemma parse_setting s args o :
  setting_ok s → parse_args (setting_text s ++ args) o = parse_args args (apply_setting o s).
Proof.
  destruct s as [[] v|[] []|[]|v|v|v|v]; intros Hs; try reflexivity. by apply parse_command.
Qed.

Lemma parse_settings_from l args o :
  Forall setting_ok l →
  parse_args (concat (setting_text <$> l) ++ args) o = parse_args args (foldl apply_setting o l).
Proof.
  intros Hl. revert o. induction Hl as [|s l Hs _ IH]; intros o; [done|].
  cbn [fmap list_fmap concat foldl]. by rewrite <- app_assoc, parse_setting, IH.
Qed.

(** The options that take a value, the other ones, and what ends the reading. *)
Definition valued_options : list string := ["--config"; "-c"; "--pid-file"; "--user"; "--group"].
Definition plain_options : list string := ["--verbose"; "-V"; "--daemon"; "-d"; "--foreground"; "-f"].
Definition help_options : list string := ["--help"; "-h"].
Definition version_options : list string := ["--version"; "-v"].
Definition unknown_option (o : string) : Prop :=
  starts_with "-" o = true ∧ o ∉ valued_options ++ plain_options ++ help_options ++ version_options.

Lemma parse_unknown o rest x : unknown_option o → parse_args (o :: rest) x = inl (UnknownOption o).
Proof.
  intros [Hd Ho]. cbn [parse_args].
  repeat match goal with |- context [String.eqb o ?t] =>
    destruct (String.eqb_spec o t) as [->|_]; [exfalso; apply Ho; cbn; set_solver|] end.
  by rewrite Hd.
Qed.


(** Settings and then the end, an option that lacks its value, or one that ends the
    reading. *)
Definition well_read (args : list string) : Prop := ∃ l tail,
  Forall setting_ok l ∧ args = concat (setting_text <$> l) ++ tail ∧
  (tail = [] ∨ (∃ o, tail = [o] ∧ o ∈ valued_options) ∨
   ∃ o rest, tail = o :: rest ∧ (unknown_option o ∨ o ∈ help_options ∨ o ∈ version_options)).

Lemma well_read_setting s args : setting_ok s → well_read args → well_read (setting_text s ++ args).
Proof.
  intros Hs (l & tail & Hl & -> & Ht). exists (s :: l), tail. split; [by constructor|].
  split; [by rewrite fmap_cons, app_assoc|done].
Qed.
Lemma well_read_plain a args : a ∈ plain_options → well_read args → well_read (a :: args).
Proof.
  intros Ha Hr. repeat (apply elem_of_cons in Ha as [->|Ha]); [..|by apply elem_of_nil in Ha].
  - by apply (well_read_setting (Verbose false)).
  - by apply (well_read_setting (Verbose true)).
  - by apply (well_read_setting (DaemonMode false true)).
  - by apply (well_read_setting (DaemonMode true true)).
  - by apply (well_read_setting (DaemonMode false false)).
  - by apply (well_read_setting (DaemonMode true false)).
Qed.
Lemma well_read_valued a v args : a ∈ valued_options → well_read args → well_read (a :: v :: args).
Proof.
  intros Ha Hr. repeat (apply elem_of_cons in Ha as [->|Ha]); [..|by apply elem_of_nil in Ha].
  - by apply (well_read_setting (ConfigFile false v)).
  - by apply (well_read_setting (ConfigFile true v)).
  - by apply (well_read_setting (PidFile v)).
  - by apply (well_read_setting (User v)).
  - by apply (well_read_setting (Group v)).
Qed.

(** Every command line is of the form that [parse_settings] is about. *)
Theorem lines_are_settings args : well_read args.
Proof.
  remember (length args) as n eqn:En. revert args En. induction n as [n IH] using lt_wf_ind. intros [|a args] ->.
  { exists [], []. split; [constructor|]. split; [done|by left]. }
  assert (∀ ys, (length ys ≤ length args)%nat → well_read ys) as IH' by (intros ys Hy; apply (IH (length ys)); [cbn; lia|done]).
  destruct (decide (a ∈ valued_options)) as [Hv|Hv].
  { destruct args as [|v args]; [|apply well_read_valued; [done|apply IH'; cbn; lia]].
    exists [], [a]. split; [constructor|]. split; [done|]. right. left. by exists a. }
  destruct (decide (a ∈ plain_options)) as [Hp|Hp]; [by apply well_read_plain, IH'|].
  destruct (starts_with "-" a) eqn:Ed; [|by apply (well_read_setting (Command a)), IH'].
  exists [], (a :: args). split; [constructor|]. split; [done|]. right. right. exists a, args. split; [done|].
  destruct (decide (a ∈ help_options)); [by right; left|]. destruct (decide (a ∈ version_options)); [by right; right|].
  left. split; [done|]. rewrite !elem_of_app. tauto.
Qed.

(** ** Starting *)
Section results.
Context `{Config_json : ConfigDocuments.JsonLibrary} `{Config_yaml : ConfigDocuments.YamlLibrary}.
Context `{Ssl.TlsLibrary} `{Privileges.Accounts} `{NetworkAccess.InetPton} `{Passwords.Sha256} `{SshKey.OpenSSL}.
Context `{ModuleOps ModuleConfig}.
Context (getenv : string → option string) (write_time : string → option Z) (now pid : Z) (what : string).
Context (network : Privileges.credentials → network_results) (users : UserDatabase.disk).
Context (life : RSyncDaemon → world → RSyncDaemon * world).

Abbreviation Start := (handleStart getenv write_time now pid what network users life).
Abbreviation Main := (main getenv write_time now pid what network users life).

(** *** What a run prints and how it ends *)
Lemma say_inv l r w e out w' : say l r w = (e, out, w') → ∃ out', r w = (e, out', w') ∧ out = l ++ out'.
Proof. unfold say. destruct (r w) as [[e1 out1] w1]. intros [= -> <- ->]. eauto. Qed.

Lemma after_or_inv {A} (m : io A) h k w e out w' :
  after_or m h k w = (e, out, w') →
  (∃ a w1, m w = (Some a, w1) ∧ k a w1 = (e, out, w')) ∨ (∃ w1, m w = (None, w1) ∧ h w1 = (e, out, w')).
Proof. unfold after_or. destruct (m w) as [[a|] w1]; eauto 6. Qed.

Lemma after_inv {A} (m : io A) k w code out w' :
  after m k w = (Exit code, out, w') → ∃ a w1, m w = (Some a, w1) ∧ k a w1 = (Exit code, out, w').
Proof. intros [H'|(w1 & _ & [=])]%after_or_inv. exact H'. Qed.

(** Exit codes are 0 and 1, and with 1 an error is printed. *)
Definition complains (out : list line) : Prop := ∃ t, Err ("Error: " +:+ t) ∈ out.
Definition explained (r : run) : Prop := ∀ w e out w',
  r w = (e, out, w') → match e with Exit code => code = 0 ∨ code = 1 ∧ complains out | Terminated => True end.
(** The same when an error has been printed before. *)
Definition harmless (r : run) : Prop := ∀ w e out w',
  r w = (e, out, w') → match e with Exit code => code = 0 ∨ code = 1 | Terminated => True end.

Lemma exit_explained : explained (exit 0).
Proof. intros w e out w' [= <- _ _]. by left. Qed.
Lemma say_explained l r : explained r → explained (say l r).
Proof.
  intros Hr w e out w' (out' & E & ->)%say_inv. specialize (Hr _ _ _ _ E). destruct e; [|done].
  destruct Hr as [|[? [t Ht]]]; [by left|]. right. split; [done|]. exists t. apply elem_of_app. by right.
Qed.
Lemma after_or_explained {A} (m : io A) h k : explained h → (∀ a, explained (k a)) → explained (after_or m h k).
Proof. intros Hh Hk w e out w' [(a & w1 & _ & E)|(w1 & _ & E)]%after_or_inv; [by eapply Hk|by eapply Hh]. Qed.
Lemma terminate_explained : explained terminate.
Proof. by intros w e out w' [= <- _ _]. Qed.
Lemma after_explained {A} (m : io A) k : (∀ a, explained (k a)) → explained (after m k).
Proof. intros Hk. apply after_or_explained; [apply terminate_explained|done]. Qed.

Lemma exit_harmless code : code = 0 ∨ code = 1 → harmless (exit code).
Proof. intros Hc w e out w' [= <- _ _]. done. Qed.
Lemma say_harmless l r : harmless r → harmless (say l r).
Proof. intros Hr w e out w' (out' & E & _)%say_inv. by eapply Hr. Qed.
Lemma after_or_harmless {A} (m : io A) h k : harmless h → (∀ a, harmless (k a)) → harmless (after_or m h k).
Proof. intros Hh Hk w e out w' [(a & w1 & _ & E)|(w1 & _ & E)]%after_or_inv; [by eapply Hk|by eapply Hh]. Qed.
Lemma after_harmless {A} (m : io A) k : (∀ a, harmless (k a)) → harmless (after m k).
Proof. intros Hk. apply after_or_harmless; [|done]. by intros w e out w' [= <- _ _]. Qed.

Lemma say_error l error r : Err ("Error: " +:+ error) ∈ l → harmless r → explained (say l r).
Proof.
  intros Hl Hr w e out w' (out' & E & ->)%say_inv. specialize (Hr _ _ _ _ E). destruct e; [|done].
  destruct Hr as [|]; [by left|]. right. split; [done|]. exists error. apply elem_of_app. by left.
Qed.

Ltac run_parts :=
  repeat first [ apply say_explained | apply after_explained | apply exit_explained
               | apply say_harmless | apply after_harmless | apply after_or_harmless | apply exit_harmless; lia
               | intros ? ].

Lemma caught_harmless pid_file error : harmless (caught what pid_file error).
Proof. unfold caught. run_parts. Qed.
Lemma caught_explained pid_file error : explained (caught what pid_file error).
Proof. apply (say_error _ error); [by left|run_parts]. Qed.

Lemma load_config_reports file w errors :
  load_config getenv write_time now file w = Some (inl errors) → ∃ error c, errors = report error c.
Proof.
  unfold load_config. destruct (Config.loadFromFile _ _ _ _ _ _) as [[|[]] c]; [done| |by intros [= <-]; eauto].
  destruct (Config.validate w c) as [[|[]] c']; [done..|]. intros [= <-]. eauto.
Qed.

Lemma with_config_explained file k : (∀ c, explained (k c)) → explained (with_config getenv write_time now file k).
Proof.
  intros Hk w e out w'. unfold with_config. destruct (load_config _ _ _ file w) as [[errors|c]|] eqn:El.
  - apply load_config_reports in El as (error & c & ->). apply (say_error _ error); [by left|run_parts].
  - apply Hk.
  - by intros [= <- _ _].
Qed.

Lemma serve_explained o c p : explained (serve what network users life o c p).
Proof.
  intros w e out w'. unfold serve. destruct (start _ w _) as [[x|[]] d].
  - intros E. by apply caught_explained in E.
  - destruct (life d w) as [d' w1]. intros E. eapply (say_explained _ _ (after_explained _ _ _)), E.
    Unshelve. run_parts.
  - intros E. eapply (say_error _ "Failed to start daemon"), E; [by left|].
    apply after_or_harmless; [apply caught_harmless|run_parts].
Qed.

Lemma start_explained o p : explained (Start o p).
Proof.
  apply say_explained, with_config_explained. intros c. apply say_explained.
  destruct (dropPrivileges _ _ _) as [[] p']; cbn [negb]; [|apply (say_error _ "Failed to drop privileges"); [by left|run_parts]].
  unfold daemonize. destruct (daemon_mode o); cbn [negb]; apply say_explained, after_explained; intros [ok l];
    apply say_explained, say_explained, serve_explained.
Qed.

Lemma test_modules_explained l k : explained k → explained (test_modules l k).
Proof.
  intros Hk. induction l as [|[name m] l IH]; [done|]. cbn [test_modules]. apply say_explained, after_explained.
  intros []; [|by apply say_explained]. apply say_explained, after_explained. intros b. by apply say_explained.
Qed.

(** Every failure is reported.  Whatever the arguments, the program ends by an
    exception of the file system or the libraries, or its exit code is 0 or 1;
    with 1 it has printed a line that starts with [Error:].  The converse
    fails: a refused command line prints an error and exits with 0. *)
Theorem failures_are_reported args p w e out w' :
  Main args p w = (e, out, w') →
  match e with
  | Exit code => (code = 0 ∨ code = 1) ∧ (code ≠ 0 → complains out)
  | Terminated => True
  end.
Proof.
  intros E. assert (explained (Main args p)) as Hm.
  { unfold main. destruct (parseArguments args) as [r|o]; [by apply say_explained, exit_explained|].
    apply after_explained. intros file. cbv zeta. cbn [command daemon_mode pid_file user group config_file].
    repeat (match goal with |- explained (if ?b then _ else _) => destruct b end);
      try apply say_explained, exit_explained.
    - apply start_explained.
    - intros w0 e0 out0 w0' E0. unfold handleRestart, handleStop, would, exit in E0. cbn in E0.
      by eapply (say_explained _ _ (start_explained _ _)), E0.
    - apply say_explained, with_config_explained. intros c. apply say_explained, test_modules_explained.
      apply say_explained, exit_explained.
    - apply (say_error _ "No command specified"); [by left|run_parts].
    - apply (say_error _ ("Unknown command: " +:+ command o)); [by left|run_parts]. }
  specialize (Hm _ _ _ _ E). destruct e as [code|]; [|done].
  destruct Hm as [->|[-> Hc]]; [split; [by left|done]|]. split; [by right|done].
Qed.

(** What an exit code of zero says. *)
Lemma start_succeeds o p w out w' :
  Start o p w = (Exit 0, out, w') →
  ∃ c p' d w1, load_config getenv write_time now (config_file o) w = Some (inr c) ∧
    Privileges.dropProcessPrivileges (user o) (group o) p = (true, p') ∧
    start (network p') w1 (new_daemon (Some c) users p') = (inr true, d).
Proof.
  intros (out1 & E & _)%say_inv. unfold with_config in E.
  destruct (load_config _ _ _ _ _) as [[errors|c]|] eqn:El; [by apply say_inv in E as (? & [=] & _)| |done].
  apply say_inv in E as (out2 & E & _). unfold dropPrivileges, daemonize in E.
  destruct (Privileges.dropProcessPrivileges _ _ _) as [[] p']; cbn [negb] in E;
    [|by apply say_inv in E as (? & [=] & _)].
  assert (∃ w1 out3, serve what network users life o c p' w1 = (Exit 0, out3, w')) as (w1 & out3 & E1).
  { destruct (daemon_mode o); cbn [negb] in E; apply say_inv in E as (out3 & E & _);
      apply after_inv in E as ([ok l] & w1 & _ & E); apply say_inv in E as (out4 & E & _);
      apply say_inv in E as (out5 & E & _); eauto. }
  clear E. unfold serve in E1. destruct (start _ w1 _) as [[x|[]] d] eqn:Es; [| |].
  - unfold caught in E1. apply say_inv in E1 as (? & E1 & _). apply after_inv in E1 as (? & ? & _ & E1).
    by apply say_inv in E1 as (? & [=] & _).
  - by exists c, p', d, w1.
  - apply say_inv in E1 as (? & E1 & _). apply after_or_inv in E1 as [(? & ? & _ & E1)|(? & _ & E1)].
    + by apply say_inv in E1 as (? & [=] & _).
    + apply say_inv in E1 as (? & E1 & _). apply after_inv in E1 as (? & ? & _ & E1).
      by apply say_inv in E1 as (? & [=] & _).
Qed.

(** The option [--user] drops the privileges before the daemon
    binds its port.  Where only root may bind the port, a start by root with a
    user that is not root fails: it never exits with zero.  (The configuration's
    own user is taken after binding.) *)
Theorem user_option_blocks_port o p w :
  (∀ q, Privileges.uid q ≠ 0 → bind_works (network q) = false) →
  Privileges.uid p = 0 → user o ≠ "" →
  Privileges.getpwnam (Privileges.root_directory p) (c_str (user o)) ≠ Some 0 →
  (Start o p w).1.1 ≠ Exit 0.
Proof.
  intros Hport Hroot Hu Hpw Hexit. destruct (Start o p w) as [[e out] w'] eqn:Es. cbn in Hexit. subst e.
  apply start_succeeds in Es as (c & p' & d & w1 & _ & Hdrop & Hs).
  destruct (Privileges.drop_result (user o) (group o) p p' Hroot Hu Hdrop) as (Hp' & _).
  apply start_binds in Hs; [|done]. rewrite Hport in Hs; [done|congruence].
Qed.
End results.


#[local] Existing Instances ConfigDocuments.no_json ConfigDocuments.no_yaml Ssl.toy_tls Privileges.toy_accounts
  NetworkAccess.dotted_quad_InetPton Passwords.toy_sha256 SshKey.toy_openssl Daemon.toy_modules.
Definition privileged_port (q : Privileges.credentials) : network_results :=
  MkNetworkResults 3 true true (λ _, true) (Privileges.uid q =? 0) true.
Definition toy_start (user : string) : ending :=
  (handleStart (λ _, None) (λ _, Some 5) 9 1 "disk" privileged_port ∅ (λ d w, (d, w))
    (MkOptions "/etc/d.conf" "start" false false "" user "") root_process Config.toy_files).1.1.

Lemma user_option_blocks_port_witness :
  toy_start "" = Exit 0 ∧ toy_start "rsync" ≠ Exit 0.
Proof.
  split; [vm_compute; reflexivity|].
  apply (user_option_blocks_port (λ _, None) (λ _, Some 5) 9 1 "disk" privileged_port ∅ (λ d w, (d, w))).
  - intros q Hq. by apply Z.eqb_neq.
  - reflexivity.
  - discriminate.
  - vm_compute. discriminate.
Defined.

Definition toy_main (args : list string) : ending * list line * world :=
  main (λ _, None) (λ _, Some 5) 9 1 "disk" privileged_port ∅ (λ d w, (d, w)) args root_process Config.toy_files.

Lemma failures_are_reported_witness : (toy_main ["start"; "-c"; "/etc/none"]).1.1 = Exit 1 ∧
  complains (toy_main ["start"; "-c"; "/etc/none"]).1.2.
Proof.
  assert ((toy_main ["start"; "-c"; "/etc/none"]).1.1 = Exit 1) as He by (vm_compute; reflexivity).
  split; [exact He|]. destruct (toy_main ["start"; "-c"; "/etc/none"]) as [[e out] w'] eqn:E. cbn in He. subst e.
  exact (proj2 (failures_are_reported _ _ _ _ _ _ _ _ _ _ _ _ _ _ E) ltac:(discriminate)).
Defined.

(** A wrong option ends the program with the exit code of success. *)
Example unknown_option_succeeds :
  toy_main ["logs"; "--tail"; "100"] =
    (Exit 0, Err "Error: Unknown option: --tail" :: printUsage, Config.toy_files).
Proof. reflexivity. Qed.

(** What [test] prints of a configuration. *)
Example test_prints :
  (toy_main ["test"; "-c"; "/etc/d.conf"]).1 = (Exit 0, [
    Out "Testing simple-rsyncd configuration..."; Out "Configuration is valid"; Out "Testing modules...";
    Out "  Module: data"; Out "    Path: /srv/data"; Out "    Comment: "; Out "    Read-only: no"; Out "    List: yes";
    Out "    Delete: no"; Out "    Overwrite: no"; Out "    Path exists: yes"; Out "    Path type: directory"; Out "";
    Out "Configuration test completed successfully"]).
Proof. vm_compute. reflexivity. Qed.

(** The examples of the usage text: the last two are refused. *)
Definition usage_examples : list (list string) := [
  ["start"; "--config"; "/etc/simple-rsyncd/rsyncd.conf"];
  ["start"; "--daemon"; "--config"; "/etc/simple-rsyncd/rsyncd.conf"];
  ["status"]; ["reload"]; ["test"; "--config"; "/etc/simple-rsyncd/rsyncd.conf"]; ["modules"];
  ["logs"; "--tail"; "100"]; ["metrics"; "--format"; "json"]].
Example usage_examples_refused :
  (λ args, Out ("  simple-rsyncd " +:+ String.concat " " args)) <$> usage_examples = drop 22 printUsage ∧
  (λ args, match parseArguments args with inl _ => false | inr _ => true end) <$> usage_examples =
    [true; true; true; true; true; true; false; false].
Proof. done. Qed.
