(* ===== verification/Shares.v ===== *)
(** * A served directory as a map of files

    The abstract view of a module whose directory holds only files: a map from
    names to contents with the module's permissions.  The commands of the
    protocol, through [ProtocolHandler] and [FileSystemModule] on the file system
    of [FileSys], refine the operations on the map. *)
From S2P Require Import Prelude CppString ConfigTypes FileSys Folders Protocol.
From S2P Require Import FileSystemModule.

(** A name a client may use for a file of the directory. *)
Record name_ok (dir : location) (n : string) : Prop := {
  name_clean : clean n;
  name_dots : contains ".." n = false;
  name_path_dots : contains ".." (file_in dir n) = false
}.

(** The world shows the files of a module's directory, and they can be read. *)
Record shows (w : world) (c : ModuleConfig) (dir : location) (m : gmap string string) : Prop := {
  shows_folder : folder w dir m;
  shows_path : mod_path c = render true dir;
  shows_names n : is_Some (m !! n) → clean n;
  shows_read k : may_read w k = true
}.

Lemma contains_part x p y s : contains (x +:+ p +:+ y) s = true → contains p s = true.
Proof.
  intros (a & b & ->)%contains_exists. apply contains_exists. exists (a +:+ x), (y +:+ b).
  by rewrite !app_assoc_str.
Qed.

Section share.
Context (w : world) (c : ModuleConfig) (dir : location) (m : gmap string string) (Hs : shows w c dir m).
Context (n : string) (Hn : name_ok dir n).

Let Hf : folder w dir m := shows_folder _ _ _ _ Hs.
Let Hc : clean n := name_clean _ _ Hn.

Lemma share_resolve : resolvePath c n w = (Some (file_in dir n), w).
Proof.
  pose proof (shows_path _ _ _ _ Hs) as Hpath. pose proof Hn as [_ _ Hdd].
  pose proof (folder_clean _ _ _ Hf) as Hd. pose proof (folder_plain _ _ _ Hf n) as Hp.
  assert (render false [n] = n) as E by done. rewrite <- E at 1.
  rewrite (resolve_plain c w dir false [n]); [|done|done|done|by apply Forall_singleton|by apply plain_app in Hp|done|done].
  cbn [app]. by rewrite starts_with_render by by apply Forall_singleton.
Qed.

Lemma share_not_traversal : isPathTraversal c n w = (Some false, w).
Proof.
  unfold isPathTraversal. rewrite (name_dots _ _ Hn).
  assert (contains "/../" n = false) as ->.
  { apply not_true_is_false. intros E%(contains_part "/" ".." "/"). by rewrite (name_dots _ _ Hn) in E. }
  assert (starts_with "../" n = false) as ->.
  { apply not_true_is_false. intros E. apply prefix_app in E as [t E].
    assert (contains ".." n = true) as Hd by (apply contains_exists; exists "", ("/" +:+ t); by rewrite E).
    by rewrite (name_dots _ _ Hn) in Hd. }
  by rewrite (bind_some _ _ _ _ _ share_resolve).
Qed.

Lemma share_safe : isPathSafe c n w = (Some true, w).
Proof.
  unfold isPathSafe. rewrite (bind_some _ _ _ _ _ share_not_traversal).
  by rewrite (bind_some _ _ _ _ _ share_resolve).
Qed.

Lemma share_not_unsafe : unsafe c n (file_in dir n) w = (Some false, w).
Proof. unfold unsafe. change (is_empty (file_in dir n)) with false. unfold io_not. by rewrite (bind_some _ _ _ _ _ share_safe). Qed.

Lemma share_regular : is_regular_file (file_in dir n) w = (Some (bool_decide (is_Some (m !! n))), w).
Proof.
  unfold is_regular_file, test. rewrite (folder_lookup _ _ _ Hf) by done.
  destruct (m !! n) eqn:E; [|done]. by rewrite node_at_app, (folder_files _ _ _ Hf), E.
Qed.

Lemma share_directory : is_directory (file_in dir n) w = (Some false, w).
Proof.
  unfold is_directory, test. rewrite (folder_lookup _ _ _ Hf) by done.
  destruct (m !! n) eqn:E; [|done]. by rewrite node_at_app, (folder_files _ _ _ Hf), E.
Qed.

Lemma share_symlink : is_symlink (file_in dir n) w = (Some false, w).
Proof.
  unfold is_symlink, test. rewrite (folder_lookup _ _ _ Hf) by done.
  destruct (m !! n) eqn:E; [|done]. by rewrite node_at_app, (folder_files _ _ _ Hf), E.
Qed.

Lemma share_there : exists_ (file_in dir n) w = (Some (bool_decide (is_Some (m !! n))), w).
Proof. by apply folder_exists. Qed.

(** ** Queries *)
Lemma share_file : fileExists c n w = (Some (bool_decide (is_Some (m !! n))), w).
Proof.
  unfold fileExists. rewrite (proj2 (is_empty_false n)) by apply Hc.
  rewrite (bind_some _ _ _ _ _ share_resolve), (bind_some _ _ _ _ _ share_not_unsafe).
  unfold io_and. rewrite (bind_some _ _ _ _ _ share_there).
  destruct (bool_decide _) eqn:E; [|done]. by rewrite share_regular, E.
Qed.

Lemma share_no_directory : directoryExists c n w = (Some false, w).
Proof.
  unfold directoryExists. rewrite (proj2 (is_empty_false n)) by apply Hc.
  rewrite (bind_some _ _ _ _ _ share_resolve), (bind_some _ _ _ _ _ share_not_unsafe).
  unfold io_and. rewrite (bind_some _ _ _ _ _ share_there).
  destruct (bool_decide _); [apply share_directory|done].
Qed.

Lemma share_readable : checkReadPermission c n w = (Some (bool_decide (is_Some (m !! n))), w).
Proof.
  unfold checkReadPermission. rewrite (bind_some _ _ _ _ _ share_resolve).
  change (is_empty (file_in dir n)) with false. cbv iota. rewrite (bind_some _ _ _ _ _ (io_not_some _ _ _ _ share_there)).
  destruct (m !! n) as [s|] eqn:E; [|by rewrite !bool_decide_false by (by intros [? ?])].
  rewrite bool_decide_true by eauto. cbn [negb]. rewrite (bind_some _ _ _ _ _ share_directory).
  pose proof share_regular as Hr. rewrite E, bool_decide_true in Hr by eauto. rewrite (bind_some _ _ _ _ _ Hr).
  unfold open_read, bind. rewrite (folder_lookup _ _ _ Hf) by done.
  rewrite E, node_at_app, (folder_files _ _ _ Hf), E. cbn [fmap option_fmap option_map].
  by rewrite (shows_read _ _ _ _ Hs).
Qed.

Lemma share_info junk :
  getFileInfo junk c n w =
  (Some match m !! n with
        | Some s => MkInfo n (file_in dir n) 1 (Z.of_nat (String.length s)) false ""
        | None => empty_info junk n
        end, w).
Proof.
  unfold getFileInfo. rewrite (bind_some _ _ _ _ _ share_readable).
  destruct (m !! n) as [s|] eqn:E; [|done]. rewrite bool_decide_true by eauto.
  rewrite (bind_some _ _ _ _ _ share_resolve), (bind_some _ _ _ _ _ share_not_unsafe).
  pose proof share_there as Ht. rewrite E, bool_decide_true in Ht by eauto.
  unfold try_catch at 1. rewrite (bind_some _ _ _ _ _ (io_not_some _ _ _ _ Ht)). cbn [negb].
  assert (stat_ (file_in dir n) w = (Some (Some (File s)), w)) as Est.
  { unfold stat_. rewrite (folder_lookup _ _ _ Hf), E, node_at_app, (folder_files _ _ _ Hf), E; done. }
  rewrite (bind_some _ _ _ _ _ Est). unfold try_catch. rewrite (bind_some _ _ _ _ _ share_symlink).
  cbn. by rewrite filename_in by (done || apply (folder_clean _ _ _ Hf)).
Qed.

(** ** Deleting *)
Lemma share_remove s :
  m !! n = Some s → ∃ w', remove (file_in dir n) w = (Some true, w') ∧ shows w' c dir (delete n m).
Proof.
  intros E. eexists. split.
  - unfold remove. rewrite (folder_lookup _ _ _ Hf), E by done.
    rewrite parent_last, (folder_write _ _ _ Hf), (children_file _ _ _ _ Hf).
    by rewrite (bool_decide_false (dir ++ [n] = [])) by by destruct dir.
  - split; [by apply folder_delete|apply Hs| |apply Hs].
    intros x [t [_ Hx]%lookup_delete_Some]. apply (shows_names _ _ _ _ Hs). eauto.
Qed.

Lemma share_delete s :
  read_only c = false → allow_delete c = true → m !! n = Some s →
  ∃ w', deleteFile c n w = (Some true, w') ∧ shows w' c dir (delete n m).
Proof.
  intros Hr Ha E. destruct (share_remove s E) as (w' & Hw & Hs'). exists w'. split; [|done].
  unfold deleteFile, checkDeletePermission, isReadOnly, allowsDeletion. rewrite Hr, Ha. cbn [orb negb].
  pose proof share_there as Ht. pose proof share_regular as Hreg. rewrite E, bool_decide_true in Ht, Hreg by eauto.
  assert ((do resolved <- resolvePath c n; if is_empty resolved then ret false else exists_ resolved) w = (Some true, w)) as Hp
    by (by rewrite (bind_some _ _ _ _ _ share_resolve)).
  rewrite (bind_some _ _ _ _ _ (io_not_some _ _ _ _ Hp)). cbn [negb].
  rewrite (bind_some _ _ _ _ _ share_resolve), (bind_some _ _ _ _ _ share_not_unsafe).
  unfold try_catch. rewrite (bind_some _ _ _ _ _ Hreg). by rewrite Hw.
Qed.
End share.

(** ** Listing *)
Definition file_info (dir : location) (f : string * string) : FileInfo :=
  MkInfo f.1 (file_in dir f.1) 1 (Z.of_nat (String.length f.2)) false "".
Definition bytes (l : list (string * string)) : Z :=
  foldr (λ f n, Z.of_nat (String.length f.2) + n)%Z 0%Z l.

(** The listing of files, in the order the directory gives them. *)
Definition files_listing (dir : location) (p : string) (l : list (string * string)) (r : bool) : DirectoryListing :=
  MkListing p (map (file_info dir) l) [] [] [] (Z.of_nat (length l)) 0 0 0 (bytes l `mod` 2 ^ 64) r.

Lemma scan_files w r todo fuel :
  (∀ k, k ∈ todo → node_at w k ≠ Some Dir) → (length todo ≤ fuel)%nat → scan fuel w r todo = todo.
Proof.
  revert fuel. induction todo as [|k todo IH]; intros [|fuel] Hk Hl; cbn in *; [done..|lia|].
  rewrite (bool_decide_false (node_at w k = Some Dir)) by (apply Hk; left). rewrite andb_false_r.
  rewrite IH; [done| |lia]. intros x Hx. apply Hk. by right.
Qed.

Section listing.
Context (w : world) (c : ModuleConfig) (dir : location) (m : gmap string string) (Hs : shows w c dir m).
Context (junk : string → Z).

Let Hf : folder w dir m := shows_folder _ _ _ _ Hs.
Let Hd : Forall clean dir := folder_clean _ _ _ Hf.

Lemma children_files : ∃ l, l ≡ₚ map_to_list m ∧ children w dir = map (λ f, dir ++ [f.1]) l.
Proof.
  assert (children w dir ≡ₚ map (λ f, dir ++ [f.1]) (map_to_list m)) as H.
  { apply NoDup_Permutation.
    - apply NoDup_ListNoDup, List.NoDup_filter, NoDup_ListNoDup, NoDup_fst_map_to_list.
    - change (map (λ f : string * string, dir ++ [f.1]) (map_to_list m)) with ((λ f : string * string, dir ++ [f.1]) <$> map_to_list m).
      apply NoDup_fmap_2_strong; [|apply NoDup_map_to_list].
      intros [a x] [b y] Ha%elem_of_map_to_list Hb%elem_of_map_to_list E%app_inj_1; [|done].
      destruct E as [_ [= ->]]. by simplify_eq.
    - intros k. unfold children. rewrite list_elem_of_In, filter_In, <- list_elem_of_In, bool_decide_eq_true.
      change (map (λ f : string * string, dir ++ [f.1]) (map_to_list m)) with ((λ f : string * string, dir ++ [f.1]) <$> map_to_list m).
      rewrite !list_elem_of_fmap. split.
      + intros [([k' v] & -> & Hk%elem_of_map_to_list) [Hp Hne]]. cbn [fst] in *.
        destruct k' as [|x k' _] using rev_ind; [done|]. rewrite parent_last in Hp. subst k'.
        rewrite (folder_files _ _ _ Hf) in Hk. destruct (m !! x) as [s|] eqn:E; [|done].
        exists (x, s). by rewrite elem_of_map_to_list.
      + intros ([n s] & -> & Hn%elem_of_map_to_list). cbn [fst]. rewrite parent_last. split; [|by destruct dir].
        exists (dir ++ [n], File s). by rewrite elem_of_map_to_list, (folder_files _ _ _ Hf), Hn. }
  apply Permutation_map_inv in H as (l & E & Hl). by exists l.
Qed.

Lemma stat_share n s : m !! n = Some s → stat_ (file_in dir n) w = (Some (Some (File s)), w).
Proof.
  intros E. unfold stat_. rewrite (folder_lookup _ _ _ Hf) by (apply (shows_names _ _ _ _ Hs); eauto).
  by rewrite E, node_at_app, (folder_files _ _ _ Hf), E.
Qed.

Lemma add_files p l r fs k t :
  (∀ f, f ∈ l → m !! f.1 = Some f.2) →
  foldl (addFileInfo junk w (render true dir) dir) (MkListing p fs [] [] [] k 0 0 0 (t `mod` 2 ^ 64) r)
    (map (λ f, dir ++ [f.1]) l) =
  MkListing p (fs ++ map (file_info dir) l) [] [] [] (k + Z.of_nat (length l)) 0 0 0 ((t + bytes l) `mod` 2 ^ 64) r.
Proof.
  revert fs k t. induction l as [|[n s] l IH]; intros fs k t Hl; cbn [map foldl fst].
  - by rewrite app_nil_r, !Z.add_0_r.
  - assert (m !! n = Some s) as En by (apply (Hl (n, s)); left).
    assert (clean n) as Hn by (apply (shows_names _ _ _ _ Hs); eauto).
    assert (addFileInfo junk w (render true dir) dir (MkListing p fs [] [] [] k 0 0 0 (t `mod` 2 ^ 64) r) (dir ++ [n]) =
            MkListing p (fs ++ [file_info dir (n, s)]) [] [] [] (k + 1) 0 0 0 ((t + Z.of_nat (String.length s)) `mod` 2 ^ 64) r) as E.
    { unfold addFileInfo. rewrite drop_app_length. change (join [n]) with n. rewrite append_name by done.
      change (render true (dir ++ [n])) with (file_in dir n). rewrite (stat_share _ _ En). cbn [fst].
      rewrite filename_in by done. unfold add_size. cbn. by rewrite Z.add_mod_idemp_l. }
    rewrite E. clear E.
    rewrite IH by (intros f Hf'; apply Hl; by right). rewrite <- app_assoc. f_equal; cbn [length bytes foldr snd]; [lia|].
    by rewrite Z.add_assoc.
Qed.

(** The root of the module. *)
Lemma root_resolve : resolvePath c "" w = (Some (render true dir), w).
Proof. unfold resolvePath. cbn. by rewrite (shows_path _ _ _ _ Hs). Qed.

Lemma root_not_unsafe : unsafe c "" (render true dir) w = (Some false, w).
Proof.
  unfold unsafe, isPathSafe, isPathTraversal. change (is_empty (render true dir)) with false. cbv iota.
  apply (io_not_some _ _ true). change (contains ".." "") with false. change (contains "/../" "") with false.
  change (starts_with "../" "") with false. cbv iota.
  rewrite (bind_some _ _ w w false); [|by rewrite (bind_some _ _ _ _ _ root_resolve)].
  by rewrite (bind_some _ _ _ _ _ root_resolve).
Qed.

Lemma root_test f : test true f (render true dir) w = (Some (f Dir), w).
Proof.
  unfold test. rewrite lookup_render, (folder_found _ _ _ Hf) by done.
  by rewrite (proj1 (folder_way _ _ _ Hf dir ltac:(done))).
Qed.

Lemma root_exists : exists_ (render true dir) w = (Some true, w).
Proof. exact (root_test (λ _, true)). Qed.
Lemma root_directory : is_directory (render true dir) w = (Some true, w).
Proof. exact (root_test (λ n, bool_decide (n = Dir))). Qed.

Lemma root_readable : checkReadPermission c "" w = (Some true, w).
Proof.
  unfold checkReadPermission. rewrite (bind_some _ _ _ _ _ root_resolve).
  change (is_empty (render true dir)) with false. cbv iota.
  rewrite (bind_some _ _ _ _ _ (io_not_some _ _ _ _ root_exists)). cbn [negb].
  by rewrite (bind_some _ _ _ _ _ root_directory).
Qed.

Lemma list_root r :
  ∃ l, l ≡ₚ map_to_list m ∧ listDirectory junk c "" r w = (Some (files_listing dir "" l r), w).
Proof.
  destruct children_files as (l & Hl & Ec). exists l. split; [done|]. unfold listDirectory. cbv zeta.
  rewrite (bind_some _ _ _ _ _ (io_not_some _ _ _ _ root_readable)). cbn [negb].
  rewrite (bind_some _ _ _ _ _ root_resolve), (bind_some _ _ _ _ _ root_not_unsafe).
  assert (io_and (exists_ (render true dir)) (is_directory (render true dir)) w = (Some true, w)) as Ed.
  { unfold io_and. rewrite (bind_some _ _ _ _ _ root_exists). apply root_directory. }
  unfold try_catch. rewrite (bind_some _ _ _ _ _ (io_not_some _ _ _ _ Ed)). cbn [negb]. unfold ask.
  rewrite lookup_render, (folder_found _ _ _ Hf), (shows_read _ _ _ _ Hs), Ec, scan_files.
  - change 0%Z with (0 `mod` 2 ^ 64)%Z at 5. rewrite add_files; [done|].
    intros [a s] Ha. rewrite Hl in Ha. by apply elem_of_map_to_list in Ha.
  - intros k (f & -> & Hin)%list_elem_of_fmap. rewrite Hl in Hin. destruct f as [a s].
    apply elem_of_map_to_list in Hin. cbn [fst]. by rewrite node_at_app, (folder_files _ _ _ Hf), Hin.
  - rewrite <- Ec. unfold children. etrans; [apply List.filter_length_le|].
    rewrite length_fmap, length_map_to_list. lia.
  - done.
Qed.
End listing.

(** A file has no entries. *)
Lemma list_file w c dir m n junk r :
  shows w c dir m → name_ok dir n → listDirectory junk c n r w = (Some (files_listing dir n [] r), w).
Proof.
  intros Hs Hn. unfold listDirectory. cbv zeta.
  rewrite (bind_some _ _ _ _ _ (io_not_some _ _ _ _ (share_readable w c dir m Hs n Hn))).
  case_bool_decide as Hm; [|done]. cbn [negb].
  rewrite (bind_some _ _ _ _ _ (share_resolve w c dir m Hs n Hn)), (bind_some _ _ _ _ _ (share_not_unsafe w c dir m Hs n Hn)).
  assert (io_and (exists_ (file_in dir n)) (is_directory (file_in dir n)) w = (Some false, w)) as Ed.
  { unfold io_and. rewrite (bind_some _ _ _ _ _ (share_there w c dir m Hs n Hn)).
    rewrite bool_decide_true by done. apply (share_directory w c dir m Hs n Hn). }
  unfold try_catch. by rewrite (bind_some _ _ _ _ _ (io_not_some _ _ _ _ Ed)).
Qed.

(** ** The protocol's commands on the map *)

(** The answer of a module and what is left of its files.  The order of a
    listing is the directory's. *)
Inductive reply (c : ModuleConfig) (name : string) (dir : location) (m : gmap string string)
  (msg : ProtocolMessage) : string → gmap string string → Prop :=
| reply_invalid : valid msg = false → reply c name dir m msg (buildErrorResponse (-1) "Invalid protocol message") m
| reply_unknown :
    valid msg = true → command msg = AUTH ∨ command msg = UNKNOWN →
    reply c name dir m msg (buildErrorResponse (-1) "Unknown command") m
| reply_list_refused :
    valid msg = true → command msg = LIST → list_ c = false →
    reply c name dir m msg (buildErrorResponse 2 ("Listing not allowed for module: " +:+ name)) m
| reply_list l :
    valid msg = true → command msg = LIST → list_ c = true →
    (if is_empty (path msg) then l ≡ₚ map_to_list m else l = []) →
    reply c name dir m msg (format_listing (files_listing dir (path msg) l (is_recursive msg))) m
| reply_get s :
    valid msg = true → command msg = GET → m !! path msg = Some s →
    reply c name dir m msg
      ("@RSYNCD: OK" +:+ nl +:+ "File: " +:+ path msg +:+ nl +:+
       "Size: " +:+ to_string (Z.of_nat (String.length s)) +:+ nl +:+
       "Path: " +:+ file_in dir (path msg) +:+ nl +:+ "Ready for transfer" +:+ nl) m
| reply_get_missing :
    valid msg = true → command msg = GET → m !! path msg = None →
    reply c name dir m msg (buildErrorResponse 4 ("File not found: " +:+ path msg)) m
| reply_put_refused :
    valid msg = true → command msg = PUT → read_only c = true →
    reply c name dir m msg (buildErrorResponse 5 ("Module is read-only: " +:+ name)) m
| reply_put :
    valid msg = true → command msg = PUT → read_only c = false →
    reply c name dir m msg
      ("@RSYNCD: OK" +:+ nl +:+ "Ready to receive file: " +:+ path msg +:+ nl +:+ "Send file data" +:+ nl) m
| reply_delete_refused :
    valid msg = true → command msg = DELETE → read_only c = true ∨ allow_delete c = false →
    reply c name dir m msg (buildErrorResponse 5 ("Deletion not allowed for module: " +:+ name)) m
| reply_delete :
    valid msg = true → command msg = DELETE → read_only c = false → allow_delete c = true →
    is_Some (m !! path msg) →
    reply c name dir m msg (buildResponse true ("Deleted: " +:+ path msg)) (delete (path msg) m)
| reply_delete_missing :
    valid msg = true → command msg = DELETE → read_only c = false → allow_delete c = true →
    m !! path msg = None →
    reply c name dir m msg (buildErrorResponse 4 ("Path not found: " +:+ path msg)) m
| reply_stat s :
    valid msg = true → command msg = STAT → m !! path msg = Some s →
    reply c name dir m msg
      ("@RSYNCD: OK" +:+ nl +:+ "Name: " +:+ path msg +:+ nl +:+ "Path: " +:+ file_in dir (path msg) +:+ nl +:+
       "Size: " +:+ to_string (Z.of_nat (String.length s)) +:+ nl +:+ "Type: 1" +:+ nl +:+
       "Is symlink: no" +:+ nl) m
| reply_stat_missing :
    valid msg = true → command msg = STAT → m !! path msg = None →
    reply c name dir m msg (buildErrorResponse 4 ("File not found: " +:+ path msg)) m.

(** A dialogue. *)
Inductive dialogue (c : ModuleConfig) (name : string) (dir : location) :
  gmap string string → list ProtocolMessage → list string → gmap string string → Prop :=
| dialogue_nil m : dialogue c name dir m [] [] m
| dialogue_cons m msg answer m1 msgs answers m2 :
    reply c name dir m msg answer m1 → dialogue c name dir m1 msgs answers m2 →
    dialogue c name dir m (msg :: msgs) (answer :: answers) m2.

(** The handler on the messages of a session, one after another. *)
Fixpoint handle_all (junk : string → Z) (what : string) (h : @ProtocolHandler ModuleConfig)
    (msgs : list ProtocolMessage) : io (list string) :=
  match msgs with
  | [] => ret []
  | msg :: msgs =>
      do answer <- handle (H := filesystem_module junk) what msg h;
      do answers <- handle_all junk what h msgs;
      ret (answer :: answers)
  end.

(** A message for the module: it names a file of its directory, or the
    directory itself with any command but [STAT]. *)
Definition addressed (name : string) (dir : location) (h : @ProtocolHandler ModuleConfig) (msg : ProtocolMessage) : Prop :=
  module_name msg h = name ∧ (name_ok dir (path msg) ∨ path msg = "" ∧ command msg ≠ STAT).

Section refinement.
Context (w : world) (c : ModuleConfig) (dir : location) (m : gmap string string) (Hs : shows w c dir m).
Context (junk : string → Z) (what : string) (h : @ProtocolHandler ModuleConfig) (name : string).
Context (Hm : getModule name h = Some c).

(** [r] is an answer the map allows, and the world shows the map it leaves. *)
Definition simulates (msg : ProtocolMessage) (r : io string) : Prop :=
  ∃ answer m' w', r w = (Some answer, w') ∧ reply c name dir m msg answer m' ∧ shows w' c dir m'.

Lemma simulates_ret msg answer : reply c name dir m msg answer m → simulates msg (ret answer).
Proof. intros H. by exists answer, m, w. Qed.

Lemma simulates_quiet msg r answer :
  r w = (Some answer, w) → reply c name dir m msg answer m → simulates msg r.
Proof. intros E H. by exists answer, m, w. Qed.

Lemma no_root_file : m !! "" = None.
Proof. apply eq_None_not_Some. intros [H _ _ _]%(shows_names _ _ _ _ Hs). done. Qed.

(** The queries at any path a message may name. *)
Definition named (p : string) : Prop := name_ok dir p ∨ p = "".

Lemma named_file p : named p → fileExists c p w = (Some (bool_decide (is_Some (m !! p))), w).
Proof.
  intros [Hp| ->]; [by apply (share_file w c dir m Hs)|]. unfold fileExists. by rewrite no_root_file.
Qed.

Lemma named_no_directory p : named p → directoryExists c p w = (Some false, w).
Proof. intros [Hp| ->]; [by apply (share_no_directory w c dir m Hs)|done]. Qed.

Lemma list_simulates msg :
  valid msg = true → command msg = LIST → module_name msg h = name → named (path msg) →
  simulates msg (handleList (H := filesystem_module junk) what msg h).
Proof.
  intros Hv Hc Hn Hp. unfold handleList. cbv zeta. rewrite Hn, Hm. cbn [Protocol.allowsListing Protocol.listDirectory filesystem_module].
  unfold FileSystemModule.allowsListing. destruct (list_ c) eqn:El; cbn [negb]; [|by apply simulates_ret; constructor].
  assert (∃ l, (if is_empty (path msg) then l ≡ₚ map_to_list m else l = []) ∧
    listDirectory junk c (path msg) (is_recursive msg) w = (Some (files_listing dir (path msg) l (is_recursive msg)), w))
    as (l & Hl & E).
  { destruct Hp as [Hp| ->].
    - exists []. rewrite (proj2 (is_empty_false _)) by apply (name_clean _ _ Hp). split; [done|]. by apply (list_file w c dir m).
    - by apply (list_root w c dir m Hs). }
  eapply simulates_quiet; [|by apply (reply_list _ _ _ _ _ l)]. unfold try_catch. by rewrite (bind_some _ _ _ _ _ E).
Qed.

Lemma get_simulates msg :
  valid msg = true → command msg = GET → module_name msg h = name → named (path msg) →
  simulates msg (handleGet (H := filesystem_module junk) what msg h).
Proof.
  intros Hv Hc Hn Hp. unfold handleGet. cbv zeta. rewrite Hn, Hm. cbn [Protocol.fileExists Protocol.getFileInfo filesystem_module].
  destruct (m !! path msg) as [s|] eqn:E; pose proof (named_file _ Hp) as Hf; rewrite E in Hf;
    [rewrite bool_decide_true in Hf by eauto|];
    (eapply simulates_quiet; [rewrite (bind_some _ _ _ _ _ (io_not_some _ _ _ _ Hf)); cbn [negb]|]).
  - destruct Hp as [Hp|Hp]; [|by rewrite Hp, no_root_file in E]. unfold try_catch.
    rewrite (bind_some _ _ _ _ _ (share_info w c dir m Hs _ Hp junk)), E. done.
  - by apply reply_get.
  - done.
  - by apply reply_get_missing.
Qed.

Lemma put_simulates msg :
  valid msg = true → command msg = PUT → module_name msg h = name →
  simulates msg (handlePut (H := filesystem_module junk) msg h).
Proof.
  intros Hv Hc Hn. unfold handlePut. cbv zeta. rewrite Hn, Hm. cbn [Protocol.isReadOnly filesystem_module].
  unfold FileSystemModule.isReadOnly. destruct (read_only c) eqn:Er; apply simulates_ret; by constructor.
Qed.

Lemma delete_simulates msg :
  valid msg = true → command msg = DELETE → module_name msg h = name → named (path msg) →
  simulates msg (handleDelete (H := filesystem_module junk) what msg h).
Proof.
  intros Hv Hc Hn Hp. unfold handleDelete. cbv zeta. rewrite Hn, Hm.
  cbn [Protocol.isReadOnly Protocol.allowsDeletion Protocol.fileExists Protocol.directoryExists Protocol.deleteFile filesystem_module].
  unfold FileSystemModule.isReadOnly, FileSystemModule.allowsDeletion.
  destruct (read_only c) eqn:Er; [apply simulates_ret; constructor; auto|].
  destruct (allow_delete c) eqn:Ea; [|apply simulates_ret; constructor; auto]. cbn [orb negb].
  pose proof (named_file _ Hp) as Hf. destruct (m !! path msg) as [s|] eqn:E.
  - rewrite bool_decide_true in Hf by eauto. destruct Hp as [Hp|Hp]; [|by rewrite Hp, no_root_file in E].
    destruct (share_delete w c dir m Hs _ Hp s Er Ea E) as (w' & Hd & Hs').
    eexists _, _, w'. split; [|split; [apply reply_delete; eauto|exact Hs']].
    unfold try_catch. rewrite (bind_some _ _ _ _ _ Hf). by rewrite (bind_some _ _ _ _ _ Hd).
  - eapply simulates_quiet; [|by apply reply_delete_missing]. unfold try_catch.
    rewrite (bind_some _ _ _ _ _ Hf), bool_decide_false by (by intros []).
    by rewrite (bind_some _ _ _ _ _ (named_no_directory _ Hp)).
Qed.

Lemma stat_simulates msg :
  valid msg = true → command msg = STAT → module_name msg h = name → name_ok dir (path msg) →
  simulates msg (handleStat (H := filesystem_module junk) what msg h).
Proof.
  intros Hv Hc Hn Hp. unfold handleStat. cbv zeta. rewrite Hn, Hm. cbn [Protocol.getFileInfo filesystem_module].
  pose proof (share_info w c dir m Hs _ Hp junk) as Hi. destruct (m !! path msg) as [s|] eqn:E.
  - eapply simulates_quiet; [|by apply (reply_stat _ _ _ _ _ s)]. unfold try_catch. by rewrite (bind_some _ _ _ _ _ Hi).
  - eapply simulates_quiet; [|by apply reply_stat_missing]. unfold try_catch. by rewrite (bind_some _ _ _ _ _ Hi).
Qed.

Lemma handle_simulates msg :
  addressed name dir h msg → simulates msg (handle (H := filesystem_module junk) what msg h).
Proof.
  intros [Hn Hp]. assert (named (path msg)) as Hp' by (destruct Hp as [?|[? _]]; [by left|by right]).
  unfold handle. destruct (valid msg) eqn:Hv; cbn [negb]; [|by apply simulates_ret; constructor].
  destruct (command msg) eqn:Hc.
  - by apply list_simulates.
  - by apply get_simulates.
  - by apply put_simulates.
  - by apply delete_simulates.
  - destruct Hp as [Hp|[_ []]]; [by apply stat_simulates|done].
  - apply simulates_ret. constructor; auto.
  - apply simulates_ret. constructor; auto.
Qed.
End refinement.

(** Dialogues only delete, and only where the module lets them. *)
Lemma dialogue_deletes c name dir m msgs answers m' :
  dialogue c name dir m msgs answers m' →
  m' ⊆ m ∧ (read_only c = true ∨ allow_delete c = false → m' = m).
Proof.
  induction 1 as [m|m msg answer m1 msgs answers m2 Hr _ [IHs IHe]]; [done|].
  assert (m1 ⊆ m ∧ (read_only c = true ∨ allow_delete c = false → m1 = m)) as [Hs He].
  { destruct Hr; try done. split; [apply delete_subseteq|]. intros []; congruence. }
  split; [by etrans|]. intros Hc. by rewrite IHe, He.
Qed.

(** C20: Refinement: while a module's directory holds only files, [ProtocolHandler]
    with [FileSystemModule] on the file system answers any sequence of messages
    for the module exactly as the map of its files does, one operation of the
    map per message, and the directory shows the map the operations leave: the
    old one less the files the messages deleted, all of it for a module that is
    read-only or forbids deletion.  The include and exclude patterns of the module
    are not consulted, whatever they are: the map has the excluded files too,
    although the documentation says that patterns filter. *)
Theorem handle_refines w c dir m junk what h name msgs :
  shows w c dir m → getModule name h = Some c → Forall (addressed name dir h) msgs →
  ∃ answers m' w',
    handle_all junk what h msgs w = (Some answers, w') ∧ dialogue c name dir m msgs answers m' ∧ shows w' c dir m' ∧
    m' ⊆ m ∧ (read_only c = true ∨ allow_delete c = false → m' = m).
Proof.
  intros Hs Hm Ha.
  assert (∃ answers m' w', handle_all junk what h msgs w = (Some answers, w') ∧
    dialogue c name dir m msgs answers m' ∧ shows w' c dir m') as (answers & m' & w' & E & Hd & Hs').
  2: { exists answers, m', w'. pose proof (dialogue_deletes _ _ _ _ _ _ _ Hd). tauto. }
  revert w m Hs. induction Ha as [|msg msgs Hmsg _ IH]; intros w m Hs.
  - exists [], m, w. split; [done|]. split; [constructor|done].
  - destruct (handle_simulates w c dir m Hs junk what h name Hm msg Hmsg) as (answer & m1 & w1 & E1 & Hr & Hs1).
    destruct (IH w1 m1 Hs1) as (answers & m2 & w2 & E2 & Hd & Hs2).
    exists (answer :: answers), m2, w2. split; [|split; [by econstructor|done]].
    cbn [handle_all]. by rewrite (bind_some _ _ _ _ _ E1), (bind_some _ _ _ _ _ E2).
Qed.

(** ** Witness *)
Definition toy_files : gmap string string := {["a.txt" := "hello"; "b.txt" := "world!"]}.
Definition toy_share : ModuleConfig :=
  MkModule "data" "/srv" "" false true true true [] [] ∅ "" "" "" "" "" "" false false ∅.

Lemma name_check dir n :
  negb (is_empty n) && no_char "/" n && negb (String.eqb n ".") && negb (String.eqb n "..") &&
  negb (contains ".." n) && negb (contains ".." (file_in dir n)) = true → name_ok dir n.
Proof.
  rewrite !andb_true_iff, !(negb_true_iff (contains _ _)). intros [[H ?] ?]. constructor; [|done..].
  apply clean_check. by rewrite !andb_true_iff.
Qed.

Lemma toy_shows : shows (one_folder "srv" toy_files) toy_share ["srv"] toy_files.
Proof.
  constructor; [by apply one_folder_ok, clean_check|done| |done].
  intros n [s Hn]. unfold toy_files in Hn.
  apply lookup_insert_Some in Hn as [[<- _]|[_ [<- _]%lookup_singleton_Some]]; by apply clean_check.
Qed.

Lemma handle_refines_witness :
  let h := new_handler {["data" := toy_share]} in
  let msgs := [MkMessage LIST "data" "" ∅ true ""; MkMessage DELETE "data" "a.txt" ∅ true "";
               MkMessage GET "data" "a.txt" ∅ true ""] in
  ∃ answers m' w',
    handle_all (λ _, 0%Z) "error" h msgs (one_folder "srv" toy_files) = (Some answers, w') ∧
    dialogue toy_share "data" ["srv"] toy_files msgs answers m' ∧ shows w' toy_share ["srv"] m' ∧
    m' ⊆ toy_files ∧ (read_only toy_share = true ∨ allow_delete toy_share = false → m' = toy_files).
Proof.
  intros h msgs.
  apply (handle_refines (one_folder "srv" toy_files) toy_share ["srv"] toy_files (λ _, 0%Z) "error" h "data" msgs).
  - exact toy_shows.
  - reflexivity.
  - repeat (apply Forall_cons; split); [..|by constructor]; (split; [reflexivity|]).
    + right. done.
    + left. by apply name_check.
    + left. by apply name_check.
Defined.

(** The answers of that dialogue. *)
Example toy_dialogue :
  fst (handle_all (λ _, 0%Z) "error" (new_handler {["data" := toy_share]})
    [MkMessage DELETE "data" "a.txt" ∅ true ""; MkMessage GET "data" "a.txt" ∅ true ""]
    (one_folder "srv" toy_files)) =
  Some ["@RSYNCD: OK" +:+ nl +:+ "Deleted: a.txt" +:+ nl; "@RSYNCD: ERROR 4" +:+ nl +:+ "File not found: a.txt" +:+ nl].
Proof. vm_compute. reflexivity. Qed.
