(* ===== verification/Transfers.v ===== *)
(** * Whole transfers: what is uploaded can be downloaded

    From the request line to the line that says the transfer is complete, on a
    served directory that holds only files ([Shares]).  An upload named [n] adds
    the file [n.tmp] with the bytes the client sent, and leaves [n] as it was; any
    session that then asks for [n.tmp] is sent those bytes. *)
From S2P Require Import Prelude CppString ConfigTypes FileSys Folders Protocol Session Shares.
From S2P Require Import FileSystemModule.
From S2P Require AuthManager Ssl Passwords SshKey.
Open Scope Z_scope.

Lemma contains_after p s t : contains p s = true → contains p (t +:+ s) = true.
Proof. intros (a & b & ->)%contains_exists. apply contains_exists. exists (t +:+ a), b. by rewrite !app_assoc_str. Qed.

Section transfers.
Context {A Draws : Type} `{Authenticator A Draws} (what : string) (junk : string → Z).
#[local] Instance served : ModuleOps ModuleConfig := filesystem_module junk.
Abbreviation session := (RSyncSession (M:=ModuleConfig) (A:=A)).
Abbreviation event := (event (Draws:=Draws)).

(** ** What a session keeps while it serves: its modules (the handler may be at
    another one), its configuration and its user *)
Definition serving (s s' : session) : Prop :=
  handler_modules (handler_ s') = handler_modules (handler_ s) ∧ config_ s' = config_ s ∧
  authenticated_user_ s' = authenticated_user_ s.
#[export] Instance serving_preorder : PreOrder serving.
Proof. split; [done|]. intros s1 s2 s3 (?&?&?) (?&?&?). unfold serving. repeat split; congruence. Qed.

Lemma serving_work s s' : same_work s s' → serving s s'.
Proof. intros (?&?&_&_&_&_&_&_&E). unfold serving. by rewrite E. Qed.
Lemma serving_gated s s' : serving s s' → gated s' = gated s.
Proof. unfold gated. by intros (_&->&->). Qed.
Lemma serving_module s s' name : serving s s' → getModule name (handler_ s') = getModule name (handler_ s).
Proof. unfold getModule. by intros (->&_). Qed.

(** A session at rest, on the same channel. *)
Definition idle_as (s s' : session) : Prop := same_channel s s' ∧ at_rest s' ∧ serving s s' ∧ sent s' = sent s.

(** A step that a request starts, up to the answer of the handler. *)
Definition answered (e : event) (message : ProtocolMessage) (s : session) (w : world) : option (bool * session) * world :=
  (do r <- handleProtocolMessage what e message s;
   let response := r.1 in let s := r.2 in
   if contains "Ready for transfer" response && bool_decide (command message = GET) then
     do started <- startFileDownload (module_ message) (path message) s;
     if started.1 then continueFileTransfer e started.2 else respond e response started.2
   else if contains "Ready to receive file" response && bool_decide (command message = PUT) then
     do started <- startFileUpload (module_ message) (path message) s;
     let s := started.2 in
     if started.1 then
       let '(ok, s) := writeResponse e response s in
       if ok : bool
       then ret (true, with_transfer RECEIVING_FILE (transfer_module_ s) (transfer_path_ s) (upload_file_ s)
                         (download_file_ s) (transfer_bytes_remaining_ s) (transfer_bytes_sent_ s) s)
       else respond e response s
     else respond e response s
   else respond e response s) w.

(** The message of a line; the version it may announce does not matter. *)
Definition request (line : string) : ProtocolMessage := fst (parse line VERSION_30).

Lemma parse_request_line line v : ∃ v', parse line v = (request line, v').
Proof.
  unfold request, parse. destruct (getline newline line) as [[l rest]|]; [|by eexists].
  destruct (starts_with "@RSYNCD:" l); [|by eexists]. by destruct (getline newline rest) as [[]|]; eexists.
Qed.

Lemma line_step line e s w :
  connected s = true → at_rest s → brings (tls_open s) e line → line ≠ "" → (String.length line ≤ 4095)%nat →
  let message := request line in
  ∃ s1, active_ s = true ∧ idle_as s s1 ∧ connected s1 = true ∧ handler_ s1 = handler_ s ∧
    processRequest what e s w =
      if valid message then answered e message s1 w
      else respond e (buildErrorResponse (-1) ("Invalid protocol message: " +:+ message_error message)) s1 w.
Proof.
  intros Hc [Hst Hfiles] Hb Hne Hlen message.
  assert (active_ s = true) as Ha by (unfold connected in Hc; by bool_hyps).
  destruct (readSocket_data e 4095 line s Hc Hb Hne Hlen) as (s1 & E & Hch & Hw & Eparser & Hsent).
  destruct (same_channel_up _ _ Hch) as [Hup _]. destruct (parse_request_line line (parser_ s)) as (v & Ep).
  pose proof (serving_work _ _ Hw) as Hserv. destruct Hw as (_ & _ & _ & W4 & W5 & W6 & _ & _ & W9).
  exists (with_protocol v (handler_ s1) s1).
  split; [done|]. split; [|split; [by rewrite <- Hc, <- Hup|split; [exact W9|]]].
  - split; [done|]. split; [unfold at_rest; cbn; by rewrite W4, W5, W6|]. done.
  - unfold processRequest. rewrite Ha, Hst. cbn [negb]. rewrite bool_decide_eq_true_2 by done. cbn [negb].
    rewrite E. destruct line; [done|]. rewrite Eparser, Ep. fold message. by destruct (valid message).
Qed.

(** [e] brings a session that waits for a request, and may answer it, a line that
    asks for [cmd] on the path [p] of the module [name], which is [c]. *)
Record asks (c : ModuleConfig) (name : string) (cmd : ProtocolCommand) (p : string) (e : event) (s : session) : Prop := {
  asks_connected : connected s = true;
  asks_rest : at_rest s;
  asks_open : gated s = false;
  asks_module : getModule name (handler_ s) = Some c;
  asks_named : name ≠ "";
  asks_line : ∃ line, brings (tls_open s) e line ∧ line ≠ "" ∧ (String.length line ≤ 4095)%nat ∧
    valid (request line) = true ∧ command (request line) = cmd ∧ module_ (request line) = name ∧ path (request line) = p
}.

Lemma asks_step c name cmd p e s w :
  asks c name cmd p e s →
  ∃ s1 message, processRequest what e s w = answered e message s1 w ∧ active_ s = true ∧ idle_as s s1 ∧
    connected s1 = true ∧ handler_ s1 = handler_ s ∧
    valid message = true ∧ command message = cmd ∧ module_ message = name ∧ path message = p.
Proof.
  intros [Hc Hr Hg Hm _ (line & Hb & Hne & Hlen & Hmsg)].
  destruct (line_step line e s w Hc Hr Hb Hne Hlen) as (s1 & Ha & Hi & Hc1 & Hh & E).
  rewrite (proj1 Hmsg) in E. by exists s1, (request line).
Qed.

(** The handler's answer, on the session as [handleProtocolMessage] leaves it. *)
Lemma ungated_answer e message s w answer w' :
  gated s = false → command message ≠ AUTH → module_ message ≠ "" →
  let s' := with_protocol (parser_ s) (setModule (module_ message) (handler_ s)) s in
  handle what message (handler_ s') w = (Some answer, w') →
  handleProtocolMessage what e message s w = (Some (answer, s'), w').
Proof.
  intros Hg Hc Hm s' E. unfold handleProtocolMessage. rewrite (proj2 (is_empty_false _) Hm). cbn [negb].
  fold s'. assert (gated s' = false) as -> by exact Hg. cbn [andb]. rewrite bool_decide_eq_false_2 by done.
  by rewrite (bind_some _ _ _ _ _ E).
Qed.

(** ** The directory *)
Lemma shows_insert w c dir m n x :
  shows w c dir m → clean n → shows (with_nodes (<[dir ++ [n] := File x]> (nodes w)) w) c dir (<[n := x]> m).
Proof.
  intros Hs Hn. constructor; [apply folder_insert, Hs|apply Hs| |apply Hs].
  intros k [y [[<- _]|[_ Hk]]%lookup_insert_Some]; [done|]. apply (shows_names _ _ _ _ Hs). eauto.
Qed.

Lemma shows_file w c dir m n : shows w c dir m → nodes w !! (dir ++ [n]) = File <$> m !! n.
Proof. intros Hs. apply (folder_files _ _ _ (shows_folder _ _ _ _ Hs)). Qed.

Lemma shows_open w c dir m n :
  shows w c dir m → clean n → m !! n = None →
  ∃ w', open_write false (file_in dir n) w = (Some (Some (dir ++ [n])), w') ∧ shows w' c dir (<[n := ""]> m).
Proof.
  intros Hs Hn Hm. eexists. split; [|exact (shows_insert _ _ _ _ n "" Hs Hn)].
  unfold open_write. cbn [negb]. rewrite (folder_lookup _ _ _ (shows_folder _ _ _ _ Hs)) by done.
  by rewrite Hm, (folder_write _ _ _ (shows_folder _ _ _ _ Hs)).
Qed.

(** ** Starting *)
Lemma start_upload w c dir m name n (s : session) :
  shows w c dir m → clean n → m !! (n +:+ ".tmp") = None → name ≠ "" → getModule name (handler_ s) = Some c →
  ∃ s' w', startFileUpload name n s w = (Some (true, s'), w') ∧ shows w' c dir (<[n +:+ ".tmp" := ""]> m) ∧
    transfer_state_ s' = RECEIVING_FILE ∧ upload_file_ s' = Some (dir ++ [n +:+ ".tmp"], 0%nat) ∧ same_channel s s' ∧ sent s' = sent s ∧
    serving s s'.
Proof.
  intros Hs Hn Hm Hname Hg. pose proof (folder_clean _ _ _ (shows_folder _ _ _ _ Hs)) as Hd.
  assert (clean (n +:+ ".tmp")) as Ht by (apply clean_suffix; [done|done|cbn; lia]).
  destruct (shows_open w c dir m _ Hs Ht Hm) as (w' & Eo & Hs').
  unfold startFileUpload. set (s1 := with_transfer _ _ _ _ _ _ _ s).
  assert (transfer_module name s1 = Some c) as -> by (unfold transfer_module; by rewrite (proj2 (is_empty_false _) Hname)).
  assert (upload_path w c n = file_in dir (n +:+ ".tmp")) as Eup.
  { unfold upload_path. cbn [Protocol.getPath served filesystem_module]. unfold FileSystemModule.getPath.
    rewrite (shows_path _ _ _ _ Hs), append_name by done. rewrite normal_render by (by apply file_in_clean).
    apply absolute_id. }
  unfold ask at 1. erewrite bind_some; [|reflexivity]. rewrite Eup.
  change (is_empty (file_in dir (n +:+ ".tmp"))) with false. cbv iota.
  assert (ensure_parent (file_in dir (n +:+ ".tmp")) w = (Some tt, w)) as Een.
  { unfold ensure_parent, file_in. rewrite parent_render by done. change (is_empty (render true dir)) with false. cbv iota.
    by rewrite (bind_some _ _ _ _ _ (root_exists w c dir m Hs)). }
  rewrite (bind_some _ _ _ _ _ Een), (bind_some _ _ _ _ _ Eo). by eexists _, w'.
Qed.

Lemma start_download w c dir m name n x (s : session) :
  shows w c dir m → name_ok dir n → m !! n = Some x → name ≠ "" → getModule name (handler_ s) = Some c →
  ∃ s', startFileDownload name n s w = (Some (true, s'), w) ∧
    transfer_state_ s' = SENDING_FILE ∧ transfer_bytes_remaining_ s' = Z.of_nat (String.length x) ∧
    download_file_ s' = Some (dir ++ [n], 0%nat) ∧ same_channel s s' ∧ sent s' = sent s ∧ serving s s'.
Proof.
  intros Hs Hn Hm Hname Hg. unfold startFileDownload. set (s1 := with_transfer _ _ _ _ _ _ _ s).
  assert (transfer_module name s1 = Some c) as -> by (unfold transfer_module; by rewrite (proj2 (is_empty_false _) Hname)).
  cbn [Protocol.getFileInfo Protocol.fileExists served filesystem_module].
  pose proof (share_info w c dir m Hs n Hn junk) as Ei. rewrite Hm in Ei. rewrite (bind_some _ _ _ _ _ Ei).
  cbn [info_path info_size]. change (is_empty (file_in dir n)) with false. cbv iota.
  pose proof (share_file w c dir m Hs n Hn) as Ef. rewrite Hm, bool_decide_true in Ef by eauto.
  rewrite (bind_some _ _ _ _ _ Ef). cbn [negb].
  assert (open_location (file_in dir n) w = (Some (Some (dir ++ [n])), w)) as Eo.
  { unfold open_location, open_read. rewrite (folder_lookup _ _ _ (shows_folder _ _ _ _ Hs)) by apply Hn.
    rewrite Hm, node_at_app, (shows_file _ _ _ _ _ Hs), Hm. cbn. by rewrite (shows_read _ _ _ _ Hs). }
  rewrite (bind_some _ _ _ _ _ Eo). by eexists.
Qed.

Lemma send_chunk_answers (e : event) (s : session) w : ∃ r, send_chunk e s w = (Some r, w).
Proof. unfold send_chunk. cbv zeta. repeat case_match; by eexists. Qed.

(** ** The first step of a transfer *)
Definition put_answer (n : string) : string :=
  "@RSYNCD: OK" +:+ nl +:+ "Ready to receive file: " +:+ n +:+ nl +:+ "Send file data" +:+ nl.

Lemma put_answered c msg (h : ProtocolHandler (M:=ModuleConfig)) w :
  valid msg = true → command msg = PUT → module_ msg ≠ "" → getModule (module_ msg) h = Some c → read_only c = false →
  handle what msg h w = (Some (put_answer (path msg)), w).
Proof.
  intros Hv Hc Hm Hg Hr. unfold handle. rewrite Hv, Hc. cbn [negb]. unfold handlePut, module_name.
  rewrite (proj2 (is_empty_false _) Hm), Hg. cbn [Protocol.isReadOnly served filesystem_module].
  unfold FileSystemModule.isReadOnly. by rewrite Hr.
Qed.

Lemma get_answered c dir m msg (h : ProtocolHandler (M:=ModuleConfig)) w x :
  valid msg = true → command msg = GET → module_ msg ≠ "" → getModule (module_ msg) h = Some c →
  shows w c dir m → name_ok dir (path msg) → m !! path msg = Some x →
  ∃ answer, handle what msg h w = (Some answer, w) ∧ contains "Ready for transfer" answer = true.
Proof.
  intros Hv Hc Hm Hg Hs Hn Hx. unfold handle. rewrite Hv, Hc. cbn [negb]. unfold handleGet, module_name.
  rewrite (proj2 (is_empty_false _) Hm), Hg. cbn [Protocol.fileExists Protocol.getFileInfo served filesystem_module].
  pose proof (share_file w c dir m Hs _ Hn) as Ef. rewrite Hx, bool_decide_true in Ef by eauto.
  rewrite (bind_some _ _ _ _ _ (io_not_some _ _ _ _ Ef)). cbn [negb]. unfold try_catch.
  pose proof (share_info w c dir m Hs _ Hn junk) as Ei. rewrite Hx in Ei. rewrite (bind_some _ _ _ _ _ Ei).
  cbn [info_name info_size info_path]. eexists. split; [reflexivity|]. do 11 apply contains_after. reflexivity.
Qed.

Lemma put_ready n : contains "Ready to receive file" (put_answer n) = true.
Proof. do 2 apply contains_after. by apply contains_exists; eexists "", _. Qed.

Lemma put_step c name n e s w dir m :
  asks c name PUT n e s → takes_all e → read_only c = false → shows w c dir m → clean n → m !! (n +:+ ".tmp") = None →
  ∃ s' w', work what e s w = (s', w') ∧ shows w' c dir (<[n +:+ ".tmp" := ""]> m) ∧
    receiving (dir ++ [n +:+ ".tmp"]) 0 s' ∧ tls_open s' = tls_open s ∧ serving s s' ∧
    sent s' = sent s +:+ put_answer n.
Proof.
  intros Hask Ht Hr Hs Hn Hm.
  destruct (asks_step c name PUT n e s w Hask) as (s1 & msg & E & Ha & (Hch & Hrest & Hserv & Hsent) & Hcon & Hh & Hv & Hc & Hmod & Hp).
  pose proof (asks_named _ _ _ _ _ _ Hask) as Hname. pose proof (asks_module _ _ _ _ _ _ Hask) as Hget.
  rewrite <- Hmod in Hname, Hget. rewrite <- Hh in Hget.
  set (s2 := with_protocol (parser_ s1) (setModule (module_ msg) (handler_ s1)) s1).
  assert (handleProtocolMessage what e msg s1 w = (Some (put_answer n, s2), w)) as Hans.
  { rewrite <- Hp. apply ungated_answer; [by rewrite (serving_gated _ _ Hserv); apply (asks_open _ _ _ _ _ _ Hask)|by rewrite Hc|done|].
    by apply (put_answered c). }
  destruct (start_upload w c dir m (module_ msg) n s2 Hs Hn Hm Hname Hget) as (s3 & w' & E3 & Hs' & Hst & Hup & Hch3 & Hsent3 & Hserv3).
  unfold work. rewrite Ha, E. unfold answered. rewrite (bind_some _ _ _ _ _ Hans). cbv zeta. cbn [fst snd].
  rewrite Hc, put_ready. rewrite bool_decide_eq_false_2, bool_decide_eq_true_2 by done. rewrite andb_false_r. cbn [andb].
  rewrite Hp, (bind_some _ _ _ _ _ E3). cbn [fst snd].
  destruct (same_channel_up _ _ Hch3) as [C3 T3]. change (connected s2) with (connected s1) in C3.
  change (tls_open s2) with (tls_open s1) in T3. destruct (same_channel_up _ _ Hch) as [_ T1].
  destruct (writeResponse_all e (put_answer n) s3) as (s4 & E4 & Hch4 & Hw & Hsent4); [by rewrite C3|done|done|].
  destruct (same_channel_up _ _ Hch4) as [C4 T4]. rewrite E4. unfold ret. eexists _, w'. split; [reflexivity|].
  split; [exact Hs'|]. pose proof (serving_work _ _ Hw) as Hserv4. destruct Hw as (_ & _ & _ & _ & Wup & _).
  split; [|split; [exact (eq_trans T4 (eq_trans T3 T1))|split; [exact (transitivity Hserv (transitivity Hserv3 Hserv4))|]]].
  2: { rewrite Hsent3 in Hsent4. rewrite <- Hsent. exact Hsent4. }
  split; [exact (eq_trans C4 (eq_trans C3 Hcon))|]. split; [done|]. exact (eq_trans Wup Hup).
Qed.

(** The first bytes go out in the step of the request: it is a step of the
    transfer. *)
Lemma get_step c name n e s w dir m x :
  asks c name GET n e s → shows w c dir m → name_ok dir n → m !! n = Some x →
  ∃ s', work what e s w = work what e s' w ∧ sending w (dir ++ [n]) x s' ∧ sent s' = sent s ∧ serving s s' ∧
    tls_open s' = tls_open s.
Proof.
  intros Hask Hs Hn Hx.
  destruct (asks_step c name GET n e s w Hask) as (s1 & msg & E & Ha & (Hch & Hrest & Hserv & Hsent) & Hcon & Hh & Hv & Hc & Hmod & Hp).
  pose proof (asks_named _ _ _ _ _ _ Hask) as Hname. pose proof (asks_module _ _ _ _ _ _ Hask) as Hget.
  rewrite <- Hmod in Hname, Hget. rewrite <- Hh in Hget.
  set (s2 := with_protocol (parser_ s1) (setModule (module_ msg) (handler_ s1)) s1).
  destruct (get_answered c dir m msg (handler_ s2) w x) as (answer & Eh & Hready); [done..|by rewrite Hp|by rewrite Hp|].
  assert (handleProtocolMessage what e msg s1 w = (Some (answer, s2), w)) as Hans.
  { apply ungated_answer; [by rewrite (serving_gated _ _ Hserv); apply (asks_open _ _ _ _ _ _ Hask)|by rewrite Hc|done|done]. }
  destruct (start_download w c dir m (module_ msg) n x s2 Hs Hn Hx Hname Hget) as (s3 & E3 & Hst & Hrem & Hdown & Hch3 & Hs3 & Hserv3).
  exists s3. split; [|split; [|split; [|split; [exact (transitivity Hserv Hserv3)|]]]].
  - unfold work at 1. rewrite Ha, E. unfold answered. rewrite (bind_some _ _ _ _ _ Hans). cbv zeta. cbn [fst snd].
    rewrite Hc, Hready. rewrite bool_decide_eq_true_2 by done. cbn [andb]. rewrite Hp, (bind_some _ _ _ _ _ E3). cbn [fst snd].
    assert (active_ s3 = true) as Ha3.
    { destruct Hch3 as (-> & _). destruct Hch as (Hact & _). change (active_ s2) with (active_ s1). congruence. }
    assert (processRequest what e s3 w = continueFileTransfer e s3 w) as E4.
    { unfold processRequest. rewrite Ha3, Hst. cbn [negb]. by rewrite bool_decide_eq_false_2. }
    unfold work. rewrite Ha3, E4. unfold continueFileTransfer. rewrite Hst.
    destruct (send_chunk_answers e s3 w) as [r ->]. by destruct r as [[]].
  - destruct (same_channel_up _ _ Hch3) as [C3 _]. split; [by rewrite C3|]. split; [done|]. split; [done|].
    exists 0%nat, x. split; [done|]. split; [by rewrite (shows_file _ _ _ _ _ Hs), Hx|by destruct x].
  - rewrite Hs3. exact Hsent.
  - destruct (same_channel_up _ _ Hch3) as [_ T3]. destruct (same_channel_up _ _ Hch) as [_ T1]. exact (eq_trans T3 T1).
Qed.

Lemma works_cons (e : event) es (s : session) w : works what (e :: es) s w = works what es (work what e s w).1 (work what e s w).2.
Proof. unfold works. cbn [foldl fst snd]. by destruct (work what e s w). Qed.
Lemma works_snoc (es : list event) e (s : session) w : works what (es ++ [e]) s w = work what e (works what es s w).1 (works what es s w).2.
Proof. unfold works. by rewrite foldl_app. Qed.

(** C27: Round trip: what is uploaded can be downloaded.  On a served directory, a
    session that uploads a file [n], chunk by chunk, to the end of its stream
    adds to the files [n.tmp], holding exactly the bytes that were sent, changes
    no other, and is at rest; a session that then asks for [n.tmp] is sent exactly
    those bytes, in order and once, and the line that says so, and changes
    nothing. *)
Theorem upload_download w c dir m name n e es ds fin s1 g gs s2 :
  shows w c dir m → read_only c = false → clean n → name_ok dir (n +:+ ".tmp") → m !! (n +:+ ".tmp") = None →
  let data := String.concat "" ds in
  asks c name PUT n e s1 → takes_all e →
  Forall2 (λ e d, brings (tls_open s1) e d ∧ d ≠ "" ∧ Z.of_nat (String.length d) ≤ 8192) es ds →
  takes_all fin → brings (tls_open s1) fin "" →
  asks c name GET (n +:+ ".tmp") g s2 → Forall takes_all (g :: gs) →
  data ≠ "" → Z.of_nat (String.length data) < 2 ^ 64 →
  Z.of_nat (length (g :: gs)) = (Z.of_nat (String.length data) + 8191) `div` 8192 →
  let up := works what (e :: es ++ [fin]) s1 w in
  let down := works what (g :: gs) s2 (snd up) in
  shows (snd up) c dir (<[n +:+ ".tmp" := data]> m) ∧ at_rest (fst up) ∧
  snd down = snd up ∧ connected (fst down) = true ∧ at_rest (fst down) ∧
  sent (fst down) = sent s2 +:+ data +:+ complete_download.
Proof.
  intros Hs Hr Hn Hnt Hm data Hput Ht Hf Htf Hbf Hget Htg Hd Hlen Hsteps up down.
  destruct (put_step c name n e s1 w dir m Hput Ht Hr Hs Hn Hm) as (s1' & w1 & E1 & Hs1 & Hrec & Etls & _ & _).
  set (l := dir ++ [n +:+ ".tmp"]) in *.
  assert (nodes w1 !! l = Some (File "")) as Hfile by (unfold l; by rewrite (shows_file _ _ _ _ _ Hs1), lookup_insert_eq).
  rewrite <- Etls in Hf, Hbf. destruct (upload_stores what es ds s1' w1 l "" Hrec Hfile Hf) as (Ew & Hrec' & Etls').
  rewrite <- Etls' in Hbf. set (w2 := with_nodes (<[l := File ("" +:+ data)]> (nodes w1)) w1) in *.
  assert (shows w2 c dir (<[n +:+ ".tmp" := data]> m)) as Hs2.
  { rewrite <- (insert_insert_eq m (n +:+ ".tmp") data ""). apply shows_insert; [done|apply Hnt]. }
  assert (up = work what fin (works what es s1' w1).1 w2) as Eup.
  { unfold up. rewrite works_cons, E1, works_snoc. cbn [fst snd]. by rewrite Ew. }
  destruct (upload_end what fin _ w2 l _ Hrec' Htf Hbf) as (Eend & Hrest & _). rewrite <- Eup in Eend, Hrest.
  destruct (get_step c name _ g s2 w2 dir _ data Hget Hs2 Hnt (lookup_insert_eq _ _ _)) as (s3 & E3 & Hsend & Hsent & _).
  assert (down = works what (g :: gs) s3 w2) as Edown.
  { unfold down. rewrite Eend, !works_cons. by rewrite E3. }
  destruct (download_delivers what (g :: gs) s3 w2 _ data Hsend Htg Hd Hlen Hsteps) as (D1 & D2 & D3 & D4).
  rewrite <- Edown, Hsent in *. rewrite Eend. done.
Qed.
End transfers.

(** ** Witness *)
#[local] Existing Instances SshKey.toy_openssl Passwords.toy_sha256.

(** A connection to a daemon that serves [toy_share] and asks for no key. *)
Definition toy_client (socket : Z) : RSyncSession (M:=ModuleConfig) (A:=AuthManager.AuthenticationManager) :=
  new_session socket "10.0.0.1" (Some new_configuration) {["data" := toy_share]} None None.

(** "up" is sent in two chunks, and fetched by another client. *)
Lemma upload_download_witness :
  let up := works (H:=served (λ _, 5)) "error"
              [toy_event "PUT data up"; toy_event "he"; toy_event "llo"; toy_event ""]
              (toy_client 7) (one_folder "srv" toy_files) in
  let down := works (H:=served (λ _, 5)) "error" [toy_event "GET data up.tmp"] (toy_client 8) (snd up) in
  snd down = snd up ∧ sent (fst down) = "hello" +:+ complete_download.
Proof.
  intros up down.
  destruct (upload_download "error" (λ _, 5) (one_folder "srv" toy_files) toy_share ["srv"] toy_files "data" "up"
    (toy_event "PUT data up") [toy_event "he"; toy_event "llo"] ["he"; "llo"] (toy_event "") (toy_client 7)
    (toy_event "GET data up.tmp") [] (toy_client 8)) as (_ & _ & H3 & _ & _ & H6);
    [exact toy_shows|reflexivity|by apply clean_check|by apply name_check|reflexivity|..|exact (conj H3 H6)].
  - constructor; [reflexivity|done|reflexivity|reflexivity|done|].
    exists "PUT data up". split; [reflexivity|]. split; [done|]. split; [cbn; lia|]. by vm_compute.
  - apply toy_takes.
  - repeat (constructor; [split; [vm_compute; reflexivity|split; [discriminate|vm_compute; discriminate]]|]). constructor.
  - apply toy_takes.
  - vm_compute. reflexivity.
  - constructor; [reflexivity|done|reflexivity|reflexivity|done|].
    exists "GET data up.tmp". split; [reflexivity|]. split; [done|]. split; [cbn; lia|]. by vm_compute.
  - apply Forall_singleton, toy_takes.
  - vm_compute. discriminate.
  - vm_compute. reflexivity.
  - vm_compute. reflexivity.
Defined.
