(* ===== verification/Conversations.v ===== *)
(** * A conversation with a client, as operations on a map of files

    The abstract machine a client talks to over a plain connection: its state is
    the files of the served directory and what the session is doing, and its steps
    are lines, data and the end of the stream.  [Session] on the file system of
    [FileSys] refines it: every step sends exactly what the machine sends, and
    leaves the files the machine leaves. *)
From S2P Require Import Prelude CppString ConfigTypes FileSys Folders Protocol Session Shares Transfers.
From S2P Require Import FileSystemModule.
From S2P Require AuthManager Ssl Passwords SshKey.
Open Scope Z_scope.

(** ** The machine *)

(** Waiting for a request; sending what is left of a file; receiving into [n]. *)
Inductive mode := Waiting | Giving (n text : string) | Taking (n : string).

(** What a step gets from the client: a line, data, the end of its stream, or
    nothing when it is the daemon's turn to send. *)
Inductive input := Line (line : string) | Bytes (data : string) | End | Nothing.

(** The next 8192 bytes, and with the last of them the line that ends a download. *)
Definition give (n text : string) : string * mode :=
  let rest := str_drop (Z.to_nat 8192) text in
  if is_empty rest then (text +:+ complete_download, Waiting) else (str_take (Z.to_nat 8192) text, Giving n rest).

(** A request that begins a transfer. *)
Definition transfers (c : ModuleConfig) (m : gmap string string) (msg : ProtocolMessage) : Prop :=
  command msg = GET ∧ is_Some (m !! path msg) ∨ command msg = PUT ∧ read_only c = false.

(** A step: what is sent, and the next state, or [None] when the session is over. *)
Inductive serves (c : ModuleConfig) (name : string) (dir : location) :
  mode → gmap string string → input → string → option mode → gmap string string → Prop :=
| serves_invalid m line :
    valid (request line) = false →
    serves c name dir Waiting m (Line line)
      (buildErrorResponse (-1) ("Invalid protocol message: " +:+ message_error (request line))) (Some Waiting) m
| serves_reply m line answer m' :
    valid (request line) = true → ¬ transfers c m (request line) → reply c name dir m (request line) answer m' →
    serves c name dir Waiting m (Line line) answer (Some Waiting) m'
| serves_get m line x :
    valid (request line) = true → command (request line) = GET → m !! path (request line) = Some x → x ≠ "" →
    serves c name dir Waiting m (Line line) (give (path (request line)) x).1 (Some (give (path (request line)) x).2) m
| serves_get_empty m line :
    valid (request line) = true → command (request line) = GET → m !! path (request line) = Some "" →
    serves c name dir Waiting m (Line line) "" None m
| serves_put m line :
    valid (request line) = true → command (request line) = PUT → read_only c = false →
    serves c name dir Waiting m (Line line) (put_answer (path (request line)))
      (Some (Taking (path (request line) +:+ ".tmp"))) (<[path (request line) +:+ ".tmp" := ""]> m)
| serves_hang_up m : serves c name dir Waiting m End "" None m
| serves_more m n text : serves c name dir (Giving n text) m Nothing (give n text).1 (Some (give n text).2) m
| serves_bytes m n x d :
    m !! n = Some x → serves c name dir (Taking n) m (Bytes d) "" (Some (Taking n)) (<[n := x +:+ d]> m)
| serves_end m n : serves c name dir (Taking n) m End complete_upload (Some Waiting) m.

(** Steps one after another; when the session is over, the rest is not read. *)
Inductive conversation (c : ModuleConfig) (name : string) (dir : location) :
  mode → gmap string string → list input → string → option mode → gmap string string → Prop :=
| conversation_nil a m : conversation c name dir a m [] "" (Some a) m
| conversation_cons a m i inputs out a' m' out' r m'' :
    serves c name dir a m i out (Some a') m' → conversation c name dir a' m' inputs out' r m'' →
    conversation c name dir a m (i :: inputs) (out +:+ out') r m''
| conversation_over a m i inputs out m' :
    serves c name dir a m i out None m' → conversation c name dir a m (i :: inputs) out None m'.

(** ** What a client may do

    A request that is understood is for the module and for a file of its
    directory (or the directory itself, for [LIST] and [DELETE]), is not [AUTH],
    asks for files of less than 2^64 bytes, and uploads under new names; data
    comes in pieces that one read takes. *)
Definition proper (name : string) (dir : location) (m : gmap string string) (msg : ProtocolMessage) : Prop :=
  module_ msg = name ∧ command msg ≠ AUTH ∧
  (name_ok dir (path msg) ∨ path msg = "" ∧ (command msg = LIST ∨ command msg = DELETE)) ∧
  (command msg = GET → ∀ x, m !! path msg = Some x → Z.of_nat (String.length x) < 2 ^ 64) ∧
  (command msg = PUT → m !! (path msg +:+ ".tmp") = None).

Definition fits (name : string) (dir : location) (a : mode) (m : gmap string string) (i : input) : Prop :=
  match a, i with
  | Waiting, Line line =>
      line ≠ "" ∧ (String.length line ≤ 4095)%nat ∧ (valid (request line) = true → proper name dir m (request line))
  | Waiting, End | Giving _ _, Nothing | Taking _, End => True
  | Taking _, Bytes d => d ≠ "" ∧ Z.of_nat (String.length d) ≤ 8192
  | _, _ => False
  end.

(** Every step the client comes to fits. *)
Fixpoint polite (c : ModuleConfig) (name : string) (dir : location) (a : mode) (m : gmap string string)
    (inputs : list input) : Prop :=
  match inputs with
  | [] => True
  | i :: inputs =>
      fits name dir a m i ∧
      ∀ out a' m', serves c name dir a m i out (Some a') m' → polite c name dir a' m' inputs
  end.

(** ** The session *)
Section conversations.
Context {A Draws : Type} `{Authenticator A Draws} (what : string) (junk : string → Z).
#[local] Hint Extern 0 (ModuleOps ModuleConfig) => exact (served junk) : typeclass_instances.
Abbreviation session := (RSyncSession (M:=ModuleConfig) (A:=A)).
Abbreviation event := (event (Draws:=Draws)).

(** An event that brings an input over a plain connection and lets the daemon
    send. *)
Definition carries (e : event) (i : input) : Prop :=
  takes_all e ∧
  match i with Line d | Bytes d => plain_in e = Some d | End => plain_in e = Some "" | Nothing => True end.

(** The session and the world are in a state of the machine.  The refusal of an
    upload must not read like a permission: the name of the module is no trick. *)
Record talking (c : ModuleConfig) (name : string) (dir : location) (a : mode) (m : gmap string string)
    (s : session) (w : world) : Prop := {
  talks_shows : shows w c dir m;
  talks_connected : connected s = true;
  talks_plain : tls_open s = false;
  talks_open : gated s = false;
  talks_module : getModule name (handler_ s) = Some c;
  talks_named : name ≠ "";
  talks_honest : contains "Ready to receive file" (buildErrorResponse 5 ("Module is read-only: " +:+ name)) = false;
  talks_mode :
    match a with
    | Waiting => at_rest s
    | Giving n text => sending w (dir ++ [n]) text s ∧ text ≠ "" ∧ Z.of_nat (String.length text) < 2 ^ 64
    | Taking n => clean n ∧ ∃ x, m !! n = Some x ∧ receiving (dir ++ [n]) (String.length x) s
    end
}.

(** A state is kept by what serves, on the same channel. *)
Lemma talking_next c name dir a m s w a' m' s' w' :
  talking c name dir a m s w → serving s s' → connected s' = true → tls_open s' = false → shows w' c dir m' →
  match a' with
  | Waiting => at_rest s'
  | Giving n text => sending w' (dir ++ [n]) text s' ∧ text ≠ "" ∧ Z.of_nat (String.length text) < 2 ^ 64
  | Taking n => clean n ∧ ∃ x, m' !! n = Some x ∧ receiving (dir ++ [n]) (String.length x) s'
  end → talking c name dir a' m' s' w'.
Proof.
  intros [] Hserv Hc Ht Hs Hm. constructor; try done; [by rewrite (serving_gated _ _ Hserv)|by rewrite (serving_module _ _ _ Hserv)].
Qed.

(** ** A chunk changes neither handler nor user *)
Lemma chunk_serving (e : event) (s : session) : Yields (λ r, serving s r.2) (continueFileTransfer e s).
Proof.
  unfold continueFileTransfer. destruct (transfer_state_ s); [by apply yields_ret| |].
  - unfold receive_chunk. pose proof (serving_work _ _ (readSocket_keeps e (Z.to_nat 8192) s)) as Hk.
    destruct (readSocket e (Z.to_nat 8192) s) as [d s1]. cbn [snd] in Hk.
    destruct d as [[|ch d]|]; [|apply yields_bind; intros []; apply yields_ret; exact Hk|apply yields_ret; exact Hk].
    apply yields_bind; intros [].
    pose proof (serving_work _ _ (writeResponse_keeps e complete_upload (endFileTransfer s1))) as Hw.
    destruct (writeResponse e complete_upload (endFileTransfer s1)) as [b s2]. apply yields_ret.
    etrans; [exact Hk|exact Hw].
  - unfold send_chunk. intros w r w'. cbv zeta. set (chunk := read_chunk _ _ _).
    destruct (bool_decide _); [|by intros [= <- _]].
    pose proof (serving_work _ _ (writeSocket_keeps e chunk s)) as Hk.
    destruct (writeSocket e chunk s) as [n s1]. cbn [snd] in Hk.
    destruct (n <? 0); [intros [= <- _]; exact Hk|]. destruct (_ =? 0); [|intros [= <- _]; exact Hk].
    match goal with |- context [writeResponse e complete_download ?s2] =>
      pose proof (serving_work _ _ (writeResponse_keeps e complete_download s2)) as Hw;
      destruct (writeResponse e complete_download s2) as [b s3] end.
    intros [= <- _]. etrans; [exact Hk|exact Hw].
Qed.

Lemma transfer_serving (e : event) (s : session) w :
  transfer_state_ s ≠ IDLE → serving s (fst (work what e s w)).
Proof.
  intros Hst. unfold work. destruct (active_ s) eqn:Ha; [|done].
  assert (processRequest what e s w = continueFileTransfer e s w) as ->.
  { unfold processRequest. rewrite Ha. cbn [negb]. by rewrite bool_decide_eq_false_2. }
  destruct (continueFileTransfer e s w) as [[[ok s']|] w'] eqn:E; [|apply serving_work, close_keeps].
  apply (chunk_serving e s) in E. destruct ok; [exact E|]. etrans; [exact E|]. apply serving_work, close_keeps.
Qed.

(** ** The end of a session *)
Lemma close_over (s : session) : connected s = true → tls_open s = false →
  active_ (close s) = false ∧ sent (close s) = sent s.
Proof.
  unfold connected, tls_open, plain_open, sent, tls_open, close, Ssl.close, Ssl.isOpen. intros Hc Ht.
  destruct (ssl_connection_ s) as [[] |] eqn:Ec.
  - cbn in *. by rewrite Ht.
  - by apply andb_true_iff in Hc as [[-> ->]%andb_true_iff _].
Qed.

(** The client ends its stream where a request is due. *)
Lemma hang_up (e : event) (s : session) w :
  connected s = true → tls_open s = false → at_rest s → plain_in e = Some "" →
  let r := work what e s w in snd r = w ∧ active_ (fst r) = false ∧ sent (fst r) = sent s.
Proof.
  intros Hc Ht [Hst _] He.
  assert (active_ s = true ∧ (client_socket_ s <? 0) = false) as [Ha Hs]
    by (unfold connected in Hc; bool_hyps; split; [done|apply Z.ltb_ge; lia]).
  assert (Hopen : ∀ c, ssl_connection_ s = Some c → Ssl.isOpen c = false).
  { intros c Ec. unfold connected, plain_open in Hc. rewrite Ht, Ec in Hc. destruct (Ssl.isOpen c); [|done].
    cbn in Hc. by rewrite andb_false_r in Hc. }
  assert (readSocket e 4095 s = (Some "", s)) as E.
  { unfold readSocket. rewrite Hs, He. destruct (ssl_connection_ s) as [c|]; [by rewrite (Hopen c)|done]. }
  unfold work, processRequest. rewrite Ha, Hst. cbn [negb]. rewrite bool_decide_eq_true_2 by done. cbn [negb]. rewrite E.
  split; [done|]. unfold sent. rewrite Ht. unfold tls_open, close, Ssl.close. cbn [fst snd ret ssl_connection_ with_socket].
  by destruct (ssl_connection_ s).
Qed.

(** The download of an empty file. *)
Lemma send_nothing (e : event) (s : session) w l :
  sending w l "" s → tls_open s = false →
  let r := work what e s w in snd r = w ∧ active_ (fst r) = false ∧ sent (fst r) = sent s.
Proof.
  intros (Hc & Hst & Hrem & pos & x & Hf & Hn & Hd) Ht.
  assert (active_ s = true) as Ha by (unfold connected in Hc; by bool_hyps).
  assert (work what e s w = (close (endFileTransfer s), w)) as ->.
  { unfold work, processRequest, continueFileTransfer. rewrite Ha, Hst. cbn [negb].
    rewrite bool_decide_eq_false_2 by done. cbn [negb]. unfold send_chunk. cbv zeta. rewrite Hrem.
    change (Z.to_nat (Z.min 8192 (Z.of_nat (String.length "")))) with 0%nat.
    assert (read_chunk w (download_file_ s) 0 = "") as -> by (unfold read_chunk; by rewrite Hf, Hn).
    by rewrite bool_decide_eq_false_2 by (cbn; lia). }
  by destruct (close_over (endFileTransfer s) Hc Ht).
Qed.

(** ** Answers *)
Lemma start_missing w c dir m name n (s : session) :
  shows w c dir m → name_ok dir n → m !! n = None → name ≠ "" → getModule name (handler_ s) = Some c →
  ∃ s', startFileDownload name n s w = (Some (false, s'), w) ∧ same_channel s s' ∧ sent s' = sent s ∧ serving s s' ∧
    (at_rest s → at_rest s').
Proof.
  intros Hs Hn Hm Hname Hg. unfold startFileDownload. set (s1 := with_transfer _ _ _ _ _ _ _ s).
  assert (transfer_module name s1 = Some c) as -> by (unfold transfer_module; by rewrite (proj2 (is_empty_false _) Hname)).
  cbn [Protocol.getFileInfo Protocol.fileExists served filesystem_module].
  pose proof (share_info w c dir m Hs n Hn junk) as Ei. rewrite Hm in Ei. rewrite (bind_some _ _ _ _ _ Ei). by eexists.
Qed.

(** The answer is sent, and the session rests. *)
Definition replied (e : event) (answer : string) (s s' : session) : Prop :=
  connected s' = true ∧ tls_open s' = tls_open s ∧ at_rest s' ∧ serving s s' ∧ sent s' = sent s +:+ answer.

Lemma respond_replied (e : event) answer (s : session) w :
  connected s = true → at_rest s → takes_all e → answer ≠ "" →
  ∃ s', respond e answer s w = (Some (true, s'), w) ∧ replied e answer s s'.
Proof.
  intros Hc Hr Ht Ha. destruct (writeResponse_all e answer s Hc Ht Ha) as (s' & E & Hch & Hw & Hs).
  exists s'. unfold respond. rewrite E. split; [done|]. destruct (same_channel_up _ _ Hch) as [C T].
  split; [by rewrite C|]. split; [done|]. split; [|split; [by apply serving_work|done]].
  destruct Hw as (_ & _ & _ & K1 & K2 & K3 & _). unfold at_rest in *. by rewrite K1, K2, K3.
Qed.

Lemma replied_from (e : event) answer (s s1 s' : session) :
  same_channel s s1 → serving s s1 → sent s1 = sent s → replied e answer s1 s' → replied e answer s s'.
Proof.
  intros Hch Hserv Hsent (R1 & R2 & R3 & R4 & R5). destruct (same_channel_up _ _ Hch) as [_ T].
  split; [done|]. split; [by rewrite R2|]. split; [done|]. split; [by etrans|]. by rewrite R5, Hsent.
Qed.

Lemma reply_nonempty c name dir m msg answer m' : reply c name dir m msg answer m' → answer ≠ "".
Proof. by destruct 1. Qed.

(** A request that begins no transfer. *)
Lemma reply_step c name dir m (e : event) msg (s : session) w :
  shows w c dir m → connected s = true → at_rest s → gated s = false → getModule name (handler_ s) = Some c → name ≠ "" →
  contains "Ready to receive file" (buildErrorResponse 5 ("Module is read-only: " +:+ name)) = false →
  takes_all e → valid msg = true → proper name dir m msg → ¬ transfers c m msg →
  ∃ answer m' w' s', answered what junk e msg s w = (Some (true, s'), w') ∧ reply c name dir m msg answer m' ∧
    shows w' c dir m' ∧ replied e answer s s'.
Proof.
  intros Hs Hc Hr Hg Hm Hname Hhon Ht Hv (Hmod & Hauth & Hpath & _) Hno.
  set (s2 := with_protocol (parser_ s) (setModule (module_ msg) (handler_ s)) s).
  assert (addressed name dir (handler_ s2) msg) as Haddr.
  { split; [unfold module_name; rewrite Hmod; by rewrite (proj2 (is_empty_false _) Hname)|].
    destruct Hpath as [Hp|[Hp [Hl|Hl]]]; [by left|right..]; by rewrite Hl. }
  assert (module_ msg ≠ "") as Hmod' by congruence.
  destruct (handle_simulates w c dir m Hs junk what (handler_ s2) name Hm msg Haddr) as (answer & m' & w' & Eh & Hreply & Hs').
  pose proof (ungated_answer what junk e msg s w answer w' Hg Hauth Hmod' Eh) as Hans.
  assert (∀ s3 w3, same_channel s2 s3 → sent s3 = sent s2 → serving s2 s3 → at_rest s3 →
    ∃ s', respond e answer s3 w3 = (Some (true, s'), w3) ∧ replied e answer s s') as Hrespond.
  { intros s3 w3 Hch Hsent Hserv Hr3. destruct (same_channel_up _ _ Hch) as [C _].
    destruct (respond_replied e answer s3 w3) as (s' & E & R); [by rewrite C|done|done|by eapply reply_nonempty|].
    exists s'. split; [done|]. by apply (replied_from e answer s s3). }
  unfold answered. rewrite (bind_some _ _ _ _ _ Hans). cbv zeta. cbn [fst snd]. fold s2.
  assert (∃ s', respond e answer s2 w' = (Some (true, s'), w') ∧ replied e answer s s') as (s' & E & R) by by apply Hrespond.
  case (bool_decide_reflect (command msg = GET)) as [Hget|Hget]; [destruct (contains "Ready for transfer" answer)|].
  - assert (m !! path msg = None) as Hnone.
    { apply eq_None_not_Some. intros Hx. apply Hno. by left. }
    assert (m' !! path msg = None) as Hnone' by (destruct Hreply; congruence).
    destruct Hpath as [Hp|[_ [Hl|Hl]]]; [|congruence..]. cbn [andb].
    destruct (start_missing w' c dir m' (module_ msg) (path msg) s2) as (s3 & E3 & Hch & Hsent & Hserv & Hrest);
      [done..|by rewrite Hmod|]. rewrite (bind_some _ _ _ _ _ E3). cbn [fst snd].
    destruct (Hrespond s3 w' Hch Hsent Hserv (Hrest Hr)) as (s4 & E4 & R4). by exists answer, m', w', s4.
  - cbn [andb]. rewrite bool_decide_eq_false_2 by congruence. rewrite andb_false_r. by exists answer, m', w', s'.
  - rewrite andb_false_r. case (bool_decide_reflect (command msg = PUT)) as [Hput|Hput].
    + assert (read_only c = true) as Hro by (apply not_false_is_true; intros Hro; apply Hno; by right).
      assert (contains "Ready to receive file" answer = false) as -> by (destruct Hreply; destruct_or?; congruence).
      cbn [andb]. by exists answer, m', w', s'.
    + rewrite andb_false_r. by exists answer, m', w', s'.
Qed.

(** ** Simulation: one step *)

(** The session has made a step of the machine. *)
Definition simulated c name dir a m i (e : event) (s : session) (w : world) : Prop :=
  ∃ out r m' s' w', work what e s w = (s', w') ∧ serves c name dir a m i out r m' ∧ sent s' = sent s +:+ out ∧
    match r with
    | Some a' => talking c name dir a' m' s' w'
    | None => active_ s' = false ∧ shows w' c dir m'
    end.

Lemma give_step c name dir m n text (e : event) (s : session) w :
  talking c name dir (Giving n text) m s w → takes_all e →
  ∃ s', work what e s w = (s', w) ∧ talking c name dir (give n text).2 m s' w ∧ sent s' = sent s +:+ (give n text).1.
Proof.
  intros Hk Ht. destruct (talks_mode _ _ _ _ _ _ _ Hk) as (Hsend & Hne & Hlen).
  destruct (send_step what e s w _ text Hsend Ht Hne Hlen) as (s' & E & Hch & Hcase).
  assert (serving s s') as Hserv.
  { pose proof (transfer_serving e s w) as Hw. rewrite E in Hw. apply Hw. by destruct Hsend as (_ & -> & _). }
  destruct (same_channel_up _ _ Hch) as [C T]. rewrite (talks_connected _ _ _ _ _ _ _ Hk) in C.
  rewrite (talks_plain _ _ _ _ _ _ _ Hk) in T. pose proof (talks_shows _ _ _ _ _ _ _ Hk) as Hs.
  exists s'. split; [done|]. unfold give. cbv zeta. revert Hcase.
  pose proof (length_drop_str (Z.to_nat 8192) text) as El. set (rest := str_drop (Z.to_nat 8192) text) in *.
  destruct (is_empty rest) eqn:Er.
  - intros (_ & Hrest & Hsent). split; [|exact Hsent]. by apply (talking_next _ _ _ _ _ _ _ _ _ _ _ Hk).
  - intros (Hsend' & Hsent). split; [|exact Hsent]. apply (talking_next _ _ _ _ _ _ _ _ _ _ _ Hk); [done..|].
    split; [done|]. split; [by apply is_empty_false|lia].
Qed.

Lemma invalid_simulated c name dir m line (e : event) (s : session) w :
  talking c name dir Waiting m s w → fits name dir Waiting m (Line line) → carries e (Line line) →
  valid (request line) = false → simulated c name dir Waiting m (Line line) e s w.
Proof.
  intros Hk (Hne & Hlen & _) [Ht He] Hv. pose proof Hk as [Hs Hc Hpl Hg _ _ _ Hr].
  destruct (line_step what junk line e s w) as (s1 & Ha & (Hch & Hr1 & Hserv & Hsent) & Hc1 & _ & E); [done..|by rewrite Hpl|done|done|].
  rewrite Hv in E. destruct (same_channel_up _ _ Hch) as [_ T].
  destruct (respond_replied e (buildErrorResponse (-1) ("Invalid protocol message: " +:+ message_error (request line))) s1 w)
    as (s' & E' & R1 & R2 & R3 & R4 & R5); [done..|].
  eexists _, _, m, s', w. split; [unfold work; by rewrite Ha, E, E'|]. split; [by apply serves_invalid|].
  split; [by rewrite R5, Hsent|]. apply (talking_next _ _ _ _ _ _ _ _ _ _ _ Hk); try done; [by etrans|by rewrite R2, T].
Qed.

Lemma reply_simulated c name dir m line (e : event) (s : session) w :
  talking c name dir Waiting m s w → fits name dir Waiting m (Line line) → carries e (Line line) →
  valid (request line) = true → ¬ transfers c m (request line) → simulated c name dir Waiting m (Line line) e s w.
Proof.
  intros Hk (Hne & Hlen & Hp) [Ht He] Hv Hno. pose proof Hk as [Hs Hc Hpl Hg Hm Hn Hh Hr].
  destruct (line_step what junk line e s w) as (s1 & Ha & (Hch & Hr1 & Hserv & Hsent) & Hc1 & Hhd & E); [done..|by rewrite Hpl|done|done|].
  rewrite Hv in E. destruct (same_channel_up _ _ Hch) as [_ T].
  destruct (reply_step c name dir m e (request line) s1 w) as (answer & m' & w' & s' & E' & Hrep & Hs' & R1 & R2 & R3 & R4 & R5);
    [done..|by rewrite (serving_gated _ _ Hserv)|by rewrite Hhd|done|done|done|done|by apply Hp|done|].
  exists answer, (Some Waiting), m', s', w'. split; [unfold work; by rewrite Ha, E, E'|]. split; [by apply serves_reply|].
  split; [by rewrite R5, Hsent|]. apply (talking_next _ _ _ _ _ _ _ _ _ _ _ Hk); try done; [by etrans|by rewrite R2, T].
Qed.

(** The line as the request of [Transfers]. *)
Lemma talking_asks c name dir m line (e : event) (s : session) w cmd :
  talking c name dir Waiting m s w → fits name dir Waiting m (Line line) → carries e (Line line) →
  valid (request line) = true → command (request line) = cmd → asks c name cmd (path (request line)) e s.
Proof.
  intros [Hs Hc Hpl Hg Hm Hn Hh Hr] (Hne & Hlen & Hp) [Ht He] Hv Hcmd. constructor; try done.
  exists line. rewrite Hpl. split; [done|]. split; [done|]. split; [done|]. split; [done|]. split; [done|].
  split; [by apply Hp|done].
Qed.

Lemma put_simulated c name dir m line (e : event) (s : session) w :
  talking c name dir Waiting m s w → fits name dir Waiting m (Line line) → carries e (Line line) →
  valid (request line) = true → command (request line) = PUT → read_only c = false →
  simulated c name dir Waiting m (Line line) e s w.
Proof.
  intros Hk Hf Hcar Hv Hcmd Hro. pose proof (talking_asks _ _ _ _ _ _ _ _ _ Hk Hf Hcar Hv Hcmd) as Hask.
  destruct Hf as (_ & _ & Hp). destruct (Hp Hv) as (_ & _ & Hpath & _ & Hnew). specialize (Hnew Hcmd).
  destruct Hpath as [Hok|[_ [Hl|Hl]]]; [|congruence..].
  destruct (put_step what junk c name _ e s w dir m Hask (proj1 Hcar) Hro (talks_shows _ _ _ _ _ _ _ Hk) (name_clean _ _ Hok) Hnew)
    as (s' & w' & E & Hs' & Hrec & T & Hserv & Hsent).
  eexists _, _, _, s', w'. split; [done|]. split; [by apply serves_put|]. split; [done|].
  apply (talking_next _ _ _ _ _ _ _ _ _ _ _ Hk); try done; [by destruct Hrec|by rewrite T, (talks_plain _ _ _ _ _ _ _ Hk)|].
  split; [apply clean_suffix; [apply Hok|done|cbn; lia]|]. exists "". split; [apply lookup_insert_eq|done].
Qed.

Lemma get_simulated c name dir m line x (e : event) (s : session) w :
  talking c name dir Waiting m s w → fits name dir Waiting m (Line line) → carries e (Line line) →
  valid (request line) = true → command (request line) = GET → m !! path (request line) = Some x →
  simulated c name dir Waiting m (Line line) e s w.
Proof.
  intros Hk Hf Hcar Hv Hcmd Hx. pose proof (talking_asks _ _ _ _ _ _ _ _ _ Hk Hf Hcar Hv Hcmd) as Hask.
  destruct Hf as (_ & _ & Hp). destruct (Hp Hv) as (_ & _ & Hpath & Hlen & _). specialize (Hlen Hcmd x Hx).
  destruct Hpath as [Hok|[_ [Hl|Hl]]]; [|congruence..]. pose proof (talks_shows _ _ _ _ _ _ _ Hk) as Hs.
  destruct (get_step what junk c name _ e s w dir m x Hask Hs Hok Hx) as (s1 & E & Hsend & Hsent & Hserv & T).
  rewrite (talks_plain _ _ _ _ _ _ _ Hk) in T.
  destruct (decide (x = "")) as [->|Hne].
  - destruct (send_nothing e s1 w _ Hsend T) as (E1 & E2 & E3). rewrite <- E in E1, E2, E3.
    destruct (work what e s w) as [s' w'] eqn:Ew. cbn [fst snd] in *. subst w'.
    exists "", None, m, s', w. split; [done|]. split; [by apply serves_get_empty|].
    split; [by rewrite app_nil_str, E3|done].
  - assert (talking c name dir (Giving (path (request line)) x) m s1 w) as Hk1
      by (apply (talking_next _ _ _ _ _ _ _ _ _ _ _ Hk); try done; by destruct Hsend).
    destruct (give_step _ _ _ _ _ _ e s1 w Hk1 (proj1 Hcar)) as (s' & E1 & Hk' & Hs').
    eexists _, _, m, s', w. split; [by rewrite E|]. split; [by apply serves_get|]. split; [by rewrite Hs', Hsent|done].
Qed.

Lemma bytes_simulated c name dir m n d (e : event) (s : session) w :
  talking c name dir (Taking n) m s w → d ≠ "" → Z.of_nat (String.length d) ≤ 8192 → carries e (Bytes d) →
  simulated c name dir (Taking n) m (Bytes d) e s w.
Proof.
  intros Hk Hd Hlen [Ht He]. destruct (talks_mode _ _ _ _ _ _ _ Hk) as (Hn & x & Hx & Hrec).
  pose proof (talks_shows _ _ _ _ _ _ _ Hk) as Hs. pose proof (talks_plain _ _ _ _ _ _ _ Hk) as Hpl.
  assert (nodes w !! (dir ++ [n]) = Some (File x)) as Hfile by (by rewrite (shows_file _ _ _ _ _ Hs), Hx).
  destruct (receive_step what e d s w _ _ x Hrec Hfile) as (s' & E & Hrec' & T & Hsent); [by rewrite Hpl|done|done|].
  assert (serving s s') as Hserv.
  { pose proof (transfer_serving e s w) as Hw. rewrite E in Hw. destruct Hrec as (_ & Hst & _). apply Hw. by rewrite Hst. }
  rewrite overwrite_end in E. rewrite <- length_app_str in Hrec'.
  eexists "", _, _, s', _. split; [exact E|]. split; [by apply serves_bytes|]. split; [by rewrite app_nil_str|].
  apply (talking_next _ _ _ _ _ _ _ _ _ _ _ Hk); [done|by destruct Hrec'|by rewrite T|by apply shows_insert|].
  split; [done|]. exists (x +:+ d). split; [apply lookup_insert_eq|done].
Qed.

Lemma end_simulated c name dir m n (e : event) (s : session) w :
  talking c name dir (Taking n) m s w → carries e End → simulated c name dir (Taking n) m End e s w.
Proof.
  intros Hk [Ht He]. destruct (talks_mode _ _ _ _ _ _ _ Hk) as (Hn & x & Hx & Hrec).
  pose proof (talks_plain _ _ _ _ _ _ _ Hk) as Hpl.
  destruct (upload_end what e s w _ _ Hrec Ht) as (Ew & Hr & Hc & T & Hsent & _); [by rewrite Hpl|].
  pose proof (transfer_serving e s w) as Hserv. destruct (work what e s w) as [s' w'] eqn:E. cbn [fst snd] in *. subst w'.
  exists complete_upload, (Some Waiting), m, s', w. split; [done|]. split; [constructor|].
  split; [unfold sent; by rewrite T, Hpl|].
  apply (talking_next _ _ _ _ _ _ _ _ _ _ _ Hk); [|done|done|apply Hk|done].
  apply Hserv. destruct Hrec as (_ & -> & _). done.
Qed.

Lemma step_simulates c name dir a m i (e : event) (s : session) w :
  talking c name dir a m s w → fits name dir a m i → carries e i → simulated c name dir a m i e s w.
Proof.
  intros Hk Hf He. destruct a as [|n text|n], i as [line|d| |]; try done.
  - destruct (valid (request line)) eqn:Hv; [|by apply invalid_simulated].
    destruct (decide (command (request line) = GET)) as [Hget|Hget];
      [destruct (m !! path (request line)) as [x|] eqn:Hx; [by eapply get_simulated|]|].
    + apply reply_simulated; try done. intros [[_ [? ?]]|[? _]]; congruence.
    + destruct (decide (command (request line) = PUT ∧ read_only c = false)) as [[Hput Hro]|Hput]; [by apply put_simulated|].
      apply reply_simulated; try done. by intros [[? _]|?].
  - destruct (hang_up e s w) as (E1 & E2 & E3); [apply Hk..|apply He|].
    destruct (work what e s w) as [s' w'] eqn:E. cbn [fst snd] in *. subst w'.
    exists "", None, m, s', w. split; [done|]. split; [constructor|]. split; [by rewrite app_nil_str|].
    split; [done|apply Hk].
  - destruct (give_step _ _ _ _ _ _ e s w Hk (proj1 He)) as (s' & E & Hk' & Hs'). eexists _, _, m, s', w.
    split; [done|]. split; [constructor|]. done.
  - by apply bytes_simulated; [|apply Hf..|].
  - by apply end_simulated.
Qed.

Lemma works_over (es : list event) (s : session) w : active_ s = false → works what es s w = (s, w).
Proof.
  intros Ha. unfold works. induction es as [|e es IH]; [done|]. cbn [foldl fst snd]. unfold work at 2. by rewrite Ha.
Qed.

(** C19: Refinement: a session is the machine.  Over a plain connection to a served
    directory that holds only files, whatever a client does within [polite] -
    requests, downloads and uploads one after another - the session goes through
    a conversation of the machine: what it has sent is what the machine sends,
    byte for byte, the directory shows the files the machine leaves, and the
    session is over when the machine's is.  The module's include and exclude
    patterns play no part: a file they exclude is listed, sent, replaced and
    deleted like any other, although the documentation says they filter. *)
Theorem session_refines c name dir a m inputs es s w :
  talking c name dir a m s w → polite c name dir a m inputs → Forall2 carries es inputs →
  ∃ out r m', let '(s', w') := works what es s w in
    conversation c name dir a m inputs out r m' ∧ sent s' = sent s +:+ out ∧
    match r with
    | Some a' => talking c name dir a' m' s' w'
    | None => active_ s' = false ∧ shows w' c dir m'
    end.
Proof.
  intros Hk Hp Hes. revert a m s w Hk Hp. induction Hes as [|e i es inputs He _ IH]; intros a m s w Hk Hp.
  - exists "", (Some a), m. cbn. split; [constructor|]. by rewrite app_nil_str.
  - destruct Hp as [Hf Hp]. destruct (step_simulates _ _ _ _ _ _ e _ _ Hk Hf He) as (out & r & m1 & s1 & w1 & E & Hserves & Hsent & Hr).
    rewrite works_cons, E. cbn [fst snd]. destruct r as [a1|].
    + destruct (IH a1 m1 s1 w1 Hr (Hp _ _ _ Hserves)) as (out' & r & m2 & Hrest).
      exists (out +:+ out'), r, m2. destruct (works what es s1 w1) as [s2 w2].
      destruct Hrest as (Hconv & Hs2 & Hr2). split; [by econstructor|]. split; [|done].
      by rewrite Hs2, Hsent, app_assoc_str.
    + destruct Hr as [Ha Hs]. rewrite (works_over es s1 w1 Ha). exists out, None, m1. split; [by econstructor|]. done.
Qed.
End conversations.

(** ** Witness *)
#[local] Existing Instances SshKey.toy_openssl Passwords.toy_sha256.
#[local] Hint Extern 0 (ModuleOps ModuleConfig) => exact (served (λ _, 5)) : typeclass_instances.

(** A client uploads "up", fetches what it has uploaded, and hangs up. *)
Definition toy_inputs : list input := [Line "PUT data up"; Bytes "hello"; End; Line "GET data up.tmp"; End].
Definition toy_events : list event :=
  [toy_event "PUT data up"; toy_event "hello"; toy_event ""; toy_event "GET data up.tmp"; toy_event ""].

Lemma toy_put : request "PUT data up" = MkMessage PUT "data" "up" ∅ true "".
Proof. vm_compute. reflexivity. Qed.
Lemma toy_get : request "GET data up.tmp" = MkMessage GET "data" "up.tmp" ∅ true "".
Proof. vm_compute. reflexivity. Qed.

Lemma toy_talking : talking toy_share "data" ["srv"] Waiting toy_files (toy_client 7) (one_folder "srv" toy_files).
Proof. constructor; try done. exact toy_shows. Qed.

Lemma toy_polite : polite toy_share "data" ["srv"] Waiting toy_files toy_inputs.
Proof.
  split.
  { split; [done|]. split; [cbn; lia|]. rewrite toy_put. split; [done|]. split; [done|].
    split; [left; by apply name_check|]. done. }
  intros out a m Hput. inversion Hput; subst; rewrite toy_put in *; try done.
  { match goal with H : ¬ transfers _ _ _ |- _ => destruct H end. right. done. }
  cbn [path] in *. split; [done|]. intros out1 a1 m1 Hb. inversion Hb; subst.
  match goal with H : <[_ := _]> _ !! _ = Some _ |- _ => rewrite lookup_insert_eq in H; injection H as <- end.
  rewrite insert_insert_eq.
  split; [done|]. intros out2 a2 m2 He. inversion He; subst. split.
  { split; [done|]. split; [cbn; lia|]. rewrite toy_get. split; [done|]. split; [done|].
    split; [left; by apply name_check|]. split; [|done]. intros _ x. cbn [path].
    rewrite lookup_insert_eq. by intros [= <-]. }
  intros out3 a3 m3 Hget. inversion Hget; subst; rewrite toy_get in *; try done.
  match goal with H : <[_ := _]> _ !! _ = Some _ |- _ => cbn [path] in H; rewrite lookup_insert_eq in H; injection H as <- end.
  by split.
Qed.

Lemma session_refines_witness :
  ∃ out r m', let '(s', w') := works "error" toy_events (toy_client 7) (one_folder "srv" toy_files) in
    conversation toy_share "data" ["srv"] Waiting toy_files toy_inputs out r m' ∧ sent_plain s' = out ∧
    sent_plain s' = put_answer "up" +:+ complete_upload +:+ "hello" +:+ complete_download ∧
    match r with
    | Some a' => talking toy_share "data" ["srv"] a' m' s' w'
    | None => active_ s' = false ∧ shows w' toy_share ["srv"] m'
    end.
Proof.
  destruct (session_refines "error" (λ _, 5) toy_share "data" ["srv"] Waiting toy_files toy_inputs toy_events
    (toy_client 7) (one_folder "srv" toy_files) toy_talking toy_polite) as (out & r & m' & Hr).
  - repeat (constructor; [split; [apply toy_takes|reflexivity]|]). constructor.
  - exists out, r, m'.
    assert (sent_plain (works "error" toy_events (toy_client 7) (one_folder "srv" toy_files)).1 =
      put_answer "up" +:+ complete_upload +:+ "hello" +:+ complete_download) as Esent by (vm_compute; reflexivity).
    assert (tls_open (works "error" toy_events (toy_client 7) (one_folder "srv" toy_files)).1 = false) as Etls
      by (vm_compute; reflexivity).
    destruct (works "error" toy_events (toy_client 7) (one_folder "srv" toy_files)) as [s' w']. cbn [fst] in *.
    destruct Hr as (H1 & H2 & H3). unfold sent in H2. rewrite Etls in H2. by split.
Defined.

