(* ===== verification/Progress.v ===== *)
(** * Progress: transfers end, and workers serve every session

    Two arguments about what keeps happening.  A download ends however little
    the peer takes, because every step moves the file's stream forward.  A worker
    can always finish the round it is in, and a round serves every active session
    of the list exactly once, in order. *)
From S2P Require Import Prelude CppString ConfigTypes FileSys Protocol Session Daemon Threads.
From S2P Require FileSystemModule Ssl AuthManager NetworkAccess Privileges Passwords SshKey ConfigDocuments.
Open Scope Z_scope.

(** ** Downloads *)
Section downloads.
Context {M A Draws : Type} `{ModuleOps M} `{Authenticator A Draws} (what : string).

(** The bytes of the file the stream has not read yet, and one for the step
    that finds nothing left. *)
Definition unread (w : world) (s : RSyncSession (M:=M) (A:=A)) : nat :=
  match download_file_ s with
  | Some (l, pos) => match nodes w !! l with Some (File c) => S (String.length c - pos) | _ => 1 end
  | None => 1
  end.

Definition downloading (s : RSyncSession (M:=M) (A:=A)) : Prop := active_ s = true ∧ transfer_state_ s = SENDING_FILE.

Lemma read_chunk_spec w (s : RSyncSession (M:=M) (A:=A)) n :
  (String.length (read_chunk w (download_file_ s) n) < unread w s)%nat.
Proof.
  unfold read_chunk, unread. destruct (download_file_ s) as [[l pos]|]; [|cbn; lia].
  destruct (nodes w !! l) as [[c| |]|]; try (cbn; lia). unfold substr. rewrite length_take_str, length_drop_str. lia.
Qed.

Lemma write_keeps_active (e : event (Draws:=Draws)) d (s : RSyncSession (M:=M) (A:=A)) : active_ (snd (writeSocket e d s)) = active_ s.
Proof.
  unfold writeSocket. destruct (ssl_connection_ s) as [c|]; [|by destruct (client_socket_ s <? 0)].
  destruct (Ssl.isOpen c); [done|by destruct (client_socket_ s <? 0)].
Qed.

(** One step leaves the files alone and ends the transfer or moves the stream. *)
Lemma download_step e s w :
  downloading s →
  let '(s', w') := work what e s w in
  w' = w ∧ (transfer_state_ s' = IDLE ∨ downloading s' ∧ (unread w s' < unread w s)%nat).
Proof.
  intros [Ha Hst]. unfold work, processRequest, continueFileTransfer. rewrite Ha, Hst. cbn [negb].
  rewrite bool_decide_false by done. cbn [negb]. unfold send_chunk. cbv zeta.
  set (n := Z.to_nat (Z.min 8192 (transfer_bytes_remaining_ s))).
  pose proof (read_chunk_spec w s n) as Hc. set (chunk := read_chunk w (download_file_ s) n) in *.
  destruct (bool_decide _) eqn:Hlen; [|split; [done|]; left; unfold close; by repeat case_match].
  apply bool_decide_eq_true in Hlen.
  pose proof (writeSocket_keeps e chunk s) as (_ & _ & _ & Kst & _ & Kd & _).
  pose proof (write_keeps_active e chunk s) as Ka.
  destruct (writeSocket e chunk s) as [sent s1]. cbn [snd] in *.
  destruct (sent <? 0); [split; [done|]; left; unfold close; by repeat case_match|].
  destruct (_ =? 0).
  - match goal with |- context [writeResponse e complete_download ?s2] =>
      pose proof (writeResponse_keeps e complete_download s2) as (_ & _ & _ & K & _);
      destruct (writeResponse e complete_download s2) as [b s3] end.
    split; [done|]. by left.
  - split; [done|]. right. split; [by split; cbn; congruence|].
    unfold unread at 1. cbn [download_file_ with_transfer]. subst chunk.
    destruct (download_file_ s) as [[l pos]|] eqn:E; [|cbn in Hlen; lia].
    unfold unread in Hc |- *. rewrite E in Hc |- *. case_bool_decide; [|].
    + lia.
    + destruct (nodes w !! l) as [[c| |]|]; lia.
Qed.

(** C29: Termination: a download ends.  Whatever the peer takes of each chunk, and
    whatever it sends, within one step per unread byte of the file and one more
    the session is at rest or closed; the files are as before. *)
Theorem download_ends es s w :
  downloading s → (unread w s ≤ length es)%nat →
  ∃ k, (k ≤ unread w s)%nat ∧ transfer_state_ (fst (works what (take k es) s w)) = IDLE ∧
       snd (works what (take k es) s w) = w.
Proof.
  revert s. induction es as [|e es IH]; intros s Hs Hlen.
  - unfold unread in Hlen. cbn in Hlen. repeat case_match; lia.
  - pose proof (download_step e s w Hs) as Hstep. destruct (work what e s w) as [s1 w1] eqn:E.
    destruct Hstep as [-> [Hidle|[Hs1 Hless]]].
    + exists 1%nat. unfold works. cbn [take foldl fst snd]. rewrite E. split; [|done].
      unfold unread. repeat case_match; lia.
    + cbn in Hlen. destruct (IH s1 Hs1 ltac:(lia)) as (k & Hk & H1 & H2). exists (S k). split; [lia|].
      unfold works in *. cbn [take foldl fst snd]. rewrite E. done.
Qed.
End downloads.

(** ** Rounds of a worker *)
Section rounds.
Context `{Config_json : ConfigDocuments.JsonLibrary} `{Config_yaml : ConfigDocuments.YamlLibrary}.
Context `{Ssl.TlsLibrary} `{Privileges.Accounts} `{NetworkAccess.InetPton} `{Passwords.Sha256} `{SshKey.OpenSSL}.
Context `{ModuleOps ModuleConfig} {clients : Peers} (what : string).
Abbreviation draws_event := (event (Draws:=AuthManager.draws)).

(** Serving sessions one after another, each with its own event; manager and
    files pass from one to the next. *)
Fixpoint serve (es : list draws_event) (xs : list session) (d : RSyncDaemon) (w : world)
    : RSyncDaemon * list session * world :=
  match es, xs with
  | e :: es, x :: xs =>
      let '(d, x, w) := work_one what e d x w in
      let '(d, xs, w) := serve es xs d w in
      (d, x :: xs, w)
  | _, _ => (d, [], w)
  end.

Definition works_of (i : nat) (es : list draws_event) : list action := map (Work i what) es.

(** What a worker gives back: the active sessions to the list, the others are
    over. *)
Definition give_back (i : nat) (served : list session) (d : RSyncDaemon) (s : system) : system :=
  with_over (filter (λ x, active_ x = false) served) []
    (with_worker i Resting
      (with_daemon (with_sessions (active_sessions_ d ++ filter (λ x, active_ x = true) served) (total_connections_ d) d) s)).

Lemma acts_app l1 l2 y : acts (l1 ++ l2) y = y' ← acts l1 y; acts l2 y'.
Proof. revert y. induction l1 as [|x l1 IH]; intros y; [done|]. cbn. destruct (act x y); [apply IH|done]. Qed.

Lemma acts_work i es xs fin s w :
  workers s !! i = Some (Busy xs fin) → length es = length xs → Forall (λ x, stalls x = false) xs →
  acts (works_of i es) (s, w) =
  let '(d, served, w') := serve es xs (daemon s) w in
  Some (with_worker i (Busy [] (fin ++ served)) (with_daemon d s), w').
Proof.
  revert xs fin s w. induction es as [|e es IH]; intros [|x xs] fin [d ks a b c g ds] w Hi Hl Hf; cbn in Hl; try done.
  - cbn. unfold with_worker, with_daemon. cbn. rewrite app_nil_r, list_insert_id; done.
  - apply Forall_cons in Hf as [Hx Hf]. cbn [works_of map acts act worker_act workers daemon serve] in *.
    rewrite Hi, Hx. destruct (work_one what e d x w) as [[d1 x1] w1]. cbn [mbind option_bind].
    change (map (Work i what) es) with (works_of i es).
    rewrite (IH xs (fin ++ [x1])); [|cbn; apply list_lookup_insert_eq; by eapply lookup_lt_Some|lia|done].
    cbn [daemon with_worker with_daemon]. destruct (serve es xs d1 w1) as [[d2 served] w2].
    unfold with_worker, with_daemon. cbn. by rewrite list_insert_insert_eq, <- app_assoc.
Qed.

Lemma acts_finish i es xs fin s w :
  workers s !! i = Some (Busy xs fin) → length es = length xs → Forall (λ x, stalls x = false) xs →
  acts (works_of i es ++ [Return i]) (s, w) =
  let '(d, served, w') := serve es xs (daemon s) w in Some (give_back i (fin ++ served) d s, w').
Proof.
  intros Hi Hl Hf. rewrite acts_app, (acts_work i es xs fin s w Hi Hl Hf).
  destruct (serve es xs (daemon s) w) as [[d served] w']. cbn [mbind option_bind acts act worker_act].
  cbn [workers with_worker with_daemon]. rewrite list_lookup_insert_eq by by eapply lookup_lt_Some. cbn.
  unfold give_back, with_worker, with_daemon, with_over. cbn. by rewrite list_insert_insert_eq.
Qed.

Lemma serve_length es xs d w : length es = length xs → length (serve es xs d w).1.2 = length xs.
Proof.
  revert xs d w. induction es as [|e es IH]; intros [|x xs] d w Hl; cbn in *; try done.
  destruct (work_one what e d x w) as [[d1 x1] w1]. specialize (IH xs d1 w1 ltac:(lia)).
  destruct (serve es xs d1 w1) as [[d2 served] w2]. cbn in *. by rewrite IH.
Qed.

(** A worker whose clients do not stall it finishes its round, whatever the
    other threads do.  One that holds sessions can serve each of those left and
    give all back, also after a stop; one past the test of its loop can make a
    round, which serves every active session of the list exactly once, in order,
    and puts those still active back at the end; and while the daemon serves, a
    worker at rest passes that test. *)
Theorem worker_progress i s w :
  (∀ xs fin es, workers s !! i = Some (Busy xs fin) → length es = length xs → Forall (λ x, stalls x = false) xs →
     let '(d, served, w') := serve es xs (daemon s) w in
     length served = length xs ∧
     acts (works_of i es ++ [Return i]) (s, w) = Some (give_back i (fin ++ served) d s, w')) ∧
  (workers s !! i = Some Resting → serving (daemon s) = true → act (Enter i) (s, w) = Some (with_worker i Ready s, w)) ∧
  (∀ es, workers s !! i = Some Ready →
     let listed := active_sessions_ (daemon s) in
     let mine := filter (λ x, active_ x = true) listed in
     let d0 := with_sessions (filter (λ x, active_ x = false) listed) (total_connections_ (daemon s)) (daemon s) in
     length es = length mine → Forall (λ x, stalls x = false) mine →
     let '(d, served, w') := serve es mine d0 w in
     acts (Take i :: works_of i es ++ [Return i]) (s, w) = Some (give_back i served d s, w')).
Proof.
  split; [|split].
  - intros xs fin es Hi Hl Hf. pose proof (acts_finish i es xs fin s w Hi Hl Hf) as E.
    pose proof (serve_length es xs (daemon s) w Hl) as L.
    destruct (serve es xs (daemon s) w) as [[d served] w']. done.
  - intros Hi Hs. cbn. by rewrite Hi, Hs.
  - intros es Hi listed mine d0 Hl Hf. cbn [acts act worker_act]. rewrite Hi. cbn [mbind option_bind].
    erewrite acts_finish; [|cbn; apply list_lookup_insert_eq; by eapply lookup_lt_Some|exact Hl|exact Hf].
    cbn [daemon with_worker with_daemon]. fold listed. fold d0. fold mine.
    destruct (serve es mine d0 w) as [[d served] w']. cbn [app].
    unfold give_back, with_over, with_worker, with_daemon. cbn. by rewrite list_insert_insert_eq.
Qed.
End rounds.

(** ** Witnesses *)
#[local] Existing Instances ConfigDocuments.no_json ConfigDocuments.no_yaml Ssl.toy_tls Privileges.toy_accounts
  NetworkAccess.dotted_quad_InetPton Passwords.toy_sha256 SshKey.toy_openssl Daemon.toy_modules Threads.everybody_speaks.

(** A peer that takes nothing of any chunk. *)
Definition deaf : event (Draws:=AuthManager.draws) :=
  MkEvent AuthManager.toy_draws None Ssl.ReadError (λ _, 0).

Lemma download_ends_witness :
  ∃ k, (k ≤ 6)%nat ∧
    transfer_state_ (fst (works "error" (take k (replicate 6 deaf)) toy_sending toy_w)) = IDLE ∧
    snd (works "error" (take k (replicate 6 deaf)) toy_sending toy_w) = toy_w.
Proof.
  apply (download_ends "error" (replicate 6 deaf) toy_sending toy_w).
  - split; vm_compute; reflexivity.
  - vm_compute. lia.
Defined.

(** Two clients are connected; in the round that follows one of them hangs up. *)
Definition greeting : list (event (Draws:=AuthManager.draws)) := [toy_event "LIST data"; deaf].
Definition gathered : list action :=
  [Poll; Accept (visit 8 1000); Enter 0; Take 0; Poll; Accept (visit 9 1001); Work 0 "error" (toy_event "hello");
   Return 0; Enter 0].
Abbreviation gathering := (acts gathered (initial 1 (started toy_configuration), toy_w)).

Lemma worker_progress_witness :
  ∃ s w d served w',
    gathering = Some (s, w) ∧
    acts (Take 0 :: works_of "error" 0 greeting ++ [Return 0]) (s, w) = Some (give_back 0 served d s, w').
Proof.
  assert (match gathering with
          | Some (s, _) => workers s !! 0%nat = Some Ready ∧
              2%nat = length (filter (λ x, active_ x = true) (active_sessions_ (daemon s))) ∧
              Forall (λ x, stalls x = false) (filter (λ x, active_ x = true) (active_sessions_ (daemon s)))
          | None => False end) as Hs by (vm_compute; repeat constructor).
  destruct gathering as [[s w]|]; [|destruct Hs]. destruct Hs as (H1 & H3 & H4).
  pose proof (proj2 (proj2 (worker_progress "error" 0 s w)) greeting H1 H3 H4) as Hp.
  match type of Hp with (let '(_, _) := ?r in _) => destruct r as [[d served] w'] end.
  by exists s, w, d, served, w'.
Defined.
