(* ===== verification/System.v ===== *)
(** * The whole daemon: nothing without a key

    Safety of the running system, from the gate of a session ([Session]), the
    decisions of the authentication manager ([AuthManager], [PublicKeys],
    [SshKey]) and the interleavings of the accept loop and the workers
    ([Threads]): where keys are required, a file changes only after the holder of
    a listed user's key has signed. *)
From S2P Require Import Prelude CppString ConfigTypes FileSys Protocol Session Daemon Threads.
From S2P Require FileSystemModule Ssl AuthManager NetworkAccess PublicKeys Privileges Passwords SshKey ConfigDocuments Config UserDatabase Sessions.
Open Scope Z_scope.

(** ** The sessions of a system *)
Definition has (s : system) (x : session) : Prop :=
  x ∈ active_sessions_ (daemon s) ∨
  (∃ i k, workers s !! i = Some k ∧ (x ∈ todo k ∨ x ∈ finished k)) ∨
  x ∈ gone s ∨ x ∈ discarded s.

(** Replacing a worker. *)
Lemma held_insert (ws : list worker) i k k' x :
  ws !! i = Some k →
  (∃ j y, <[i := k']> ws !! j = Some y ∧ (x ∈ todo y ∨ x ∈ finished y)) ↔
  (x ∈ todo k' ∨ x ∈ finished k') ∨ (∃ j y, j ≠ i ∧ ws !! j = Some y ∧ (x ∈ todo y ∨ x ∈ finished y)).
Proof.
  intros Hi. assert (i < length ws)%nat as Hlt by by eapply lookup_lt_Some. split.
  - intros (j & y & Hj & Hx). destruct (decide (j = i)) as [->|Hne].
    + rewrite list_lookup_insert_eq in Hj by done. injection Hj as <-. by left.
    + rewrite list_lookup_insert_ne in Hj by done. right. by exists j, y.
  - intros [Hx|(j & y & Hne & Hj & Hx)].
    + exists i, k'. by rewrite list_lookup_insert_eq.
    + exists j, y. by rewrite list_lookup_insert_ne.
Qed.

Lemma held_split (ws : list worker) i k x :
  ws !! i = Some k →
  (∃ j y, ws !! j = Some y ∧ (x ∈ todo y ∨ x ∈ finished y)) ↔
  (x ∈ todo k ∨ x ∈ finished k) ∨ (∃ j y, j ≠ i ∧ ws !! j = Some y ∧ (x ∈ todo y ∨ x ∈ finished y)).
Proof. intros Hi. rewrite <- (held_insert ws i k k x Hi). by rewrite list_insert_id. Qed.

Lemma elem_of_active (l : list session) x :
  x ∈ l ↔ x ∈ filter (λ s, active_ s = true) l ∨ x ∈ filter (λ s, active_ s = false) l.
Proof. rewrite !list_elem_of_filter. destruct (active_ x); naive_solver. Qed.

Section system.
Context `{Config_json : ConfigDocuments.JsonLibrary} `{Config_yaml : ConfigDocuments.YamlLibrary}.
Context `{Ssl.TlsLibrary} `{Privileges.Accounts} `{NetworkAccess.InetPton} `{Passwords.Sha256} `{SshKey.OpenSSL}.
Context `{ModuleOps ModuleConfig} {clients : Peers}.

(** A session that has just been accepted. *)
Definition fresh (x : session) : Prop := authenticated_user_ x = "" ∧ at_rest x.

(** The accept loop has let this connection pass, just now or before the handshake. *)
Definition at_door (a : arrival) (s : system) : Prop :=
  fst (check_client a (daemon s)) = true ∨ ∃ ms, acceptor s = Handshaking a ms.
Definition newcomer (s : system) (y : session) : Prop :=
  fresh y ∧ ∃ a, client_address_ y = client_ip a ∧ at_door a s.

(** The session as it was, or destroyed. *)
Definition let_go (x y : session) : Prop :=
  authenticated_user_ y = authenticated_user_ x ∧ client_address_ y = client_address_ x ∧ (at_rest x → at_rest y) ∧
  (upload_file_ y = upload_file_ x ∨ upload_file_ y = None).

Lemma let_go_same x : let_go x x.
Proof. split; [done|]. split; [done|]. split; [done|by left]. Qed.
Lemma let_go_destroy x : let_go x (destroy (close x)).
Proof.
  unfold destroy. pose proof (close_keeps x) as (_ & E1 & _).
  pose proof (close_keeps (endFileTransfer (close x))) as (_ & E2 & _ & E3 & E4 & E5 & _).
  pose proof (close_frame same_client x) as C1. pose proof (close_frame same_client (endFileTransfer (close x))) as C2.
  unfold same_client in C1, C2. unfold let_go, at_rest. rewrite E2, E3, E4, E5, C2. cbn. rewrite E1, C1. naive_solver.
Qed.

(** An action either moves sessions about, perhaps with a fresh one, and destroys
    some, or replaces one session by what a worker makes of it. *)
Inductive moves (s s' : system) : Prop := Moves {
  moves_config : d_config (daemon s') = d_config (daemon s);
  moves_manager : d_auth_manager (daemon s') = d_auth_manager (daemon s);
  moves_keeps x : has s x → ∃ y, has s' y ∧ let_go x y;
  moves_from y : has s' y → newcomer s y ∨ ∃ x, has s x ∧ let_go x y
}.

Inductive serves_one (s : system) (w : world) (s' : system) (w' : world) : Prop := Serves what e x y d (
  serves_work : work_one what e (daemon s) x w = (d, y, w')) (
  serves_config : d_config (daemon s') = d_config d) (
  serves_manager : d_auth_manager (daemon s') = d_auth_manager d) (
  serves_had : has s x) (
  serves_has : has s' y) (
  serves_keeps : ∀ z, has s z → has s' z ∨ z = x) (
  serves_from : ∀ z, has s' z → has s z ∨ z = y).

Lemma moves_same s s' :
  d_config (daemon s') = d_config (daemon s) → d_auth_manager (daemon s') = d_auth_manager (daemon s) →
  (∀ x, has s x ↔ has s' x) → moves s s'.
Proof.
  intros Ec Em Hh. constructor; [done..| |]; intros x Hx.
  - exists x. split; [by apply Hh|apply let_go_same].
  - right. exists x. split; [by apply Hh|apply let_go_same].
Qed.

(** A connection that is settled, whatever the acceptor does next. *)
Lemma settled_moves a s r :
  settled a (daemon s) r → (r.1 = true → at_door a s) → moves s (with_daemon r.2 s).
Proof.
  unfold settled. destruct r as [[] d]; cbn [fst snd]; intros Hs Hd; revert Hs.
  - intros (Ec & Em & _ & _ & _ & ms & ssl & Es). constructor; cbn; [done..| |]; unfold has; cbn; rewrite Es.
    + intros x Hx. exists x. split; [set_solver|apply let_go_same].
    + intros x [[Hx|Hx]%elem_of_app|Hx]; [right; exists x; split; [by left|apply let_go_same]| |right; exists x; split; [by right|apply let_go_same]].
      apply list_elem_of_singleton in Hx as ->. left. split; [by repeat split|]. exists a. split; [done|by apply Hd].
  - intros (Ec & Em & _ & Es & _). apply moves_same; [done..|]. intros x. unfold has. cbn. by rewrite Es.
Qed.

(** Fields that hold no session. *)
Definition same_sessions (s s' : system) : Prop :=
  daemon s' = daemon s ∧ workers s' = workers s ∧ gone s' = gone s ∧ discarded s' = discarded s.
Lemma same_sessions_moves s1 s s' : moves s1 s → same_sessions s s' → moves s1 s'.
Proof.
  intros [Mc Mm Mk Mf] (Ed & Ew & Eg & Ei).
  assert (∀ x, has s' x ↔ has s x) as Eh by (intros x; unfold has; by rewrite Ed, Ew, Eg, Ei).
  constructor; rewrite ?Ed; [done|done|intros x Hx|intros x; rewrite Eh; apply Mf].
  destruct (Mk x Hx) as (y & Hy & Hl). exists y. by rewrite Eh.
Qed.

Lemma moves_refl s : moves s s.
Proof. by apply moves_same. Qed.

Lemma arrive_moves a s b : moves s (arrive a (with_acceptor b s)).
Proof.
  unfold arrive. cbn [daemon with_acceptor]. pose proof (admit_front a (daemon s)) as Hf. assert (fst (check_client a (daemon s)) = true → at_door a s) as Hd by by left.
  destruct (check_client a (daemon s)) as [[] d]; cbn [negb fst snd] in *;
    [|eapply same_sessions_moves; [by apply (settled_moves a s (false, d))|done]].
  destruct (live_context d).
  - eapply same_sessions_moves; [by apply (settled_moves a s (false, d))|done].
  - eapply same_sessions_moves; [apply (settled_moves a s (true, add_session a (modules_ d) None d)); [by apply add_joins|exact Hd]|done].
Qed.

Lemma acceptor_moves x s s' : acceptor_act x s = Some s' → moves s s'.
Proof.
  unfold acceptor_act. destruct x; try done; destruct (acceptor s) as [| |a' ms|] eqn:Ea; try done.
  - destruct (serving _); [|done]. intros [= <-]. eapply same_sessions_moves; [apply moves_refl|done].
  - intros [= <-]. by apply arrive_moves.
  - intros [= <-]. eapply same_sessions_moves; [apply moves_refl|done].
  - destruct (silent _); [done|]. intros [= <-]. 
    apply (same_sessions_moves s (with_daemon (snd (handshake a' ms (daemon s))) s)); [|done].
    apply (settled_moves a' s (handshake a' ms (daemon s)));
      [apply (handshake_settled a' ms _ _ (reflexivity _))|intros _; right; by exists ms].
  - destruct (serving _); [done|]. intros [= <-]. eapply same_sessions_moves; [apply moves_refl|done].
Qed.

Lemma worker_moves x s w s' w' :
  worker_act x s w = Some (s', w') → (moves s s' ∧ w' = w) ∨ serves_one s w s' w'.
Proof.
  unfold worker_act. destruct x as [| | | | |i|i|i what e|i|i| | |]; try done.
  - destruct (workers s !! i) as [[| | |]|] eqn:Ei; try done. destruct (serving (daemon s)); [|done]. intros [= <- <-].
    left. split; [|done]. apply moves_same; [done..|]. intros x. unfold has. cbn.
    rewrite (held_insert _ _ _ _ _ Ei), (held_split _ _ _ _ Ei); cbn. set_solver.
  - destruct (workers s !! i) as [[| | |]|] eqn:Ei; try done. intros [= <- <-].
    left. split; [|done]. apply moves_same; [done..|]. intros x. unfold has. cbn.
    rewrite (held_insert _ _ _ _ _ Ei), (held_split _ _ _ _ Ei); cbn.
    rewrite (elem_of_active (active_sessions_ (daemon s)) x); set_solver.
  - destruct (workers s !! i) as [[| |[|x rest] fin|]|] eqn:Ei; try done. destruct (stalls x); [done|].
    pose proof (work_one_keeps what e (daemon s) x w) as (_ & Es & _).
    destruct (work_one what e (daemon s) x w) as [[d y] w1] eqn:Ew. intros [= <- <-]. cbn in Es. right.
    apply (Serves _ _ _ _ what e x y d Ew); [done..| | | |];
      unfold has; cbn; try intros z; rewrite ?Es, ?(held_insert _ _ _ _ _ Ei), ?(held_split _ _ _ _ Ei); cbn; set_solver.
  - destruct (workers s !! i) as [[| |[|? ?] fin|]|] eqn:Ei; try done. intros [= <- <-].
    left. split; [|done]. apply moves_same; [done..|]. intros x. unfold has. cbn.
    rewrite (held_insert _ _ _ _ _ Ei), (held_split _ _ _ _ Ei); cbn. rewrite (elem_of_active fin x); set_solver.
  - destruct (workers s !! i) as [[| | |]|] eqn:Ei; try done. destruct (serving (daemon s)); [done|]. intros [= <- <-].
    left. split; [|done]. apply moves_same; [done..|]. intros x. unfold has. cbn.
    rewrite (held_insert _ _ _ _ _ Ei), (held_split _ _ _ _ Ei); cbn. set_solver.
Qed.
Lemma caller_moves x s s' : caller_act x s = Some s' → moves s s'.
Proof.
  unfold caller_act. destruct x; try done; destruct (caller s) as [| | |i|]; try done.
  - destruct (running_ _); [|done]. intros [= <-]. destruct (request_front (daemon s)) as [Es _].
    apply moves_same; [cbn; unfold request_stop; by destruct (_ >=? 0)..|]. intros x. unfold has. cbn. by rewrite Es.
  - destruct (acceptor s); try done. intros [= <-]. eapply same_sessions_moves; [apply moves_refl|done].
  - destruct (monitoring s); [done|]. intros [= <-]. eapply same_sessions_moves; [apply moves_refl|done].
  - destruct (workers s !! i) as [[]|]; try done; intros [= <-];
      [eapply same_sessions_moves; [apply moves_refl|done]|].
    constructor; [done..| |]; intros x; unfold has; cbn; rewrite app_nil_r.
    + intros [Hx|Hx]; [|exists x; split; [set_solver|apply let_go_same]].
      exists (destroy (close x)). split; [|apply let_go_destroy]. right. right. right. apply elem_of_app. right.
      by do 2 apply list_elem_of_fmap_2.
    + intros [Hx|Hx]; [by apply elem_of_nil in Hx|]. right.
      destruct Hx as [Hx|[Hx|[Hx|Hd]%elem_of_app]]; [exists x; split; [by (right; left)|apply let_go_same]|exists x; split; [by (right; right; left)|apply let_go_same]|
        exists x; split; [by (right; right; right)|apply let_go_same]|].
      apply list_elem_of_fmap in Hd as (y & -> & (z & -> & Hz)%list_elem_of_fmap).
      exists z. split; [by left|apply let_go_destroy].
Qed.

Lemma act_cases x s w s' w' :
  act x (s, w) = Some (s', w') → (moves s s' ∧ w' = w) ∨ serves_one s w s' w'.
Proof.
  destruct x; cbn [act];
    try (match goal with |- (?m ≫= _) = _ → _ => destruct m as [s1|] eqn:E; [|done] end; cbn; intros [= <- <-]; left;
         split; [|done]); try (by eapply acceptor_moves); try (by eapply caller_moves); try apply worker_moves.
  unfold monitor_act in E. destruct (_ && _); [|done]. injection E as <-. by apply (same_sessions_moves s s); [apply moves_refl|].
Qed.

(** ** Where keys are required *)
Section keys.
Context (c : Configuration) (keys : option PublicKeys.PublicKeyDatabase) (Hc : requires_key (Some c)).

(** A manager with this configuration and these keys. *)
Definition keeper (m : AuthManager.AuthenticationManager) : Prop :=
  AuthManager.config_ m = auth c ∧ AuthManager.public_key_database_ m = keys.

(** A user whom the lists let pass, and of whose key there has been a signature. *)
Definition admitted (user : string) : Prop :=
  AuthManager.passes_lists (auth c) user ∧
  ∃ db data signature, keys = Some db ∧ PublicKeys.verifySignature user data signature db = true.

Lemma keeper_step e user challenge signature m :
  keeper m →
  keeper (snd (AuthManager.authenticateUserWithKey e user challenge signature m)) ∧
  (fst (AuthManager.authenticateUserWithKey e user challenge signature m) = true → admitted user).
Proof.
  intros Hk. destruct Hk as [Ec Ek] eqn:Eq. clear Eq. destruct Hc as (c' & [= <-] & Hen & Hm).
  unfold AuthManager.authenticateUserWithKey, AuthManager.authenticateWithKey. rewrite Ec, Hen, Hm, String.eqb_refl.
  cbn [negb]. apply (AuthManager.lists_cases (auth c) user); intros Hl; [cbn; naive_solver|].
  destruct (AuthManager.public_key_database_ m) as [db|] eqn:Edb; [|done].
  destruct (PublicKeys.verifySignature user challenge signature db) eqn:Ev; [|done].
  unfold AuthManager.open_session. destruct (Sessions.createSession _ _ _ _ _ _) as [id sm]. cbn.
  split; [split; cbn; congruence|]. intros _. split; [done|]. exists db, challenge, signature. split; [congruence|done].
Qed.

Definition session_ok (x : session) : Prop := fresh x ∨ authenticated_user_ x ≠ "" ∧ admitted (authenticated_user_ x).

(** One turn of a worker with a session that is as it should be. *)
Lemma work_one_ok what e d x w :
  d_config d = Some c → (∀ m, d_auth_manager d = Some m → keeper m) → session_ok x →
  let '(d', y, w') := work_one what e d x w in
  d_config d' = Some c ∧ (∀ m, d_auth_manager d' = Some m → keeper m) ∧ session_ok y ∧
  (authenticated_user_ x ≠ "" → authenticated_user_ y ≠ "") ∧
  (w' = w ∨ authenticated_user_ x ≠ "").
Proof.
  intros Ec Hm Hx. unfold work_one. destruct (active_ x);
    [|split; [done|]; split; [done|]; split; [done|]; split; [done|by left]].
  set (x1 := lend d x). assert (requires_key (Session.config_ x1)) as Hr by (cbn; by rewrite Ec).
  destruct (@work_advances ModuleConfig _ _ _ manager_authenticator what keeper admitted keeper_step e x1 w) as (E1 & E2 & E3).
  assert (sound keeper admitted x1) as Hs.
  { split; [exact Hm|]. cbn. destruct Hx as [[Hu _]|[_ Hu]]; [by left|by right]. }
  destruct (E3 Hr Hs) as [Hm' Hu'].
  assert (authenticated_user_ x = "" → at_rest x) as Hrest by (destruct Hx as [[? ?]|[? _]]; [done|done]).
  assert (authenticated_user_ x = "" → (authenticated_user_ (fst (work what e x1 w)) = "" → at_rest (fst (work what e x1 w))) ∧
    snd (work what e x1 w) = w) as Hgate.
  { intros Hu. destruct (gated_step what e x1 w Hr (Hrest Hu) Hu) as ((_ & ? & _) & ?). done. }
  destruct (work what e x1 w) as [y w']. cbn [fst snd] in *.
  split; [done|]. split; [exact Hm'|]. split.
  - destruct (decide (authenticated_user_ y = "")) as [Hy|Hy].
    + left. split; [done|]. apply Hgate; [|done]. by apply E2.
    + right. split; [done|]. by destruct Hu'.
  - split; [intros Hne Hy; by apply Hne, E2|].
    destruct (decide (authenticated_user_ x = "")) as [Hu|Hu]; [left; by apply Hgate|by right].
Qed.

Record guarded (w0 : world) (s : system) (w : world) : Prop := {
  guarded_config : d_config (daemon s) = Some c;
  guarded_manager m : d_auth_manager (daemon s) = Some m → keeper m;
  guarded_sessions x : has s x → session_ok x;
  guarded_world : w = w0 ∨ ∃ x, has s x ∧ authenticated_user_ x ≠ ""
}.

Lemma guarded_act w0 a s w s' w' : guarded w0 s w → act a (s, w) = Some (s', w') → guarded w0 s' w'.
Proof.
  intros [Gc Gm Gs Gw] [[[Mc Mm Mk Mf] ->]|[what e x y d Ew Ed Em Hx Hy Hk Hf]]%act_cases.
  - constructor; [congruence|by rewrite Mm| |].
    + intros y [[Hy _]|(x & Hx & Eu & _ & Er & _)]%Mf; [by left|]. unfold session_ok, fresh. rewrite Eu.
      destruct (Gs x Hx) as [[? ?]|[? ?]]; [left; auto|by right].
    + destruct Gw as [->|(x & Hx & Hu)]; [by left|]. destruct (Mk x Hx) as (y & Hy & Eu & _).
      right. exists y. by rewrite Eu.
  - pose proof (work_one_ok what e (daemon s) x w Gc Gm (Gs _ Hx)) as Hw. rewrite Ew in Hw.
    destruct Hw as (Wc & Wm & Wy & Wu & Ww). constructor; [congruence|by rewrite Em| |].
    + intros z [Hz| ->]%Hf; [by apply Gs|done].
    + destruct Ww as [->|Hu]; [|right; exists y; auto].
      destruct Gw as [->|(z & Hz & Hu)]; [by left|]. right. destruct (Hk z Hz) as [?| ->]; [by exists z|exists y; auto].
Qed.
End keys.

(** C1: Nothing without a key.  Where public keys are required, under every
    interleaving of arriving clients, the accept loop and any number of workers,
    whatever the clients send: a session either has authenticated nobody, and
    then transfers nothing, or belongs to a user whom the allow and deny lists
    let pass and one of whose keys has verified a signature; and as long as
    there is no session of the second kind, no file has changed. *)
Theorem nothing_without_a_key c keys n d l w s w' :
  requires_key (Some c) → d_config d = Some c → (∀ m, d_auth_manager d = Some m → keeper c keys m) →
  active_sessions_ d = [] →
  acts l (initial n d, w) = Some (s, w') →
  (∀ x, has s x → session_ok c keys x) ∧
  (w' = w ∨ ∃ x, has s x ∧ authenticated_user_ x ≠ "" ∧ admitted c keys (authenticated_user_ x)).
Proof.
  intros Hc Ec Hm Ha E. assert (guarded c keys w (initial n d) w) as Hg.
  { constructor; [done|done| |by left]. intros x. unfold has. cbn. rewrite Ha.
    intros [?%elem_of_nil|[(i & k & [-> _]%lookup_replicate & [?%elem_of_nil|?%elem_of_nil])|[?%elem_of_nil|?%elem_of_nil]]]; done. }
  assert (guarded c keys w s w') as [_ _ Gs Gw].
  { revert Hg E. generalize (initial n d), w at 2 3. induction l as [|a l IH]; intros s0 w0 Hg; cbn [acts].
    - by intros [= <- <-].
    - destruct (act a (s0, w0)) as [[s1 w1]|] eqn:Ea; cbn; [|done]. apply IH. by eapply guarded_act. }
  split; [exact Gs|]. destruct Gw as [->|(x & Hx & Hu)]; [by left|]. right. exists x. split; [done|].
  destruct (Gs x Hx) as [[? _]|?]; [done|done].
Qed.
End system.

(** ** Witness: a deletion without a key, and with one *)
#[local] Existing Instances ConfigDocuments.no_json ConfigDocuments.no_yaml Ssl.toy_tls Privileges.toy_accounts
  NetworkAccess.dotted_quad_InetPton Passwords.toy_sha256 Daemon.toy_modules Threads.everybody_speaks.

(** The OpenSSL of the other witnesses, with a name for a key and for a
    signature of ["hi"], which a request cannot carry as they are. *)
#[local] Instance named_openssl : SshKey.OpenSSL := {|
  SshKey.EVP_PKEY := string;
  SshKey.base64Decode s :=
    if String.eqb s "KEY" then SshKey.toy_key else if String.eqb s "SIG" then SshKey.toy_envelope else s;
  SshKey.base64Encode s := s;
  SshKey.SHA256 s := s;
  SshKey.SHA512 s := s;
  SshKey.rsa_key _ _ := None;
  SshKey.ed25519_key := Some;
  SshKey.ec_key _ q := Some q;
  SshKey.digest_verify k _ msg raw := String.eqb raw (k +:+ msg)
|}.

Definition key_disk : UserDatabase.disk := {["keys" := "alice: ssh-ed25519 KEY"]}.
Definition key_configuration : Configuration := set_auth AuthManager.toy_key_config toy_configuration.
Definition key_daemon : RSyncDaemon :=
  snd (start network_up toy_w (new_daemon (Some key_configuration) key_disk root_process)).
Definition key_database : option PublicKeys.PublicKeyDatabase :=
  AuthManager.public_key_database_ (AuthManager.new_manager AuthManager.toy_key_config key_disk).

(** One client sends these requests, one per round. *)
Definition client (requests : list string) : list action :=
  Poll :: Accept (visit 8 1000) :: concat ((λ r, [Enter 0; Take 0; Work 0 "error" (toy_event r); Return 0]) <$> requests).
Definition file_after (requests : list string) : option node :=
  match acts (client requests) (initial 1 key_daemon, toy_w) with
  | Some (_, w) => nodes w !! ["srv"; "data"; "a.txt"]
  | None => None
  end.

Definition key_running : Configuration := default new_configuration (d_config key_daemon).

Lemma key_daemon_ok :
  requires_key (Some key_running) ∧ d_config key_daemon = Some key_running ∧ active_sessions_ key_daemon = [] ∧
  ∀ m, d_auth_manager key_daemon = Some m → keeper key_running key_database m.
Proof.
  assert (bool_decide (d_config key_daemon ≠ None) && auth_enabled (auth key_running) &&
    String.eqb (method (auth key_running)) "public_key" = true) as Hb by (vm_compute; reflexivity).
  apply andb_true_iff in Hb as [[Hs He]%andb_true_iff Hm%String.eqb_eq]. apply bool_decide_eq_true in Hs.
  split; [exists key_running; exact (conj eq_refl (conj He Hm))|]. split.
  { unfold key_running. destruct (d_config key_daemon); [reflexivity|by destruct Hs]. }
  split; [vm_compute; reflexivity|]. intros m Hk.
  assert (AuthManager.config_ <$> d_auth_manager key_daemon = Some (auth key_running)) as E1 by (vm_compute; reflexivity).
  assert (AuthManager.public_key_database_ <$> d_auth_manager key_daemon = Some key_database) as E2 by (vm_compute; reflexivity).
  rewrite Hk in E1, E2. change (Some (AuthManager.config_ m) = Some (auth key_running)) in E1.
  change (Some (AuthManager.public_key_database_ m) = Some key_database) in E2.
  split; [exact (inj Some _ _ E1)|exact (inj Some _ _ E2)].
Qed.

Lemma nothing_without_a_key_witness :
  (∀ s w', acts (client ["DELETE data a.txt"]) (initial 1 key_daemon, toy_w) = Some (s, w') →
     ∀ x, has s x → session_ok key_running key_database x) ∧
  file_after ["DELETE data a.txt"] = Some (File "hello") ∧
  file_after ["AUTH alice hi signature=SIG"; "DELETE data a.txt"] = None.
Proof.
  split; [|split; vm_compute; reflexivity]. intros s w' E. destruct key_daemon_ok as (H1 & H2 & H3 & H4).
  exact (proj1 (nothing_without_a_key key_running key_database 1 key_daemon (client ["DELETE data a.txt"])
    toy_w s w' H1 H2 H4 H3 E)).
Defined.
