(* ===== verification/Admission.v ===== *)
(** * The door: who is let in, whatever the schedule

    The access lists and the rate limiter hold for the running daemon: for every
    session that exists under any interleaving of the threads of [Threads], and
    for every span of time, however the arrivals mix with the work on sessions. *)
From S2P Require Import Prelude CppString ConfigTypes FileSys Protocol Session Daemon Threads System.
From S2P Require RateLimiter NetworkAccess Ssl AuthManager Privileges Passwords SshKey ConfigDocuments Config FileSystemModule.
Open Scope Z_scope.

Section admission.
Context `{Config_json : ConfigDocuments.JsonLibrary} `{Config_yaml : ConfigDocuments.YamlLibrary}.
Context `{Ssl.TlsLibrary} `{Privileges.Accounts} `{NetworkAccess.InetPton} `{Passwords.Sha256} `{SshKey.OpenSSL}.
Context `{ModuleOps ModuleConfig} {clients : Peers}.

(** ** The access lists *)
Definition listed_client (c : Configuration) (ip : string) : Prop :=
  NetworkAccess.isAllowed ip (denied_hosts (access c)) (denied_networks (access c)) (allowed_hosts (access c))
    (allowed_networks (access c)) = true.

Lemma admit_access a d c d' :
  d_config d = Some c → access_enabled (access c) = true → check_client a d = (true, d') → listed_client c (client_ip a).
Proof.
  intros Ec He. unfold check_client. destruct (checkAccess (client_ip a) d) as [ok d1] eqn:E1.
  destruct (access_step _ _ _ _ _ Ec E1) as (_ & _ & Hacc). destruct ok; cbn [negb]; [|done]. intros _. by apply Hacc.
Qed.

(** Where the connection in the handshake, and a session, come from. *)
Record doorway (c : Configuration) (s : system) : Prop := {
  door_config : d_config (daemon s) = Some c;
  door_handshake a ms : acceptor s = Handshaking a ms → listed_client c (client_ip a);
  door_sessions x : has s x → listed_client c (client_address_ x)
}.

Lemma work_one_client what e d x w : client_address_ (work_one what e d x w).1.2 = client_address_ x.
Proof.
  unfold work_one. destruct (active_ x); [|done].
  pose proof (work_frame (A:=AuthManager.AuthenticationManager) what same_client e (lend d x) w) as Hw.
  unfold same_client in Hw. by destruct (work what e (lend d x) w).
Qed.

(** A handshake begins only with a connection that has passed. *)
Lemma handshake_from x s w s' w' a ms :
  act x (s, w) = Some (s', w') → acceptor s' = Handshaking a ms → at_door a s.
Proof.
  intros E Ea. destruct x; cbn [act] in E;
    try (match type of E with (?m ≫= _) = _ => destruct m as [s1|] eqn:E1; [|done] end; cbn in E; injection E as <- <-).
  1-5: unfold acceptor_act in E1; destruct (acceptor s) as [| |a1 ms1|] eqn:Es; try done.
  - destruct (serving _); [|done]. by injection E1 as <-.
  - injection E1 as <-. revert Ea. unfold arrive, at_door. cbn [daemon with_acceptor].
    destruct (check_client a0 (daemon s)) as [[] d] eqn:Ead; cbn [negb]; [|done].
    destruct (live_context d); cbn; [intros [= -> _]; left; by rewrite Ead|done].
  - injection E1 as <-. by destruct transient.
  - destruct (silent _); [done|]. by injection E1 as <-.
  - destruct (serving _); [done|]. by injection E1 as <-.
  - apply worker_local in E as (_ & E & _). right. exists ms. congruence.
  - apply worker_local in E as (_ & E & _). right. exists ms. congruence.
  - apply worker_local in E as (_ & E & _). right. exists ms. congruence.
  - apply worker_local in E as (_ & E & _). right. exists ms. congruence.
  - apply worker_local in E as (_ & E & _). right. exists ms. congruence.
  - unfold monitor_act in E1. destruct (_ && _); [|done]. injection E1 as <-. right. by exists ms.
  - right. exists ms. unfold caller_act in E1. destruct (caller s); try done. destruct (running_ _); [|done].
    by injection E1 as <-.
  - right. exists ms. rewrite <- Ea. unfold caller_act in E1. destruct (caller s); try done; repeat case_match; try done;
      by injection E1 as <-.
Qed.

Lemma doorway_act c x s w s' w' :
  access_enabled (access c) = true → doorway c s → act x (s, w) = Some (s', w') → doorway c s'.
Proof.
  intros He [Dc Dh Ds] E.
  assert (∀ a, at_door a s → listed_client c (client_ip a)) as Hdoor.
  { intros a [Ha|(ms & Ha)]; [|by eapply Dh]. destruct (check_client a (daemon s)) as [ok d1] eqn:Ea. cbn in Ha. subst ok.
    by eapply admit_access. }
  assert (∀ a ms, acceptor s' = Handshaking a ms → listed_client c (client_ip a)) as Hh
    by (intros a ms Ha; eapply Hdoor, handshake_from; eauto).
  destruct (act_cases x s w s' w' E) as [[[Mc _ _ Mf] _]|[what e y z d Ew Ec _ Hy Hz _ Hf]].
  - constructor; [congruence|done|]. intros y [[_ (a & -> & Ha)]|(x1 & Hx1 & _ & -> & _)]%Mf; [by apply Hdoor|by apply Ds].
  - pose proof (work_one_client what e (daemon s) y w) as Hcl.
    assert (d_config d = d_config (daemon s)) as Ed
      by (unfold work_one in Ew; destruct (active_ y); [destruct (work _ _ _ _)|]; by injection Ew as <- _ _).
    rewrite Ew in Hcl. cbn in Hcl. constructor; [congruence|done|].
    intros q [Hq| ->]%Hf; [by apply Ds|]. rewrite Hcl. by apply Ds.
Qed.

(** C6: Only clients the access lists allow.  Where access control is enabled,
    under every interleaving of arrivals, handshakes, workers and [stop], each
    session that exists, in the list, with a worker, or destroyed, belongs to a
    client whose address the lists allow; so does the connection in a handshake. *)
Theorem clients_are_allowed c n d l w s w' :
  d_config d = Some c → access_enabled (access c) = true → active_sessions_ d = [] →
  acts l (initial n d, w) = Some (s, w') →
  (∀ x, has s x → listed_client c (client_address_ x)) ∧
  (∀ a ms, acceptor s = Handshaking a ms → listed_client c (client_ip a)).
Proof.
  intros Ec He Ha E. assert (doorway c s) as [_ Dh Ds]; [|done].
  apply (acts_invariant (λ s _, doorway c s) l (initial n d) w s w'); [| |done].
  - intros x s0 w0 s1 w1. by apply doorway_act.
  - constructor; [done|done|]. intros x. unfold has. cbn. rewrite Ha.
    intros [?%elem_of_nil|[(i & k & [-> _]%lookup_replicate & [?%elem_of_nil|?%elem_of_nil])|[?%elem_of_nil|?%elem_of_nil]]]; done.
Qed.
(** ** The rate limit *)
Definition attempt_of (a : arrival) : RateLimiter.attempt :=
  RateLimiter.Attempt (client_ip a) (asked a) (recorded a) (recorded_hour a).

(** The connections that arrive in a schedule, and those that are let pass
    (newest first, before [past]). *)
Fixpoint arrivals (l : list action) : list RateLimiter.attempt :=
  match l with
  | [] => []
  | Accept a :: l => attempt_of a :: arrivals l
  | _ :: l => arrivals l
  end.
Fixpoint passed (l : list action) (y : system * world) (past : list RateLimiter.attempt) : list RateLimiter.attempt :=
  match l with
  | [] => past
  | x :: l =>
      match act x y with
      | Some y' =>
          passed l y' (match x with
                       | Accept a => if fst (check_client a (daemon y.1)) then attempt_of a :: past else past
                       | _ => past
                       end)
      | None => past
      end
  end.

Lemma limiter_later r h last now : RateLimiter.limiter_inv r h last → last ≤ now → RateLimiter.limiter_inv r h now.
Proof. intros [Hm Hh] Hn. constructor; intros Hp; eapply RateLimiter.windows_inv_later; eauto. Qed.

(** The limiter of a daemon, counting exactly [h]. *)
Definition counts (d : RSyncDaemon) (r0 : RateLimiter.ConnectionRateLimiter) (h : list RateLimiter.attempt) (last : Z) : Prop :=
  ∃ r, limited d = Some r ∧ RateLimiter.same_limits r0 r ∧ RateLimiter.limiter_inv r h last.

Lemma access_limited ip d : limited (snd (checkAccess ip d)) = limited d.
Proof. unfold checkAccess. by repeat case_match. Qed.

Lemma limited_with r d r0 : limited d = Some r0 → limited (with_limiter (Some r) d) = Some r.
Proof. unfold limited. cbn. destruct (d_config d) as [c|]; [|done]. by destruct (rate_enabled _). Qed.

Lemma admit_counts a d r0 h last :
  RateLimiter.limits_ok r0 → last ≤ asked a ≤ recorded a → recorded a ≤ recorded_hour a → 0 < asked a → counts d r0 h last →
  counts (snd (check_client a d)) r0 (if fst (check_client a d) then attempt_of a :: h else h) (recorded_hour a).
Proof.
  intros Hok Ht Ht' Hp (r & Er & Hsame & Hinv). unfold check_client. pose proof (access_limited (client_ip a) d) as El.
  destruct (checkAccess (client_ip a) d) as [ok d1]. cbn [snd] in El. rewrite Er in El.
  destruct ok; cbn [negb fst snd]; [|exists r; split; [done|]; split; [done|]; eapply limiter_later; [done|lia]].
  destruct (checkRateLimit (asked a) (client_ip a) d1) as [ok d2] eqn:E2.
  destruct (rate_step _ _ _ _ _ E2) as (_ & Hlim). destruct (Hlim r El) as (r1 & El2 & Eallow).
  assert (RateLimiter.limits_ok r) as Hok' by (destruct Hsame as [S1 S2]; unfold RateLimiter.limits_ok in *; by rewrite S1, S2).
  destruct (RateLimiter.allowConnection_inv _ _ _ _ _ _ _ Hok' (proj1 Ht) Hp Hinv Eallow) as ([S1 S2] & Hinv1 & Hroom).
  assert (RateLimiter.same_limits r0 r1) as Hsame1 by (destruct Hsame; split; congruence).
  destruct ok; cbn [negb fst snd]; [|exists r1; split; [done|]; split; [done|]; eapply limiter_later; [done|lia]].
  destruct (full d2); cbn [fst snd]; [exists r1; split; [done|]; split; [done|]; eapply limiter_later; [done|lia]|].
  destruct (Hroom eq_refl) as [Hm Hh]. rewrite <- S1 in Hm. rewrite <- S2 in Hh.
  assert (RateLimiter.limits_ok r1) as Hok1 by (unfold RateLimiter.limits_ok in *; by rewrite S1, S2).
  destruct (RateLimiter.recordConnection_inv (attempt_of a) r1 h (asked a) Hok1) as ([S3 S4] & Hinv2);
    [cbn; lia|cbn; lia|cbn; lia|done|done|done|].
  exists (RateLimiter.recordConnection (recorded a) (recorded_hour a) (client_ip a) r1).
  split; [unfold updateRateLimit; rewrite El2; by eapply limited_with|].
  split; [|exact Hinv2]. destruct Hsame1. cbn in S3, S4. split; congruence.
Qed.

(** Only arrivals concern the limiter. *)
Lemma act_limited x s w s' w' :
  (∀ a, x ≠ Accept a) → act x (s, w) = Some (s', w') → limited (daemon s') = limited (daemon s).
Proof.
  intros Hx E. destruct x as [|a| | | |i|i|i what e|i|i| | |]; [|by destruct (Hx a)|..]; cbn [act] in E;
    try (match type of E with (?m ≫= _) = _ => destruct m as [s1|] eqn:E1; [|done] end; cbn in E; injection E as <- <-).
  - unfold acceptor_act in E1. destruct (acceptor s); try done. destruct (serving _); [|done]. by injection E1 as <-.
  - unfold acceptor_act in E1. destruct (acceptor s); try done. by injection E1 as <-.
  - unfold acceptor_act in E1. destruct (acceptor s) as [| |a ms|]; try done. destruct (silent _); [done|].
    injection E1 as <-. cbn. unfold handshake. destruct (ssl_context_ (daemon s)); [|done].
    by destruct (Ssl.acceptConnection _ _ _ _ _) as [[]].
  - unfold acceptor_act in E1. destruct (acceptor s); try done. destruct (serving _); [done|]. by injection E1 as <-.
  - cbn in E. destruct (workers s !! i) as [[]|]; try done. destruct (serving _); [|done]. by injection E as <- <-.
  - cbn in E. destruct (workers s !! i) as [[]|]; try done. by injection E as <- <-.
  - cbn in E. destruct (workers s !! i) as [[| |[|y ys] fs|]|]; try done. destruct (stalls y); [done|].
    assert (limited (work_one what e (daemon s) y w).1.1 = limited (daemon s)) as Ew
      by (unfold work_one; destruct (active_ y); [|done]; by destruct (work _ _ _ _)).
    destruct (work_one _ _ _ _ _) as [[d z] w1]. by injection E as <- <-.
  - cbn in E. destruct (workers s !! i) as [[| |[|]|]|]; try done. by injection E as <- <-.
  - cbn in E. destruct (workers s !! i) as [[]|]; try done. destruct (serving _); [done|]. by injection E as <- <-.
  - unfold monitor_act in E1. destruct (_ && _); [|done]. by injection E1 as <-.
  - unfold caller_act in E1. destruct (caller s); try done. destruct (running_ _); [|done]. injection E1 as <-.
    cbn. unfold request_stop. by destruct (_ >=? 0).
  - unfold caller_act in E1. destruct (caller s); try done; repeat case_match; try done; by injection E1 as <-.
Qed.

Lemma arrive_counts a s r0 h last :
  counts (snd (check_client a (daemon s))) r0 h last → counts (daemon (arrive a s)) r0 h last.
Proof.
  intros Hc. unfold arrive. destruct (check_client a (daemon s)) as [[] d]; cbn [negb snd] in *; [|done].
  by destruct (live_context d).
Qed.

Lemma act_counts x s w s' w' r0 h last :
  (∀ a, x ≠ Accept a) → act x (s, w) = Some (s', w') → counts (daemon s) r0 h last → counts (daemon s') r0 h last.
Proof. intros Hx E (r & Er & Hr). exists r. split; [|done]. rewrite <- Er. by eapply act_limited. Qed.

Lemma passed_counts r0 l : RateLimiter.limits_ok r0 → ∀ s w h last,
  0 < last → RateLimiter.well_timed last (arrivals l) → counts (daemon s) r0 h last →
  ∃ r last', RateLimiter.same_limits r0 r ∧ RateLimiter.limiter_inv r (passed l (s, w) h) last'.
Proof.
  intros Hok. induction l as [|x l IH]; intros s w h last Hp Ht Hc; cbn [passed].
  { destruct Hc as (r & _ & Hs & Hi). by exists r, last. }
  destruct (act x (s, w)) as [[s1 w1]|] eqn:E; [|destruct Hc as (r & _ & Hs & Hi); by exists r, last].
  destruct x as [|a| | | | | | | | | | |]; cbn [arrivals] in Ht;
    [apply (IH s1 w1 h last Hp Ht); eapply act_counts; [|exact E|exact Hc]; done| |apply (IH s1 w1 h last Hp Ht); eapply act_counts; [|exact E|exact Hc]; done..].
  destruct Ht as (Ht & Ht' & Hw). cbn in Ht, Ht', Hw. apply (IH s1 w1 _ (recorded_hour a)); [lia|done|].
  cbn in E. destruct (acceptor s); try done. injection E as <- <-.
  apply arrive_counts. cbn [fst daemon with_acceptor]. by apply (admit_counts a (daemon s) r0 h last Hok Ht Ht' ltac:(lia)).
Qed.

(** C9: The rate limit of the running daemon.  In every schedule whose clock never
    goes back, at most twice the minute limit of connections of one client is let
    in within any 60 seconds, and at most twice the hour limit within any hour,
    however many workers run and whatever the sessions do. *)
Theorem rate_bounded per_minute per_hour n d l w ip from :
  0 ≤ per_minute < 2 ^ 64 → 0 ≤ per_hour < 2 ^ 64 →
  limited d = Some (RateLimiter.new_limiter per_minute per_hour) →
  RateLimiter.well_timed 1 (arrivals l) →
  let past := passed l (initial n d, w) [] in
  (0 < per_minute → RateLimiter.admitted ip from (from + RateLimiter.minute_period) past ≤ 2 * per_minute) ∧
  (0 < per_hour → RateLimiter.admitted ip from (from + RateLimiter.hour_period) (map RateLimiter.by_hour past) ≤ 2 * per_hour).
Proof.
  intros Hm Hh Hl Ht past. set (r0 := RateLimiter.new_limiter per_minute per_hour) in *.
  assert (RateLimiter.limits_ok r0) as Hok by done.
  destruct (passed_counts r0 l Hok (initial n d) w [] 1) as (r & last & [E1 E2] & [I1 I2]); [lia|done| |].
  - exists r0. split; [exact Hl|]. split; [done|]. apply (limiter_later _ _ 0); [|lia]. by apply RateLimiter.new_limiter_inv.
  - cbn in E1, E2. rewrite E1 in I1. rewrite E2 in I2.
    split; intros H'; [apply (RateLimiter.wi_span _ _ _ _ _ _ (I1 H' ip))|apply (RateLimiter.wi_span _ _ _ _ _ _ (I2 H' ip))].
Qed.
End admission.

(** ** Witnesses *)
#[local] Existing Instances ConfigDocuments.no_json ConfigDocuments.no_yaml Ssl.toy_tls Privileges.toy_accounts
  NetworkAccess.dotted_quad_InetPton Passwords.toy_sha256 SshKey.toy_openssl Daemon.toy_modules
  Threads.everybody_speaks.

(** The access lists of a new configuration. *)
Definition door_configuration : Configuration := set_access (access new_configuration) toy_configuration.
Definition toy_running : RSyncDaemon := with_sessions [] 0 (started door_configuration).

(** A client from outside the networks of the configuration, and one from inside. *)
Definition stranger : arrival := MkArrival 7 "192.0.2.1" 500 500 500 true true true.
Definition callers : list action := [Poll; Accept stranger; Poll; Accept (visit 8 1000)].

Lemma clients_are_allowed_witness :
  ∃ s w, acts callers (initial 1 toy_running, toy_w) = Some (s, w) ∧
    client_address_ <$> active_sessions_ (daemon s) = ["10.0.0.7"] ∧
    (∀ x, has s x → listed_client (default door_configuration (d_config toy_running)) (client_address_ x)) ∧
    NetworkAccess.isAllowed (client_ip stranger) (denied_hosts (access door_configuration))
      (denied_networks (access door_configuration)) (allowed_hosts (access door_configuration))
      (allowed_networks (access door_configuration)) = false.
Proof.
  assert (match acts callers (initial 1 toy_running, toy_w) with
          | Some (s, _) => client_address_ <$> active_sessions_ (daemon s) = ["10.0.0.7"]
          | None => False
          end) as Hend by (vm_compute; done).
  destruct (acts callers (initial 1 toy_running, toy_w)) as [[s w]|] eqn:E; [|destruct Hend].
  exists s, w. split; [reflexivity|]. split; [exact Hend|]. split; [|vm_compute; reflexivity].
  exact (proj1 (clients_are_allowed (default door_configuration (d_config toy_running)) 1 toy_running callers toy_w s w
    ltac:(vm_compute; reflexivity) ltac:(vm_compute; reflexivity) eq_refl E)).
Defined.

Definition toy_limits : RateLimiter.ConnectionRateLimiter := default (RateLimiter.new_limiter 0 0) (limited toy_running).

Lemma rate_bounded_witness :
  RateLimiter.max_per_minute toy_limits = 60 ∧
  length (passed callers (initial 1 toy_running, toy_w) []) = 1%nat ∧
  RateLimiter.admitted "10.0.0.7" 0 (0 + RateLimiter.minute_period) (passed callers (initial 1 toy_running, toy_w) []) ≤ 2 * 60.
Proof.
  split; [vm_compute; reflexivity|]. split; [vm_compute; reflexivity|].
  exact (proj1 (rate_bounded 60 (RateLimiter.max_per_hour toy_limits) 1 toy_running callers toy_w "10.0.0.7" 0
    ltac:(lia) ltac:(vm_compute; split; [discriminate|reflexivity]) ltac:(vm_compute; reflexivity)
    ltac:(vm_compute; repeat split; discriminate)) ltac:(lia)).
Defined.
