(* ===== verification/ReadOnly.v ===== *)
(** * Read-only modules: a daemon that serves only such modules changes nothing

    The chain is long: the handler refuses an upload and a deletion by looking at
    the module; the session starts an upload by the text of the handler's answer,
    in which the client has a word (the name of a module); and uploads, once
    started, write without asking again.  The theorem is about all of it: the
    threads, the sessions, the parser, the handler and the modules. *)
From S2P Require Import Prelude CppString ConfigTypes FileSys Protocol Session Daemon Threads System.
From S2P Require FileSystemModule Ssl AuthManager NetworkAccess Privileges Passwords SshKey ConfigDocuments.
Open Scope Z_scope.

(** ** No name makes a refusal read like a permission *)
Lemma permission_words s :
  contains "Ready to receive file" s = true → "to" ∈ words s ∧ "receive" ∈ words s.
Proof.
  intros (a & b & ->)%contains_exists.
  change ("Ready to receive file" +:+ b) with ("Ready" +:+ String " " ("to" +:+ String " " ("receive" +:+ String " " ("file" +:+ b)))).
  rewrite <- app_assoc_str, !words_space. set_solver.
Qed.

Lemma words_one name : no_space name = true → words (name +:+ nl) = if is_empty name then [] else [name].
Proof.
  intros Hn. destruct name as [|c name]; [done|]. change nl with (String newline "").
  rewrite words_app; [done|unfold is_word; by rewrite Hn|done].
Qed.

Lemma refusal_honest before name :
  no_space name = true → "to" ∉ words before → "receive" ∉ words before →
  contains "Ready to receive file" (before +:+ String " " (name +:+ nl)) = false.
Proof.
  intros Hn Ht Hr. apply not_true_iff_false. intros [H1 H2]%permission_words. revert H1 H2.
  rewrite words_space, words_one by done. destruct (is_empty name); set_solver.
Qed.

(** ** Operations that change nothing, with their results *)
Definition safe {X} (Q : X → Prop) (m : io X) : Prop := ∀ w, (m w).2 = w ∧ from_option Q True (m w).1.

Lemma safe_ret {X} (Q : X → Prop) a : Q a → safe Q (ret a).
Proof. by intros Ha w. Qed.
Lemma safe_quiet {X} (m : io X) : Quiet m → safe (λ _, True) m.
Proof. intros Hq w. split; [apply Hq|by destruct (m w).1]. Qed.
Lemma safe_bind {X Y} (P : X → Prop) (Q : Y → Prop) m k : safe P m → (∀ a, P a → safe Q (k a)) → safe Q (bind m k).
Proof.
  intros Hm Hk w. destruct (Hm w) as [E Hp]. unfold bind. destruct (m w) as [[a|] w1]; cbn in *; [|done].
  subst w1. apply (Hk a Hp).
Qed.
Lemma safe_then {X Y} (Q : Y → Prop) (m : io X) k : Quiet m → (∀ a, safe Q (k a)) → safe Q (bind m k).
Proof. intros Hm Hk. eapply safe_bind; [by apply safe_quiet|auto]. Qed.
Lemma safe_if {X} (Q : X → Prop) (c : bool) m1 m2 : (c = true → safe Q m1) → (c = false → safe Q m2) → safe Q (if c then m1 else m2).
Proof. destruct c; auto. Qed.

(** ** Sessions *)
Section sessions.
Context {M Au Draws : Type} `{ModuleLaws M} `{Authenticator Au Draws} (what : string).
Abbreviation session := (RSyncSession (M:=M) (A:=Au)).

Definition all_read_only (ms : gmap string M) : Prop := ∀ name m, ms !! name = Some m → isReadOnly m = true.

(** A session of read-only modules that uploads nothing; the name of its module
    came from a request. *)
Record tame (s : session) : Prop := {
  tame_modules : all_read_only (handler_modules (handler_ s));
  tame_name : no_space (current_module_ (handler_ s)) = true;
  tame_upload : upload_file_ s = None;
  tame_state : transfer_state_ s ≠ RECEIVING_FILE
}.

Lemma tame_same s s' :
  handler_ s' = handler_ s → upload_file_ s' = upload_file_ s →
  (transfer_state_ s' = transfer_state_ s ∨ transfer_state_ s' = IDLE ∨ transfer_state_ s' = SENDING_FILE) →
  tame s → tame s'.
Proof. intros Eh Eu Et []. constructor; rewrite ?Eh, ?Eu; try done. destruct Et as [->|[->| ->]]; done. Qed.
Lemma tame_work s s' : same_work s s' → tame s → tame s'.
Proof. intros (_&_&_&Et&Eu&_&_&_&Eh). apply tame_same; auto. Qed.
Lemma tame_end s : tame s → tame (endFileTransfer s).
Proof. intros []. by constructor. Qed.
Lemma tame_auth (e : event (Draws:=Draws)) message s : tame s → tame (snd (handleAuthMessage e message s)).
Proof. apply tame_same; unfold handleAuthMessage; [..|left]; by repeat case_match. Qed.

Abbreviation keeps := (safe (λ r, tame r.2)).

Lemma chunk_safe (e : event (Draws:=Draws)) s : tame s → keeps (continueFileTransfer e s).
Proof.
  intros Hs. unfold continueFileTransfer. destruct (transfer_state_ s) eqn:Et; [by apply safe_ret|by destruct Hs|].
  intros w. unfold send_chunk. cbv zeta. set (chunk := read_chunk _ _ _).
  destruct (bool_decide _); [|split; [done|by apply tame_end]].
  pose proof (tame_work _ _ (writeSocket_keeps e chunk s) Hs) as Hk.
  destruct (writeSocket e chunk s) as [n s1]. cbn [snd] in Hk.
  destruct (n <? 0); [split; [done|by apply tame_end]|].
  assert (∀ down left sent, tame (with_transfer (transfer_state_ s1) (transfer_module_ s1) (transfer_path_ s1)
    (upload_file_ s1) down left sent s1)) as Hw by (intros; apply (tame_same s1); auto).
  destruct (_ =? 0); [|split; [done|apply Hw]].
  match goal with |- context [writeResponse e complete_download ?s2] =>
    pose proof (tame_work _ _ (writeResponse_keeps e complete_download s2) (tame_end _ (Hw _ _ _))) as Hd;
    destruct (writeResponse e complete_download s2) end.
  by split.
Qed.

Lemma download_safe name p (s : session) : tame s → keeps (startFileDownload name p s).
Proof.
  intros Hs. unfold startFileDownload. destruct (transfer_module _ _); [|apply safe_ret, (tame_same s); auto].
  apply safe_then; [apply _|]. intros info. apply safe_then; [apply if_quiet; apply _|]. intros there.
  apply safe_if; intros _; [apply safe_ret, (tame_same s); auto|].
  apply safe_then; [apply open_location_quiet|]. intros [l|]; apply safe_ret, (tame_same s); auto.
Qed.

(** The handler's answer to an upload is a refusal. *)
Lemma put_refused message (h : ProtocolHandler (M:=M)) :
  all_read_only (handler_modules h) → no_space (module_name message h) = true →
  safe (λ answer, contains "Ready to receive file" answer = false) (handlePut message h).
Proof.
  intros Hm Hn. unfold handlePut, getModule. destruct (handler_modules h !! _) as [m|] eqn:Em.
  - rewrite (Hm _ _ Em). apply safe_ret. unfold buildErrorResponse, formatError. change (to_string 5) with "5".
    apply (refusal_honest ("@RSYNCD: ERROR 5" +:+ nl +:+ "Module is read-only:") _ Hn); apply (bool_decide_unpack (_ ∉ _)); vm_compute; exact I.
  - apply safe_ret. unfold not_found, buildErrorResponse, formatError. change (to_string 1) with "1".
    apply (refusal_honest ("@RSYNCD: ERROR 1" +:+ nl +:+ "Module not found:") _ Hn); apply (bool_decide_unpack (_ ∉ _)); vm_compute; exact I.
Qed.

Lemma handle_safe message (h : ProtocolHandler (M:=M)) :
  all_read_only (handler_modules h) → no_space (module_name message h) = true → valid message = true →
  safe (λ answer, command message = PUT → contains "Ready to receive file" answer = false) (handle what message h).
Proof.
  intros Hm Hn Hv. destruct (decide (command message = PUT)) as [Hp|Hp].
  - unfold handle. rewrite Hv, Hp. cbn [negb]. intros w. destruct (put_refused message h Hm Hn w) as [Hw Ha].
    split; [done|]. destruct (handlePut message h w).1; [|done]. by intros _.
  - assert (Quiet (handle what message h)) as Hq
      by (apply handle_quiet; intros name m E; by rewrite (Hm _ _ E)).
    intros w. split; [apply Hq|]. destruct (handle what message h w).1; [by intros ?|done].
Qed.

Lemma message_safe (e : event (Draws:=Draws)) message s :
  tame s → no_space (module_ message) = true → valid message = true →
  safe (λ r, tame r.2 ∧ (command message = PUT → contains "Ready to receive file" r.1 = false))
    (handleProtocolMessage what e message s).
Proof.
  intros Hs Hn Hv. unfold handleProtocolMessage. set (s1 := if negb (is_empty (module_ message)) then _ else s).
  assert (tame s1) as Hs1 by (unfold s1; destruct (negb _); [destruct Hs; by constructor|done]). clearbody s1.
  apply safe_if; intros _; [by apply safe_ret|].
  apply safe_if; intros Hc.
  { apply safe_ret. split; [by apply tame_auth|]. apply bool_decide_eq_true in Hc. congruence. }
  eapply safe_bind; [apply handle_safe; [apply Hs1| |done]|].
  - unfold module_name. destruct (is_empty _); [apply Hs1|done].
  - intros answer Ha. by apply safe_ret.
Qed.

Lemma respond_safe (e : event (Draws:=Draws)) d s : tame s → keeps (respond e d s).
Proof. intros Hs. apply safe_ret. by eapply tame_work, Hs; apply writeResponse_keeps. Qed.

Lemma request_safe (e : event (Draws:=Draws)) s : tame s → keeps (processRequest what e s).
Proof.
  intros Hs. unfold processRequest. apply safe_if; intros _; [by apply safe_ret|]. apply safe_if; intros _; [by apply chunk_safe|].
  pose proof (tame_work _ _ (readSocket_keeps e 4095 s) Hs) as Hk. destruct (readSocket e 4095 s) as [r s1].
  cbn [snd] in Hk.
  assert (∀ k c o a, tame (with_socket k c o a s1)) as Hsock by (intros; apply (tame_same s1); auto).
  destruct r as [[|ch rq]|]; [apply safe_ret, Hsock| |apply safe_ret, Hsock].
  pose proof (parse_fields (String ch rq) (parser_ s1)) as (Hn & _ & _).
  destruct (parse _ _) as [message v]. cbn [fst] in Hn. cbv zeta.
  assert (tame (with_protocol v (handler_ s1) s1)) as Hk2 by (apply (tame_same s1); auto).
  set (s2 := with_protocol v (handler_ s1) s1) in *. clearbody s2.
  apply safe_if; intros Hv; [by apply respond_safe|]. apply negb_false_iff in Hv.
  eapply safe_bind; [by apply message_safe|]. intros [response s3] [Hs3 Hput]. cbn [fst snd] in *.
  apply safe_if; intros _.
  - eapply safe_bind; [by apply download_safe|]. intros [ok s4] Hs4. cbn [fst snd] in *.
    apply safe_if; intros _; [by apply chunk_safe|by apply respond_safe].
  - apply safe_if; intros Hc; [|by apply respond_safe]. apply andb_true_iff in Hc as [Hc Hp].
    apply bool_decide_eq_true in Hp. by rewrite (Hput Hp) in Hc.
Qed.

Lemma work_safe (e : event (Draws:=Draws)) s w : tame s → tame (fst (work what e s w)) ∧ snd (work what e s w) = w.
Proof.
  intros Hs. unfold work. destruct (active_ s); [|done]. destruct (request_safe e s Hs w) as [Hw Hr].
  destruct (processRequest what e s w) as [[[[] s']|] w']; cbn in *; (split; [|done]); [done|..];
    by eapply tame_work; [apply close_keeps|].
Qed.
End sessions.

(** ** The running daemon *)
Section daemon.
Context `{Config_json : ConfigDocuments.JsonLibrary} `{Config_yaml : ConfigDocuments.YamlLibrary}.
Context `{Ssl.TlsLibrary} `{Privileges.Accounts} `{NetworkAccess.InetPton} `{Passwords.Sha256} `{SshKey.OpenSSL}.
Context `{ModuleLaws ModuleConfig} {clients : Peers}.

Lemma work_one_safe what e d x w : tame x → tame (work_one what e d x w).1.2 ∧ (work_one what e d x w).2 = w.
Proof.
  intros Hx. unfold work_one. destruct (active_ x); [|done].
  assert (tame (lend d x)) as Hl by (apply (tame_same x); auto).
  pose proof (work_safe what e (lend d x) w Hl) as Hw. by destruct (work what e (lend d x) w).
Qed.

Lemma descends_tame x y : descends x y → tame x → tame y.
Proof.
  intros Hd Hx. induction Hd as [x|x y what e d w _ IH|x y _ IH|x y _ IH]; [done|..].
  - by apply work_one_safe, IH.
  - by eapply tame_work; [apply close_keeps|apply IH].
  - unfold destroy. eapply tame_work; [apply close_keeps|]. by apply tame_end, IH.
Qed.

Lemma has_everyone s x : has s x ↔ x ∈ everyone s.
Proof.
  unfold has, everyone, living. rewrite !elem_of_app.
  assert (x ∈ concat (carried <$> workers s) ↔ ∃ i k, workers s !! i = Some k ∧ (x ∈ todo k ∨ x ∈ finished k)) as ->; [|tauto].
  rewrite list_elem_of_In, in_concat. split.
  - intros (l & Hl%list_elem_of_In & Hx%list_elem_of_In). apply list_elem_of_fmap in Hl as (k & -> & (i & Hi)%list_elem_of_lookup).
    exists i, k. split; [done|]. by apply elem_of_app in Hx.
  - intros (i & k & Hi & Hx). exists (carried k). rewrite <- !list_elem_of_In. split; [apply list_elem_of_fmap_2; by eapply list_elem_of_lookup_2|].
    by apply elem_of_app.
Qed.

(** Nothing that the daemon serves, or has promised a client, can be written. *)
Record locked (s : system) : Prop := {
  locked_modules : all_read_only (modules_ (daemon s));
  locked_handshake a ms : acceptor s = Handshaking a ms → all_read_only ms;
  locked_sessions x : has s x → tame x
}.

Lemma admit_modules a d : modules_ (snd (check_client a d)) = modules_ d.
Proof. by destruct (admit_front a d) as (_ & _ & -> & _). Qed.

Lemma born_tame x s y : locked s → y ∈ born x s → tame y.
Proof.
  intros [Lm Lh _]. assert (∀ a ms ssl d, all_read_only ms → tame (visitor a ms ssl d)) as Hv by (by intros; constructor).
  unfold born. destruct x; try by intros ?%elem_of_nil.
  - destruct (acceptor s); try by intros ?%elem_of_nil. pose proof (admit_modules a (daemon s)) as Em.
    destruct (check_client a (daemon s)) as [[] d]; cbn [negb snd] in *; [|by intros ?%elem_of_nil].
    destruct (live_context d); [by intros ?%elem_of_nil|]. intros ->%list_elem_of_singleton. apply Hv. by rewrite Em.
  - destruct (acceptor s) as [| |a ms|]; try by intros ?%elem_of_nil. destruct (ssl_context_ (daemon s)); [|by intros ?%elem_of_nil].
    destruct (fst _); [|by intros ?%elem_of_nil]. intros ->%list_elem_of_singleton. by eapply Hv, Lh.
Qed.

(** No action changes a module, but that the last one of [stop] unloads them. *)
Lemma act_modules x s w s' w' :
  act x (s, w) = Some (s', w') → modules_ (daemon s') = modules_ (daemon s) ∨ modules_ (daemon s') = ∅.
Proof.
  assert (∀ a s, modules_ (daemon (arrive a s)) = modules_ (daemon s)) as Harr.
  { intros a s0. unfold arrive. pose proof (admit_modules a (daemon s0)) as Em.
    destruct (check_client a (daemon s0)) as [[] d]; cbn in *; [|done]. by destruct (live_context d). }
  destruct x; cbn [act];
    try (match goal with |- (?m ≫= _) = _ → _ => destruct m as [s1|] eqn:E; [|done] end; cbn; intros [= <- <-]).
  1-5: left; unfold acceptor_act in E; destruct (acceptor s) as [| |b ms|]; try done.
  - destruct (serving _); [|done]. by injection E as <-.
  - injection E as <-. apply (Harr a (with_acceptor Polling s)).
  - by injection E as <-.
  - destruct (silent _); [done|]. injection E as <-. cbn. unfold handshake. destruct (ssl_context_ (daemon s)); [|done].
    by destruct (Ssl.acceptConnection _ _ _ _ _) as [[]].
  - destruct (serving _); [done|]. by injection E as <-.
  - unfold worker_act. destruct (workers s !! i) as [[]|]; try done. destruct (serving _); [|done]. intros [= <- _]. by left.
  - unfold worker_act. destruct (workers s !! i) as [[]|]; try done. intros [= <- _]. by left.
  - unfold worker_act. destruct (workers s !! i) as [[| |[|y ys] fs|]|]; try done. destruct (stalls y); [done|].
    assert (modules_ (work_one what e (daemon s) y w).1.1 = modules_ (daemon s)) as Em
      by (unfold work_one; destruct (active_ y); [|done]; by destruct (work _ _ _ _)).
    destruct (work_one what e (daemon s) y w) as [[d z] w1]. intros [= <- _]. by left.
  - unfold worker_act. destruct (workers s !! i) as [[| |[|]|]|]; try done. intros [= <- _]. by left.
  - unfold worker_act. destruct (workers s !! i) as [[]|]; try done. destruct (serving _); [done|]. intros [= <- _]. by left.
  - unfold monitor_act in E. destruct (_ && _); [|done]. injection E as <-. by left.
  - unfold caller_act in E. destruct (caller s); try done. destruct (running_ _); [|done]. injection E as <-. left.
    cbn. unfold request_stop. by destruct (_ >=? 0).
  - unfold caller_act in E. destruct (caller s); try done; repeat case_match; try done; injection E as <-; [by left..|by right].
Qed.

(** A handshake keeps the modules of the moment the client was let in. *)
Lemma act_handshake x s w s' w' a ms :
  act x (s, w) = Some (s', w') → acceptor s' = Handshaking a ms →
  ms = modules_ (daemon s) ∨ acceptor s = Handshaking a ms.
Proof.
  destruct x; cbn [act];
    try (match goal with |- (?m ≫= _) = _ → _ => destruct m as [s1|] eqn:E; [|done] end; cbn; intros [= <- <-] Ea).
  1-5: unfold acceptor_act in E; destruct (acceptor s) as [| |b bs|] eqn:Es; try done.
  - destruct (serving _); [|done]. by injection E as <-.
  - injection E as <-. left. revert Ea. unfold arrive. cbn [daemon with_acceptor].
    pose proof (admit_modules a0 (daemon s)) as Em. destruct (check_client a0 (daemon s)) as [[] d]; cbn [negb snd] in *; [|done].
    destruct (live_context d); cbn; [|done]. intros [= _ <-]. exact Em.
  - injection E as <-. by destruct transient.
  - destruct (silent _); [done|]. by injection E as <-.
  - destruct (serving _); [done|]. by injection E as <-.
  - intros (_ & -> & _)%worker_local. by right.
  - intros (_ & -> & _)%worker_local. by right.
  - intros (_ & -> & _)%worker_local. by right.
  - intros (_ & -> & _)%worker_local. by right.
  - intros (_ & -> & _)%worker_local. by right.
  - unfold monitor_act in E. destruct (_ && _); [|done]. injection E as <-. by right.
  - unfold caller_act in E. destruct (caller s); try done. destruct (running_ _); [|done]. injection E as <-. by right.
  - right. rewrite <- Ea. unfold caller_act in E. destruct (caller s); try done; repeat case_match; try done; by injection E as <-.
Qed.

Lemma locked_act x s w s' w' : locked s → act x (s, w) = Some (s', w') → locked s' ∧ w' = w.
Proof.
  intros L E. split.
  - constructor.
    + destruct (act_modules x s w s' w' E) as [->| ->]; [apply L|by intros name m ?%lookup_empty_Some].
    + intros a ms Ea. destruct (act_handshake x s w s' w' a ms E Ea) as [->|Es]; [apply L|by eapply L].
    + intros y Hy. assert (becomes (everyone s ++ born x s) (everyone s')) as Hb.
      { pose proof (acts_become [x] s w s' w') as Hb. cbn [acts births] in Hb. rewrite E in Hb. cbn in Hb.
        rewrite app_nil_r in Hb. by apply Hb. }
      destruct (becomes_elem _ _ y Hb) as (z & Hz & Hd); [by apply has_everyone|].
      eapply descends_tame; [exact Hd|]. apply elem_of_app in Hz as [Hz|Hz]; [by apply L, has_everyone|by eapply born_tame].
  - destruct (act_cases x s w s' w' E) as [[_ ?]|[what e y z d Ew _ _ Hy _ _ _]]; [done|].
    destruct (work_one_safe what e (daemon s) y w) as [_ Hw]; [by apply L|]. by rewrite Ew in Hw.
Qed.

(** C3: A daemon all of whose modules are read-only changes nothing.  Whatever the
    clients send, authenticated or not, whatever the other settings are, and
    however the accept loop, the workers and [stop] interleave: the file system is
    as it was, and no session has a file open for writing or is in an upload. *)
Theorem read_only_daemon n d l w s w' :
  all_read_only (modules_ d) → active_sessions_ d = [] →
  acts l (initial n d, w) = Some (s, w') →
  w' = w ∧ ∀ x, has s x → upload_file_ x = None ∧ transfer_state_ x ≠ RECEIVING_FILE.
Proof.
  intros Hm Ha E. assert (locked s ∧ w' = w) as [L ->].
  { apply (acts_invariant (λ s w', locked s ∧ w' = w) l (initial n d) w s w'); [| |exact E].
    - intros x s0 w0 s1 w1 [L0 ->] Ex. by apply (locked_act x s0 w s1 w1).
    - split; [|done]. constructor; [done|done|]. intros x Hx%has_everyone. unfold everyone, living in Hx. cbn in Hx.
      rewrite Ha, app_nil_r in Hx. exfalso. clear -Hx. induction n as [|n IH]; [by apply elem_of_nil in Hx|].
      cbn [replicate] in Hx. rewrite fmap_cons in Hx. by apply IH. }
  split; [done|]. intros x Hx. by destruct (locked_sessions _ L x Hx).
Qed.
End daemon.

(** ** Witness: clients who upload, delete and download *)
#[local] Existing Instances ConfigDocuments.no_json ConfigDocuments.no_yaml Ssl.toy_tls Privileges.toy_accounts
  NetworkAccess.dotted_quad_InetPton Passwords.toy_sha256 SshKey.toy_openssl Daemon.toy_modules
  Threads.everybody_speaks.

Definition locked_configuration : Configuration :=
  set_modules {["data" := set_read_only true FileSystemModule.toy_module]} toy_configuration.
Definition attempts : list action :=
  Poll :: Accept (visit 8 1000) ::
  concat ((λ r, [Enter 0; Take 0; Work 0 "error" (toy_event r); Return 0]) <$>
    ["PUT data ../x"; "PUT to receive"; "DELETE data a.txt"; "GET data a.txt"]).

(** The last request is served, the others are refused. *)
Lemma read_only_daemon_witness :
  ∃ s w', acts attempts (initial 1 (with_sessions [] 0 (started locked_configuration)), toy_w) = Some (s, w') ∧
    w' = toy_w ∧ sent_plain <$> active_sessions_ (daemon s) =
      ["@RSYNCD: ERROR 5" +:+ nl +:+ "Module is read-only: data" +:+ nl +:+
       "@RSYNCD: ERROR 1" +:+ nl +:+ "Module not found: to" +:+ nl +:+
       "@RSYNCD: ERROR 5" +:+ nl +:+ "Deletion not allowed for module: data" +:+ nl +:+
       "hello" +:+ complete_download].
Proof.
  assert (match acts attempts (initial 1 (with_sessions [] 0 (started locked_configuration)), toy_w) with
          | Some (s, _) => sent_plain <$> active_sessions_ (daemon s) =
      ["@RSYNCD: ERROR 5" +:+ nl +:+ "Module is read-only: data" +:+ nl +:+
       "@RSYNCD: ERROR 1" +:+ nl +:+ "Module not found: to" +:+ nl +:+
       "@RSYNCD: ERROR 5" +:+ nl +:+ "Deletion not allowed for module: data" +:+ nl +:+
       "hello" +:+ complete_download]
          | None => False
          end) as Hend by (vm_compute; reflexivity).
  destruct (acts attempts _) as [[s w']|] eqn:E; [|destruct Hend]. exists s, w'. split; [reflexivity|]. split; [|exact Hend].
  refine (proj1 (read_only_daemon 1 (with_sessions [] 0 (started locked_configuration)) attempts toy_w s w' _ eq_refl E)).
  assert (modules_ (with_sessions [] 0 (started locked_configuration)) =
    {["data" := secure (security locked_configuration) (set_read_only true FileSystemModule.toy_module)]}) as ->
    by (vm_compute; reflexivity).
  intros name m Hm. apply lookup_singleton_Some in Hm as [_ <-]. reflexivity.
Defined.
