(* ===== verification/Confinement.v ===== *)
(** * Confinement: a daemon changes only what its process may write

    Uploads do not resolve their path ([Session.startFileUpload]), so a client can
    name any file.  What holds is the permission of the process: a set of
    locations that has everything the process may write, and with a directory
    everything below it, has every change that any client of the running daemon
    can make.  One lemma per operation of [FileSys], then [FileSystemModule],
    [Protocol], [Session] and the threads. *)
From S2P Require Import Prelude CppString ConfigTypes FileSys State Protocol Session Daemon Threads System.
From S2P Require FileSystemModule Ssl AuthManager NetworkAccess Privileges Passwords SshKey ConfigDocuments Config.
Open Scope Z_scope.

(** ** Territories *)
Section territory.
Context (A : location → Prop).

(** What the process may write, and everything below. *)
Record territory (w : world) : Prop := {
  territory_below l k : A l → l `prefix_of` k → A k;
  territory_write l : may_write w l = true → A l
}.

(** Nothing outside has changed. *)
Definition spared (w w' : world) : Prop :=
  (∀ l, ¬ A l → nodes w' !! l = nodes w !! l) ∧ may_write w' = may_write w.

#[export] Instance spared_preorder : PreOrder spared.
Proof.
  split; [done|]. intros w1 w2 w3 [H1 E1] [H2 E2]. split; [|congruence]. intros l Hl. by rewrite H2, H1.
Qed.

Lemma spared_territory w w' : spared w w' → territory w → territory w'.
Proof. intros [_ E] [Hb Hw]. split; [done|]. intros l. rewrite E. apply Hw. Qed.

(** The operation changes nothing outside, and its result is [Q]. *)
Definition within {X} (Q : X → Prop) (m : io X) : Prop := ∀ w,
  territory w → spared w (m w).2 ∧ from_option Q True (m w).1.
Abbreviation harmless := (within (λ _, True)).

Lemma within_ret {X} (Q : X → Prop) a : Q a → within Q (ret a).
Proof. by intros Ha w _. Qed.
Lemma within_throw {X} (Q : X → Prop) : within Q throw.
Proof. by intros w _. Qed.
Lemma within_quiet {X} (m : io X) : Quiet m → harmless m.
Proof. intros Hq w _. rewrite (quiet w). split; [done|]. by destruct (m w).1. Qed.
Lemma within_weaken {X} (P Q : X → Prop) m : within P m → (∀ a, P a → Q a) → within Q m.
Proof. intros Hm Hpq w Hw. destruct (Hm w Hw) as [Hs Hp]. split; [done|]. destruct (m w).1; cbn in *; auto. Qed.
Lemma within_any {X} (P : X → Prop) m : within P m → harmless m.
Proof. intros Hm. by eapply within_weaken. Qed.
Lemma within_bind {X Y} (P : X → Prop) (Q : Y → Prop) m k :
  within P m → (∀ a, P a → within Q (k a)) → within Q (bind m k).
Proof.
  intros Hm Hk w Hw. destruct (Hm w Hw) as [Hs Hp]. unfold bind. destruct (m w) as [[a|] w1]; cbn in *; [|done].
  destruct (Hk a Hp w1 (spared_territory _ _ Hs Hw)) as [Hs2 Hq]. split; [by etrans|done].
Qed.
Lemma within_then {X Y} (Q : Y → Prop) (m : io X) k : harmless m → (∀ a, within Q (k a)) → within Q (bind m k).
Proof. intros Hm Hk. eapply within_bind; [exact Hm|auto]. Qed.
Lemma within_try {X} (Q : X → Prop) m h : within Q m → within Q h → within Q (try_catch m h).
Proof.
  intros Hm Hh w Hw. destruct (Hm w Hw) as [Hs Hq]. unfold try_catch. destruct (m w) as [[a|] w1]; cbn in *; [done|].
  destruct (Hh w1 (spared_territory _ _ Hs Hw)) as [Hs2 Hq2]. split; [by etrans|done].
Qed.
Lemma within_if {X} (Q : X → Prop) (c : bool) m1 m2 : within Q m1 → within Q m2 → within Q (if c then m1 else m2).
Proof. by destruct c. Qed.

(** *** Changes *)
Lemma below_parent l : parent l `prefix_of` l.
Proof. unfold parent. apply prefix_take. Qed.
Lemma child_in w dir name : territory w → may_write w dir = true → A (dir ++ [name]).
Proof. intros [Hb Hw] Hd. eapply Hb; [by apply Hw|]. by apply prefix_app_r. Qed.
Lemma entry_in w l k : territory w → may_write w (parent l) = true → l `prefix_of` k → A k.
Proof. intros [Hb Hw] Hd Hk. eapply Hb; [by apply Hw|]. etrans; [apply below_parent|exact Hk]. Qed.

Lemma spared_put w l n : A l → spared w (with_nodes (<[l := n]> (nodes w)) w).
Proof. intros Hl. split; [|done]. intros k Hk. cbn. apply lookup_insert_ne. congruence. Qed.

Lemma put_within l n : A l → harmless (put l n).
Proof. intros Hl w Hw. split; [by apply spared_put|done]. Qed.

Lemma create_directory_within p : harmless (create_directory p).
Proof.
  intros w Hw. unfold create_directory. destruct (lookup_path _ _ _) as [l|dir name| |]; try done.
  - apply within_then; [apply within_quiet, _|intros []; [by apply within_ret|apply within_throw]|done].
  - destruct (may_write w dir) eqn:Hd; [|done].
    apply within_then; [apply put_within; by eapply child_in|intros _; by apply within_ret|done].
Qed.

Lemma create_each_within made prefix parts : harmless (create_each made prefix parts).
Proof.
  revert made prefix. induction parts as [|part parts IH]; intros made prefix; cbn [create_each]; [by apply within_ret|].
  cbv zeta. apply within_then; [apply within_quiet, _|]. intros there.
  apply within_then; [apply within_if; [by apply within_ret|apply create_directory_within]|]. intros b. apply IH.
Qed.

Lemma create_directories_within p : harmless (create_directories p).
Proof. unfold create_directories. apply within_if; [apply within_throw|apply create_each_within]. Qed.

Lemma remove_within p : harmless (remove p).
Proof.
  intros w Hw. unfold remove. destruct (lookup_path _ _ _) as [l|dir name| |]; try done.
  destruct (_ || _ || _) eqn:E; [done|]. bool_hyps. split; [|done]. split; [|done]. intros k Hk. cbn.
  apply lookup_delete_ne. intros ->. by eapply Hk, entry_in.
Qed.

Lemma below_iff l k : below l k = true ↔ l `prefix_of` k.
Proof. apply bool_decide_eq_true. Qed.

Lemma remove_all_within p : harmless (remove_all p).
Proof.
  intros w Hw. unfold remove_all. destruct (lookup_path _ _ _) as [l|dir name| |]; try done.
  destruct (_ || _ || _) eqn:E; [done|]. bool_hyps. split; [|done]. split; [|done]. intros k Hk. cbn.
  destruct (nodes w !! k) as [n|] eqn:Ek.
  - apply map_lookup_filter_Some. split; [done|]. apply not_true_iff_false. rewrite below_iff. intros Hb.
    by eapply Hk, entry_in.
  - apply map_lookup_filter_None. by left.
Qed.

Lemma open_write_within exclusive p : within (λ o, ∀ l, o = Some l → A l) (open_write exclusive p).
Proof.
  intros w Hw. unfold open_write. destruct (lookup_path _ _ _) as [l|dir name| |]; try done.
  - destruct (node_at w l) as [[c| |]|]; try done. destruct (exclusive || _) eqn:E; [done|]. bool_hyps.
    assert (A l) as Hl by by eapply territory_write. split; [by apply spared_put|]. by intros k [= <-].
  - destruct (may_write w dir) eqn:Hd; [|done]. pose proof (child_in w dir name Hw Hd) as Hl.
    split; [by apply spared_put|]. by intros k [= <-].
Qed.

Lemma write_at_within l pos data : A l → harmless (write_at l pos data).
Proof.
  intros Hl w Hw. unfold write_at. destruct (nodes w !! l) as [[c| |]|]; try done. split; [by apply spared_put|done].
Qed.

(** A lookup outside both subtrees of a move. *)
Lemma moved_outside src dst n k :
  below src k = false → below dst k = false → moved src dst n !! k = n !! k.
Proof.
  intros Hs Hd. unfold moved.
  set (inside := filter _ n). set (rest := filter (λ kn, below src kn.1 = false ∧ below dst kn.1 = false) n).
  assert (rest !! k = n !! k) as <-.
  { destruct (n !! k) as [v|] eqn:Ek; [by apply map_lookup_filter_Some|apply map_lookup_filter_None; by left]. }
  apply (map_fold_weak_ind (λ m _, m !! k = rest !! k)); [done|]. intros i x m r _ IH.
  rewrite lookup_insert_ne; [exact IH|]. intros <-. apply not_true_iff_false in Hd. apply Hd, below_iff.
  by apply prefix_app_r.
Qed.

Lemma moved_spared w src dst :
  territory w → (∀ k, src `prefix_of` k → A k) → (∀ k, dst `prefix_of` k → A k) →
  spared w (with_nodes (moved src dst (nodes w)) w).
Proof.
  intros Hw Hs Hd. split; [|done]. intros k Hk. cbn. apply moved_outside; apply not_true_iff_false; rewrite below_iff; auto.
Qed.

Lemma rename_within from to : harmless (rename from to).
Proof.
  intros w Hw. unfold rename. destruct (lookup_path false w from) as [src| | |]; try done.
  destruct (lookup_path false w to) as [dst|dir name| |]; try done.
  - case_bool_decide; [done|]. destruct (_ && _) eqn:E; [|done]. bool_hyps. split; [|done].
    apply moved_spared; [done|..]; intros k Hk; (eapply entry_in; [done| |exact Hk]); done.
  - destruct (_ && _) eqn:E; [|done]. bool_hyps. split; [|done]. apply moved_spared; [done|..]; intros k Hk.
    + eapply entry_in; [done| |exact Hk]; done.
    + eapply territory_below; [done| |exact Hk]. by eapply child_in.
Qed.
End territory.

(** ** Modules *)
#[local] Existing Instances FileSystemModule.checkDeletePermission_quiet FileSystemModule.resolvePath_quiet
  FileSystemModule.unsafe_quiet.

Section modules.
Context (A : location → Prop).
Abbreviation harmless := (within A (λ _, True)).

(** What confinement needs of a module; its queries are quiet ([ModuleLaws]). *)
Class ConfinedModule (M : Type) `{ModuleOps M} := {
  deleteFile_within (m : M) p : harmless (deleteFile m p);
  deleteDirectory_within (m : M) p r : harmless (deleteDirectory m p r)
}.

Lemma ensure_parent_within p : harmless (FileSystemModule.ensure_parent p).
Proof.
  unfold FileSystemModule.ensure_parent. cbv zeta. apply within_if; [by apply within_ret|].
  apply within_then; [apply within_quiet, _|]. intros []; [by apply within_ret|].
  apply within_then; [apply create_directories_within|]. intros _. by apply within_ret.
Qed.

#[export] Instance filesystem_module_confined junk :
  @ConfinedModule ModuleConfig (filesystem_module junk).
Proof.
  split; intros c p; cbn; unfold FileSystemModule.deleteFile, FileSystemModule.deleteDirectory; intros;
    (apply within_if; [by apply within_ret|]); (apply within_then; [apply within_quiet, _|]);
    (intros []; [by apply within_ret|]); (apply within_then; [apply within_quiet, _|]); intros full;
    (apply within_then; [apply within_quiet, _|]); (intros []; [by apply within_ret|]);
    (apply within_try; [|by apply within_ret]).
  - apply within_then; [apply within_quiet, _|]. intros []; [apply remove_within|by apply within_ret].
  - destruct r; [|apply remove_within]. apply within_then; [apply remove_all_within|]. intros n. by apply within_ret.
Qed.
End modules.

(** ** Sessions *)
Section sessions.
Context (A : location → Prop) {M Au Draws : Type} `{ModuleLaws M} `{Authenticator Au Draws} (what : string).
Context `{!ConfinedModule A M}.
Abbreviation harmless := (within A (λ _, True)).
Abbreviation session := (RSyncSession (M:=M) (A:=Au)).

Lemma handle_within message (h : ProtocolHandler (M:=M)) : harmless (handle what message h).
Proof.
  unfold handle. apply within_if; [by apply within_ret|].
  destruct (command message); try (by apply within_ret).
  - apply within_quiet. unfold handleList. destruct (getModule _ h); apply _.
  - apply within_quiet. unfold handleGet. destruct (getModule _ h); apply _.
  - apply within_quiet. unfold handlePut. destruct (getModule _ h); apply _.
  - unfold handleDelete. destruct (getModule _ h) as [m|]; [|by apply within_ret]. cbv zeta.
    apply within_if; [by apply within_ret|]. apply within_try; [|by apply within_ret].
    apply within_then; [apply within_quiet, _|]. intros [].
    + apply within_then; [by apply deleteFile_within|]. intros b. by apply within_ret.
    + apply within_then; [apply within_quiet, _|]. intros []; [|by apply within_ret].
      apply within_then; [by apply deleteDirectory_within|]. intros b. by apply within_ret.
  - apply within_quiet. unfold handleStat. destruct (getModule _ h); apply _.
Qed.

(** The file a session writes to is inside. *)
Definition inside (s : session) : Prop := ∀ l pos, upload_file_ s = Some (l, pos) → A l.

Lemma inside_same s s' : upload_file_ s' = upload_file_ s → inside s → inside s'.
Proof. unfold inside. by intros ->. Qed.
Lemma inside_none s : upload_file_ s = None → inside s.
Proof. unfold inside. by intros ->. Qed.
Lemma inside_work s s' : same_work s s' → inside s → inside s'.
Proof. intros (_&_&_&_&E&_). by apply inside_same. Qed.
Lemma inside_auth (e : event (Draws:=Draws)) message s : inside s → inside (snd (handleAuthMessage e message s)).
Proof. apply inside_same. unfold handleAuthMessage. by repeat case_match. Qed.

Abbreviation keeps := (within A (λ r, inside r.2)).

Lemma message_within (e : event (Draws:=Draws)) message s : inside s → keeps (handleProtocolMessage what e message s).
Proof.
  intros Hs. unfold handleProtocolMessage. set (s1 := if negb (is_empty (module_ message)) then _ else s).
  assert (inside s1) as Hs1 by (unfold s1; by destruct (negb _)). clearbody s1.
  apply within_if; [by apply within_ret|]. apply within_if; [apply within_ret, inside_auth, Hs1|].
  apply within_then; [apply handle_within|]. intros answer. by apply within_ret.
Qed.

Lemma upload_within name p (s : session) : inside s → keeps (startFileUpload name p s).
Proof.
  intros Hs. unfold startFileUpload. destruct (transfer_module _ _); [|by apply within_ret].
  apply within_then; [apply within_quiet, _|]. intros full. apply within_if; [by apply within_ret|].
  apply within_then; [apply ensure_parent_within|]. intros _.
  eapply within_bind; [apply open_write_within|]. intros [l|] Hl; apply within_ret; cbn; [|done].
  intros k pos [= <- _]. by apply Hl.
Qed.

Lemma download_within name p (s : session) : inside s → keeps (startFileDownload name p s).
Proof.
  intros Hs. unfold startFileDownload. destruct (transfer_module _ _); [|by apply within_ret].
  apply within_then; [apply within_quiet, _|]. intros info. apply within_then; [apply within_if; [by apply within_ret|apply within_quiet, _]|].
  intros there. apply within_if; [by apply within_ret|].
  apply within_then; [apply within_quiet, open_location_quiet|]. intros [l|]; by apply within_ret.
Qed.

Lemma move_upload_within (s : session) : harmless (move_upload s).
Proof.
  unfold move_upload. apply within_if; [|by apply within_ret]. destruct (getModule _ _); [|by apply within_ret].
  do 2 (apply within_then; [apply within_quiet, _|]; intros ?).
  apply within_then; [apply within_quiet, _|]. intros []; [apply rename_within|by apply within_ret].
Qed.

Lemma chunk_within (e : event (Draws:=Draws)) s : inside s → keeps (continueFileTransfer e s).
Proof.
  intros Hs. unfold continueFileTransfer. destruct (transfer_state_ s); [by apply within_ret| |].
  - unfold receive_chunk. pose proof (inside_work _ _ (readSocket_keeps e (Z.to_nat 8192) s) Hs) as Hk.
    destruct (readSocket e (Z.to_nat 8192) s) as [r s1]. cbn [snd] in Hk.
    destruct r as [[|ch data]|]; [| |by apply within_ret, inside_none].
    + apply within_then; [apply move_upload_within|]. intros _.
      pose proof (inside_work _ _ (writeResponse_keeps e complete_upload (endFileTransfer s1)) (inside_none (endFileTransfer s1) eq_refl)) as Hw.
      destruct (writeResponse e complete_upload (endFileTransfer s1)). by apply within_ret.
    + destruct (upload_file_ s1) as [[l pos]|] eqn:El.
      * apply within_then; [by eapply write_at_within, Hk|]. intros _. apply within_ret.
        intros k p [= <- _]. by eapply Hk.
      * apply within_then; [by apply within_ret|]. intros _. by apply within_ret.
  - intros w _. unfold send_chunk. cbv zeta. set (chunk := read_chunk _ _ _).
    destruct (bool_decide _); [|split; [done|by apply inside_none]].
    pose proof (inside_work _ _ (writeSocket_keeps e chunk s) Hs) as Hk.
    destruct (writeSocket e chunk s) as [n s1]. cbn [snd] in Hk.
    destruct (n <? 0); [split; [done|by apply inside_none]|]. destruct (_ =? 0); [|by split].
    match goal with |- context [writeResponse e complete_download ?s2] =>
      pose proof (inside_work _ _ (writeResponse_keeps e complete_download s2) (inside_none s2 eq_refl)) as Hw;
      destruct (writeResponse e complete_download s2) end.
    by split.
Qed.

Lemma respond_within (e : event (Draws:=Draws)) d s : inside s → keeps (respond e d s).
Proof. intros Hs. apply within_ret. by eapply inside_work, Hs; apply writeResponse_keeps. Qed.

Lemma request_within (e : event (Draws:=Draws)) s : inside s → keeps (processRequest what e s).
Proof.
  intros Hs. unfold processRequest. apply within_if; [by apply within_ret|]. apply within_if; [by apply chunk_within|].
  pose proof (inside_work _ _ (readSocket_keeps e 4095 s) Hs) as Hk. destruct (readSocket e 4095 s) as [r s1].
  cbn [snd] in Hk. destruct r as [[|ch rq]|]; [by apply within_ret| |by apply within_ret].
  destruct (parse _ _) as [message v]. apply within_if; [by apply respond_within|].
  eapply within_bind; [by apply message_within|]. intros [response s3] Hs3. cbn [fst snd] in *.
  apply within_if; [|apply within_if; [|by apply respond_within]].
  - eapply within_bind; [by apply download_within|]. intros [ok s4] Hs4. cbn [fst snd] in *.
    apply within_if; [by apply chunk_within|by apply respond_within].
  - eapply within_bind; [by apply upload_within|]. intros [ok s4] Hs4. cbn [fst snd] in *.
    apply within_if; [|by apply respond_within].
    pose proof (inside_work _ _ (writeResponse_keeps e response s4) Hs4) as Hw.
    destruct (writeResponse e response s4) as [ok' s5]. apply within_if; [by apply within_ret|by apply respond_within].
Qed.

Lemma work_within (e : event (Draws:=Draws)) s w :
  inside s → territory A w → inside (fst (work what e s w)) ∧ spared A w (snd (work what e s w)).
Proof.
  intros Hs Hw. unfold work. destruct (active_ s); [|done]. destruct (request_within e s Hs w Hw) as [Hsp Hr].
  destruct (processRequest what e s w) as [[[[] s']|] w']; cbn in *; (split; [|done]); [done|..];
    by eapply inside_work; [apply close_keeps|].
Qed.
End sessions.

(** ** The running daemon *)
Section daemon.
Context (A : location → Prop).
Context `{Config_json : ConfigDocuments.JsonLibrary} `{Config_yaml : ConfigDocuments.YamlLibrary}.
Context `{Ssl.TlsLibrary} `{Privileges.Accounts} `{NetworkAccess.InetPton} `{Passwords.Sha256} `{SshKey.OpenSSL}.
Context `{ModuleLaws ModuleConfig} `{!ConfinedModule A ModuleConfig} {clients : Peers}.

Lemma work_one_within what e d x w :
  inside A x → territory A w →
  let '(_, y, w') := work_one what e d x w in inside A y ∧ spared A w w'.
Proof.
  intros Hx Hw. unfold work_one. destruct (active_ x); [|done].
  pose proof (work_within A what e (lend d x) w Hx Hw) as Hwork. by destruct (work what e (lend d x) w).
Qed.

Record enclosed (w0 : world) (s : system) (w : world) : Prop := {
  enclosed_sessions x : has s x → inside A x;
  enclosed_world : spared A w0 w
}.

Lemma enclosed_act w0 a s w s' w' :
  territory A w0 → enclosed w0 s w → act a (s, w) = Some (s', w') → enclosed w0 s' w'.
Proof.
  intros Hw0 [Es Ew] [[[_ _ _ Mf] ->]|[what e x y d Eone _ _ Hx _ _ Hf]]%act_cases.
  - split; [|done]. intros y [[[_ (_ & Hu & _)] _]|(x & Hx & _ & _ & _ & Hu)]%Mf; [by apply inside_none|].
    destruct Hu as [Hu|Hu]; [by eapply inside_same, Es|by apply inside_none].
  - pose proof (work_one_within what e (daemon s) x w (Es _ Hx) (spared_territory _ _ _ Ew Hw0)) as Hone.
    rewrite Eone in Hone. destruct Hone as [Hy Hsp]. split; [|by etrans].
    intros z [Hz| ->]%Hf; [by apply Es|done].
Qed.

Lemma daemon_enclosed n d l w s w' :
  territory A w → active_sessions_ d = [] → acts l (initial n d, w) = Some (s, w') → enclosed w s w'.
Proof.
  intros Hw Ha. apply (acts_invariant (λ s w', enclosed w s w') l (initial n d) w s w').
  - intros a s0 w0 s1 w1. by apply enclosed_act.
  - constructor; [|done]. intros x. unfold has. cbn. rewrite Ha.
    intros [?%elem_of_nil|[(i & k & [-> _]%lookup_replicate & [?%elem_of_nil|?%elem_of_nil])|[?%elem_of_nil|?%elem_of_nil]]]; done.
Qed.

(** A daemon changes nothing its process may not write.  Let [A] hold every
    location the process may write, and with a location everything below it.
    Whatever the clients send, authenticated or not, and however the threads
    interleave: outside [A] every file, directory and link stays as it was, and
    no session has a file outside [A] open for writing.  Uploads, whose path is
    not resolved, are no exception. *)
Theorem daemon_confined n d l w s w' :
  territory A w → active_sessions_ d = [] →
  acts l (initial n d, w) = Some (s, w') →
  (∀ k, ¬ A k → nodes w' !! k = nodes w !! k) ∧
  (∀ x k pos, has s x → upload_file_ x = Some (k, pos) → A k).
Proof.
  intros Hw Ha E. destruct (daemon_enclosed _ _ _ _ _ _ Hw Ha E) as [Es [Ew _]].
  split; [exact Ew|by intros x k pos Hx; apply Es].
Qed.

(** *** With the identity the daemon drops to *)

(** What the steps of a start before the drop keep. *)
Definition still_root (d : RSyncDaemon) : Prop := Privileges.uid (process d) = 0 ∧ active_sessions_ d = [].

Lemma chroot_uid p q : Privileges.uid (snd (Privileges.enterChroot p q)) = Privileges.uid q.
Proof. unfold Privileges.enterChroot. by repeat case_match. Qed.

Lemma steps_still_root net :
  Preserves still_root validateConfiguration ∧ Preserves still_root loadModules ∧
  Preserves still_root initializeSSL ∧ Preserves still_root (initializeNetwork net) ∧ Preserves still_root enter_chroot.
Proof.
  refine (conj _ (conj _ (conj _ (conj _ _)))); intros w d Hd.
  - unfold validateConfiguration, on_config. destruct (d_config d); [|done]. by destruct (Config.validate w c).
  - unfold loadModules. by destruct (d_config d).
  - unfold initializeSSL. destruct (d_config d); [|done]. case_match; [|done]. by case_match.
  - unfold initializeNetwork. destruct (d_config d); [|done]. by repeat case_match.
  - unfold enter_chroot. destruct (d_config d); [|done]. case_match; [|done].
    pose proof (chroot_uid (chroot_directory (security c)) (process d)) as Eu.
    destruct (Privileges.enterChroot _ _) as [ok p]. destruct Hd as [Hu Hs]. split; [|done]. cbn in *. congruence.
Qed.

Lemma preserved {B} (m : st RSyncDaemon B) w d r d' :
  Preserves still_root m → still_root d → m w d = (r, d') → still_root d'.
Proof. intros Hm Hd E. specialize (Hm w d Hd). by rewrite E in Hm. Qed.

(** The identity of a process whose privileges were dropped for a user. *)
Definition identity_of (user_name : string) (p : Privileges.credentials) : Prop :=
  Privileges.getpwnam (Privileges.root_directory p) (c_str user_name) = Some (Privileges.uid p) ∧
  Privileges.groups p = [].

Lemma dropped_identity user_name group p p' :
  Privileges.uid p = 0 → user_name ≠ "" → Privileges.dropProcessPrivileges user_name group p = (true, p') →
  identity_of user_name p'.
Proof.
  intros Hr Hu E. destruct (Privileges.drop_result user_name group p p' Hr Hu E) as (Hid & Hg & _).
  assert (Privileges.root_directory p' = Privileges.root_directory p) as Er.
  { clear Hid Hg. revert E. unfold Privileges.dropProcessPrivileges. repeat (case_match; simplify_eq/=; try done);
      intros; by simplify_eq/=. }
  split; [by rewrite Er|done].
Qed.

Lemma started_identity net w d0 d c :
  running_ d0 = false → still_root d0 → start net w d0 = (inr true, d) →
  d_config d = Some c → drop_privileges (security c) = true → sec_user (security c) ≠ "" →
  active_sessions_ d = [] ∧ identity_of (sec_user (security c)) (process d).
Proof.
  intros Hr H0' Hs Ec Hdrop Hu. destruct (steps_still_root net) as (K1 & K2 & K3 & K4 & K5).
  unfold start in Hs. apply st_bind_inr in Hs as (b & d' & [= <- <-] & Hs). rewrite Hr in Hs.
  apply and_then_true in Hs as (d1 & E1 & Hs). pose proof (preserved _ _ _ _ _ K1 H0' E1) as R1.
  apply and_then_true in Hs as (d2 & E2 & Hs). pose proof (preserved _ _ _ _ _ K2 R1 E2) as R2.
  apply and_then_true in Hs as (d3 & E3 & Hs). pose proof (preserved _ _ _ _ _ K3 R2 E3) as R3.
  apply and_then_true in Hs as (d4 & E4 & Hs). pose proof (preserved _ _ _ _ _ K4 R3 E4) as R4.
  apply and_then_true in Hs as (d5 & E5 & Hs). destruct (preserved _ _ _ _ _ K5 R4 E5) as [Huid Hses].
  apply and_then_true in Hs as (d6 & E6 & Hs). injection Hs as <-.
  assert (active_sessions_ (make_limiter d6) = active_sessions_ d6 ∧ process (make_limiter d6) = process d6 ∧
    d_config (make_limiter d6) = d_config d6) as (F1 & F2 & F3)
    by (unfold make_limiter; destruct (d_config d6) eqn:Ed; [case_match|]; cbn; by rewrite ?Ed).
  cbn [d_config process active_sessions_ with_running] in *. rewrite F1, F2, F3 in *.
  destruct (drop_keeps _ _ _ _ E6) as (Ed & _). rewrite Ec in Ed. symmetry in Ed.
  unfold drop_to_user in E6. rewrite Ed, Hdrop in E6.
  destruct (Privileges.dropProcessPrivileges _ _ _) as [ok p] eqn:Ep. injection E6 as -> <-. cbn.
  split; [done|]. by eapply dropped_identity.
Qed.

(** C26: Damage is limited to the configured user.  A daemon started by root, with
    [drop_privileges] and a user, serves under that user's identity without
    supplementary groups: if [A] holds what the kernel lets such a process write,
    and everything below, then whatever any number of clients send under any
    schedule of the threads, nothing outside [A] changes. *)
Theorem user_confined (permitted : Privileges.credentials → location → bool) net w0 d0 d c n l w s w' :
  (∀ k k', A k → k `prefix_of` k' → A k') →
  running_ d0 = false → Privileges.uid (process d0) = 0 → active_sessions_ d0 = [] →
  start net w0 d0 = (inr true, d) →
  d_config d = Some c → drop_privileges (security c) = true → sec_user (security c) ≠ "" →
  (∀ p k, identity_of (sec_user (security c)) p → permitted p k = true → A k) →
  may_write w = permitted (process d) →
  acts l (initial n d, w) = Some (s, w') →
  ∀ k, ¬ A k → nodes w' !! k = nodes w !! k.
Proof.
  intros Hb Hr Hroot Ha Hs Ec Hdrop Hu Hper Hw E.
  destruct (started_identity net w0 d0 d c Hr (conj Hroot Ha) Hs Ec Hdrop Hu) as [Hses Hid].
  apply (daemon_enclosed n d l w s w'); [|done|exact E]. split; [exact Hb|]. intros k. rewrite Hw. by apply Hper.
Qed.
End daemon.

(** ** Witness: an upload outside the module, and one outside the territory *)
#[local] Existing Instances ConfigDocuments.no_json ConfigDocuments.no_yaml Ssl.toy_tls Privileges.toy_accounts
  NetworkAccess.dotted_quad_InetPton Passwords.toy_sha256 SshKey.toy_openssl Daemon.toy_modules
  Threads.everybody_speaks.

(** A process that may write [/srv] and what is below. *)
Definition in_srv (l : location) : Prop := ["srv"] `prefix_of` l.
Definition srv_only : world :=
  MkWorld (nodes toy_w) (cwd toy_w) (may_search toy_w) (may_read toy_w)
    (λ l, match l with x :: _ => String.eqb x "srv" | [] => false end).

Lemma srv_only_territory : territory in_srv srv_only.
Proof.
  split; [intros l k Hl Hk; unfold in_srv in *; by etrans|].
  intros [|x l]; cbn; [done|]. intros ->%String.eqb_eq. by exists l.
Qed.

(** A client uploads a text to a path, and closes its side. *)
Definition upload (p : string) : list action := client ["PUT data " +:+ p; "root::0"; ""].
Definition uploaded (p : string) : option (system * world) :=
  acts (upload p) (initial 1 (started toy_configuration), srv_only).

Lemma daemon_confined_witness :
  ∃ s w, uploaded "../new" = Some (s, w) ∧
    nodes w !! ["srv"; "new.tmp"] = Some (File "root::0") ∧
    (∀ k, ¬ in_srv k → nodes w !! k = nodes srv_only !! k).
Proof.
  assert (match uploaded "../new" with
          | Some (_, w) => nodes w !! ["srv"; "new.tmp"] = Some (File "root::0")
          | None => False
          end) as Hend by (vm_compute; reflexivity).
  destruct (uploaded "../new") as [[s w]|] eqn:E; [|destruct Hend].
  exists s, w. split; [reflexivity|]. split; [exact Hend|].
  exact (proj1 (daemon_confined in_srv 1 (started toy_configuration) (upload "../new") srv_only s w
    srv_only_territory ltac:(vm_compute; reflexivity) E)).
Defined.

(** The same upload to [/etc/passwd] opens nothing: no node is new, and the
    session is over. *)
Example passwd_upload_refused :
  match uploaded "/etc/passwd" with
  | Some (s, w) => (bool_decide (nodes w = nodes srv_only), length (gone s))
  | None => (false, 0%nat)
  end = (true, 1%nat).
Proof. vm_compute. reflexivity. Qed.

(** Root may write everything, others [/srv]; the daemon drops to [rsync]. *)
Definition kernel (p : Privileges.credentials) (l : location) : bool :=
  (Privileges.uid p =? 0) || match l with x :: _ => String.eqb x "srv" | [] => false end.
Definition dropping_configuration : Configuration :=
  set_security (set_sec_user "rsync" (security toy_configuration)) toy_configuration.
Definition dropped : RSyncDaemon := started dropping_configuration.
Definition dropped_configuration : Configuration := default new_configuration (d_config dropped).
Definition user_world : world :=
  MkWorld (nodes toy_w) (cwd toy_w) (may_search toy_w) (may_read toy_w) (kernel (process dropped)).

Lemma identity_writes p k :
  identity_of (sec_user (security dropped_configuration)) p → kernel p k = true → in_srv k.
Proof.
  assert (sec_user (security dropped_configuration) = "rsync") as -> by (vm_compute; reflexivity).
  intros [Hid _]. cbn in Hid. injection Hid as Hid. unfold kernel. rewrite <- Hid. cbn.
  destruct k as [|x k]; [done|]. intros ->%String.eqb_eq. by exists k.
Qed.

Lemma user_confined_witness :
  Privileges.uid (process dropped) = 999 ∧
  ∃ s w, acts (upload "../new") (initial 1 dropped, user_world) = Some (s, w) ∧
    nodes w !! ["srv"; "new.tmp"] = Some (File "root::0") ∧
    (∀ k, ¬ in_srv k → nodes w !! k = nodes user_world !! k).
Proof.
  split; [vm_compute; reflexivity|].
  assert (match acts (upload "../new") (initial 1 dropped, user_world) with
          | Some (_, w) => nodes w !! ["srv"; "new.tmp"] = Some (File "root::0")
          | None => False
          end) as Hend by (vm_compute; reflexivity).
  destruct (acts (upload "../new") (initial 1 dropped, user_world)) as [[s w]|] eqn:E; [|destruct Hend].
  exists s, w. split; [reflexivity|]. split; [exact Hend|].
  refine (user_confined in_srv kernel network_up toy_w (toy_daemon dropping_configuration) dropped
    dropped_configuration 1 (upload "../new") user_world s w _ _ _ _ _ _ _ _ identity_writes eq_refl E).
  - intros k k' Hk Hk'. unfold in_srv in *. by etrans.
  - reflexivity.
  - reflexivity.
  - reflexivity.
  - unfold dropped, started. destruct (start network_up toy_w (toy_daemon dropping_configuration)) as [r d] eqn:Es.
    assert (fst (start network_up toy_w (toy_daemon dropping_configuration)) = inr true) as Hr by (vm_compute; reflexivity).
    rewrite Es in Hr. cbn in Hr. by rewrite Hr.
  - unfold dropped_configuration.
    assert (bool_decide (d_config dropped ≠ None) = true) as Hs by (vm_compute; reflexivity).
    apply bool_decide_eq_true in Hs. destruct (d_config dropped); [reflexivity|by destruct Hs].
  - vm_compute. reflexivity.
  - vm_compute. discriminate.
Defined.
